(* ===== verification/_CoqProject ===== *)
-Q . S2P
Prelude.v
Errors.v
Ids.v
Doubles.v
Rounding.v
Clock.v
Model.v
Lifecycle.v
Data.v
Policy.v
Depth.v
Scheduler.v
Synthetic.v
Cpu.v
CudaKernels.v
Cuda.v
Bytes.v
Wire.v
Persistence.v
FileStore.v
Fabric.v
Cycle.v
Authority.v
Interleaving.v
Phases.v
Invariants.v
CycleSpec.v
SyntheticCycle.v
CpuCycle.v
Scenarios.v
Isolation.v
Deadlines.v
Registry.v
WaitFree.v
Accounting.v
Cli.v
Bench.v
Examples.v
Sockets.v
Worker.v
Coordinator.v
Cluster.v
Sessions.v
Driver.v
Net.v
Processes.v
Safety.v
Service.v
Attend.v
Trial.v
