(* ===== verification/Prelude.v ===== *)
(** * Speculation Fabric

    A verification library for the speculative decoding runtime under [src/]:
    the engine and its data, the CPU executors, the wire and archive formats,
    and the distributed tools.

    ** The program

    A request is a token sequence whose authoritative state only a commit may
    advance.  [run_cycle] asks a proposer for candidate continuations, one per
    branch, has a verifier judge each, and commits the accepted tokens of the
    best branch.  The scheduler decides depth, branches and backpressure.  The
    engine runs cycles of many threads under one mutex that it gives up while
    an executor runs.  The distributed tools do the same over TCP: a
    coordinator holds the requests, workers propose and verify, a driver plays
    a scenario.

    ** Files, and what they model

    - [Prelude]: machine integers, little-endian bytes, record update, shared
      tactics and lemmas; it holds no code of the program.
    - [Errors] (error.hpp, error.cpp), [Ids] (id.hpp), [Model] (model.hpp,
      compat.hpp, compat.cpp), [Lifecycle] (lifecycle.hpp, lifecycle.cpp),
      [Data] (state.hpp, candidate.hpp, proposal.hpp, verification.hpp,
      executor.hpp).  [Data] also holds the interface of the executors: the
      records [ProposalExecutor] and [VerificationExecutor] and the classes
      [ProposerContract] and [VerifierContract], against which the theorems on
      the engine are proved.
    - [Clock] (clock.hpp, clock.cpp).  [Doubles]: the IEEE binary64 operations
      the policy code and the tools use.  [Rounding]: their real values and
      rounding errors.  [Policy] (policy.hpp, policy.cpp), [Depth]: what
      [choose_depth] means to compute, in real numbers.  [Scheduler] (the
      scheduler of fabric.hpp and fabric.cpp, request.hpp).
    - [Synthetic] and [Cpu] (cpu_proposer.hpp/.cpp, cpu_verifier.hpp/.cpp): the
      integer model, the two loops, the executors, and their contracts.
    - [CudaKernels] (the device code of cuda_executor.cu): one block of 16
      threads whose reads and writes between barriers are single steps, run
      under a schedule.  [Cuda] (its host code, cuda_executor.hpp): the
      executors, with what the CUDA runtime does as the parameter [Runtime].
    - [Bytes], [Wire] (wire.hpp, wire.cpp), [Persistence] (persistence.hpp,
      persistence.cpp): readers, message codec and framing, archive format.
      [FileStore] (the same files): saving and loading, with what the streams
      do as parameters.
    - [Fabric] (fabric.hpp, fabric.cpp): the engine state as the record
      [Fabric], a request as [RequestState], one definition per public
      operation.  [Cycle]: [run_cycle], one definition per critical section.
    - [Interleaving]: threads inside [run_cycle] and API calls as a step
      relation [sys_step] on systems, one critical section per step.
      [Isolation]: what the operations on one request leave alone.
      [Deadlines]: what a passed deadline does to later cycles.
      [Registry]: an abstract specification of the engine, as a client sees it.
      [WaitFree]: the steps an activation has left, whatever the schedule.
      [Accounting]: the statistics as sums over the requests.
      [SyntheticCycle]: the classes [SyntheticProposer] and
      [SyntheticVerifier], the interface to executors that work on the
      synthetic model, with its CPU and CUDA instances.
    - [Cli] (tools/sf.cpp) and [Bench] (benchmarks/bench.cpp): every command,
      as the text it prints and its exit code, and the parsing of the options.
      [Examples] (examples/): the example programs in the same way.
    - [Worker] (tools/distmsg.h, tools/sf_worker.cpp), [Coordinator]
      (tools/sf_coordinator.cpp), [Driver] (tools/sf_driver.cpp): what the
      distributed tools compute from the bytes they receive, as pure functions.
      [Cluster]: a submission through coordinator and workers.  [Sessions]: the
      states a coordinator can reach, as a step relation.
    - [Sockets] (the frame helpers of tools/sockutil.h): the loops over partial
      sends and receives.  [Net] (its connection helpers): the calls of the
      operating system as the events [netE], processes as interaction trees
      over them, and a program logic for open sockets.  [Processes]: the [main]
      functions of the three tools as such processes, which call the pure
      functions between two events.  [Safety]: the logic applied to them.
    - [Service], [Attend] and [Trial]: processes run to their end over a network
      that works - the worker sent any frames; the coordinator with clients that
      connect, send, leave and come back in any order, their peers answering
      anything; the driver against the coordinator.

    ** Conventions

    An unsigned integer is a [Z] with its wrap written out ([u8], [u32],
    [u64]).  Undefined behaviour - an empty optional read, an index out of
    range, [value()] of an error, [std::clamp] with crossed bounds - is [None]
    of an [option]; an error the code returns is [Failed] of [Result].  State
    is passed explicitly.  A [std::map] is a [gmap], iterated in key order
    where the order shows.  Executors are functions of their input, kept in the
    configuration; the clock is a function of the number of times it was read;
    a worker connection ([Peer]) is a function from the dispatch to what the
    socket did.  What C++ leaves to the platform is the class [Platform].

    Every loop of the code is structural in the model - over a list, or over
    the remaining count of a [for] loop - but one: [recv_loop] takes as fuel
    the number of bytes to read, enough because every [recv] that does not fail
    takes a byte at least, as [frames_survive_segmentation] shows.  The loops of
    the processes need not end: they are [ITree.iter] in [Processes], whose
    safety is proved without assuming that they end, and [Service], [Attend]
    and [Trial] show that they do when a [Shutdown] comes.

    ** What the theorems show

    - Cycles: [run_cycle_correct] (exactly what is committed),
      [run_cycle_total] (no undefined behaviour when executors keep their
      contracts and succeed), [select_winner_correct], [cycle_makes_progress]
      for CPU and CUDA executors in any combination, and [deadlines_are_final].
    - The engine as a whole: [engine_refines_registry], a simulation of the
      abstract registry by any sequence of operations of a client whose request
      identifiers are not null.
    - Concurrency: [run_cycle_refines_critical_sections] relates the
      sequential and the interleaved engine; [authority_monotonic] and
      [reachable_system_ok] ([Authority], [Invariants]) hold for every
      interleaving; [requests_isolated]; [reported_phase_stays_ready]
      ([Phases]); [cycles_wait_free]: an activation ends within [3 + 2 *
      branches] of its own critical sections, and is never undefined, whatever
      the others do; [books_balance]: the counters are what they count.
    - Lifecycle, compatibility, policy and identifiers: the guarded machine,
      its safety and termination, exactness of the compatibility and
      backpressure decisions, bounds of plans, [choose_depth_accurate] (the
      adaptive depth is the intended real number, rounded), uniqueness of
      identifiers across wrap-around.
    - Executors: [propose_correct], [verify_correct] on every branch,
      [draft_quality_decides_acceptance] relating the two, and
      [cuda_propose_matches_cpu], [cuda_verify_matches_cpu]: the CUDA executors
      agree with the CPU's under every fair schedule, or fail safely.
    - Formats: the wire codec is a bijection, frames survive segmentation,
      archives round-trip, corruption of up to four bytes is detected, and a
      torn save is never recovered as another archive ([save_recover]).
    - Distribution: [drive_cycle_correct] for arbitrary peers,
      [cluster_submit_commits] for CPU workers, [coordinator_session_correct]
      and [stale_probes_rejected] in every state a session reaches.
    - Processes: [processes_are_safe] whatever the system answers, with socket
      handles that fit the [int] the tools keep them in ([Safety]);
      [coordinator_serves], whatever the order of connections, reconnections
      and frames, and [worker_serves]: the processes refine the pure functions
      and end; [driver_passes], the scenario with its restart.
    - The tools: [bench_counts_real_work] and [benchmark_reports_work] from
      arguments to output, [commands_correct]; [examples_pass].
    - Where the code departs from its documentation, a theorem states what it
      does: [overlapping_cycles_commit_twice], [retry_does_not_fence_cycles],
      [failed_proposal_is_undefined], [outstanding_limit_is_permanent],
      [cycle_commits_rejected_token], [roll_epoch_fences_nothing].

    [Scenarios], [CpuCycle] and the ends of the component files hold the
    concrete inputs at which the theorems' hypotheses are met.

    ** Not modelled

    The tests and the version constants.  The operating system behind the
    events of [Net], the streams of [FileStore], the ticks of [Clock] and the
    CUDA runtime are parameters: the theorems hold for any answers of theirs,
    or name the answers they need.  One restriction is in the logic of [Net]
    itself: the system hands out socket handles below [2^31]; what the tools do
    with larger ones is in [wide_handle_dropped] and [wide_handle_confused].  Of the CUDA code, the release of device
    memory by the destructors and [cudaDeviceSynchronize] have no visible
    effect and are left out.  Allocation never fails. *)

From Stdlib Require Export ZArith Lia.
From stdpp Require Export base numbers list strings pretty.

#[global] Open Scope Z_scope.

(** ** Machine integers

    A C++ unsigned integer is a [Z] kept in range by an explicit wrap; the
    wrap is a mask so that definitions evaluate quickly. *)

Definition u8 (x : Z) : Z := Z.land x 255.

Definition u32 (x : Z) : Z := Z.land x 4294967295.

Definition u64 (x : Z) : Z := Z.land x 18446744073709551615.

Arguments u8 _ : simpl never.
Arguments u32 _ : simpl never.
Arguments u64 _ : simpl never.

(** [static_cast<int>] of a 32-bit value (two's complement). *)
Definition int32 (x : Z) : Z :=
  let y := u32 x in if y <? 2147483648 then y else y - 4294967296.

Definition is_u8 (x : Z) : Prop := 0 <= x < 256.

Definition is_u32 (x : Z) : Prop := 0 <= x < 4294967296.

Definition is_u64 (x : Z) : Prop := 0 <= x < 18446744073709551616.

(** [vector::size()] as an integer. *)
Definition zlen {A} (l : list A) : Z := Z.of_nat (length l).
Arguments zlen {A} _ : simpl never.

(** ** Little-endian byte strings

    The writers push [(v >> (8 * i)) & 0xFF] for [i = 0 .. n-1]; the readers
    or in [b << (8 * i)]. *)

Definition byte_at (v : Z) (i : nat) : Z :=
  Z.land (Z.shiftr v (8 * Z.of_nat i)) 255.

Definition le_bytes (n : nat) (v : Z) : list Z := map (byte_at v) (seq 0 n).
Arguments le_bytes _ _ : simpl never.

Fixpoint le_value_from (i : nat) (acc : Z) (bs : list Z) : Z :=
  match bs with
  | [] => acc
  | b :: bs' => le_value_from (S i) (Z.lor acc (Z.shiftl b (8 * Z.of_nat i))) bs'
  end.

Definition le_value (bs : list Z) : Z := le_value_from 0 0 bs.
Arguments le_value _ : simpl never.

(** ** Record update

    [r <| field := v |>] replaces one field; [r <| field ::= f |>] maps it.
    A record opts in by an [Etable] instance, its constructor applied to its
    projections; the setter of a projection is computed from that term. *)

Class Etable (R : Type) := eta_of : R -> R.

Class Setter {R T : Type} (proj : R -> T) := set : (T -> T) -> R -> R.
Arguments set {R T} proj {_} _ _ /.

Ltac solve_setter :=
  lazymatch goal with
  | |- @Setter ?R ?T ?proj =>
      let inst := constr:(@eta_of R _) in
      let inst := eval unfold eta_of in inst in
      let body := eval red in inst in
      let f := eval pattern proj in body in
      lazymatch f with
      | ?g proj =>
          let s := eval cbv beta in
            (fun (h : T -> T) (r : R) => g (fun x => h (proj x)) r) in
          exact s
      end
  end.

#[export] Hint Extern 1 (Setter _) => solve_setter : typeclass_instances.

Declare Scope record_scope.
Delimit Scope record_scope with record.
#[global] Open Scope record_scope.

Notation "x <| proj := v |>" := (set proj (fun _ => v) x)
  (at level 1, left associativity, proj at level 9) : record_scope.
Notation "x <| proj ::= f |>" := (set proj f x)
  (at level 1, left associativity, proj at level 9) : record_scope.

(** ** Tactics *)

(** Case analysis on the integer tests of the goal and the hypotheses. *)
Ltac case_ztest :=
  match goal with
  | |- context [?a <? ?b] => destruct (Z.ltb_spec a b)
  | |- context [?a <=? ?b] => destruct (Z.leb_spec a b)
  | |- context [?a =? ?b] => destruct (Z.eqb_spec a b)
  | H : context [?a <? ?b] |- _ => destruct (Z.ltb_spec a b)
  | H : context [?a <=? ?b] |- _ => destruct (Z.leb_spec a b)
  | H : context [?a =? ?b] |- _ => destruct (Z.eqb_spec a b)
  end.

(** Splits the innermost [match] or [if] of the goal. *)
Ltac case_inner t :=
  lazymatch t with
  | context [match ?x with _ => _ end] => case_inner x
  | _ => destruct t eqn:?
  end.
Ltac split_match :=
  match goal with
  | |- context [match ?x with _ => _ end] => case_inner x
  end.

(** [lia] with division and remainder by constants. *)
Ltac zdm := Z.to_euclidean_division_equations; lia.

(** ** Generic lemmas *)

Create HintDb fabric.
Create Rewrite HintDb fabric.

Section Wrap.
  Implicit Types x y : Z.

Lemma u8_mod x : u8 x = x mod 256.
Proof. exact (Z.land_ones x 8 ltac:(lia)). Qed.

Lemma u32_mod x : u32 x = x mod 4294967296.
Proof. exact (Z.land_ones x 32 ltac:(lia)). Qed.

Lemma u64_mod x : u64 x = x mod 18446744073709551616.
Proof. exact (Z.land_ones x 64 ltac:(lia)). Qed.

Lemma u8_range x : is_u8 (u8 x).
Proof. unfold is_u8. rewrite u8_mod. zdm. Qed.

Lemma u32_range x : is_u32 (u32 x).
Proof. unfold is_u32. rewrite u32_mod. zdm. Qed.

Lemma u64_range x : is_u64 (u64 x).
Proof. unfold is_u64. rewrite u64_mod. zdm. Qed.

Lemma u32_small x : is_u32 x -> u32 x = x.
Proof. unfold is_u32. intros. rewrite u32_mod. apply Z.mod_small. lia. Qed.

Lemma u64_small x : is_u64 x -> u64 x = x.
Proof. unfold is_u64. intros. rewrite u64_mod. apply Z.mod_small. lia. Qed.

Lemma u64_u64 x : u64 (u64 x) = u64 x.
Proof. apply u64_small, u64_range. Qed.

Lemma u64_add_l x y : u64 (u64 x + y) = u64 (x + y).
Proof. rewrite !u64_mod. apply Z.add_mod_idemp_l. lia. Qed.

Lemma u64_add_r x y : u64 (x + u64 y) = u64 (x + y).
Proof. rewrite !u64_mod. apply Z.add_mod_idemp_r. lia. Qed.

Lemma is_u8_u32 x : is_u8 x -> is_u32 x.
Proof. unfold is_u8, is_u32. lia. Qed.

Lemma is_u32_u64 x : is_u32 x -> is_u64 x.
Proof. unfold is_u32, is_u64. lia. Qed.
End Wrap.

#[export] Hint Resolve u8_range u32_range u64_range is_u8_u32 is_u32_u64 : fabric.
#[export] Hint Rewrite u64_u64 u64_add_l u64_add_r : fabric.

Lemma is_u8_dec x : Decision (is_u8 x).
Proof. unfold is_u8. apply _. Defined.
#[export] Existing Instance is_u8_dec.

Lemma is_u32_dec x : Decision (is_u32 x).
Proof. unfold is_u32. apply _. Defined.
#[export] Existing Instance is_u32_dec.

Lemma is_u64_dec x : Decision (is_u64 x).
Proof. unfold is_u64. apply _. Defined.
#[export] Existing Instance is_u64_dec.

(** Proves that a concrete value (or list of values) is in range. *)
Ltac in_range := first [ apply (bool_decide_eq_true_1 _); vm_compute; reflexivity | unfold is_u8, is_u32, is_u64 in *; lia ].

(** *** List lengths as integers *)

Section ZLen.
  Context {A : Type}.
  Implicit Types l k : list A.

Lemma zlen_nonneg l : 0 <= zlen l.
Proof. unfold zlen. lia. Qed.

Lemma zlen_nil : zlen (@nil A) = 0.
Proof. reflexivity. Qed.

Lemma zlen_cons x l : zlen (x :: l) = 1 + zlen l.
Proof. unfold zlen. simpl length. lia. Qed.

Lemma zlen_app l k : zlen (l ++ k) = zlen l + zlen k.
Proof. unfold zlen. rewrite length_app. lia. Qed.

Lemma zlen_take n l : zlen (take n l) = Z.min (Z.of_nat n) (zlen l).
Proof. unfold zlen. rewrite length_take. lia. Qed.

Lemma zlen_map {B} (f : A -> B) l : zlen (map f l) = zlen l.
Proof. unfold zlen. by rewrite length_map. Qed.
End ZLen.

#[export] Hint Resolve zlen_nonneg : fabric.
#[export] Hint Rewrite @zlen_nil @zlen_cons @zlen_app @zlen_take @zlen_map : fabric.

(** *** Little-endian encodings *)

(** The value of a byte string by Horner's rule. *)
Fixpoint horner (bs : list Z) : Z :=
  match bs with
  | [] => 0
  | b :: bs' => b + 256 * horner bs'
  end.

Section LittleEndian.

Lemma byte_at_shift v i : byte_at v (S i) = byte_at (v / 256) i.
Proof.
  unfold byte_at. f_equal.
  replace (8 * Z.of_nat (S i)) with (8 + 8 * Z.of_nat i) by lia.
  rewrite <- Z.shiftr_shiftr by lia. f_equal. rewrite Z.shiftr_div_pow2 by lia. reflexivity.
Qed.

Lemma le_bytes_S n v : le_bytes (S n) v = v mod 256 :: le_bytes n (v / 256).
Proof.
  unfold le_bytes. simpl. f_equal.
  - unfold byte_at. rewrite Z.shiftr_0_r. apply (Z.land_ones v 8). lia.
  - rewrite <- seq_shift, map_map. apply map_ext. intros. apply byte_at_shift.
Qed.

Lemma length_le_bytes n v : length (le_bytes n v) = n.
Proof. unfold le_bytes. by rewrite length_map, length_seq. Qed.

Lemma le_bytes_u8 n v : Forall is_u8 (le_bytes n v).
Proof.
  unfold le_bytes. apply Forall_forall. intros b (i & <- & _)%list_elem_of_In%in_map_iff.
  apply u8_range.
Qed.

Lemma testbit_high a i n : 0 <= a < 2 ^ n -> 0 <= n <= i -> Z.testbit a i = false.
Proof.
  intros Ha Hi. apply Z.testbit_false; [lia |].
  rewrite Z.div_small; [reflexivity |].
  pose proof (Z.pow_le_mono_r 2 n i). lia.
Qed.

Lemma lor_shiftl_add a b n :
  0 <= a < 2 ^ n -> 0 <= n -> 0 <= b -> Z.lor a (Z.shiftl b n) = a + b * 2 ^ n.
Proof.
  intros Ha Hn Hb.
  assert (D : Z.land a (Z.shiftl b n) = 0).
  { apply Z.bits_inj'. intros i Hi.
    rewrite Z.land_spec, Z.shiftl_spec, Z.bits_0 by lia.
    destruct (Z.ltb_spec i n).
    - rewrite (Z.testbit_neg_r b) by lia. apply andb_false_r.
    - rewrite (testbit_high a i n) by lia. reflexivity. }
  rewrite <- Z.shiftl_mul_pow2, <- Z.lxor_lor by assumption.
  symmetry. by apply Z.add_nocarry_lxor.
Qed.

Lemma le_value_from_horner bs : Forall is_u8 bs -> forall i acc,
  0 <= acc < 2 ^ (8 * Z.of_nat i) ->
  le_value_from i acc bs = acc + 2 ^ (8 * Z.of_nat i) * horner bs.
Proof.
  induction 1 as [| b bs Hb _ IH]; intros i acc Hacc; simpl; [lia |].
  unfold is_u8 in Hb.
  rewrite lor_shiftl_add by lia.
  assert (E : 2 ^ (8 * Z.of_nat (S i)) = 256 * 2 ^ (8 * Z.of_nat i)).
  { replace (8 * Z.of_nat (S i)) with (8 + 8 * Z.of_nat i) by lia.
    rewrite Z.pow_add_r by lia. reflexivity. }
  rewrite IH by (rewrite E; nia). rewrite E. ring.
Qed.

Lemma le_value_cons b bs :
  is_u8 b -> Forall is_u8 bs -> le_value (b :: bs) = b + 256 * le_value bs.
Proof.
  intros Hb Hbs. unfold le_value.
  rewrite !le_value_from_horner by (try constructor; simpl; auto; lia). simpl. lia.
Qed.

Lemma le_value_le_bytes n v :
  0 <= v < 256 ^ Z.of_nat n -> le_value (le_bytes n v) = v.
Proof.
  revert v. induction n as [| n IH]; intros v Hv.
  - simpl in *. change (0 = v). lia.
  - rewrite le_bytes_S, le_value_cons; [| unfold is_u8; zdm | apply le_bytes_u8].
    replace (256 ^ Z.of_nat (S n)) with (256 * 256 ^ Z.of_nat n) in Hv
      by (rewrite Nat2Z.inj_succ, Z.pow_succ_r by lia; reflexivity).
    rewrite IH by (split; [apply Z.div_pos; lia | apply Z.div_lt_upper_bound; lia]).
    pose proof (Z.div_mod v 256). lia.
Qed.

Lemma le_value_range bs : Forall is_u8 bs -> 0 <= le_value bs < 256 ^ zlen bs.
Proof.
  induction 1 as [| b bs Hb Hbs IH]; [done |].
  rewrite le_value_cons, zlen_cons by done. unfold is_u8 in Hb.
  rewrite Z.pow_add_r by (auto with fabric lia). change (256 ^ 1) with 256. lia.
Qed.

Lemma le_bytes_le_value bs : Forall is_u8 bs -> le_bytes (length bs) (le_value bs) = bs.
Proof.
  induction 1 as [| b bs Hb Hbs IH]; [done |].
  simpl length. rewrite le_bytes_S, le_value_cons by done. unfold is_u8 in Hb.
  rewrite (Z.mul_comm 256), Z.mod_add, Z.mod_small, Z.div_add, Z.div_small by lia.
  by rewrite Z.add_0_l, IH.
Qed.
End LittleEndian.
