(* ===== verification/Errors.v ===== *)
(** * Error model (error.hpp, error.cpp)

    The structured error codes with their numeric values, the name and
    description tables, and [Result<T>], the value-or-error container every
    fallible operation of the library returns. *)

From Stdlib Require Import Sorted.
From S2P Require Import Prelude.

(** [enum class ErrorCode]. *)
Module ErrorCode.

Inductive t : Set :=
| ok
| invalid_argument
| out_of_range
| not_found
| already_exists
| invalid_state
| unknown
| not_implemented
| internal
| capacity_exceeded
| buffer_full
| corrupt
| malformed
| invalid_proposal
| invalid_candidate
| invalid_branch
| invalid_depth
| invalid_token_encoding
| token_count_mismatch
| acceptance_exceeds_candidate
| invalid_verification_result
| empty_candidate
| invalid_authoritative_generation
| invalid_candidate_generation
| candidate_length_mismatch
| invalid_request
| invalid_identity
| invalid_dispatch
| invalid_attempt
| impossible_candidate_depth
| invalid_zero_depth
| stale_epoch
| stale_worker_boot
| stale_attempt
| stale_proposal_generation
| stale_verification_generation
| wrong_base_generation
| duplicate_proposal
| duplicate_verification
| completion_after_cancellation
| completion_after_terminal
| losing_branch_commit
| late_proposal
| late_verification
| stale_authority
| obsolete_worker
| incompatible_model_pair
| incompatible_tokenizer
| incompatible_vocabulary
| incompatible_adapter
| incompatible_protocol
| incompatible_device
| incompatible_executor
| incompatible_state_layout
| incompatible_revision
| incompatible_operator_policy
| reservation_underflow
| double_release
| deadline_exceeded
| budget_exceeded
| backpressure
| request_cancelled
| expired
| proposer_unavailable
| verifier_unavailable
| reservation_leak
| memory_pressure
| shut_down
| rejected
| rolled_back
| superseded
| failed
| already_terminal
| cancelled
| committed
| fully_accepted
| partially_accepted
| retryable_failure
| non_retryable_failure
| proposal_success
| proposal_retryable_failure
| proposal_non_retryable_failure
| verification_success_full_accept
| verification_success_partial_accept
| verification_reject_all
| verification_retryable_failure
| verification_non_retryable_failure
| malformed_frame
| oversized_frame
| truncated_frame
| unknown_protocol_version
| unknown_message_type
| malformed_identity
| invalid_message
| zero_length_message
| invalid_transition
| not_ready
| wrong_state
| state_machine_cycle_overflow.

(** The numeric value of each code. *)
Definition value (c : t) : Z :=
  match c with
  | ok => 0
  | invalid_argument => 1
  | out_of_range => 2
  | not_found => 3
  | already_exists => 4
  | invalid_state => 5
  | unknown => 6
  | not_implemented => 7
  | internal => 8
  | capacity_exceeded => 9
  | buffer_full => 10
  | corrupt => 11
  | malformed => 12
  | invalid_proposal => 100
  | invalid_candidate => 101
  | invalid_branch => 102
  | invalid_depth => 103
  | invalid_token_encoding => 104
  | token_count_mismatch => 105
  | acceptance_exceeds_candidate => 106
  | invalid_verification_result => 107
  | empty_candidate => 108
  | invalid_authoritative_generation => 109
  | invalid_candidate_generation => 110
  | candidate_length_mismatch => 111
  | invalid_request => 112
  | invalid_identity => 113
  | invalid_dispatch => 114
  | invalid_attempt => 115
  | impossible_candidate_depth => 116
  | invalid_zero_depth => 117
  | stale_epoch => 200
  | stale_worker_boot => 201
  | stale_attempt => 202
  | stale_proposal_generation => 203
  | stale_verification_generation => 204
  | wrong_base_generation => 205
  | duplicate_proposal => 206
  | duplicate_verification => 207
  | completion_after_cancellation => 208
  | completion_after_terminal => 209
  | losing_branch_commit => 210
  | late_proposal => 211
  | late_verification => 212
  | stale_authority => 213
  | obsolete_worker => 214
  | incompatible_model_pair => 300
  | incompatible_tokenizer => 301
  | incompatible_vocabulary => 302
  | incompatible_adapter => 303
  | incompatible_protocol => 304
  | incompatible_device => 305
  | incompatible_executor => 306
  | incompatible_state_layout => 307
  | incompatible_revision => 308
  | incompatible_operator_policy => 309
  | reservation_underflow => 400
  | double_release => 401
  | deadline_exceeded => 402
  | budget_exceeded => 403
  | backpressure => 404
  | request_cancelled => 405
  | expired => 406
  | proposer_unavailable => 407
  | verifier_unavailable => 408
  | reservation_leak => 409
  | memory_pressure => 410
  | shut_down => 411
  | rejected => 500
  | rolled_back => 501
  | superseded => 502
  | failed => 503
  | already_terminal => 504
  | cancelled => 505
  | committed => 506
  | fully_accepted => 507
  | partially_accepted => 508
  | retryable_failure => 509
  | non_retryable_failure => 510
  | proposal_success => 600
  | proposal_retryable_failure => 601
  | proposal_non_retryable_failure => 602
  | verification_success_full_accept => 603
  | verification_success_partial_accept => 604
  | verification_reject_all => 605
  | verification_retryable_failure => 606
  | verification_non_retryable_failure => 607
  | malformed_frame => 700
  | oversized_frame => 701
  | truncated_frame => 702
  | unknown_protocol_version => 703
  | unknown_message_type => 704
  | malformed_identity => 705
  | invalid_message => 706
  | zero_length_message => 707
  | invalid_transition => 800
  | not_ready => 801
  | wrong_state => 802
  | state_machine_cycle_overflow => 803
  end.

(** The code with a given numeric value, if any. *)
Definition of_value (z : Z) : option t :=
  if z =? 0 then Some ok else
  if z =? 1 then Some invalid_argument else
  if z =? 2 then Some out_of_range else
  if z =? 3 then Some not_found else
  if z =? 4 then Some already_exists else
  if z =? 5 then Some invalid_state else
  if z =? 6 then Some unknown else
  if z =? 7 then Some not_implemented else
  if z =? 8 then Some internal else
  if z =? 9 then Some capacity_exceeded else
  if z =? 10 then Some buffer_full else
  if z =? 11 then Some corrupt else
  if z =? 12 then Some malformed else
  if z =? 100 then Some invalid_proposal else
  if z =? 101 then Some invalid_candidate else
  if z =? 102 then Some invalid_branch else
  if z =? 103 then Some invalid_depth else
  if z =? 104 then Some invalid_token_encoding else
  if z =? 105 then Some token_count_mismatch else
  if z =? 106 then Some acceptance_exceeds_candidate else
  if z =? 107 then Some invalid_verification_result else
  if z =? 108 then Some empty_candidate else
  if z =? 109 then Some invalid_authoritative_generation else
  if z =? 110 then Some invalid_candidate_generation else
  if z =? 111 then Some candidate_length_mismatch else
  if z =? 112 then Some invalid_request else
  if z =? 113 then Some invalid_identity else
  if z =? 114 then Some invalid_dispatch else
  if z =? 115 then Some invalid_attempt else
  if z =? 116 then Some impossible_candidate_depth else
  if z =? 117 then Some invalid_zero_depth else
  if z =? 200 then Some stale_epoch else
  if z =? 201 then Some stale_worker_boot else
  if z =? 202 then Some stale_attempt else
  if z =? 203 then Some stale_proposal_generation else
  if z =? 204 then Some stale_verification_generation else
  if z =? 205 then Some wrong_base_generation else
  if z =? 206 then Some duplicate_proposal else
  if z =? 207 then Some duplicate_verification else
  if z =? 208 then Some completion_after_cancellation else
  if z =? 209 then Some completion_after_terminal else
  if z =? 210 then Some losing_branch_commit else
  if z =? 211 then Some late_proposal else
  if z =? 212 then Some late_verification else
  if z =? 213 then Some stale_authority else
  if z =? 214 then Some obsolete_worker else
  if z =? 300 then Some incompatible_model_pair else
  if z =? 301 then Some incompatible_tokenizer else
  if z =? 302 then Some incompatible_vocabulary else
  if z =? 303 then Some incompatible_adapter else
  if z =? 304 then Some incompatible_protocol else
  if z =? 305 then Some incompatible_device else
  if z =? 306 then Some incompatible_executor else
  if z =? 307 then Some incompatible_state_layout else
  if z =? 308 then Some incompatible_revision else
  if z =? 309 then Some incompatible_operator_policy else
  if z =? 400 then Some reservation_underflow else
  if z =? 401 then Some double_release else
  if z =? 402 then Some deadline_exceeded else
  if z =? 403 then Some budget_exceeded else
  if z =? 404 then Some backpressure else
  if z =? 405 then Some request_cancelled else
  if z =? 406 then Some expired else
  if z =? 407 then Some proposer_unavailable else
  if z =? 408 then Some verifier_unavailable else
  if z =? 409 then Some reservation_leak else
  if z =? 410 then Some memory_pressure else
  if z =? 411 then Some shut_down else
  if z =? 500 then Some rejected else
  if z =? 501 then Some rolled_back else
  if z =? 502 then Some superseded else
  if z =? 503 then Some failed else
  if z =? 504 then Some already_terminal else
  if z =? 505 then Some cancelled else
  if z =? 506 then Some committed else
  if z =? 507 then Some fully_accepted else
  if z =? 508 then Some partially_accepted else
  if z =? 509 then Some retryable_failure else
  if z =? 510 then Some non_retryable_failure else
  if z =? 600 then Some proposal_success else
  if z =? 601 then Some proposal_retryable_failure else
  if z =? 602 then Some proposal_non_retryable_failure else
  if z =? 603 then Some verification_success_full_accept else
  if z =? 604 then Some verification_success_partial_accept else
  if z =? 605 then Some verification_reject_all else
  if z =? 606 then Some verification_retryable_failure else
  if z =? 607 then Some verification_non_retryable_failure else
  if z =? 700 then Some malformed_frame else
  if z =? 701 then Some oversized_frame else
  if z =? 702 then Some truncated_frame else
  if z =? 703 then Some unknown_protocol_version else
  if z =? 704 then Some unknown_message_type else
  if z =? 705 then Some malformed_identity else
  if z =? 706 then Some invalid_message else
  if z =? 707 then Some zero_length_message else
  if z =? 800 then Some invalid_transition else
  if z =? 801 then Some not_ready else
  if z =? 802 then Some wrong_state else
  if z =? 803 then Some state_machine_cycle_overflow else None.

Lemma of_value_value c : of_value (value c) = Some c.
Proof. by destruct c. Qed.

#[global] Instance value_inj : Inj eq eq value.
Proof. intros a b E. apply (inj Some). by rewrite <- !of_value_value, E. Qed.

#[global] Instance eq_dec : EqDecision t.
Proof.
  intros a b.
  destruct (decide (value a = value b)) as [E | N]; [left; by apply (inj value) | right; congruence].
Defined.

End ErrorCode.

Abbreviation ErrorCode := ErrorCode.t.

(** [struct CodeName], a row of the code table. *)
Record CodeName : Set := mkCodeName {
  cn_code : ErrorCode;
  cn_name : string;
  cn_describe : string
}.

(** [kCodes]: one row per code, in the order of their values. *)
Definition kCodes : list CodeName :=
 [ mkCodeName ErrorCode.ok "ok" "success";
   mkCodeName ErrorCode.invalid_argument "invalid_argument" "invalid argument";
   mkCodeName ErrorCode.out_of_range "out_of_range" "value out of range";
   mkCodeName ErrorCode.not_found "not_found" "entity not found";
   mkCodeName ErrorCode.already_exists "already_exists" "entity already exists";
   mkCodeName ErrorCode.invalid_state "invalid_state" "invalid state";
   mkCodeName ErrorCode.unknown "unknown" "unknown error";
   mkCodeName ErrorCode.not_implemented "not_implemented" "not implemented";
   mkCodeName ErrorCode.internal "internal" "internal error";
   mkCodeName ErrorCode.capacity_exceeded "capacity_exceeded" "capacity exceeded";
   mkCodeName ErrorCode.buffer_full "buffer_full" "buffer full";
   mkCodeName ErrorCode.corrupt "corrupt" "data corrupt";
   mkCodeName ErrorCode.malformed "malformed" "malformed data";
   mkCodeName ErrorCode.invalid_proposal "invalid_proposal" "invalid proposal";
   mkCodeName ErrorCode.invalid_candidate "invalid_candidate" "invalid candidate";
   mkCodeName ErrorCode.invalid_branch "invalid_branch" "invalid branch";
   mkCodeName ErrorCode.invalid_depth "invalid_depth" "invalid speculative depth";
   mkCodeName ErrorCode.invalid_token_encoding "invalid_token_encoding" "invalid token encoding";
   mkCodeName ErrorCode.token_count_mismatch "token_count_mismatch" "token count mismatch";
   mkCodeName ErrorCode.acceptance_exceeds_candidate "acceptance_exceeds_candidate" "accepted count exceeds candidate count";
   mkCodeName ErrorCode.invalid_verification_result "invalid_verification_result" "invalid verification result";
   mkCodeName ErrorCode.empty_candidate "empty_candidate" "empty candidate sequence";
   mkCodeName ErrorCode.invalid_authoritative_generation "invalid_authoritative_generation" "invalid authoritative generation";
   mkCodeName ErrorCode.invalid_candidate_generation "invalid_candidate_generation" "invalid candidate generation";
   mkCodeName ErrorCode.candidate_length_mismatch "candidate_length_mismatch" "candidate length mismatch";
   mkCodeName ErrorCode.invalid_request "invalid_request" "invalid request";
   mkCodeName ErrorCode.invalid_identity "invalid_identity" "invalid identity";
   mkCodeName ErrorCode.invalid_dispatch "invalid_dispatch" "invalid dispatch";
   mkCodeName ErrorCode.invalid_attempt "invalid_attempt" "invalid attempt";
   mkCodeName ErrorCode.impossible_candidate_depth "impossible_candidate_depth" "impossible candidate depth";
   mkCodeName ErrorCode.invalid_zero_depth "invalid_zero_depth" "zero speculative depth is invalid";
   mkCodeName ErrorCode.stale_epoch "stale_epoch" "stale coordinator epoch";
   mkCodeName ErrorCode.stale_worker_boot "stale_worker_boot" "stale worker boot identity";
   mkCodeName ErrorCode.stale_attempt "stale_attempt" "stale attempt";
   mkCodeName ErrorCode.stale_proposal_generation "stale_proposal_generation" "stale proposal generation";
   mkCodeName ErrorCode.stale_verification_generation "stale_verification_generation" "stale verification generation";
   mkCodeName ErrorCode.wrong_base_generation "wrong_base_generation" "wrong authoritative base generation";
   mkCodeName ErrorCode.duplicate_proposal "duplicate_proposal" "duplicate proposal completion";
   mkCodeName ErrorCode.duplicate_verification "duplicate_verification" "duplicate verification completion";
   mkCodeName ErrorCode.completion_after_cancellation "completion_after_cancellation" "completion after cancellation";
   mkCodeName ErrorCode.completion_after_terminal "completion_after_terminal" "completion after terminal state";
   mkCodeName ErrorCode.losing_branch_commit "losing_branch_commit" "commit from losing branch";
   mkCodeName ErrorCode.late_proposal "late_proposal" "late proposal completion";
   mkCodeName ErrorCode.late_verification "late_verification" "late verification completion";
   mkCodeName ErrorCode.stale_authority "stale_authority" "stale authority";
   mkCodeName ErrorCode.obsolete_worker "obsolete_worker" "obsolete worker";
   mkCodeName ErrorCode.incompatible_model_pair "incompatible_model_pair" "incompatible model pair";
   mkCodeName ErrorCode.incompatible_tokenizer "incompatible_tokenizer" "incompatible tokenizer";
   mkCodeName ErrorCode.incompatible_vocabulary "incompatible_vocabulary" "incompatible vocabulary";
   mkCodeName ErrorCode.incompatible_adapter "incompatible_adapter" "incompatible adapter stack";
   mkCodeName ErrorCode.incompatible_protocol "incompatible_protocol" "incompatible candidate protocol";
   mkCodeName ErrorCode.incompatible_device "incompatible_device" "incompatible device";
   mkCodeName ErrorCode.incompatible_executor "incompatible_executor" "incompatible executor";
   mkCodeName ErrorCode.incompatible_state_layout "incompatible_state_layout" "incompatible state layout";
   mkCodeName ErrorCode.incompatible_revision "incompatible_revision" "incompatible model revision";
   mkCodeName ErrorCode.incompatible_operator_policy "incompatible_operator_policy" "incompatible operator policy";
   mkCodeName ErrorCode.reservation_underflow "reservation_underflow" "reservation underflow";
   mkCodeName ErrorCode.double_release "double_release" "double release";
   mkCodeName ErrorCode.deadline_exceeded "deadline_exceeded" "deadline exceeded";
   mkCodeName ErrorCode.budget_exceeded "budget_exceeded" "budget exceeded";
   mkCodeName ErrorCode.backpressure "backpressure" "speculative backpressure";
   mkCodeName ErrorCode.request_cancelled "request_cancelled" "request cancelled";
   mkCodeName ErrorCode.expired "expired" "expired";
   mkCodeName ErrorCode.proposer_unavailable "proposer_unavailable" "proposer unavailable";
   mkCodeName ErrorCode.verifier_unavailable "verifier_unavailable" "verifier unavailable";
   mkCodeName ErrorCode.reservation_leak "reservation_leak" "reservation leak";
   mkCodeName ErrorCode.memory_pressure "memory_pressure" "memory pressure";
   mkCodeName ErrorCode.shut_down "shut_down" "runtime shut down";
   mkCodeName ErrorCode.rejected "rejected" "rejected";
   mkCodeName ErrorCode.rolled_back "rolled_back" "rolled back";
   mkCodeName ErrorCode.superseded "superseded" "superseded";
   mkCodeName ErrorCode.failed "failed" "failed";
   mkCodeName ErrorCode.already_terminal "already_terminal" "already terminal";
   mkCodeName ErrorCode.cancelled "cancelled" "cancelled";
   mkCodeName ErrorCode.committed "committed" "committed";
   mkCodeName ErrorCode.fully_accepted "fully_accepted" "fully accepted";
   mkCodeName ErrorCode.partially_accepted "partially_accepted" "partially accepted";
   mkCodeName ErrorCode.retryable_failure "retryable_failure" "retryable failure";
   mkCodeName ErrorCode.non_retryable_failure "non_retryable_failure" "non-retryable failure";
   mkCodeName ErrorCode.proposal_success "proposal_success" "proposal succeeded";
   mkCodeName ErrorCode.proposal_retryable_failure "proposal_retryable_failure" "proposal retryable failure";
   mkCodeName ErrorCode.proposal_non_retryable_failure "proposal_non_retryable_failure" "proposal non-retryable failure";
   mkCodeName ErrorCode.verification_success_full_accept "verification_success_full_accept" "verification full accept";
   mkCodeName ErrorCode.verification_success_partial_accept "verification_success_partial_accept" "verification partial accept";
   mkCodeName ErrorCode.verification_reject_all "verification_reject_all" "verification rejected all";
   mkCodeName ErrorCode.verification_retryable_failure "verification_retryable_failure" "verification retryable failure";
   mkCodeName ErrorCode.verification_non_retryable_failure "verification_non_retryable_failure" "verification non-retryable failure";
   mkCodeName ErrorCode.malformed_frame "malformed_frame" "malformed frame";
   mkCodeName ErrorCode.oversized_frame "oversized_frame" "oversized frame";
   mkCodeName ErrorCode.truncated_frame "truncated_frame" "truncated frame";
   mkCodeName ErrorCode.unknown_protocol_version "unknown_protocol_version" "unknown protocol version";
   mkCodeName ErrorCode.unknown_message_type "unknown_message_type" "unknown message type";
   mkCodeName ErrorCode.malformed_identity "malformed_identity" "malformed identity";
   mkCodeName ErrorCode.invalid_message "invalid_message" "invalid message";
   mkCodeName ErrorCode.zero_length_message "zero_length_message" "zero-length message";
   mkCodeName ErrorCode.invalid_transition "invalid_transition" "invalid state transition";
   mkCodeName ErrorCode.not_ready "not_ready" "not ready";
   mkCodeName ErrorCode.wrong_state "wrong_state" "wrong state";
   mkCodeName ErrorCode.state_machine_cycle_overflow "state_machine_cycle_overflow" "state machine cycle overflow" ].

(** The linear search of [to_string] and [describe]. *)
Fixpoint find_code (code : ErrorCode) (rows : list CodeName) : option CodeName :=
  match rows with
  | [] => None
  | e :: rest => if decide (cn_code e = code) then Some e else find_code code rest
  end.

Definition ErrorCode_to_string (code : ErrorCode) : string :=
  match find_code code kCodes with Some e => cn_name e | None => "unknown" end.

Definition describe (code : ErrorCode) : string :=
  match find_code code kCodes with Some e => cn_describe e | None => "unknown error" end.

(** [is_terminal(ErrorCode)]. *)
Definition is_terminal (code : ErrorCode) : bool :=
  match code with
  | ErrorCode.committed | ErrorCode.fully_accepted | ErrorCode.partially_accepted
  | ErrorCode.rejected | ErrorCode.rolled_back | ErrorCode.superseded | ErrorCode.failed
  | ErrorCode.cancelled | ErrorCode.expired | ErrorCode.already_terminal => true
  | _ => false
  end.

(** [struct Error]. *)
Record Error : Set := mkError {
  err_code : ErrorCode;
  err_message : string
}.

Definition Error_is_ok (e : Error) : bool := bool_decide (err_code e = ErrorCode.ok).

(** [Result<T>]: [ok] holds the payload, [err] the error. [Result<void>] is
    [Result unit]. *)
Inductive Result (T : Type) : Type :=
| Ok (v : T)
| Failed (e : Error).
Arguments Ok {T} v.
Arguments Failed {T} e.

(** [Result::err(code, message)]. *)
Definition err {T} (code : ErrorCode) (message : string) : Result T :=
  Failed (mkError code message).

Definition has_value {T} (r : Result T) : bool :=
  match r with Ok _ => true | Failed _ => false end.

Definition is_error {T} (r : Result T) : bool := negb (has_value r).

(** [value()]: only defined when [has_value()]; [None] is undefined behaviour. *)
Definition result_value {T} (r : Result T) : option T :=
  match r with Ok v => Some v | Failed _ => None end.

Definition value_or {T} (r : Result T) (fallback : T) : T :=
  match r with Ok v => v | Failed _ => fallback end.

(** [error_code()]: the default error of a successful result is [ok]. *)
Definition error_code {T} (r : Result T) : ErrorCode :=
  match r with Ok _ => ErrorCode.ok | Failed e => err_code e end.

Definition result_map {T U} (r : Result T) (f : T -> U) : Result U :=
  match r with Ok v => Ok (f v) | Failed e => Failed e end.

Definition and_then {T U} (r : Result T) (f : T -> Result U) : Result U :=
  match r with Ok v => f v | Failed e => Failed e end.

Definition or_else {T} (r : Result T) (f : Error -> Result T) : Result T :=
  match r with Ok v => Ok v | Failed e => f e end.

(** The specialisation [Result<void>], a flag and an error. *)
Module VoidResult.

Record t : Set := mk {
  ok_ : bool;
  error_ : Error
}.

Definition ok : t := mk true (mkError ErrorCode.ok EmptyString).

Definition err (code : ErrorCode) (message : string) : t := mk false (mkError code message).

Definition of_error (e : Error) : t := mk false e.

Definition has_value (r : t) : bool := ok_ r.

Definition is_error (r : t) : bool := negb (ok_ r).

Definition error_code (r : t) : ErrorCode := err_code (error_ r).

(** The value of [Result unit] that the model uses for it. *)
Definition result (r : t) : Result unit := if ok_ r then Ok tt else Failed (error_ r).

End VoidResult.

Notation "'let*' x ':=' r 'in' k" := (and_then r (fun x => k))
  (at level 10, x name, r at level 100, k at level 200).

Notation "'let*' ' p ':=' r 'in' k" := (and_then r (fun p => k))
  (at level 10, p strict pattern, r at level 100, k at level 200).

(** ** Lemmas *)

#[export] Instance Ok_inj {T} : Inj eq eq (@Ok T).
Proof. by intros a b [= ->]. Qed.

(** [Result unit] shows what [Result<void>] shows: the constructors correspond,
    and every result a caller can build is described by them. *)
Lemma void_result_faithful :
  VoidResult.result VoidResult.ok = Ok tt /\
  (forall c m, VoidResult.result (VoidResult.err c m) = Errors.err c m) /\
  (forall e, VoidResult.result (VoidResult.of_error e) = Failed e) /\
  (forall r, r = VoidResult.ok \/ VoidResult.ok_ r = false ->
     VoidResult.has_value r = has_value (VoidResult.result r) /\
     VoidResult.is_error r = is_error (VoidResult.result r) /\
     VoidResult.error_code r = error_code (VoidResult.result r)).
Proof.
  split_and!; try done. intros [o e] [[= -> ->] | E]; [done |]. simpl in E. by subst o.
Qed.

Lemma error_code_err {T} c m : error_code (@err T c m) = c.
Proof. reflexivity. Qed.

Lemma and_then_ok {T U} (r : Result T) (f : T -> Result U) u :
  and_then r f = Ok u -> exists v, r = Ok v /\ f v = Ok u.
Proof. destruct r; simpl; [eauto | discriminate]. Qed.

Lemma and_then_assoc {T U V} (r : Result T) (f : T -> Result U) (g : U -> Result V) :
  and_then (and_then r f) g = and_then r (fun v => and_then (f v) g).
Proof. by destruct r. Qed.

#[export] Hint Rewrite @error_code_err @and_then_assoc : fabric.

(** The row found for a code is that code's row. *)
Lemma find_code_Some code rows e :
  find_code code rows = Some e -> cn_code e = code /\ e ∈ rows.
Proof.
  induction rows as [| r rows IH]; simpl; [discriminate |].
  case_decide as E; [intros [= <-] | intros H; apply IH in H as [? ?]];
    split; auto using list_elem_of_here, list_elem_of_further.
Qed.

(** The numeric values of the table's rows. *)
Definition kCodes_values : list Z := map (fun e => ErrorCode.value (cn_code e)) kCodes.

(** The error-code table.
    The name table lists every error code (so [to_string] and [describe]
    never fall through to their default), its rows are in strictly increasing
    order of the numeric value, and two codes with the same name are equal: a
    logged name identifies its code. *)
Theorem kCodes_exhaustive_sorted :
  (forall code, exists e, find_code code kCodes = Some e) /\
  StronglySorted Z.lt kCodes_values /\
  Inj eq eq ErrorCode_to_string.
Proof.
  split; [| split].
  - intros []; vm_compute; eauto.
  - apply Sorted_StronglySorted; [intros ???; lia |].
    unfold kCodes_values. repeat constructor.
  - assert (N : NoDup (map cn_name kCodes)) by (apply (bool_decide_unpack _); by vm_compute).
    assert (Hall : forall c, exists e, find_code c kCodes = Some e /\ ErrorCode_to_string c = cn_name e)
      by (intros []; vm_compute; eauto).
    intros a b E.
    destruct (Hall a) as (ea & [<- Ia]%find_code_Some & Na).
    destruct (Hall b) as (eb & [<- Ib]%find_code_Some & Nb).
    rewrite Na, Nb in E. f_equal.
    apply list_elem_of_lookup in Ia as [i Hi]. apply list_elem_of_lookup in Ib as [j Hj].
    assert (i = j).
    { eapply NoDup_lookup; [exact N | rewrite list_lookup_fmap, Hi; reflexivity |].
      rewrite list_lookup_fmap, Hj. simpl. by rewrite E. }
    naive_solver.
Qed.
