(* ===== verification/Ids.v ===== *)
(** * Strong identifiers (id.hpp)

    [StrongId<Tag>] as a phantom-typed record, so that identifiers of
    different kinds do not mix; the tags and aliases; and [IdFactory], the
    monotonic generator of non-null identifiers. *)

From stdpp Require Import countable.
From S2P Require Import Prelude.

(** ** StrongId *)

(** [template<class Tag, class T = std::uint64_t> class StrongId]. *)
Record StrongId (Tag : Set) : Set := mkId { get : Z }.
Arguments mkId {Tag} get.
Arguments get {Tag} _.

(** The default-constructed identifier. *)
Definition null_id {Tag} : StrongId Tag := mkId 0.

Definition is_null {Tag} (i : StrongId Tag) : bool := get i =? 0.

(** [operator==]. *)
Definition id_eqb {Tag} (a b : StrongId Tag) : bool := get a =? get b.

(** [str()]. *)
Definition id_str {Tag} (i : StrongId Tag) : string := pretty (get i).

(** Tag types for the core identifier kinds. *)
Inductive RequestIdTag : Set := .
Inductive SequenceIdTag : Set := .
Inductive AttemptIdTag : Set := .
Inductive ProposalIdTag : Set := .
Inductive BranchIdTag : Set := .
Inductive VerifierIdTag : Set := .
Inductive WorkerIdTag : Set := .
Inductive WorkerBootIdTag : Set := .
Inductive DispatchIdTag : Set := .
Inductive TenantIdTag : Set := .
Inductive AdapterIdTag : Set := .
Inductive ModelIdTag : Set := .
Inductive RevisionTag : Set := .
Inductive TokenizerIdTag : Set := .
Inductive ExecutorIdTag : Set := .
Inductive DeviceIdTag : Set := .
Inductive ReservationIdTag : Set := .
Inductive StateIdTag : Set := .
Inductive EventIdTag : Set := .
Inductive ProposalGenTag : Set := .
Inductive VerifyGenTag : Set := .
Inductive AuthGenTag : Set := .
Inductive StateGenTag : Set := .
Inductive EpochTag : Set := .
Inductive CycleIdTag : Set := .
Inductive ClientIdTag : Set := .

Abbreviation RequestId := (StrongId RequestIdTag).
Abbreviation SequenceId := (StrongId SequenceIdTag).
Abbreviation AttemptId := (StrongId AttemptIdTag).
Abbreviation ProposalId := (StrongId ProposalIdTag).
Abbreviation BranchId := (StrongId BranchIdTag).
Abbreviation VerifierId := (StrongId VerifierIdTag).
Abbreviation WorkerId := (StrongId WorkerIdTag).
Abbreviation WorkerBootId := (StrongId WorkerBootIdTag).
Abbreviation DispatchId := (StrongId DispatchIdTag).
Abbreviation TenantId := (StrongId TenantIdTag).
Abbreviation AdapterId := (StrongId AdapterIdTag).
Abbreviation ModelId := (StrongId ModelIdTag).
Abbreviation Revision := (StrongId RevisionTag).
Abbreviation TokenizerId := (StrongId TokenizerIdTag).
Abbreviation ExecutorId := (StrongId ExecutorIdTag).
Abbreviation DeviceId := (StrongId DeviceIdTag).
Abbreviation ReservationId := (StrongId ReservationIdTag).
Abbreviation StateId := (StrongId StateIdTag).
Abbreviation EventId := (StrongId EventIdTag).
Abbreviation ProposalGeneration := (StrongId ProposalGenTag).
Abbreviation VerificationGeneration := (StrongId VerifyGenTag).
Abbreviation AuthGeneration := (StrongId AuthGenTag).
Abbreviation StateGeneration := (StrongId StateGenTag).
Abbreviation CoordinatorEpoch := (StrongId EpochTag).
Abbreviation CycleId := (StrongId CycleIdTag).
Abbreviation ClientId := (StrongId ClientIdTag).

(** [using TokenId = std::uint32_t]. *)
Definition TokenId : Set := Z.

#[export] Instance get_inj {Tag} : Inj eq eq (@get Tag).
Proof. intros [a] [b]. simpl. congruence. Qed.

#[export] Instance StrongId_eq_dec {Tag} : EqDecision (StrongId Tag).
Proof. solve_decision. Defined.

#[export] Instance StrongId_countable {Tag} : Countable (StrongId Tag).
Proof. by refine (inj_countable' get mkId _); intros []. Defined.

(** ** IdFactory *)

(** The factory's counter [next_]; the atomic operations are its indivisible
    steps. *)
Record IdFactory : Set := mkIdFactory { next_ : Z }.

(** [IdFactory()]. *)
Definition IdFactory_default : IdFactory := mkIdFactory 1.

(** [IdFactory(T start)]. *)
Definition IdFactory_start (start : Z) : IdFactory :=
  mkIdFactory (if start =? 0 then 1 else start).

(** [std::atomic::fetch_add(1)]: the old value, and the counter advanced. *)
Definition fetch_add1 (f : IdFactory) : Z * IdFactory :=
  (next_ f, mkIdFactory (u64 (next_ f + 1))).

(** [peek()]. *)
Definition peek {Tag} (f : IdFactory) : StrongId Tag := mkId (next_ f).

(** [next()]. *)
Definition next {Tag} (f : IdFactory) : StrongId Tag * IdFactory :=
  let '(v, f) := fetch_add1 f in
  if v =? 0 then
    let '(w, f) := fetch_add1 f in (mkId w, f)
  else (mkId v, f).

(** [std::hash] of an identifier, over the hash of its value. *)
Definition id_hash {Tag} (hash : Z -> Z) (id : StrongId Tag) : Z := hash (get id).

(** [n] successive calls of [next()]. *)
Fixpoint next_n {Tag} (n : nat) (f : IdFactory) : list (StrongId Tag) * IdFactory :=
  match n with
  | O => ([], f)
  | S n =>
      let '(i, f) := next f in
      let '(ids, f) := next_n n f in
      (i :: ids, f)
  end.

(** ** Lemmas *)

Lemma id_eqb_spec {Tag} (a b : StrongId Tag) : reflect (a = b) (id_eqb a b).
Proof. unfold id_eqb. destruct (Z.eqb_spec (get a) (get b)); constructor; [by apply (inj get) | congruence]. Qed.

Lemma id_eqb_refl {Tag} (a : StrongId Tag) : id_eqb a a = true.
Proof. unfold id_eqb. apply Z.eqb_refl. Qed.

#[export] Hint Rewrite @id_eqb_refl : fabric.

(** The identifiers cycle through [1 .. 2^64-1]: position in that cycle. *)
Definition id_slot (f : IdFactory) : Z :=
  if next_ f =? 0 then 0 else next_ f - 1.

Lemma next_slot {Tag} f :
  is_u64 (next_ f) ->
  let '(i, f') := @next Tag f in
  get i = id_slot f + 1 /\ is_u64 (next_ f') /\
  id_slot f' = (id_slot f + 1) mod 18446744073709551615.
Proof.
  intros Hf. unfold is_u64 in *. unfold next, fetch_add1, id_slot. simpl.
  destruct (Z.eqb_spec (next_ f) 0) as [-> | Hn]; simpl; [vm_compute; repeat split; congruence |].
  rewrite u64_mod. destruct (Z.eqb_spec ((next_ f + 1) mod 18446744073709551616) 0); zdm.
Qed.

Lemma next_n_slots {Tag} n : forall f, is_u64 (next_ f) ->
  map get (fst (@next_n Tag n f)) =
  map (fun k => (id_slot f + Z.of_nat k) mod 18446744073709551615 + 1) (seq 0 n).
Proof.
  induction n as [| n IH]; intros f Hf; [done |]. simpl.
  pose proof (@next_slot Tag f Hf) as Hs. destruct (next f) as [i f'].
  destruct Hs as (Hi & Hf' & Hslot).
  specialize (IH f' Hf'). destruct (next_n n f') as [ids f'']. simpl in *.
  f_equal.
  - rewrite Hi, Z.add_0_r. unfold id_slot, is_u64 in *. case_ztest; zdm.
  - rewrite IH, <- seq_shift, map_map. apply map_ext. intros k.
    rewrite Hslot, Z.add_mod_idemp_l by lia. do 2 f_equal. lia.
Qed.

(** C37: IdFactory.  From any counter value, [n] successive calls of [next()]
    return [n] non-null identifiers, and they are pairwise distinct as long as
    [n < 2^64]: the hedge against wrap-around skips exactly the null
    identifier. *)
Theorem IdFactory_unique_non_null {Tag} (f : IdFactory) (n : nat) :
  is_u64 (next_ f) -> Z.of_nat n < 18446744073709551616 ->
  let ids := fst (@next_n Tag n f) in
  length ids = n /\ NoDup ids /\ Forall (fun i => is_null i = false) ids.
Proof.
  intros Hf Hn ids. pose proof (@next_n_slots Tag n f Hf) as E. fold ids in E.
  split; [| split].
  - apply (f_equal length) in E. by rewrite !length_map, length_seq in E.
  - apply (NoDup_fmap_1 get). change (get <$> ids) with (map get ids). rewrite E.
    apply NoDup_fmap_2_strong; [| apply NoDup_seq].
    intros a b Ha%elem_of_seq Hb%elem_of_seq. unfold id_slot. zdm.
  - apply Forall_forall. intros i Hi%(list_elem_of_fmap_2 get).
    change (get <$> ids) with (map get ids) in Hi.
    rewrite E in Hi. apply list_elem_of_In, in_map_iff in Hi as (k & Hk & _).
    unfold is_null. apply Z.eqb_neq. zdm.
Qed.

Definition IdFactory_unique_non_null_witness_factory : IdFactory :=
  mkIdFactory 18446744073709551614.

Lemma IdFactory_unique_non_null_witness :
  let ids := fst (@next_n RequestIdTag 4 IdFactory_unique_non_null_witness_factory) in
  length ids = 4%nat /\ NoDup ids /\ Forall (fun i => is_null i = false) ids.
Proof. apply (IdFactory_unique_non_null _ 4); in_range. Defined.
