(* ===== verification/Doubles.v ===== *)
(** * Double-precision arithmetic

    The C++ [double] of the policy code as IEEE 754 binary64 values: the
    executable specification floats of the Standard Library with 53 bits of
    precision and exponent bound 1024, rounding to nearest, ties to even.
    Also the [<cmath>] and [<algorithm>] functions the policy code calls. *)

From Stdlib Require Import SpecFloat.
From S2P Require Import Prelude.

(** [double]. *)
Definition double : Set := spec_float.

Definition dadd (a b : double) : double := SFadd 53 1024 a b.
Definition dsub (a b : double) : double := SFsub 53 1024 a b.
Definition dmul (a b : double) : double := SFmul 53 1024 a b.
Definition ddiv (a b : double) : double := SFdiv 53 1024 a b.

(** [a < b], [a >= b] and [a > b]; false on a NaN. *)
Definition dltb (a b : double) : bool := SFltb a b.
Definition dgeb (a b : double) : bool := SFleb b a.
Definition dgtb (a b : double) : bool := SFltb b a.

(** [static_cast<double>(n)] of an integer. *)
Definition double_of (n : Z) : double := binary_normalize 53 1024 n 0 false.

(** The literal [n / d], correctly rounded. *)
Definition lit (n d : Z) : double := ddiv (double_of n) (double_of d).

(** [std::min(a, b)] and [std::clamp(v, lo, hi)] on doubles. *)
Definition dmin (a b : double) : double := if dltb b a then b else a.

Definition dclamp (v lo hi : double) : double :=
  if dltb v lo then lo else if dltb hi v then hi else v.

(** What the C++ standard leaves to the implementation: the result of
    [std::llround] when the rounded value is not representable. *)
Class Platform : Set := { llround_unspecified : double -> Z }.

(** The x86-64 conversion instructions return the "integer indefinite". *)
Definition x64_platform : Platform :=
  {| llround_unspecified := fun _ => -9223372036854775808 |}.

(** [std::llround]: to nearest, halfway cases away from zero. *)
Definition llround `{Platform} (x : double) : Z :=
  match x with
  | S754_zero _ => 0
  | S754_finite s m e =>
      let mag :=
        if 0 <=? e then Z.shiftl (Zpos m) e
        else Z.shiftr (Zpos m + Z.shiftl 1 (- e - 1)) (- e) in
      let r := if s then - mag else mag in
      if (-9223372036854775808 <=? r) && (r <? 9223372036854775808) then r
      else llround_unspecified x
  | S754_infinity _ | S754_nan => llround_unspecified x
  end.

Example llround_half : @llround x64_platform (lit 5 2) = 3.
Proof. reflexivity. Qed.

Example lit_tenths : lit 3 10 = S754_finite false 5404319552844595 (-54).
Proof. reflexivity. Qed.
