(* ===== verification/Rounding.v ===== *)
(** * The accuracy of double-precision arithmetic

    The real value of a [double] of Doubles.v and how far each operation is
    from the exact one: rounding is to nearest, so the result of an addition,
    a subtraction, a multiplication, a division or a conversion differs from
    the exact one by at most [2^-53] of it, or by less than the smallest
    positive double.  Comparisons are those of the values, and [llround] is
    within a half. *)

From Stdlib Require Import Reals Lra Psatz SpecFloat.
From S2P Require Import Prelude Doubles.

(** ** Powers of two *)

(** [2^e]. *)
Definition bpow (e : Z) : R := powerRZ 2 e.

Lemma bpow_add e f : bpow (e + f) = (bpow e * bpow f)%R.
Proof. apply powerRZ_add. lra. Qed.

Lemma bpow_pos e : (0 < bpow e)%R.
Proof. apply powerRZ_lt. lra. Qed.

Lemma bpow_opp e : bpow (- e) = (/ bpow e)%R.
Proof. apply powerRZ_neg'. Qed.

Lemma bpow_mul_opp e : (bpow e * bpow (- e) = 1)%R.
Proof. rewrite <- bpow_add. by replace (e + - e) with 0 by lia. Qed.

Lemma bpow_nonneg e : 0 <= e -> bpow e = IZR (2 ^ e).
Proof.
  intros H. unfold bpow. rewrite <- (Z2Nat.id e H). rewrite <- pow_powerRZ.
  by rewrite pow_IZR.
Qed.

Lemma bpow_le e f : e <= f -> (bpow e <= bpow f)%R.
Proof.
  intros H. replace f with (e + (f - e)) by lia. rewrite bpow_add, (bpow_nonneg (f - e)) by lia.
  pose proof (bpow_pos e). assert (IZR 1 <= IZR (2 ^ (f - e)))%R 
    by (apply IZR_le; pose proof (Z.pow_pos_nonneg 2 (f - e) ltac:(lia) ltac:(lia)); lia).
  nra.
Qed.

Lemma bpow_lt e f : e < f -> (bpow e < bpow f)%R.
Proof.
  intros H. apply Rlt_le_trans with (bpow (e + 1)); [| apply bpow_le; lia].
  rewrite bpow_add. pose proof (bpow_pos e). change (bpow 1) with (2 * 1)%R. lra.
Qed.

Lemma bpow_half e : bpow (e - 1) = (bpow e / 2)%R.
Proof. unfold Z.sub. rewrite bpow_add. unfold Rdiv, bpow at 2. simpl. by rewrite Rmult_1_r. Qed.

(** ** The value of a double *)

Definition signed (s : bool) (x : R) : R := if s then (- x)%R else x.

Definition value (x : double) : R :=
  match x with
  | S754_finite s m e => signed s (IZR (Zpos m) * bpow e)
  | _ => 0%R
  end.

(** A finite double in its one normal form. *)
Definition number (x : double) : Prop :=
  match x with
  | S754_zero _ => True
  | S754_finite _ m e =>
      Zpos m < 2 ^ 53 /\ -1074 <= e <= 971 /\ (2 ^ 52 <= Zpos m \/ e = -1074)
  | _ => False
  end.

Lemma digits2_spec m : 2 ^ (Zpos (digits2_pos m) - 1) <= Zpos m < 2 ^ Zpos (digits2_pos m).
Proof.
  induction m as [m IH | m IH |]; cbn [digits2_pos]; [| | done].
  all: rewrite Pos2Z.inj_succ; remember (Zpos (digits2_pos m)) as d eqn:D; rewrite Z.pow_succ_r by lia;
    replace (Z.succ d - 1) with d by lia; pose proof (Z.pow_succ_r 2 (d - 1) ltac:(lia)) as P;
    replace (Z.succ (d - 1)) with d in P by lia; lia.
Qed.

(** ** Rounding *)

(** Where a real lies with respect to the mantissa, round bit and sticky bit
    that approximate it from below. *)
Definition located (r : shr_record) (x : R) : Prop :=
  let m := IZR (shr_m r) in
  match loc_of_shr_record r with
  | loc_Exact => x = m
  | loc_Inexact Lt => (m < x < m + 1 / 2)%R
  | loc_Inexact Eq => (x = m + 1 / 2)%R
  | loc_Inexact Gt => (m + 1 / 2 < x < m + 1)%R
  end.

Lemma located_range r x : located r x -> (IZR (shr_m r) <= x < IZR (shr_m r) + 1)%R.
Proof. unfold located. destruct (loc_of_shr_record r) as [| []]; lra. Qed.

Lemma shr_1_located r x : 0 <= shr_m r -> located r x ->
  located (shr_1 r) (x / 2) /\ shr_m (shr_1 r) = shr_m r / 2.
Proof.
  destruct r as [m r s]. unfold located. cbn [shr_m]. intros M.
  destruct m as [| m | m]; [| | lia].
  - destruct r, s; simpl; intros; (split; [lra | done]).
  - pose proof (Zdiv2_div (Zpos m)) as D.
    destruct m as [m | m |]; simpl in D |- *; rewrite <- D; clear D.
    + rewrite (Pos2Z.inj_xI m), plus_IZR, mult_IZR. destruct r, s; simpl; intros; (split; [lra | done]).
    + rewrite (Pos2Z.inj_xO m), mult_IZR. destruct r, s; simpl; intros; (split; [lra | done]).
    + destruct r, s; simpl; intros; (split; [lra | done]).
Qed.

Lemma shr_iter_located p : forall r x, 0 <= shr_m r -> located r x ->
  located (SpecFloat.iter_pos shr_1 p r) (x * bpow (- Zpos p)) /\ 0 <= shr_m (SpecFloat.iter_pos shr_1 p r).
Proof.
  induction p as [p IH | p IH |]; intros r x M L; cbn [SpecFloat.iter_pos].
  - destruct (shr_1_located r x M L) as [L1 M1].
    destruct (IH (shr_1 r) _ ltac:(rewrite M1; by apply Z.div_pos) L1) as [L2 M2].
    destruct (IH _ _ M2 L2) as [L3 M3]. split; [| exact M3].
    replace (- Zpos p~1) with (- Zpos p + - Zpos p - 1) by lia. rewrite bpow_half, bpow_add.
    by replace (x * (bpow (- Zpos p) * bpow (- Zpos p) / 2))%R
      with (x / 2 * bpow (- Zpos p) * bpow (- Zpos p))%R by field.
  - destruct (IH r x M L) as [L2 M2]. destruct (IH _ _ M2 L2) as [L3 M3]. split; [| exact M3].
    replace (- Zpos p~0) with (- Zpos p + - Zpos p) by lia. rewrite bpow_add.
    by rewrite <- Rmult_assoc.
  - destruct (shr_1_located r x M L) as [L1 M1]. rewrite M1. split; [| by apply Z.div_pos].
    change (- (1)) with (0 - 1). rewrite bpow_half. change (bpow 0) with 1%R.
    by replace (x * (1 / 2))%R with (x / 2)%R by field.
Qed.

Lemma shr_located r e n x : 0 <= shr_m r -> located r (x * bpow (- e)) ->
  located (shr r e n).1 (x * bpow (- (shr r e n).2)) /\ 0 <= shr_m (shr r e n).1 /\
  (shr r e n).2 = e + Z.max 0 n.
Proof.
  intros M L. destruct n as [| p | p]; cbn [shr fst snd]; try (split_and!; [done | done | lia]).
  destruct (shr_iter_located p r _ M L) as [L1 M1]. split_and!; [| done | lia].
  rewrite Z.opp_add_distr, bpow_add. by rewrite <- Rmult_assoc.
Qed.

Lemma Zdigits2_spec m : 0 <= m -> m < 2 ^ Zdigits2 m /\ 0 <= Zdigits2 m /\
  (0 < m -> 1 <= Zdigits2 m /\ 2 ^ (Zdigits2 m - 1) <= m).
Proof.
  intros H. destruct m as [| m | m]; [split_and!; [done | done | lia] | | lia].
  pose proof (digits2_spec m). unfold Zdigits2. split_and!; lia.
Qed.

(** Enough bits to round, or as many as there can be. *)
Definition precise (m e : Z) : Prop := 2 ^ 52 <= m \/ e <= -1074.

Lemma digits_precise m e : 0 <= m -> precise m e ->
  53 <= Zdigits2 m \/ e <= -1074.
Proof.
  intros H [P | P]; [left | by right]. destruct (Zdigits2_spec m H) as (B & N & _).
  destruct (Z.le_gt_cases 53 (Zdigits2 m)); [done |].
  pose proof (Z.pow_le_mono_r 2 (Zdigits2 m) 52 ltac:(lia) ltac:(lia)). lia.
Qed.

(** The first shift leaves 53 bits. *)
Lemma shr_fexp_located m e l x : 0 <= m -> precise m e ->
  located (shr_record_of_loc m l) (x * bpow (- e)) ->
  let '(r, e1) := shr_fexp 53 1024 m e l in
  located r (x * bpow (- e1)) /\ 0 <= shr_m r < 2 ^ 53 /\ -1074 <= e1 /\
  (2 ^ 52 <= shr_m r \/ e1 = -1074).
Proof.
  intros M P L. pose proof (digits_precise m e M P) as Pd.
  destruct (Zdigits2_spec m M) as (B & N & G). set (d := Zdigits2 m) in *.
  assert (M0 : shr_m (shr_record_of_loc m l) = m) by (by destruct l as [| []]).
  unfold shr_fexp, fexp, emin. fold d. set (n := Z.max _ _ - e).
  destruct (shr_located (shr_record_of_loc m l) e n x ltac:(lia) L) as (L1 & M1 & E1).
  destruct (shr _ e n) as [r e1]. cbn [fst snd] in *.
  assert (Ee : e1 = Z.max (d + e - 53) (-1074)) by lia.
  apply located_range in L as [La Lb]. apply located_range in L1 as R1. rewrite M0 in La, Lb.
  assert (X : (x * bpow (- e1) = x * bpow (- e) * bpow (e - e1))%R).
  { rewrite Rmult_assoc, <- bpow_add. do 2 f_equal. lia. }
  pose proof (bpow_pos (e - e1)) as Bp. split_and!; try done; try lia.
  - apply lt_IZR. apply Rle_lt_trans with (x * bpow (- e1))%R; [apply R1 |]. rewrite X.
    apply Rlt_le_trans with (bpow d * bpow (e - e1))%R.
    + apply Rmult_lt_compat_r; [done |]. rewrite (bpow_nonneg d) by done.
      apply Rlt_le_trans with (1 := Lb). rewrite <- plus_IZR. apply IZR_le. lia.
    + rewrite <- bpow_add, <- bpow_nonneg by lia. apply bpow_le. lia.
  - destruct (Z.eq_dec e1 (-1074)) as [| Ne]; [by right | left].
    assert (H0 : 0 < m).
    { destruct (Z.eq_dec m 0) as [E |]; [| lia]. assert (D0 : d = 0) by (unfold d; by rewrite E). lia. }
    destruct (G H0) as [G1 G2]. apply Z.lt_succ_r. apply lt_IZR. rewrite succ_IZR.
    apply Rle_lt_trans with (x * bpow (- e1))%R; [| apply R1]. rewrite X, <- (bpow_nonneg 52) by lia.
    replace 52 with (d - 1 + (e - e1)) by lia. rewrite bpow_add.
    apply Rmult_le_compat_r; [lra |]. rewrite bpow_nonneg by lia.
    apply Rle_trans with (2 := La). by apply IZR_le.
Qed.

Lemma nearest r y : located r y ->
  let n := round_nearest_even (shr_m r) (loc_of_shr_record r) in
  (Rabs (IZR n - y) <= 1 / 2)%R /\ (n = shr_m r \/ n = shr_m r + 1).
Proof.
  unfold located. destruct (loc_of_shr_record r) as [| []]; cbn [round_nearest_even]; intros L;
    try destruct (Z.even (shr_m r));
    (split; [rewrite ?plus_IZR; apply Rabs_le; lra | first [by left | by right]]).
Qed.

(** The second shift only undoes a carry. *)
Lemma carry n e : 0 <= n <= 2 ^ 53 -> -1074 <= e -> 2 ^ 52 <= n \/ e = -1074 ->
  let '(r, e1) := shr_fexp 53 1024 n e loc_Exact in
  (IZR (shr_m r) * bpow e1 = IZR n * bpow e)%R /\ 0 <= shr_m r < 2 ^ 53 /\ -1074 <= e1 <= e + 1 /\
  (2 ^ 52 <= shr_m r \/ e1 = -1074).
Proof.
  intros N He G. destruct (Z.eq_dec n (2 ^ 53)) as [-> | Ne].
  - unfold shr_fexp, fexp, emin. change (Zdigits2 (2 ^ 53)) with 54.
    replace (Z.max _ _ - e) with 1 by lia. cbn [shr]. change (shr_m _) with (2 ^ 52).
    split_and!; [| lia | lia | lia | lia | by left].
    rewrite bpow_add. change (2 ^ 53) with (2 ^ 52 * 2). rewrite mult_IZR.
    change (bpow 1) with (2 * 1)%R. ring.
  - destruct (Zdigits2_spec n (proj1 N)) as (B & D & P). unfold shr_fexp, fexp, emin.
    assert (Dn : Zdigits2 n <= 53).
    { destruct (Z.eq_dec n 0) as [-> |]; [done |]. destruct (P ltac:(lia)) as [P1 P2].
      destruct (Z.le_gt_cases (Zdigits2 n) 53); [done |].
      pose proof (Z.pow_le_mono_r 2 53 (Zdigits2 n - 1) ltac:(lia) ltac:(lia)). lia. }
    destruct (Z.max _ _ - e) as [| p | p] eqn:E; [| lia |]; cbn [shr];
      (split_and!; simpl shr_m; [done | lia | lia | lia | lia | lia]).
Qed.

(** The result of an operation whose exact value is [x]. *)
Definition accurate (y : double) (x : R) : Prop :=
  number y /\ (Rabs (value y - x) <= Rabs x * bpow (-53) + bpow (-1075))%R.

Lemma signed_abs s x : Rabs (signed s x) = Rabs x.
Proof. destruct s; simpl; [apply Rabs_Ropp | done]. Qed.

Lemma signed_sub s x y : (signed s x - signed s y = signed s (x - y))%R.
Proof. destruct s; simpl; lra. Qed.

Lemma round_aux_accurate s m e l x : 0 <= m -> precise m e ->
  located (shr_record_of_loc m l) (x * bpow (- e)) -> (0 <= x < bpow 1000)%R ->
  accurate (binary_round_aux 53 1024 s m e l) (signed s x).
Proof.
  intros M P L X. pose proof (shr_fexp_located m e l x M P L) as F. unfold binary_round_aux.
  destruct (shr_fexp 53 1024 m e l) as [r e1]. destruct F as (L1 & [R0 R1] & E1 & G).
  apply located_range in L1 as B. destruct (nearest r _ L1) as [A C].
  set (n := round_nearest_even _ _) in *.
  assert (Bx : (x = x * bpow (- e1) * bpow e1)%R)
    by (rewrite Rmult_assoc, Rmult_comm with (r1 := bpow (- e1)), bpow_mul_opp; lra).
  assert (Err : (Rabs (IZR n * bpow e1 - x) <= x * bpow (-53) + bpow (-1075))%R).
  { replace (IZR n * bpow e1 - x)%R with ((IZR n - x * bpow (- e1)) * bpow e1)%R by (rewrite Bx at 2; lra).
    rewrite Rabs_mult, (Rabs_right (bpow e1)) by (apply Rle_ge, Rlt_le, bpow_pos).
    apply Rle_trans with (bpow (e1 - 1)); [rewrite bpow_half; pose proof (bpow_pos e1); nra |].
    destruct G as [G | ->]; [| pose proof (bpow_pos (-53)); change (-1074 - 1) with (-1075); nra].
    assert (bpow (e1 - 1) <= x * bpow (-53))%R; [| pose proof (bpow_pos (-1075)); lra].
    replace (e1 - 1) with (52 + e1 + -53) by lia. rewrite bpow_add.
    apply Rmult_le_compat_r; [apply Rlt_le, bpow_pos |]. rewrite Bx, bpow_add.
    apply Rmult_le_compat_r; [apply Rlt_le, bpow_pos |]. rewrite bpow_nonneg by lia.
    apply Rle_trans with (2 := proj1 B). by apply IZR_le. }
  assert (E2 : e1 < 950).
  { destruct G as [G | ->]; [| done]. destruct (Z.lt_ge_cases e1 950) as [| H]; [done |].
    pose proof (bpow_le (50 + 950) (52 + e1) ltac:(lia)) as Q. rewrite (bpow_add 52) in Q.
    change (50 + 950) with 1000 in Q. apply IZR_le in G. rewrite <- bpow_nonneg in G by lia.
    pose proof (bpow_pos e1). destruct B as [B _]. rewrite Bx in X. nra. }
  pose proof (carry n e1 ltac:(lia) E1 ltac:(lia)) as K.
  destruct (shr_fexp 53 1024 n e1 loc_Exact) as [r2 e2]. destruct K as (V & [N0 N1] & [E3 E4] & G2).
  assert (Sx : Rabs (signed s x) = x) by (rewrite signed_abs, Rabs_right; lra).
  unfold accurate. rewrite Sx. destruct (shr_m r2) as [| m2 | m2] eqn:M2; [| | lia].
  - split; [done |]. simpl value. rewrite <- V, Rmult_0_l in Err.
    replace (0 - signed s x)%R with (signed s (0 - x))%R by (destruct s; simpl; lra).
    by rewrite signed_abs.
  - rewrite (proj2 (Z.leb_le e2 _)) by lia. split; [simpl; lia |]. simpl value.
    by rewrite V, signed_sub, signed_abs.
Qed.

(** ** Operations *)

Lemma iter_xO m d : Zpos (Pos.iter xO m d) = Zpos m * 2 ^ Zpos d.
Proof.
  induction d as [| d IH] using Pos.peano_ind; [simpl; lia |].
  rewrite Pos.iter_succ, Pos2Z.inj_xO, IH, Pos2Z.inj_succ, Z.pow_succ_r by lia. lia.
Qed.

Lemma shl_align_spec m e f :
  (shl_align m e f).2 = Z.min e f /\
  Zpos (shl_align m e f).1 = Zpos m * 2 ^ (e - Z.min e f).
Proof.
  unfold shl_align. destruct (f - e) as [| d | d] eqn:E; cbn [fst snd].
  1,2: (rewrite Z.min_l by lia; split; [done | rewrite Z.sub_diag; lia]).
  rewrite Z.min_r by lia. split; [done |]. rewrite iter_xO. do 2 f_equal. lia.
Qed.

Lemma scaled_value m e f : f <= e -> (IZR (m * 2 ^ (e - f)) * bpow f = IZR m * bpow e)%R.
Proof.
  intros H. rewrite mult_IZR, <- bpow_nonneg, Rmult_assoc, <- bpow_add by lia. do 2 f_equal. lia.
Qed.

Lemma located_exact m e : located (shr_record_of_loc m loc_Exact) (IZR m * bpow e * bpow (- e)).
Proof. unfold located. simpl. rewrite Rmult_assoc, bpow_mul_opp. lra. Qed.

Lemma exact_round_accurate s m e : precise (Zpos m) e -> (IZR (Zpos m) * bpow e < bpow 1000)%R ->
  accurate (binary_round_aux 53 1024 s (Zpos m) e loc_Exact) (signed s (IZR (Zpos m) * bpow e)).
Proof.
  intros P X. apply round_aux_accurate; [done | exact P | apply located_exact |]. split; [| exact X].
  apply Rmult_le_pos; [by apply IZR_le | apply Rlt_le, bpow_pos].
Qed.

Lemma binary_round_accurate s m e : (IZR (Zpos m) * bpow e < bpow 1000)%R ->
  accurate (binary_round 53 1024 s m e) (signed s (IZR (Zpos m) * bpow e)).
Proof.
  intros X. unfold binary_round. set (f := fexp _ _ _).
  destruct (shl_align_spec m e f) as [E M]. destruct (shl_align m e f) as [m' e'].
  cbn [fst snd] in *. subst e'.
  rewrite <- (scaled_value (Zpos m) e (Z.min e f)), <- M in X |- * by lia.
  apply exact_round_accurate; [| exact X]. unfold f, fexp, emin in *.
  pose proof (digits2_spec m) as D. set (d := Zpos (digits2_pos m)) in *.
  destruct (Z.le_gt_cases (d + e - 53) (-1074)); [right; lia |].
  destruct (Z.le_gt_cases e (d + e - 53)); [left | left].
  - rewrite M, Z.min_l, Z.sub_diag by lia. pose proof (Z.pow_le_mono_r 2 52 (d - 1)). lia.
  - rewrite M. replace (e - Z.min e _) with (53 - d) by lia.
    replace 52 with (d - 1 + (53 - d)) by lia. rewrite Z.pow_add_r by lia.
    apply Z.mul_le_mono_nonneg_r; [apply Z.pow_nonneg |]; lia.
Qed.

Lemma accurate_zero b : accurate (S754_zero b) 0.
Proof.
  split; [done |]. simpl. rewrite Rminus_0_r, Rabs_R0. pose proof (bpow_pos (-1075)). lra.
Qed.

Lemma normalize_accurate m e b : (Rabs (IZR m * bpow e) < bpow 1000)%R ->
  accurate (binary_normalize 53 1024 m e b) (IZR m * bpow e).
Proof.
  pose proof (bpow_pos e) as P. destruct m as [| m | m]; cbn [binary_normalize]; intros X.
  - rewrite Rmult_0_l. apply accurate_zero.
  - apply (binary_round_accurate false). rewrite Rabs_right in X; [done |].
    apply Rle_ge, Rmult_le_pos; [by apply IZR_le | lra].
  - change (Zneg m) with (- Zpos m) in *. rewrite opp_IZR, <- Ropp_mult_distr_l in *.
    rewrite Rabs_Ropp, Rabs_right in X by (apply Rle_ge, Rmult_le_pos; [by apply IZR_le | lra]).
    by apply (binary_round_accurate true).
Qed.

(** [static_cast<double>] of an integer. *)
Lemma double_of_accurate n : (Rabs (IZR n) < bpow 1000)%R -> accurate (double_of n) (IZR n).
Proof.
  intros X. pose proof (normalize_accurate n 0 false) as A. change (bpow 0) with 1%R in A.
  rewrite Rmult_1_r in A. by apply A.
Qed.

Lemma mul_accurate a b : number a -> number b -> (Rabs (value a * value b) < bpow 1000)%R ->
  accurate (dmul a b) (value a * value b).
Proof.
  destruct a as [sa | | | sa ma ea], b as [sb | | | sb mb eb]; try done; intros A B X.
  1-3: (simpl value; rewrite ?Rmult_0_l, ?Rmult_0_r; apply accurate_zero).
  cbn [value] in *.
  assert (E : (signed sa (IZR (Zpos ma) * bpow ea) * signed sb (IZR (Zpos mb) * bpow eb) =
               signed (xorb sa sb) (IZR (Zpos (ma * mb)) * bpow (ea + eb)))%R).
  { rewrite bpow_add, Pos2Z.inj_mul, mult_IZR. destruct sa, sb; simpl; ring. }
  rewrite E in X |- *. apply exact_round_accurate.
  - destruct A as (_ & Ea & [A | A]), B as (_ & Eb & [B | B]); [left | left | left | right]; nia.
  - rewrite signed_abs in X. apply Rle_lt_trans with (2 := X). apply Rle_abs.
Qed.

Lemma accurate_exact y x : number y -> x = value y -> accurate y x.
Proof.
  intros N ->. split; [exact N |]. rewrite Rminus_diag, Rabs_R0.
  pose proof (bpow_pos (-53)). pose proof (bpow_pos (-1075)). pose proof (Rabs_pos (value y)). nra.
Qed.

(** Two mantissas brought to the smaller exponent. *)
Lemma aligned_value s m e f : f <= e ->
  signed s (IZR (Zpos m) * bpow e) = (IZR (cond_Zopp s (Zpos (shl_align m e f).1)) * bpow f)%R.
Proof.
  intros H. destruct (shl_align_spec m e f) as [_ M]. rewrite M, Z.min_r by done.
  rewrite <- (scaled_value _ e f) by done. destruct s; simpl cond_Zopp; [| done].
  simpl signed. rewrite opp_IZR. ring.
Qed.

Lemma add_accurate a b : number a -> number b -> (Rabs (value a + value b) < bpow 1000)%R ->
  accurate (dadd a b) (value a + value b).
Proof.
  destruct a as [sa | | | sa ma ea], b as [sb | | | sb mb eb]; try done; intros A B X.
  - apply accurate_exact; [by destruct sa, sb |]. destruct sa, sb; simpl; lra.
  - apply accurate_exact; [done |]. cbn [value dadd SFadd]. lra.
  - apply accurate_exact; [done |]. cbn [value dadd SFadd]. lra.
  - cbn [value] in *. rewrite (aligned_value sa ma ea (Z.min ea eb)),
      (aligned_value sb mb eb (Z.min ea eb)), <- Rmult_plus_distr_r, <- plus_IZR in X |- * by lia.
    by apply normalize_accurate.
Qed.

Lemma sub_accurate a b : number a -> number b -> (Rabs (value a - value b) < bpow 1000)%R ->
  accurate (dsub a b) (value a - value b).
Proof.
  destruct a as [sa | | | sa ma ea], b as [sb | | | sb mb eb]; try done; intros A B X.
  - apply accurate_exact; [by destruct sa, sb |]. destruct sa, sb; simpl; lra.
  - apply accurate_exact; [done |]. cbn [value dsub SFsub]. destruct sb; simpl; lra.
  - apply accurate_exact; [done |]. cbn [value dsub SFsub]. lra.
  - cbn [value] in *. rewrite (aligned_value sa ma ea (Z.min ea eb)),
      (aligned_value sb mb eb (Z.min ea eb)), <- Rmult_minus_distr_r, <- minus_IZR in X |- * by lia.
    by apply normalize_accurate.
Qed.

Lemma new_location_located m n q r : 0 < n -> 0 <= r < n -> m = n * q + r ->
  located (shr_record_of_loc q (new_location n r)) (IZR m / IZR n).
Proof.
  intros N R ->. rewrite plus_IZR, mult_IZR.
  assert (Nr : (0 < IZR n)%R) by (by apply IZR_lt).
  assert (E : ((IZR n * IZR q + IZR r) / IZR n = IZR q + IZR r / IZR n)%R) by (field; lra).
  rewrite E. set (t := (IZR r / IZR n)%R).
  assert (T : (IZR r = t * IZR n)%R) by (unfold t; field; lra).
  assert (T0 : r <> 0 -> (0 < t)%R) by (intros; apply Rdiv_pos_pos; [apply IZR_lt; lia | lra]).
  assert (T1 : (t < 1)%R) by (destruct R as [_ R%IZR_lt]; nra).
  assert (Lt : 2 * r < n -> (t < 1 / 2)%R) by (intros Q%IZR_lt; rewrite mult_IZR in Q; nra).
  assert (Eq : 2 * r = n -> (t = 1 / 2)%R).
  { intros Q%(f_equal IZR). rewrite mult_IZR in Q. assert (IZR n * (2 * t - 1) = 0)%R by nra.
    destruct (Rmult_integral _ _ H) as [|]; lra. }
  assert (Gt : n < 2 * r -> (1 / 2 < t)%R) by (intros Q%IZR_lt; rewrite mult_IZR in Q; nra).
  assert (Z0 : r = 0 -> (t = 0)%R) by (intros Z; unfold t; rewrite Z; unfold Rdiv; apply Rmult_0_l).
  clearbody t. unfold new_location.
  destruct (Z.even n) eqn:Ev; unfold new_location_even, new_location_odd;
    destruct (Z.eqb_spec r 0) as [R0 | R0]; try (unfold located; simpl; rewrite Z0 by done; lra);
    specialize (T0 R0).
  - destruct (Z.compare_spec (2 * r) n) as [C | C | C]; unfold located; simpl;
      [apply Eq in C | apply Lt in C | apply Gt in C]; lra.
  - assert (Od : 2 * r <> n) by (intros <-; by rewrite Z.even_mul in Ev).
    destruct (Z.compare_spec (2 * r + 1) n) as [C | C | C]; unfold located; simpl;
      [specialize (Lt ltac:(lia)) | specialize (Lt ltac:(lia)) | specialize (Gt ltac:(lia))]; lra.
Qed.

Lemma div_core ma ea mb eb :
  let '(q, e, l) := SFdiv_core_binary 53 1024 (Zpos ma) ea (Zpos mb) eb in
  0 <= q /\ precise q e /\
  located (shr_record_of_loc q l) (IZR (Zpos ma) * bpow ea / (IZR (Zpos mb) * bpow eb) * bpow (- e)).
Proof.
  unfold SFdiv_core_binary, fexp, emin.
  destruct (Zdigits2_spec (Zpos ma)) as (_ & _ & Da); [lia |]. destruct (Da ltac:(lia)) as [Da0 Da1].
  destruct (Zdigits2_spec (Zpos mb)) as (Db & Db0 & _); [lia |].
  set (da := Zdigits2 (Zpos ma)) in *. set (db := Zdigits2 (Zpos mb)) in *.
  set (e := Z.min _ _). set (s := ea - eb - e). assert (S : 0 <= s) by lia.
  replace (match s with Z0 => Zpos ma | Zpos _ => Z.shiftl (Zpos ma) s | Zneg _ => 0 end)
    with (Zpos ma * 2 ^ s)
    by (destruct s eqn:Es; [lia | by rewrite Z.shiftl_mul_pow2 by lia | lia]).
  set (m := Zpos ma * 2 ^ s). pose proof (Z_div_mod m (Zpos mb) ltac:(lia)) as D.
  destruct (Z.div_eucl m (Zpos mb)) as [q r]. destruct D as [D R].
  assert (M : 0 <= m) by (unfold m; pose proof (Z.pow_nonneg 2 s); nia).
  assert (Q : 0 <= q) by nia. split_and!; [exact Q | |].
  - destruct (Z.le_gt_cases e (-1074)); [by right | left].
    assert (H1 : 2 ^ 52 * 2 ^ db <= m).
    { rewrite <- Z.pow_add_r by lia. apply Z.le_trans with (2 ^ (da - 1) * 2 ^ s).
      - rewrite <- Z.pow_add_r by lia. apply Z.pow_le_mono_r; lia.
      - apply Z.mul_le_mono_nonneg_r; [apply Z.pow_nonneg; lia | done]. }
    assert (H2 : Zpos mb * 2 ^ 52 < Zpos mb * (q + 1)) by lia.
    apply Z.mul_lt_mono_pos_l in H2; lia.
  - pose proof (new_location_located m (Zpos mb) q r ltac:(lia) R D) as L.
    assert (E : (IZR (Zpos ma) * bpow ea / (IZR (Zpos mb) * bpow eb) * bpow (- e) = IZR m / IZR (Zpos mb))%R).
    { unfold m. rewrite mult_IZR, <- bpow_nonneg by done. unfold s.
      replace (ea - eb - e) with (ea + (- eb + - e)) by lia. rewrite !bpow_add, (bpow_opp eb).
      field. split; [pose proof (bpow_pos eb); lra | by apply not_0_IZR]. }
    by rewrite E.
Qed.

Lemma div_accurate a b : number a -> number b -> value b <> 0%R ->
  (Rabs (value a / value b) < bpow 1000)%R -> accurate (ddiv a b) (value a / value b).
Proof.
  destruct a as [sa | | | sa ma ea], b as [sb | | | sb mb eb]; try done; intros A B Nz X.
  - simpl value. unfold Rdiv. rewrite Rmult_0_l. apply accurate_zero.
  - cbn [value] in *. set (x := (IZR (Zpos ma) * bpow ea / (IZR (Zpos mb) * bpow eb))%R).
    assert (P : forall m e, (0 < IZR (Zpos m) * bpow e)%R)
      by (intros; apply Rmult_lt_0_compat; [by apply IZR_lt | apply bpow_pos]).
    assert (E : (signed sa (IZR (Zpos ma) * bpow ea) / signed sb (IZR (Zpos mb) * bpow eb) =
                 signed (xorb sa sb) x)%R).
    { unfold x. pose proof (P mb eb) as Pb. revert Pb. generalize (IZR (Zpos mb) * bpow eb)%R.
      intros y Pb. destruct sa, sb; simpl; field; lra. }
    rewrite E in X |- *. rewrite signed_abs in X. pose proof (div_core ma ea mb eb) as C.
    unfold ddiv. cbn [SFdiv].
    destruct (SFdiv_core_binary _ _ _ _ _ _) as [[q e] l]. destruct C as (Q & Pr & L).
    apply round_aux_accurate; try done. split.
    + apply Rlt_le, Rdiv_pos_pos; apply P.
    + apply Rle_lt_trans with (2 := X). apply Rle_abs.
Qed.

(** ** Comparisons *)

(** A verdict on two reals. *)
Definition compares (c : option comparison) (x y : R) : Prop :=
  match c with
  | Some Lt => (x < y)%R
  | Some Eq => x = y
  | Some Gt => (y < x)%R
  | None => False
  end.

Lemma mantissa_value m e : (0 < IZR (Zpos m) * bpow e)%R.
Proof. apply Rmult_lt_0_compat; [by apply IZR_lt | apply bpow_pos]. Qed.

Lemma exponent_decides ma ea mb eb : Zpos ma < 2 ^ 53 -> 2 ^ 52 <= Zpos mb -> ea < eb ->
  (IZR (Zpos ma) * bpow ea < IZR (Zpos mb) * bpow eb)%R.
Proof.
  intros A%IZR_lt B%IZR_le E. rewrite <- bpow_nonneg in A, B by lia.
  pose proof (bpow_pos ea). pose proof (bpow_pos eb).
  pose proof (bpow_le (53 + ea) (52 + eb) ltac:(lia)) as L. rewrite !bpow_add in L. nra.
Qed.

Lemma magnitude_compares ma ea mb eb :
  number (S754_finite false ma ea) -> number (S754_finite false mb eb) ->
  compares (Some match ea ?= eb with
                 | Lt => Lt | Gt => Gt | Eq => Pos.compare_cont Eq ma mb end)
    (IZR (Zpos ma) * bpow ea) (IZR (Zpos mb) * bpow eb).
Proof.
  intros (A & Ea & A1) (B & Eb & B1). destruct (Z.compare_spec ea eb) as [-> | C | C].
  - pose proof (bpow_pos eb). change (Pos.compare_cont Eq ma mb) with (ma ?= mb)%positive.
    destruct (Pos.compare_spec ma mb) as [-> | D | D]; simpl; [done | |];
      apply Rmult_lt_compat_r; try done; by apply IZR_lt.
  - simpl. destruct B1; [| lia]. by apply exponent_decides.
  - simpl. destruct A1; [| lia]. by apply exponent_decides.
Qed.

Lemma compare_values a b : number a -> number b -> compares (SFcompare a b) (value a) (value b).
Proof.
  destruct a as [sa | | | sa ma ea], b as [sb | | | sb mb eb]; try done; intros A B.
  - pose proof (mantissa_value mb eb). destruct sb; simpl; lra.
  - pose proof (mantissa_value ma ea). destruct sa; simpl; lra.
  - pose proof (mantissa_value ma ea). pose proof (mantissa_value mb eb).
    pose proof (magnitude_compares ma ea mb eb A B) as C. cbn [SFcompare value].
    destruct sa, sb; simpl signed; [| simpl; lra | simpl; lra | exact C].
    destruct (ea ?= eb); [destruct (Pos.compare_cont Eq ma mb) | |]; simpl in *; lra.
Qed.

Lemma dltb_values a b : number a -> number b -> dltb a b = true <-> (value a < value b)%R.
Proof.
  intros A B. pose proof (compare_values a b A B) as C. unfold dltb, SFltb.
  destruct (SFcompare a b) as [[] |]; simpl in C; try done; split; intros; (done || lra).
Qed.

Lemma dgeb_values a b : number a -> number b -> dgeb a b = true <-> (value b <= value a)%R.
Proof.
  intros A B. pose proof (compare_values b a B A) as C. unfold dgeb, SFleb.
  destruct (SFcompare b a) as [[] |]; simpl in C; try done; split; intros; (done || lra).
Qed.

Lemma dmin_values a b : number a -> number b ->
  number (dmin a b) /\ value (dmin a b) = Rmin (value a) (value b).
Proof.
  intros A B. pose proof (dltb_values b a B A) as L. unfold dmin.
  destruct (dltb b a); (split; [done |]).
  - rewrite Rmin_right; [done |]. by apply Rlt_le, L.
  - rewrite Rmin_left; [done |]. apply Rnot_lt_le. by intros ?%L.
Qed.

Lemma dclamp_values v lo hi : number v -> number lo -> number hi -> (value lo <= value hi)%R ->
  number (dclamp v lo hi) /\ value (dclamp v lo hi) = Rmax (value lo) (Rmin (value v) (value hi)).
Proof.
  intros V L H O. pose proof (dltb_values v lo V L) as E1. pose proof (dltb_values hi v H V) as E2.
  unfold dclamp. destruct (dltb v lo); [| destruct (dltb hi v)]; (split; [done |]).
  - destruct E1 as [E1 _]. specialize (E1 eq_refl). unfold Rmax, Rmin. repeat destruct Rle_dec; lra.
  - destruct E2 as [E2 _]. specialize (E2 eq_refl). unfold Rmax, Rmin. repeat destruct Rle_dec; lra.
  - assert (~ (value v < value lo)%R) by (by intros ?%E1). assert (~ (value hi < value v)%R) by (by intros ?%E2).
    unfold Rmax, Rmin. repeat destruct Rle_dec; lra.
Qed.

(** ** [llround] *)

(** The magnitude [llround] computes. *)
Lemma magnitude_near m e :
  let mag := if 0 <=? e then Z.shiftl (Zpos m) e
             else Z.shiftr (Zpos m + Z.shiftl 1 (- e - 1)) (- e) in
  0 <= mag /\ (Rabs (IZR mag - IZR (Zpos m) * bpow e) <= 1 / 2)%R.
Proof.
  cbv zeta. destruct (Z.leb_spec 0 e).
  - split; [by apply Z.shiftl_nonneg |].
    rewrite Z.shiftl_mul_pow2, mult_IZR, <- bpow_nonneg by done. rewrite Rminus_diag, Rabs_R0. lra.
  - split. { apply Z.shiftr_nonneg. pose proof (Z.shiftl_nonneg 1 (- e - 1)). lia. }
    rewrite Z.shiftr_div_pow2, Z.shiftl_mul_pow2, Z.mul_1_l by lia.
    set (k := - e - 1). replace (- e) with (k + 1) by lia. replace e with (- (k + 1)) by lia.
    rewrite Z.pow_add_r, bpow_opp, bpow_nonneg, Z.pow_add_r by lia. change (2 ^ 1) with 2.
    pose proof (Z.pow_pos_nonneg 2 k ltac:(lia) ltac:(lia)) as K. set (p := 2 ^ k) in *.
    pose proof (Z.div_mod (Zpos m + p) (p * 2) ltac:(lia)) as D.
    pose proof (Z.mod_pos_bound (Zpos m + p) (p * 2) ltac:(lia)) as R.
    set (q := (Zpos m + p) / (p * 2)) in *. set (r := (Zpos m + p) mod (p * 2)) in *.
    apply (f_equal IZR) in D. rewrite !plus_IZR, !mult_IZR in D. destruct R as [R0%IZR_le R1%IZR_lt].
    rewrite mult_IZR in R1 |- *. apply IZR_lt in K.
    assert (E : (IZR (Zpos m) * / (IZR p * 2) = IZR q + (IZR r - IZR p) / (IZR p * 2))%R).
    { replace (IZR (Zpos m)) with (IZR p * 2 * IZR q + IZR r - IZR p)%R by lra. field. lra. }
    rewrite E. set (t := ((IZR r - IZR p) / (IZR p * 2))%R).
    assert (T : (t * (IZR p * 2) = IZR r - IZR p)%R) by (unfold t; field; lra).
    apply Rabs_le. split; nra.
Qed.

Lemma llround_near `{Platform} x : number x -> (Rabs (value x) < bpow 62)%R ->
  (Rabs (IZR (llround x) - value x) <= 1 / 2)%R.
Proof.
  destruct x as [s | | | s m e]; try done; intros N B.
  { simpl. rewrite Rminus_0_r, Rabs_R0. lra. }
  cbn [value] in B |- *. rewrite signed_abs, Rabs_right in B by (apply Rle_ge, Rlt_le, mantissa_value).
  cbn [llround]. destruct (magnitude_near m e) as [Lo M]. set (mag := if 0 <=? e then _ else _) in *.
  assert (Hi : mag <= 2 ^ 62).
  { apply Z.lt_succ_r, lt_IZR. rewrite succ_IZR, <- bpow_nonneg by lia.
    pose proof (Rle_abs (IZR mag - IZR (Zpos m) * bpow e)). lra. }
  destruct s; simpl signed; rewrite (proj2 (Z.leb_le _ _)), (proj2 (Z.ltb_lt _ _)) by lia; [| exact M].
  simpl andb. cbv iota. rewrite opp_IZR, <- Rabs_Ropp.
  by replace (- (- IZR mag - - (IZR (Zpos m) * bpow e)))%R with (IZR mag - IZR (Zpos m) * bpow e)%R by lra.
Qed.
