(* ===== verification/Clock.v ===== *)
(** * The clock (clock.hpp, clock.cpp)

    The interface the engine reads time through, and [SteadyClock], which
    converts the ticks of the clocks of the Standard Library to nanoseconds.
    The ticks are what the operating system says: a parameter. *)

From S2P Require Import Prelude.

(** [Clock]: what its readings answer, in the order they are made. *)
Record Clock : Set := mkClock {
  ck_monotonic_ns : nat -> Z;
  ck_wall_ns : nat -> Z
}.

(** [std::chrono::duration_cast<std::chrono::nanoseconds>] of a count of ticks of
    [num / den] seconds. *)
Definition duration_cast_ns (num den count : Z) : Z := Z.quot (count * num * 1000000000) den.

(** [SteadyClock] over the steady and the system clock of the platform: the
    length of their ticks and their successive counts. *)
Definition SteadyClock (num den : Z) (steady : nat -> Z) (wnum wden : Z) (system : nat -> Z) : Clock :=
  mkClock (fun n => u64 (duration_cast_ns num den (steady n)))
          (fun n => u64 (duration_cast_ns wnum wden (system n))).

(** [format_ns]: a duration at the scale that suits it. *)
Definition format_ns (ns : Z) : string :=
  if ns <? 1000 then pretty ns +:+ "ns"
  else if ns <? 1000000 then pretty (ns / 1000) +:+ "us"
  else if ns <? 1000000000 then pretty (ns / 1000000) +:+ "ms"
  else pretty (ns / 1000000000) +:+ "s".

(** The nanoseconds never decrease while they fit 64 bits. *)
Lemma SteadyClock_monotone num den steady wnum wden system i j :
  0 < num -> 0 < den -> 0 <= steady i <= steady j ->
  duration_cast_ns num den (steady j) < 18446744073709551616 ->
  ck_monotonic_ns (SteadyClock num den steady wnum wden system) i <=
  ck_monotonic_ns (SteadyClock num den steady wnum wden system) j.
Proof.
  intros Hn Hd Hs Hb. simpl. assert (M : forall x y, 0 <= x <= y ->
      0 <= duration_cast_ns num den x <= duration_cast_ns num den y).
  { intros x y B. unfold duration_cast_ns. rewrite !Z.quot_div_nonneg by nia. split.
    - apply Z.div_pos; nia.
    - apply Z.div_le_mono; nia. }
  pose proof (M _ _ Hs). rewrite !u64_small by (unfold is_u64; lia). lia.
Qed.
