(* ===== verification/Model.v ===== *)
(** * Model, device and executor identity; model-pair compatibility
    (model.hpp, compat.hpp, compat.cpp)

    The identity records of a speculative participant and the deterministic
    compatibility decision over a pair of them. *)

From S2P Require Import Prelude Ids.

(** ** Identities *)

(** [enum class ExecutorKind]. *)
Module ExecutorKind.

Inductive t : Set := CPU | CUDA | ROCm | Metal | Custom | Unknown.

#[global] Instance eq_dec : EqDecision t.
Proof. solve_decision. Defined.

End ExecutorKind.
Abbreviation ExecutorKind := ExecutorKind.t.

Record DeviceDescriptor : Set := mkDeviceDescriptor {
  dev_id : DeviceId;
  dev_name : string;
  dev_canonical : string;
  dev_kind : ExecutorKind;
  dev_compute_capability_major : Z;
  dev_compute_capability_minor : Z;
  dev_memory_bytes : Z
}.

Definition DeviceDescriptor_default : DeviceDescriptor :=
  mkDeviceDescriptor null_id EmptyString EmptyString ExecutorKind.Unknown 0 0 0.

Record TokenizerIdentity : Set := mkTokenizerIdentity {
  tok_id : TokenizerId;
  tok_name : string;
  tok_vocab_size : Z;
  tok_hash : string
}.

Definition TokenizerIdentity_default : TokenizerIdentity :=
  mkTokenizerIdentity null_id EmptyString 0 EmptyString.

Record ExecutorIdentity : Set := mkExecutorIdentity {
  exec_id : ExecutorId;
  exec_name : string;
  exec_kind : ExecutorKind;
  exec_protocol_version : Z
}.

Definition ExecutorIdentity_default : ExecutorIdentity :=
  mkExecutorIdentity null_id EmptyString ExecutorKind.Unknown 0.

Record AdapterIdentity : Set := mkAdapterIdentity {
  adapter_id : AdapterId;
  adapter_name : string;
  adapter_revision : string
}.

Record ModelIdentity : Set := mkModelIdentity {
  mdl_model : ModelId;
  mdl_revision : Revision;
  mdl_tokenizer : TokenizerIdentity;
  mdl_adapter : option AdapterIdentity;
  mdl_executor : ExecutorIdentity;
  mdl_device : DeviceDescriptor;
  mdl_name : string
}.

Definition ModelIdentity_default : ModelIdentity :=
  mkModelIdentity null_id null_id TokenizerIdentity_default None ExecutorIdentity_default
    DeviceDescriptor_default EmptyString.

#[export] Instance eta_ModelIdentity : Etable ModelIdentity := fun r =>
  mkModelIdentity (mdl_model r) (mdl_revision r) (mdl_tokenizer r) (mdl_adapter r)
    (mdl_executor r) (mdl_device r) (mdl_name r).

(** The defaulted [operator==] of the identity structs. *)
#[export] Instance DeviceDescriptor_eq_dec : EqDecision DeviceDescriptor.
Proof. solve_decision. Defined.
#[export] Instance TokenizerIdentity_eq_dec : EqDecision TokenizerIdentity.
Proof. solve_decision. Defined.
#[export] Instance ExecutorIdentity_eq_dec : EqDecision ExecutorIdentity.
Proof. solve_decision. Defined.
#[export] Instance AdapterIdentity_eq_dec : EqDecision AdapterIdentity.
Proof. solve_decision. Defined.
#[export] Instance ModelIdentity_eq_dec : EqDecision ModelIdentity.
Proof. solve_decision. Defined.

(** [ModelIdentity::canonical()]. *)
Definition canonical (m : ModelIdentity) : string :=
  "model=" +:+ mdl_name m +:+ ";rev=" +:+ id_str (mdl_revision m) +:+
  ";tok=" +:+ tok_name (mdl_tokenizer m) +:+ ";" +:+
  match mdl_adapter m with Some a => "adapter=" +:+ adapter_name a +:+ ";" | None => EmptyString end +:+
  "exec=" +:+ exec_name (mdl_executor m) +:+ ";dev=" +:+ dev_canonical (mdl_device m).

Record ModelPair : Set := mkModelPair { pair_proposer : ModelIdentity; pair_verifier : ModelIdentity }.

Record WorkerDescriptor : Set := mkWorkerDescriptor {
  worker_id : WorkerId;
  worker_boot_id : WorkerBootId;
  worker_role_name : string;
  worker_executor : ExecutorIdentity;
  worker_device : DeviceDescriptor;
  worker_address : string;
  worker_port : Z
}.

(** [enum class WorkerCapability : std::uint8_t], as its bit mask. *)
Definition WorkerCapability : Set := Z.
Definition Capability_None : WorkerCapability := 0.
Definition Capability_Propose : WorkerCapability := 1.
Definition Capability_Verify : WorkerCapability := 2.
Definition Capability_ProposeAndVerify : WorkerCapability :=
  Z.lor Capability_Propose Capability_Verify.

Definition capability_or (a b : WorkerCapability) : WorkerCapability := u8 (Z.lor a b).

Definition has_capability (value cap : WorkerCapability) : bool :=
  negb (Z.land value cap =? 0).

(** ** Compatibility *)

Record ModelPairCompatibilityKey : Set := mkKey {
  key_proposer : ModelIdentity;
  key_verifier : ModelIdentity;
  key_protocol_version : Z
}.

Definition ModelPairCompatibilityKey_default : ModelPairCompatibilityKey :=
  mkKey ModelIdentity_default ModelIdentity_default 1.

Definition key_canonical (k : ModelPairCompatibilityKey) : string :=
  canonical (key_proposer k) +:+ "|" +:+ canonical (key_verifier k) +:+ "|proto=" +:+
  pretty (key_protocol_version k).

Record CompatReason : Set := mkReason {
  reason_code : string;
  reason_detail : string;
  reason_fatal : bool
}.

Record ModelPairCompatibilityDecision : Set := mkDecision {
  compatible : bool;
  cache_hit : bool;
  reasons : list CompatReason;
  canonical_key : string
}.

Definition same_executor_kind (a b : ExecutorKind) : bool :=
  bool_decide (a = b) || bool_decide (a = ExecutorKind.Unknown)
  || bool_decide (b = ExecutorKind.Unknown).

(** The decision under construction: the reasons so far and the flag [ok]. *)
Definition add_reason (code detail : string) (d : list CompatReason * bool)
  : list CompatReason * bool :=
  (d.1 ++ [mkReason code detail true], false).

(** An informative reason leaves the flag alone. *)
Definition add_note (code detail : string) (d : list CompatReason * bool)
  : list CompatReason * bool :=
  (d.1 ++ [mkReason code detail false], d.2).

Definition check_tokenizer (p v : ModelIdentity) (d : list CompatReason * bool) :=
  let pt := mdl_tokenizer p in let vt := mdl_tokenizer v in
  if negb (bool_decide (pt = vt)) then
    add_reason "tokenizer_mismatch"
      ("proposer tokenizer '" +:+ tok_name pt +:+ "' (id " +:+ id_str (tok_id pt) +:+
       ") differs from verifier tokenizer '" +:+ tok_name vt +:+ "' (id " +:+
       id_str (tok_id vt) +:+ ")") d
  else if is_null (tok_id pt) then
    add_reason "missing_tokenizer_identity" "proposer/vocabulary identity is unset" d
  else d.

Definition check_vocabulary (p v : ModelIdentity) (d : list CompatReason * bool) :=
  let pt := mdl_tokenizer p in let vt := mdl_tokenizer v in
  if negb (tok_vocab_size pt =? tok_vocab_size vt) then
    add_reason "vocabulary_size_mismatch"
      (pretty (tok_vocab_size pt) +:+ " != " +:+ pretty (tok_vocab_size vt) +:+
       " vocab entries") d
  else d.

Definition check_adapter (p v : ModelIdentity) (d : list CompatReason * bool) :=
  match mdl_adapter p, mdl_adapter v with
  | Some _, None | None, Some _ =>
      add_reason "adapter_stack_mismatch"
        "one model has an adapter stack and the other does not" d
  | Some a, Some b =>
      if negb (bool_decide (a = b)) then
        add_reason "adapter_mismatch"
          ("adapter '" +:+ adapter_name a +:+ "' differs from '" +:+ adapter_name b +:+ "'") d
      else d
  | None, None => d
  end.

Definition check_executor (p v : ModelIdentity) (d : list CompatReason * bool) :=
  if negb (same_executor_kind (exec_kind (mdl_executor p)) (exec_kind (mdl_executor v))) then
    add_reason "executor_kind_mismatch" "executors run on different device kinds" d
  else d.

Definition check_protocol (p v : ModelIdentity) (d : list CompatReason * bool) :=
  let pv := exec_protocol_version (mdl_executor p) in
  let vv := exec_protocol_version (mdl_executor v) in
  if negb (pv =? 0) && negb (vv =? 0) && negb (pv =? vv) then
    add_reason "candidate_protocol_mismatch"
      ("proposer protocol " +:+ pretty pv +:+ " != verifier protocol " +:+ pretty vv) d
  else d.

Definition check_key_protocol (k : ModelPairCompatibilityKey) (d : list CompatReason * bool) :=
  if key_protocol_version k =? 0 then
    add_reason "missing_protocol_version" "key protocol version must be >= 1" d
  else d.

Definition check_revision (p v : ModelIdentity) (d : list CompatReason * bool) :=
  if id_eqb (mdl_model p) (mdl_model v) && negb (id_eqb (mdl_revision p) (mdl_revision v)) then
    add_note "revision_mismatch"
      ("same model id at different revisions (" +:+ id_str (mdl_revision p) +:+ " vs " +:+
       id_str (mdl_revision v) +:+ "): tokens remain interpretable only if " +:+
       "the vocabulary is unchanged (it is)") d
  else d.

(** [evaluate_compatibility]: the checks in the order of the code. *)
Definition evaluate_compatibility (key : ModelPairCompatibilityKey)
  : ModelPairCompatibilityDecision :=
  let p := key_proposer key in
  let v := key_verifier key in
  let d := ([], true) in
  let d := check_tokenizer p v d in
  let d := check_vocabulary p v d in
  let d := check_adapter p v d in
  let d := check_executor p v d in
  let d := check_protocol p v d in
  let d := check_key_protocol key d in
  let d := check_revision p v d in
  mkDecision d.2 false d.1 (key_canonical key).

(** ** Lemmas *)

(** What the checks require of a pair, stated directly. *)
Record pair_compatible (key : ModelPairCompatibilityKey) : Prop := {
  pc_tokenizer : mdl_tokenizer (key_proposer key) = mdl_tokenizer (key_verifier key);
  pc_tokenizer_set : tok_id (mdl_tokenizer (key_proposer key)) <> null_id;
  pc_adapter : mdl_adapter (key_proposer key) = mdl_adapter (key_verifier key);
  pc_executor :
    let p := exec_kind (mdl_executor (key_proposer key)) in
    let v := exec_kind (mdl_executor (key_verifier key)) in
    p = v \/ p = ExecutorKind.Unknown \/ v = ExecutorKind.Unknown;
  pc_protocol :
    let p := exec_protocol_version (mdl_executor (key_proposer key)) in
    let v := exec_protocol_version (mdl_executor (key_verifier key)) in
    p = 0 \/ v = 0 \/ p = v;
  pc_key_protocol : key_protocol_version key <> 0
}.

(** A decision under construction is sound when the flag is down exactly
    when a fatal reason was recorded. *)
Definition reasons_sound (d : list CompatReason * bool) : Prop :=
  d.2 = negb (existsb reason_fatal d.1).

Lemma add_reason_sound c t d : reasons_sound (add_reason c t d).
Proof. unfold reasons_sound. simpl. rewrite existsb_app. simpl. by rewrite orb_true_r. Qed.

Lemma add_note_sound c t d : reasons_sound d -> reasons_sound (add_note c t d).
Proof. unfold reasons_sound. simpl. intros ->. rewrite existsb_app. simpl. by rewrite !orb_false_r. Qed.

Lemma is_null_iff {Tag} (i : StrongId Tag) : is_null i = true <-> i = null_id.
Proof.
  unfold is_null, null_id. rewrite Z.eqb_eq. destruct i as [z]; simpl.
  split; [by intros -> | by intros [= ->]].
Qed.

#[export] Hint Resolve add_reason_sound add_note_sound : fabric.


Section Checks.
  Context (p v : ModelIdentity).
  Implicit Type d : list CompatReason * bool.

Lemma check_tokenizer_spec d :
  reasons_sound d ->
  reasons_sound (check_tokenizer p v d) /\
  ((check_tokenizer p v d).2 = true <->
   d.2 = true /\ mdl_tokenizer p = mdl_tokenizer v /\ tok_id (mdl_tokenizer p) <> null_id).
Proof.
  intros Hd. unfold check_tokenizer. case_bool_decide as E; simpl.
  - destruct (is_null (tok_id (mdl_tokenizer p))) eqn:N.
    + apply is_null_iff in N. split; [auto with fabric | simpl; naive_solver].
    + split; [done |]. assert (tok_id (mdl_tokenizer p) <> null_id)
        by (rewrite <- is_null_iff; congruence). naive_solver.
  - split; [auto with fabric | simpl; naive_solver].
Qed.

Lemma check_vocabulary_spec d :
  reasons_sound d ->
  reasons_sound (check_vocabulary p v d) /\
  ((check_vocabulary p v d).2 = true <->
   d.2 = true /\ tok_vocab_size (mdl_tokenizer p) = tok_vocab_size (mdl_tokenizer v)).
Proof.
  intros Hd. unfold check_vocabulary.
  destruct (Z.eqb_spec (tok_vocab_size (mdl_tokenizer p)) (tok_vocab_size (mdl_tokenizer v)));
    simpl; split; auto with fabric; naive_solver.
Qed.

Lemma check_adapter_spec d :
  reasons_sound d ->
  reasons_sound (check_adapter p v d) /\
  ((check_adapter p v d).2 = true <-> d.2 = true /\ mdl_adapter p = mdl_adapter v).
Proof.
  intros Hd. unfold check_adapter.
  destruct (mdl_adapter p) as [a|], (mdl_adapter v) as [b|]; simpl;
    try (case_bool_decide; simpl); split; auto with fabric; naive_solver.
Qed.

Lemma same_executor_kind_iff a b :
  same_executor_kind a b = true <->
  a = b \/ a = ExecutorKind.Unknown \/ b = ExecutorKind.Unknown.
Proof. destruct a, b; vm_compute; naive_solver. Qed.

Lemma check_executor_spec d :
  reasons_sound d ->
  reasons_sound (check_executor p v d) /\
  ((check_executor p v d).2 = true <->
   d.2 = true /\
   (exec_kind (mdl_executor p) = exec_kind (mdl_executor v) \/
    exec_kind (mdl_executor p) = ExecutorKind.Unknown \/
    exec_kind (mdl_executor v) = ExecutorKind.Unknown)).
Proof.
  intros Hd. rewrite <- same_executor_kind_iff. unfold check_executor.
  destruct (same_executor_kind _ _); simpl; split; auto with fabric; naive_solver.
Qed.

Lemma check_protocol_spec d :
  reasons_sound d ->
  reasons_sound (check_protocol p v d) /\
  ((check_protocol p v d).2 = true <->
   d.2 = true /\
   (exec_protocol_version (mdl_executor p) = 0 \/ exec_protocol_version (mdl_executor v) = 0 \/
    exec_protocol_version (mdl_executor p) = exec_protocol_version (mdl_executor v))).
Proof.
  intros Hd. unfold check_protocol. cbv zeta.
  destruct (Z.eqb_spec (exec_protocol_version (mdl_executor p)) 0),
    (Z.eqb_spec (exec_protocol_version (mdl_executor v)) 0),
    (Z.eqb_spec (exec_protocol_version (mdl_executor p)) (exec_protocol_version (mdl_executor v)));
    simpl; split; auto with fabric; naive_solver.
Qed.

Lemma check_key_protocol_spec k d :
  reasons_sound d ->
  reasons_sound (check_key_protocol k d) /\
  ((check_key_protocol k d).2 = true <-> d.2 = true /\ key_protocol_version k <> 0).
Proof.
  intros Hd. unfold check_key_protocol.
  destruct (Z.eqb_spec (key_protocol_version k) 0); simpl; split; auto with fabric; naive_solver.
Qed.

Lemma check_revision_spec d :
  reasons_sound d ->
  reasons_sound (check_revision p v d) /\ (check_revision p v d).2 = d.2.
Proof. intros Hd. unfold check_revision. split_match; auto with fabric. Qed.
End Checks.

Lemma evaluate_compatibility_spec key :
  reasons_sound (reasons (evaluate_compatibility key), compatible (evaluate_compatibility key)) /\
  (compatible (evaluate_compatibility key) = true <-> pair_compatible key).
Proof.
  unfold evaluate_compatibility. cbv zeta. simpl reasons. simpl compatible.
  destruct key as [p v n]. simpl key_proposer. simpl key_verifier.
  destruct (check_tokenizer_spec p v ([], true) eq_refl) as [S1 E1].
  destruct (check_vocabulary_spec p v _ S1) as [S2 E2].
  destruct (check_adapter_spec p v _ S2) as [S3 E3].
  destruct (check_executor_spec p v _ S3) as [S4 E4].
  destruct (check_protocol_spec p v _ S4) as [S5 E5].
  destruct (check_key_protocol_spec (mkKey p v n) _ S5) as [S6 E6].
  destruct (check_revision_spec p v _ S6) as [S7 E7].
  split; [exact S7 |]. rewrite E7, E6, E5, E4, E3, E2, E1. simpl.
  split.
  - intros ((((((_ & T & N) & _) & A) & X) & P) & K). by constructor.
  - intros [T N A X P K]. simpl in *. repeat split; auto. by f_equal.
Qed.

(** Compatibility is correct.  The decision accepts a pair exactly when
    the tokenizer identities are equal and set, the adapter stacks are equal,
    the executor kinds agree up to Unknown, the candidate protocols agree when
    both are set, and the key carries a protocol version; it carries a fatal
    reason exactly when it rejects. *)
Theorem evaluate_compatibility_correct key :
  (compatible (evaluate_compatibility key) = true <-> pair_compatible key) /\
  (existsb reason_fatal (reasons (evaluate_compatibility key)) = true <->
   compatible (evaluate_compatibility key) = false).
Proof.
  destruct (evaluate_compatibility_spec key) as [S E]. split; [exact E |].
  unfold reasons_sound in S. cbn [fst snd] in S. rewrite S. by destruct (existsb _ _).
Qed.

(** Swapping the roles of the pair. *)
Definition key_swap (k : ModelPairCompatibilityKey) : ModelPairCompatibilityKey :=
  mkKey (key_verifier k) (key_proposer k) (key_protocol_version k).

(** The decision is symmetric in the two models of the pair. *)
Theorem evaluate_compatibility_symmetric key :
  compatible (evaluate_compatibility (key_swap key)) =
  compatible (evaluate_compatibility key).
Proof.
  apply eq_true_iff_eq.
  rewrite !(proj2 (evaluate_compatibility_spec _)).
  split; intros [H1 H2 H3 H4 H5 H6]; simpl in *; constructor; simpl; congruence || naive_solver.
Qed.
