(* ===== verification/Lifecycle.v ===== *)
(** * The speculative cycle state machine (lifecycle.hpp, lifecycle.cpp)

    The phases and events of one speculative cycle, the canonical transition
    table, and the guarded machine that applies it. *)

From S2P Require Import Prelude Errors.

(** [enum class SpeculativePhase]. *)
Module SpeculativePhase.

Inductive t : Set :=
| Ready
| ProposalPlanned
| ProposalReserved
| ProposalDispatched
| ProposalRunning
| ProposalProduced
| VerificationPlanned
| VerificationReserved
| VerificationDispatched
| VerificationRunning
| Verified
| PartiallyAccepted
| FullyAccepted
| Rejected
| RolledBack
| CancelRequested
| Cancelled
| RetryPending
| Superseded
| Expired
| Failed
| Committed
| Terminal.

(** The numeric value of each enumerator. *)
Definition value (x : t) : nat :=
  match x with
  | Ready => 0
  | ProposalPlanned => 1
  | ProposalReserved => 2
  | ProposalDispatched => 3
  | ProposalRunning => 4
  | ProposalProduced => 5
  | VerificationPlanned => 6
  | VerificationReserved => 7
  | VerificationDispatched => 8
  | VerificationRunning => 9
  | Verified => 10
  | PartiallyAccepted => 11
  | FullyAccepted => 12
  | Rejected => 13
  | RolledBack => 14
  | CancelRequested => 15
  | Cancelled => 16
  | RetryPending => 17
  | Superseded => 18
  | Expired => 19
  | Failed => 20
  | Committed => 21
  | Terminal => 22
  end%nat.

(** The enumerators in order. *)
Definition all : list t :=
  [Ready; ProposalPlanned; ProposalReserved; ProposalDispatched; ProposalRunning; ProposalProduced; VerificationPlanned; VerificationReserved; VerificationDispatched; VerificationRunning; Verified; PartiallyAccepted; FullyAccepted; Rejected; RolledBack; CancelRequested; Cancelled; RetryPending; Superseded; Expired; Failed; Committed; Terminal].

#[global] Instance eq_dec : EqDecision t.
Proof. solve_decision. Defined.

End SpeculativePhase.
Abbreviation SpeculativePhase := SpeculativePhase.t.

(** [enum class SpeculationEvent]. *)
Module SpeculationEvent.

Inductive t : Set :=
| Null
| PlanProposal
| ReserveProposal
| DispatchProposal
| ProposalStarted
| ProposalFinished
| ProposalRetry
| ProposalFail
| PlanVerification
| ReserveVerification
| DispatchVerification
| VerificationStarted
| VerificationFinished
| AcceptPartial
| AcceptFull
| RejectAll
| Commit
| Rollback
| Cancel
| Retry
| Supersede
| Expire
| Fail
| EnterTerminal.

(** The numeric value of each enumerator. *)
Definition value (x : t) : nat :=
  match x with
  | Null => 0
  | PlanProposal => 1
  | ReserveProposal => 2
  | DispatchProposal => 3
  | ProposalStarted => 4
  | ProposalFinished => 5
  | ProposalRetry => 6
  | ProposalFail => 7
  | PlanVerification => 8
  | ReserveVerification => 9
  | DispatchVerification => 10
  | VerificationStarted => 11
  | VerificationFinished => 12
  | AcceptPartial => 13
  | AcceptFull => 14
  | RejectAll => 15
  | Commit => 16
  | Rollback => 17
  | Cancel => 18
  | Retry => 19
  | Supersede => 20
  | Expire => 21
  | Fail => 22
  | EnterTerminal => 23
  end%nat.

(** The enumerators in order. *)
Definition all : list t :=
  [Null; PlanProposal; ReserveProposal; DispatchProposal; ProposalStarted; ProposalFinished; ProposalRetry; ProposalFail; PlanVerification; ReserveVerification; DispatchVerification; VerificationStarted; VerificationFinished; AcceptPartial; AcceptFull; RejectAll; Commit; Rollback; Cancel; Retry; Supersede; Expire; Fail; EnterTerminal].

#[global] Instance eq_dec : EqDecision t.
Proof. solve_decision. Defined.

End SpeculationEvent.
Abbreviation SpeculationEvent := SpeculationEvent.t.

(** [kPhaseNames] and [kEventNames]. *)
Definition kPhaseNames : list string :=
  ["Ready";
   "ProposalPlanned";
   "ProposalReserved";
   "ProposalDispatched";
   "ProposalRunning";
   "ProposalProduced";
   "VerificationPlanned";
   "VerificationReserved";
   "VerificationDispatched";
   "VerificationRunning";
   "Verified";
   "PartiallyAccepted";
   "FullyAccepted";
   "Rejected";
   "RolledBack";
   "CancelRequested";
   "Cancelled";
   "RetryPending";
   "Superseded";
   "Expired";
   "Failed";
   "Committed";
   "Terminal"].

Definition kEventNames : list string :=
  ["Null";
   "PlanProposal";
   "ReserveProposal";
   "DispatchProposal";
   "ProposalStarted";
   "ProposalFinished";
   "ProposalRetry";
   "ProposalFail";
   "PlanVerification";
   "ReserveVerification";
   "DispatchVerification";
   "VerificationStarted";
   "VerificationFinished";
   "AcceptPartial";
   "AcceptFull";
   "RejectAll";
   "Commit";
   "Rollback";
   "Cancel";
   "Retry";
   "Supersede";
   "Expire";
   "Fail";
   "EnterTerminal"].

(** [struct Transition]. *)
Record Transition : Set := mkTransition {
  tr_from : SpeculativePhase;
  tr_event : SpeculationEvent;
  tr_to : SpeculativePhase
}.

(** [kTransitions], the canonical transition table. *)
Definition kTransitions : list Transition :=
  let T := mkTransition in
  [ T SpeculativePhase.Ready SpeculationEvent.PlanProposal SpeculativePhase.ProposalPlanned;
    T SpeculativePhase.ProposalPlanned SpeculationEvent.ReserveProposal SpeculativePhase.ProposalReserved;
    T SpeculativePhase.ProposalReserved SpeculationEvent.DispatchProposal SpeculativePhase.ProposalDispatched;
    T SpeculativePhase.ProposalDispatched SpeculationEvent.ProposalStarted SpeculativePhase.ProposalRunning;
    T SpeculativePhase.ProposalRunning SpeculationEvent.ProposalFinished SpeculativePhase.ProposalProduced;
    T SpeculativePhase.ProposalRunning SpeculationEvent.ProposalRetry SpeculativePhase.RetryPending;
    T SpeculativePhase.ProposalRunning SpeculationEvent.ProposalFail SpeculativePhase.Failed;
    T SpeculativePhase.ProposalProduced SpeculationEvent.PlanVerification SpeculativePhase.VerificationPlanned;
    T SpeculativePhase.VerificationPlanned SpeculationEvent.ReserveVerification SpeculativePhase.VerificationReserved;
    T SpeculativePhase.VerificationReserved SpeculationEvent.DispatchVerification SpeculativePhase.VerificationDispatched;
    T SpeculativePhase.VerificationDispatched SpeculationEvent.VerificationStarted SpeculativePhase.VerificationRunning;
    T SpeculativePhase.VerificationRunning SpeculationEvent.VerificationFinished SpeculativePhase.Verified;
    T SpeculativePhase.Verified SpeculationEvent.AcceptPartial SpeculativePhase.PartiallyAccepted;
    T SpeculativePhase.Verified SpeculationEvent.AcceptFull SpeculativePhase.FullyAccepted;
    T SpeculativePhase.Verified SpeculationEvent.RejectAll SpeculativePhase.Rejected;
    T SpeculativePhase.VerificationRunning SpeculationEvent.ProposalRetry SpeculativePhase.RetryPending;
    T SpeculativePhase.VerificationRunning SpeculationEvent.ProposalFail SpeculativePhase.Failed;
    T SpeculativePhase.FullyAccepted SpeculationEvent.Commit SpeculativePhase.Committed;
    T SpeculativePhase.PartiallyAccepted SpeculationEvent.Commit SpeculativePhase.Committed;
    T SpeculativePhase.PartiallyAccepted SpeculationEvent.Rollback SpeculativePhase.RolledBack;
    T SpeculativePhase.Rejected SpeculationEvent.Rollback SpeculativePhase.RolledBack;
    T SpeculativePhase.RolledBack SpeculationEvent.Retry SpeculativePhase.Ready;
    T SpeculativePhase.RetryPending SpeculationEvent.Retry SpeculativePhase.Ready;
    T SpeculativePhase.Ready SpeculationEvent.Cancel SpeculativePhase.CancelRequested;
    T SpeculativePhase.ProposalPlanned SpeculationEvent.Cancel SpeculativePhase.CancelRequested;
    T SpeculativePhase.ProposalReserved SpeculationEvent.Cancel SpeculativePhase.CancelRequested;
    T SpeculativePhase.ProposalDispatched SpeculationEvent.Cancel SpeculativePhase.CancelRequested;
    T SpeculativePhase.ProposalRunning SpeculationEvent.Cancel SpeculativePhase.CancelRequested;
    T SpeculativePhase.ProposalProduced SpeculationEvent.Cancel SpeculativePhase.CancelRequested;
    T SpeculativePhase.VerificationPlanned SpeculationEvent.Cancel SpeculativePhase.CancelRequested;
    T SpeculativePhase.VerificationDispatched SpeculationEvent.Cancel SpeculativePhase.CancelRequested;
    T SpeculativePhase.VerificationRunning SpeculationEvent.Cancel SpeculativePhase.CancelRequested;
    T SpeculativePhase.CancelRequested SpeculationEvent.Expire SpeculativePhase.Cancelled;
    T SpeculativePhase.Ready SpeculationEvent.Supersede SpeculativePhase.Superseded;
    T SpeculativePhase.ProposalPlanned SpeculationEvent.Supersede SpeculativePhase.Superseded;
    T SpeculativePhase.ProposalReserved SpeculationEvent.Supersede SpeculativePhase.Superseded;
    T SpeculativePhase.ProposalDispatched SpeculationEvent.Supersede SpeculativePhase.Superseded;
    T SpeculativePhase.ProposalRunning SpeculationEvent.Supersede SpeculativePhase.Superseded;
    T SpeculativePhase.ProposalProduced SpeculationEvent.Supersede SpeculativePhase.Superseded;
    T SpeculativePhase.VerificationPlanned SpeculationEvent.Supersede SpeculativePhase.Superseded;
    T SpeculativePhase.VerificationDispatched SpeculationEvent.Supersede SpeculativePhase.Superseded;
    T SpeculativePhase.VerificationRunning SpeculationEvent.Supersede SpeculativePhase.Superseded;
    T SpeculativePhase.Verified SpeculationEvent.Supersede SpeculativePhase.Superseded;
    T SpeculativePhase.RetryPending SpeculationEvent.Supersede SpeculativePhase.Superseded;
    T SpeculativePhase.Ready SpeculationEvent.Expire SpeculativePhase.Expired;
    T SpeculativePhase.ProposalPlanned SpeculationEvent.Expire SpeculativePhase.Expired;
    T SpeculativePhase.ProposalReserved SpeculationEvent.Expire SpeculativePhase.Expired;
    T SpeculativePhase.ProposalDispatched SpeculationEvent.Expire SpeculativePhase.Expired;
    T SpeculativePhase.ProposalRunning SpeculationEvent.Expire SpeculativePhase.Expired;
    T SpeculativePhase.ProposalProduced SpeculationEvent.Expire SpeculativePhase.Expired;
    T SpeculativePhase.VerificationPlanned SpeculationEvent.Expire SpeculativePhase.Expired;
    T SpeculativePhase.VerificationDispatched SpeculationEvent.Expire SpeculativePhase.Expired;
    T SpeculativePhase.VerificationRunning SpeculationEvent.Expire SpeculativePhase.Expired;
    T SpeculativePhase.RetryPending SpeculationEvent.Expire SpeculativePhase.Expired;
    T SpeculativePhase.Ready SpeculationEvent.Fail SpeculativePhase.Failed;
    T SpeculativePhase.ProposalPlanned SpeculationEvent.Fail SpeculativePhase.Failed;
    T SpeculativePhase.ProposalReserved SpeculationEvent.Fail SpeculativePhase.Failed;
    T SpeculativePhase.ProposalDispatched SpeculationEvent.Fail SpeculativePhase.Failed;
    T SpeculativePhase.ProposalRunning SpeculationEvent.Fail SpeculativePhase.Failed;
    T SpeculativePhase.VerificationRunning SpeculationEvent.Fail SpeculativePhase.Failed;
    T SpeculativePhase.PartiallyAccepted SpeculationEvent.Fail SpeculativePhase.Failed;
    T SpeculativePhase.Rejected SpeculationEvent.Fail SpeculativePhase.Failed;
    T SpeculativePhase.Committed SpeculationEvent.EnterTerminal SpeculativePhase.Terminal;
    T SpeculativePhase.RolledBack SpeculationEvent.EnterTerminal SpeculativePhase.Terminal;
    T SpeculativePhase.Cancelled SpeculationEvent.EnterTerminal SpeculativePhase.Terminal;
    T SpeculativePhase.Superseded SpeculationEvent.EnterTerminal SpeculativePhase.Terminal;
    T SpeculativePhase.Expired SpeculationEvent.EnterTerminal SpeculativePhase.Terminal;
    T SpeculativePhase.Failed SpeculationEvent.EnterTerminal SpeculativePhase.Terminal ].

Definition phase_to_string (phase : SpeculativePhase) : string :=
  default "Unknown" (kPhaseNames !! SpeculativePhase.value phase).

Definition event_to_string (event : SpeculationEvent) : string :=
  default "Unknown" (kEventNames !! SpeculationEvent.value event).

Definition is_terminal_phase (phase : SpeculativePhase) : bool :=
  match phase with
  | SpeculativePhase.Terminal | SpeculativePhase.Committed | SpeculativePhase.Cancelled
  | SpeculativePhase.Expired | SpeculativePhase.Superseded | SpeculativePhase.Failed => true
  | _ => false
  end.

(** The linear search of [transition_target]. *)
Fixpoint search_table (from : SpeculativePhase) (event : SpeculationEvent)
    (rows : list Transition) : option SpeculativePhase :=
  match rows with
  | [] => None
  | r :: rest =>
      if bool_decide (tr_from r = from) && bool_decide (tr_event r = event)
      then Some (tr_to r) else search_table from event rest
  end.

Definition transition_target (from : SpeculativePhase) (event : SpeculationEvent)
  : option SpeculativePhase := search_table from event kTransitions.

Definition transition_declared (from : SpeculativePhase) (event : SpeculationEvent) : bool :=
  match transition_target from event with Some _ => true | None => false end.

(** [class SpeculativeStateMachine]: its only state is the phase. *)
Record SpeculativeStateMachine : Set := mkMachine { phase : SpeculativePhase }.

Definition Machine_default : SpeculativeStateMachine := mkMachine SpeculativePhase.Ready.

(** [apply(event, guard, guard_error, guard_message)]. *)
Definition apply_guarded (event : SpeculationEvent) (guard : bool) (guard_error : ErrorCode)
    (guard_message : string) (m : SpeculativeStateMachine)
  : Result SpeculativePhase * SpeculativeStateMachine :=
  if negb (transition_declared (phase m) event) then
    (err ErrorCode.invalid_transition
       (phase_to_string (phase m) +:+ " --" +:+ event_to_string event +:+ "--> (undeclared)"), m)
  else if negb guard then
    (err guard_error
       ("guard blocked " +:+ event_to_string event +:+
        (if String.eqb guard_message EmptyString then EmptyString else ": " +:+ guard_message)), m)
  else
    match transition_target (phase m) event with
    | None => (err ErrorCode.internal "declared transition resolved to null", m)
    | Some next => (Ok next, mkMachine next)
    end.

(** [apply(event)] with the default arguments: no guard. *)
Definition apply (event : SpeculationEvent) (m : SpeculativeStateMachine)
  : Result SpeculativePhase * SpeculativeStateMachine :=
  apply_guarded event true ErrorCode.invalid_transition EmptyString m.

(** A sequence of events, each of which must be declared. *)
Fixpoint run_events (evs : list SpeculationEvent) (p : SpeculativePhase)
  : option SpeculativePhase :=
  match evs with
  | [] => Some p
  | e :: evs' => match transition_target p e with Some q => run_events evs' q | None => None end
  end.

(** ** Lemmas *)

Lemma search_table_Some from event rows q :
  search_table from event rows = Some q -> mkTransition from event q ∈ rows.
Proof.
  induction rows as [| r rows IH]; simpl; [discriminate |].
  destruct r as [f e t]. simpl.
  repeat case_bool_decide; simpl; intros Hs; subst;
    [injection Hs as <-; apply list_elem_of_here | ..]; apply list_elem_of_further; auto.
Qed.

(** The table is the graph of [transition_target]: no two rows compete. *)
Lemma transition_target_iff p e q :
  transition_target p e = Some q <-> mkTransition p e q ∈ kTransitions.
Proof.
  split; [apply search_table_Some |]. unfold transition_target.
  assert (D : Forall (fun r => search_table (tr_from r) (tr_event r) kTransitions = Some (tr_to r))
                kTransitions) by (repeat constructor).
  intros Hin. rewrite Forall_forall in D. exact (D _ Hin).
Qed.

(** Every declared transition satisfies a boolean predicate on the table. *)
Lemma table_forall (P : Transition -> bool) p e q :
  forallb P kTransitions = true -> transition_target p e = Some q -> P (mkTransition p e q) = true.
Proof.
  intros H Ht%transition_target_iff. rewrite forallb_forall in H.
  apply H. by apply list_elem_of_In.
Qed.

Lemma apply_ok e m q m' :
  apply e m = (Ok q, m') <-> transition_target (phase m) e = Some q /\ m' = mkMachine q.
Proof.
  unfold apply, apply_guarded, transition_declared.
  destruct (transition_target (phase m) e); simpl; naive_solver.
Qed.

Lemma apply_undeclared e m :
  transition_target (phase m) e = None -> (apply e m).2 = m /\ is_error (apply e m).1 = true.
Proof. unfold apply, apply_guarded, transition_declared. by intros ->. Qed.

Lemma run_events_app evs1 evs2 p :
  run_events (evs1 ++ evs2) p = (q ← run_events evs1 p; run_events evs2 q).
Proof. revert p. induction evs1 as [| e evs1 IH]; intros p; simpl; [done |]. by destruct (transition_target p e). Qed.

(** The guarded machine.  [apply] has exactly three behaviours: an
    undeclared event is rejected as [invalid_transition]; a declared event
    with a failing guard is rejected with the caller's error; otherwise the
    machine moves along the table.  The internal-error branch is never taken,
    and a rejection leaves the machine unchanged. *)
Theorem apply_guarded_correct event guard guard_error msg m :
  match apply_guarded event guard guard_error msg m with
  | (Failed e, m') =>
      m' = m /\
      ((transition_target (phase m) event = None /\ err_code e = ErrorCode.invalid_transition) \/
       (transition_declared (phase m) event = true /\ guard = false /\ err_code e = guard_error))
  | (Ok next, m') =>
      guard = true /\ mkTransition (phase m) event next ∈ kTransitions /\ m' = mkMachine next
  end.
Proof.
  unfold apply_guarded, transition_declared.
  destruct (transition_target (phase m) event) as [q |] eqn:E; simpl; [| naive_solver].
  destruct guard; simpl; [| naive_solver].
  split; [done | split; [by apply transition_target_iff | done]].
Qed.

(** Terminal phases are absorbing, up to the bookkeeping event
    [EnterTerminal]: the only phase any event sequence can reach from a
    terminal phase is that phase itself or [Terminal]. *)
Theorem terminal_phases_absorbing p evs q :
  is_terminal_phase p = true -> run_events evs p = Some q ->
  q = p \/ (q = SpeculativePhase.Terminal /\ evs = [SpeculationEvent.EnterTerminal]).
Proof.
  intros Hp. destruct evs as [| e [| e' evs]]; simpl; [naive_solver | |].
  - destruct p, e; try discriminate Hp; vm_compute; naive_solver.
  - destruct p, e; try discriminate Hp; destruct e'; vm_compute; naive_solver.
Qed.

Lemma terminal_phases_absorbing_witness :
  SpeculativePhase.Terminal = SpeculativePhase.Committed \/
  (SpeculativePhase.Terminal = SpeculativePhase.Terminal /\
   [SpeculationEvent.EnterTerminal] = [SpeculationEvent.EnterTerminal]).
Proof.
  apply (terminal_phases_absorbing SpeculativePhase.Committed); reflexivity.
Defined.

(** C27: no commit without verification.  However a cycle gets from [Ready]
    to [Committed], its last three events are [VerificationFinished], an
    acceptance and [Commit], and the verifier was running before them. *)
Theorem committed_only_after_verification evs :
  run_events evs SpeculativePhase.Ready = Some SpeculativePhase.Committed ->
  exists pre acc,
    evs = pre ++ [SpeculationEvent.VerificationFinished; acc; SpeculationEvent.Commit] /\
    (acc = SpeculationEvent.AcceptPartial \/ acc = SpeculationEvent.AcceptFull) /\
    run_events pre SpeculativePhase.Ready = Some SpeculativePhase.VerificationRunning.
Proof.
  assert (Hlast : forall (l : list SpeculationEvent) q, run_events l SpeculativePhase.Ready = Some q ->
    q <> SpeculativePhase.Ready ->
    exists l' e p, l = l' ++ [e] /\ run_events l' SpeculativePhase.Ready = Some p /\
                   transition_target p e = Some q).
  { intros l q. destruct l as [| e l] using rev_ind; [simpl; naive_solver |].
    rewrite run_events_app. destruct (run_events l SpeculativePhase.Ready) as [p |] eqn:R; [| discriminate].
    simpl. destruct (transition_target p e) eqn:T; [| discriminate].
    intros [= ->] _. eauto 10. }
  intros H.
  destruct (Hlast _ _ H ltac:(discriminate)) as (l1 & e1 & p1 & -> & R1 & T1).
  assert (e1 = SpeculationEvent.Commit /\
          (p1 = SpeculativePhase.FullyAccepted \/ p1 = SpeculativePhase.PartiallyAccepted)) as [-> Hp1]
    by (destruct p1, e1; vm_compute in T1; try discriminate T1; auto).
  destruct (Hlast _ _ R1 ltac:(by destruct Hp1; subst)) as (l2 & e2 & p2 & -> & R2 & T2).
  assert ((e2 = SpeculationEvent.AcceptPartial \/ e2 = SpeculationEvent.AcceptFull) /\
          p2 = SpeculativePhase.Verified) as [He2 ->]
    by (destruct Hp1; subst; destruct p2, e2; vm_compute in T2; try discriminate T2; auto).
  destruct (Hlast _ _ R2 ltac:(discriminate)) as (l3 & e3 & p3 & -> & R3 & T3).
  assert (e3 = SpeculationEvent.VerificationFinished /\ p3 = SpeculativePhase.VerificationRunning)
    as [-> ->] by (destruct p3, e3; vm_compute in T3; try discriminate T3; auto).
  exists l3, e2. by rewrite <- !app_assoc.
Qed.

Lemma committed_only_after_verification_witness :
  exists pre acc,
    [SpeculationEvent.PlanProposal; SpeculationEvent.ReserveProposal;
     SpeculationEvent.DispatchProposal; SpeculationEvent.ProposalStarted;
     SpeculationEvent.ProposalFinished; SpeculationEvent.PlanVerification;
     SpeculationEvent.ReserveVerification; SpeculationEvent.DispatchVerification;
     SpeculationEvent.VerificationStarted; SpeculationEvent.VerificationFinished;
     SpeculationEvent.AcceptFull; SpeculationEvent.Commit] =
    pre ++ [SpeculationEvent.VerificationFinished; acc; SpeculationEvent.Commit] /\
    (acc = SpeculationEvent.AcceptPartial \/ acc = SpeculationEvent.AcceptFull) /\
    run_events pre SpeculativePhase.Ready = Some SpeculativePhase.VerificationRunning.
Proof. apply committed_only_after_verification; reflexivity. Defined.

(** The longest path from each phase to [Terminal] that uses no [Retry]. *)
Definition rank (p : SpeculativePhase) : nat :=
  match p with
  | SpeculativePhase.Ready => 13 | SpeculativePhase.ProposalPlanned => 12
  | SpeculativePhase.ProposalReserved => 11 | SpeculativePhase.ProposalDispatched => 10
  | SpeculativePhase.ProposalRunning => 9 | SpeculativePhase.ProposalProduced => 8
  | SpeculativePhase.VerificationPlanned => 7 | SpeculativePhase.VerificationReserved => 6
  | SpeculativePhase.VerificationDispatched => 5 | SpeculativePhase.VerificationRunning => 4
  | SpeculativePhase.Verified => 3
  | SpeculativePhase.PartiallyAccepted | SpeculativePhase.FullyAccepted
  | SpeculativePhase.Rejected | SpeculativePhase.CancelRequested
  | SpeculativePhase.RetryPending => 2
  | SpeculativePhase.RolledBack | SpeculativePhase.Cancelled | SpeculativePhase.Superseded
  | SpeculativePhase.Expired | SpeculativePhase.Failed | SpeculativePhase.Committed => 1
  | SpeculativePhase.Terminal => 0
  end%nat.

Lemma rank_decreases p e q :
  transition_target p e = Some q -> e <> SpeculationEvent.Retry -> (rank q < rank p)%nat.
Proof.
  intros T%(table_forall (fun r => bool_decide (tr_event r = SpeculationEvent.Retry) ||
                                   (rank (tr_to r) <? rank (tr_from r))%nat) p e q); [| reflexivity].
  simpl in T. intros N. rewrite bool_decide_false in T by done. simpl in T. by apply Nat.ltb_lt.
Qed.

(** A cycle terminates.  Without a [Retry] event no phase can be visited
    twice: an accepted event sequence starting in [p] has at most [rank p]
    events, so at most 13 from [Ready]. *)
Theorem cycle_terminates evs p q :
  run_events evs p = Some q -> SpeculationEvent.Retry ∉ evs ->
  (length evs + rank q <= rank p)%nat.
Proof.
  revert p. induction evs as [| e evs IH]; intros p; simpl.
  - intros [= ->]. lia.
  - destruct (transition_target p e) as [r |] eqn:T; [| discriminate].
    intros R [He Hevs]%not_elem_of_cons.
    apply rank_decreases in T; [| congruence]. apply IH in R; [lia | done].
Qed.

Lemma cycle_terminates_witness :
  (length [SpeculationEvent.Fail; SpeculationEvent.EnterTerminal] +
   rank SpeculativePhase.Terminal <= rank SpeculativePhase.Ready)%nat.
Proof.
  apply (cycle_terminates _ SpeculativePhase.Ready SpeculativePhase.Terminal);
    [reflexivity | apply (bool_decide_unpack _); reflexivity].
Defined.
