(* ===== verification/Data.v ===== *)
(** * State, candidate, proposal and verification records
    (state.hpp, candidate.hpp, proposal.hpp, verification.hpp, executor.hpp)

    The data the runtime, the executors and the workers exchange.  Every
    record carries the fields of its struct, in order, under a short prefix;
    [X_default] is the value-initialised struct. *)

From S2P Require Import Prelude Errors Ids Model.

(** ** State and memory governance (state.hpp) *)

(** [enum class SequenceRole]. *)
Module SequenceRole.

Inductive t : Set := Authoritative | Speculative.

#[global] Instance eq_dec : EqDecision t.
Proof. solve_decision. Defined.

End SequenceRole.
Abbreviation SequenceRole := SequenceRole.t.

(** [struct StateRef]. *)
Record StateRef : Set := mkStateRef {
  sr_id : StateId;
  sr_generation : StateGeneration
}.

Definition StateRef_default : StateRef :=
  mkStateRef null_id null_id.

#[export] Instance eta_StateRef : Etable StateRef := fun r =>
  mkStateRef (sr_id r) (sr_generation r).

#[export] Instance StateRef_eq_dec : EqDecision StateRef.
Proof. solve_decision. Defined.

Definition StateRef_is_valid (s : StateRef) : bool := negb (is_null (sr_id s)).

(** [struct StateDomain]. *)
Record StateDomain : Set := mkStateDomain {
  dom_name : string;
  dom_device : DeviceDescriptor
}.

Definition StateDomain_default : StateDomain :=
  mkStateDomain "cpu" DeviceDescriptor_default.

#[export] Instance StateDomain_eq_dec : EqDecision StateDomain.
Proof. solve_decision. Defined.

(** [enum class ReservationState]. *)
Module ReservationState.

Inductive t : Set := None | Reserved | Pending | Used | Released.

#[global] Instance eq_dec : EqDecision t.
Proof. solve_decision. Defined.

End ReservationState.
Abbreviation ReservationState := ReservationState.t.

(** [enum class StateOwner]. *)
Module StateOwner.

Inductive t : Set := None | Proposal | Branch | Verification | AuthoritativeCommit.

#[global] Instance eq_dec : EqDecision t.
Proof. solve_decision. Defined.

End StateOwner.
Abbreviation StateOwner := StateOwner.t.

(** The states in which a reservation is held. *)
Definition reservation_held (s : ReservationState) : bool :=
  match s with
  | ReservationState.Reserved | ReservationState.Pending | ReservationState.Used => true
  | ReservationState.None | ReservationState.Released => false
  end.

(** [struct StateDescriptor]. *)
Record StateDescriptor : Set := mkStateDescriptor {
  sd_ref : StateRef;
  sd_role : SequenceRole;
  sd_domain : StateDomain;
  sd_parent : option StateRef;
  sd_parent_generation : option StateGeneration;
  sd_bytes_held : Z;
  sd_reservation : ReservationState;
  sd_owner : StateOwner;
  sd_proposal_owner : option ProposalId;
  sd_branch_owner : option BranchId;
  sd_committed : bool
}.

Definition StateDescriptor_default : StateDescriptor :=
  mkStateDescriptor StateRef_default SequenceRole.Speculative StateDomain_default None None 0
    ReservationState.None StateOwner.None None None false.

#[export] Instance eta_StateDescriptor : Etable StateDescriptor := fun r =>
  mkStateDescriptor (sd_ref r) (sd_role r) (sd_domain r) (sd_parent r) (sd_parent_generation r)
    (sd_bytes_held r) (sd_reservation r) (sd_owner r) (sd_proposal_owner r) (sd_branch_owner r)
    (sd_committed r).

#[export] Instance StateDescriptor_eq_dec : EqDecision StateDescriptor.
Proof. solve_decision. Defined.

Definition is_held (d : StateDescriptor) : bool := reservation_held (sd_reservation d).

(** [struct Reservation]. *)
Record Reservation : Set := mkReservation {
  res_id : ReservationId;
  res_domain : StateDomain;
  res_bytes : Z;
  res_state : ReservationState;
  res_purpose : StateOwner;
  res_proposal : option ProposalId;
  res_branch : option BranchId;
  res_request : option RequestId;
  res_purpose_label : string
}.

Definition Reservation_default : Reservation :=
  mkReservation null_id StateDomain_default 0 ReservationState.None StateOwner.None None None
    None EmptyString.

#[export] Instance eta_Reservation : Etable Reservation := fun r =>
  mkReservation (res_id r) (res_domain r) (res_bytes r) (res_state r) (res_purpose r)
    (res_proposal r) (res_branch r) (res_request r) (res_purpose_label r).

#[export] Instance Reservation_eq_dec : EqDecision Reservation.
Proof. solve_decision. Defined.

Definition res_is_active (r : Reservation) : bool := reservation_held (res_state r).

(** [struct AuthoritativeState]. *)
Record AuthoritativeState : Set := mkAuthoritativeState {
  as_sequence : SequenceId;
  as_generation : AuthGeneration;
  as_state : StateRef;
  as_committed_tokens : list Z;
  as_model : ModelIdentity;
  as_committed_length : Z
}.

Definition AuthoritativeState_default : AuthoritativeState :=
  mkAuthoritativeState null_id null_id StateRef_default [] ModelIdentity_default 0.

(** ** Candidate tokens (candidate.hpp) *)

(** [struct Token]. *)
Record Token : Set := mkToken {
  tk_id : TokenId;
  tk_text : option string
}.

#[export] Instance Token_eq_dec : EqDecision Token.
Proof. solve_decision. Defined.

(** [Token{id}]: no text. *)
Definition token_of (id : Z) : Token := mkToken id None.

(** [struct CandidateSequence]. *)
Record CandidateSequence : Set := mkCandidate { tokens : list Token }.

Definition CandidateSequence_default : CandidateSequence := mkCandidate [].

#[export] Instance CandidateSequence_eq_dec : EqDecision CandidateSequence.
Proof. solve_decision. Defined.

(** [size()]. *)
Definition cand_size (c : CandidateSequence) : Z := zlen (tokens c).

Definition cand_empty (c : CandidateSequence) : bool :=
  match tokens c with [] => true | _ => false end.

(** [depth()]: the size as a 32-bit value. *)
Definition cand_depth (c : CandidateSequence) : Z := u32 (cand_size c).

(** [content_hash()]: FNV-1a over the token ids. *)
Definition content_hash (c : CandidateSequence) : Z :=
  fold_left (fun h tok => u64 (Z.lxor h (tk_id tok) * 1099511628211))
    (tokens c) 1469598103934665603.

(** [validate(max_depth)]. *)
Definition validate (max_depth : Z) (c : CandidateSequence) : Result Z :=
  if cand_empty c then err ErrorCode.empty_candidate "candidate sequence is empty"
  else if max_depth <? cand_size c then
    err ErrorCode.impossible_candidate_depth
      ("candidate depth " +:+ pretty (cand_size c) +:+ " exceeds maximum " +:+ pretty max_depth)
  else Ok (cand_depth c).

(** [struct CandidateTokenIdentity]. *)
Record CandidateTokenIdentity : Set := mkCandidateTokenIdentity {
  cti_tokenizer : TokenizerId;
  cti_vocab_size : Z;
  cti_format : string
}.

Definition CandidateTokenIdentity_default : CandidateTokenIdentity :=
  mkCandidateTokenIdentity null_id 0 "int32".

#[export] Instance eta_CandidateTokenIdentity : Etable CandidateTokenIdentity := fun r =>
  mkCandidateTokenIdentity (cti_tokenizer r) (cti_vocab_size r) (cti_format r).

#[export] Instance CandidateTokenIdentity_eq_dec : EqDecision CandidateTokenIdentity.
Proof. solve_decision. Defined.

(** ** Proposals and branches (proposal.hpp) *)

(** [struct ProposalProvenance], the authority envelope of a proposal. *)
Record ProposalProvenance : Set := mkProposalProvenance {
  pv_epoch : CoordinatorEpoch;
  pv_request : RequestId;
  pv_sequence : SequenceId;
  pv_attempt : AttemptId;
  pv_branch : BranchId;
  pv_cycle : CycleId;
  pv_proposer_worker : WorkerId;
  pv_proposer_boot : WorkerBootId;
  pv_proposer_model : ModelIdentity;
  pv_base_generation : AuthGeneration;
  pv_dispatch : DispatchId
}.

Definition ProposalProvenance_default : ProposalProvenance :=
  mkProposalProvenance null_id null_id null_id null_id null_id null_id null_id null_id
    ModelIdentity_default null_id null_id.

#[export] Instance eta_ProposalProvenance : Etable ProposalProvenance := fun r =>
  mkProposalProvenance (pv_epoch r) (pv_request r) (pv_sequence r) (pv_attempt r) (pv_branch r)
    (pv_cycle r) (pv_proposer_worker r) (pv_proposer_boot r) (pv_proposer_model r)
    (pv_base_generation r) (pv_dispatch r).

#[export] Instance ProposalProvenance_eq_dec : EqDecision ProposalProvenance.
Proof. solve_decision. Defined.

(** [struct Proposal]. *)
Record Proposal : Set := mkProposal {
  prop_id : ProposalId;
  prop_generation : ProposalGeneration;
  prop_provenance : ProposalProvenance;
  prop_candidate : CandidateSequence;
  prop_token_identity : CandidateTokenIdentity;
  prop_base_state : StateRef;
  prop_base_state_generation : StateGeneration;
  prop_speculative_state : StateRef;
  prop_speculative_state_desc : StateDescriptor;
  prop_compute_spent : Z;
  prop_memory_held : Z;
  prop_finalized : bool;
  prop_eligible_for_verification : bool;
  prop_committed : bool
}.

Definition Proposal_default : Proposal :=
  mkProposal null_id null_id ProposalProvenance_default CandidateSequence_default
    CandidateTokenIdentity_default StateRef_default null_id StateRef_default
    StateDescriptor_default 0 0 false false false.

#[export] Instance eta_Proposal : Etable Proposal := fun r =>
  mkProposal (prop_id r) (prop_generation r) (prop_provenance r) (prop_candidate r)
    (prop_token_identity r) (prop_base_state r) (prop_base_state_generation r)
    (prop_speculative_state r) (prop_speculative_state_desc r) (prop_compute_spent r)
    (prop_memory_held r) (prop_finalized r) (prop_eligible_for_verification r) (prop_committed
    r).

#[export] Instance Proposal_eq_dec : EqDecision Proposal.
Proof. solve_decision. Defined.

Definition prop_depth (p : Proposal) : Z := cand_depth (prop_candidate p).

(** [struct Branch]. *)
Record Branch : Set := mkBranch {
  br_id : BranchId;
  br_request : RequestId;
  br_sequence : SequenceId;
  br_attempt : AttemptId;
  br_cycle : CycleId;
  br_base_generation : AuthGeneration;
  br_base_state : StateRef;
  br_proposer : ModelIdentity;
  br_speculative_state : StateDescriptor;
  br_latest_proposal : option ProposalId;
  br_proposal_count : Z;
  br_retired : bool;
  br_selected : bool
}.

Definition Branch_default : Branch :=
  mkBranch null_id null_id null_id null_id null_id null_id StateRef_default
    ModelIdentity_default StateDescriptor_default None 0 false false.

#[export] Instance eta_Branch : Etable Branch := fun r =>
  mkBranch (br_id r) (br_request r) (br_sequence r) (br_attempt r) (br_cycle r)
    (br_base_generation r) (br_base_state r) (br_proposer r) (br_speculative_state r)
    (br_latest_proposal r) (br_proposal_count r) (br_retired r) (br_selected r).

#[export] Instance Branch_eq_dec : EqDecision Branch.
Proof. solve_decision. Defined.

Definition br_is_active (b : Branch) : bool := negb (br_retired b).

(** ** Verification (verification.hpp) *)

(** [struct VerificationInput]. *)
Record VerificationInput : Set := mkVerificationInput {
  vi_request : RequestId;
  vi_sequence : SequenceId;
  vi_attempt : AttemptId;
  vi_branch : BranchId;
  vi_proposal : ProposalId;
  vi_proposal_generation : ProposalGeneration;
  vi_authoritative_generation : AuthGeneration;
  vi_authoritative_state : StateRef;
  vi_authoritative_state_generation : StateGeneration;
  vi_candidate : CandidateSequence;
  vi_candidate_identity : CandidateTokenIdentity;
  vi_proposer : ModelIdentity;
  vi_verifier : ModelIdentity;
  vi_compatibility : ModelPairCompatibilityKey;
  vi_verification_state : StateRef;
  vi_dispatch : DispatchId;
  vi_epoch : CoordinatorEpoch;
  vi_verifier_worker : WorkerId;
  vi_verifier_boot : WorkerBootId
}.

Definition VerificationInput_default : VerificationInput :=
  mkVerificationInput null_id null_id null_id null_id null_id null_id null_id StateRef_default
    null_id CandidateSequence_default CandidateTokenIdentity_default ModelIdentity_default
    ModelIdentity_default ModelPairCompatibilityKey_default StateRef_default null_id null_id
    null_id null_id.

#[export] Instance eta_VerificationInput : Etable VerificationInput := fun r =>
  mkVerificationInput (vi_request r) (vi_sequence r) (vi_attempt r) (vi_branch r) (vi_proposal
    r) (vi_proposal_generation r) (vi_authoritative_generation r) (vi_authoritative_state r)
    (vi_authoritative_state_generation r) (vi_candidate r) (vi_candidate_identity r)
    (vi_proposer r) (vi_verifier r) (vi_compatibility r) (vi_verification_state r) (vi_dispatch
    r) (vi_epoch r) (vi_verifier_worker r) (vi_verifier_boot r).

(** [enum class AcceptanceOutcome]. *)
Module AcceptanceOutcome.

Inductive t : Set := FullAccept | PartialAccept | RejectAll | VerifierFailure.

#[global] Instance eq_dec : EqDecision t.
Proof. solve_decision. Defined.

End AcceptanceOutcome.
Abbreviation AcceptanceOutcome := AcceptanceOutcome.t.

(** [struct AcceptanceResult]. *)
Record AcceptanceResult : Set := mkAcceptanceResult {
  ar_outcome : AcceptanceOutcome;
  ar_candidate_length : Z;
  ar_accepted_prefix : Z;
  ar_first_rejection_index : Z;
  ar_per_position : list Z;
  ar_retryable : bool;
  ar_terminal : bool;
  ar_authoritative_next_generation : AuthGeneration;
  ar_authoritative_next_state : StateRef;
  ar_authoritative_next_state_generation : StateGeneration;
  ar_execution_measured_ns : Z;
  ar_verifier_note : string
}.

Definition AcceptanceResult_default : AcceptanceResult :=
  mkAcceptanceResult AcceptanceOutcome.RejectAll 0 0 0 [] false false null_id StateRef_default
    null_id 0 EmptyString.

#[export] Instance eta_AcceptanceResult : Etable AcceptanceResult := fun r =>
  mkAcceptanceResult (ar_outcome r) (ar_candidate_length r) (ar_accepted_prefix r)
    (ar_first_rejection_index r) (ar_per_position r) (ar_retryable r) (ar_terminal r)
    (ar_authoritative_next_generation r) (ar_authoritative_next_state r)
    (ar_authoritative_next_state_generation r) (ar_execution_measured_ns r) (ar_verifier_note
    r).

#[export] Instance AcceptanceResult_eq_dec : EqDecision AcceptanceResult.
Proof. solve_decision. Defined.

Definition fully_accepted (r : AcceptanceResult) : bool :=
  bool_decide (ar_outcome r = AcceptanceOutcome.FullAccept).

Definition fully_rejected (r : AcceptanceResult) : bool :=
  bool_decide (ar_outcome r = AcceptanceOutcome.RejectAll).

Definition ar_is_failure (r : AcceptanceResult) : bool :=
  bool_decide (ar_outcome r = AcceptanceOutcome.VerifierFailure).

Definition rejected_count (r : AcceptanceResult) : Z :=
  u32 (ar_candidate_length r - ar_accepted_prefix r).

(** [struct RejectionResult]. *)
Record RejectionResult : Set := mkRejectionResult {
  rej_rejected_all : bool;
  rej_accepted_prefix : Z;
  rej_rejected_from_index : Z;
  rej_rejected_tokens : Z;
  rej_reason : string
}.

Definition RejectionResult_default : RejectionResult :=
  mkRejectionResult true 0 0 0 EmptyString.

(** [struct CommitResult]. *)
Record CommitResult : Set := mkCommitResult {
  cr_committed_tokens : Z;
  cr_accepted_prefix : Z;
  cr_rejected_tokens : Z;
  cr_new_generation : AuthGeneration;
  cr_new_state : StateRef;
  cr_new_state_generation : StateGeneration;
  cr_success : bool;
  cr_detail : string
}.

Definition CommitResult_default : CommitResult :=
  mkCommitResult 0 0 0 null_id StateRef_default null_id false EmptyString.

#[export] Instance eta_CommitResult : Etable CommitResult := fun r =>
  mkCommitResult (cr_committed_tokens r) (cr_accepted_prefix r) (cr_rejected_tokens r)
    (cr_new_generation r) (cr_new_state r) (cr_new_state_generation r) (cr_success r) (cr_detail
    r).

(** [struct RollbackResult]. *)
Record RollbackResult : Set := mkRollbackResult {
  rb_rejected_tokens : Z;
  rb_accepted_prefix : Z;
  rb_restored_generation : AuthGeneration;
  rb_restored_state : StateRef;
  rb_restored_state_generation : StateGeneration;
  rb_retired_branches : Z;
  rb_released_reservations : Z;
  rb_success : bool;
  rb_detail : string
}.

Definition RollbackResult_default : RollbackResult :=
  mkRollbackResult 0 0 null_id StateRef_default null_id 0 0 false EmptyString.

#[export] Instance eta_RollbackResult : Etable RollbackResult := fun r =>
  mkRollbackResult (rb_rejected_tokens r) (rb_accepted_prefix r) (rb_restored_generation r)
    (rb_restored_state r) (rb_restored_state_generation r) (rb_retired_branches r)
    (rb_released_reservations r) (rb_success r) (rb_detail r).

(** [struct ProposalPlan]. *)
Record ProposalPlan : Set := mkProposalPlan {
  pl_request : RequestId;
  pl_sequence : SequenceId;
  pl_attempt : AttemptId;
  pl_cycle : CycleId;
  pl_branch : BranchId;
  pl_proposal : ProposalId;
  pl_depth : Z;
  pl_branch_count : Z;
  pl_proposer : ModelIdentity;
  pl_proposer_worker : WorkerId;
  pl_dispatch : DispatchId;
  pl_rationale : string
}.

Definition ProposalPlan_default : ProposalPlan :=
  mkProposalPlan null_id null_id null_id null_id null_id null_id 0 1 ModelIdentity_default
    null_id null_id EmptyString.

#[export] Instance eta_ProposalPlan : Etable ProposalPlan := fun r =>
  mkProposalPlan (pl_request r) (pl_sequence r) (pl_attempt r) (pl_cycle r) (pl_branch r)
    (pl_proposal r) (pl_depth r) (pl_branch_count r) (pl_proposer r) (pl_proposer_worker r)
    (pl_dispatch r) (pl_rationale r).

(** [struct VerificationPlan]. *)
Record VerificationPlan : Set := mkVerificationPlan {
  vp_request : RequestId;
  vp_sequence : SequenceId;
  vp_attempt : AttemptId;
  vp_branch : BranchId;
  vp_proposal : ProposalId;
  vp_proposal_generation : ProposalGeneration;
  vp_verifier : ModelIdentity;
  vp_verifier_worker : WorkerId;
  vp_dispatch : DispatchId;
  vp_rationale : string
}.

(** [struct ProposalDispatch]. *)
Record ProposalDispatch : Set := mkProposalDispatch {
  pd_plan : ProposalPlan;
  pd_base_state : StateRef;
  pd_base_generation : AuthGeneration;
  pd_depth : Z;
  pd_branch_count : Z
}.

(** [struct VerificationDispatch]. *)
Record VerificationDispatch : Set := mkVerificationDispatch {
  vd_plan : VerificationPlan;
  vd_input : VerificationInput
}.

(** ** Executors (executor.hpp) *)

(** [enum class ProposalOutcome]. *)
Module ProposalOutcome.

Inductive t : Set := Success | RetryableFailure | NonRetryableFailure | Cancelled | Expired | StaleAuthorityRejected.

#[global] Instance eq_dec : EqDecision t.
Proof. solve_decision. Defined.

End ProposalOutcome.
Abbreviation ProposalOutcome := ProposalOutcome.t.

(** [struct ProposalResult]. *)
Record ProposalResult : Set := mkProposalResult {
  pr_outcome : ProposalOutcome;
  pr_candidate : option CandidateSequence;
  pr_speculative_state : option StateDescriptor;
  pr_compute_spent : Z;
  pr_memory_held : Z;
  pr_execution_measured_ns : Z;
  pr_error : ErrorCode;
  pr_detail : string
}.

Definition ProposalResult_default : ProposalResult :=
  mkProposalResult ProposalOutcome.NonRetryableFailure None None 0 0 0 ErrorCode.ok EmptyString.

#[export] Instance eta_ProposalResult : Etable ProposalResult := fun r =>
  mkProposalResult (pr_outcome r) (pr_candidate r) (pr_speculative_state r) (pr_compute_spent r)
    (pr_memory_held r) (pr_execution_measured_ns r) (pr_error r) (pr_detail r).

#[export] Instance ProposalResult_eq_dec : EqDecision ProposalResult.
Proof. solve_decision. Defined.

Definition pr_success (r : ProposalResult) : bool :=
  bool_decide (pr_outcome r = ProposalOutcome.Success).

Definition pr_retryable (r : ProposalResult) : bool :=
  bool_decide (pr_outcome r = ProposalOutcome.RetryableFailure).

(** [struct ProposalInput]. *)
Record ProposalInput : Set := mkProposalInput {
  pi_provenance : ProposalProvenance;
  pi_base_state : StateRef;
  pi_base_generation : AuthGeneration;
  pi_depth : Z;
  pi_branch_index : Z;
  pi_branch_count : Z;
  pi_deterministic_seed : Z;
  pi_compute_budget : Z;
  pi_memory_budget : Z
}.

Definition ProposalInput_default : ProposalInput :=
  mkProposalInput ProposalProvenance_default StateRef_default null_id 0 0 1 0 0 0.

#[export] Instance eta_ProposalInput : Etable ProposalInput := fun r =>
  mkProposalInput (pi_provenance r) (pi_base_state r) (pi_base_generation r) (pi_depth r)
    (pi_branch_index r) (pi_branch_count r) (pi_deterministic_seed r) (pi_compute_budget r)
    (pi_memory_budget r).

(** [class ProposalExecutor] and [class VerificationExecutor]: the operations a
    backend provides.  The headers require both to be deterministic, so an
    executor is a function of its input. *)
Record ProposalExecutor : Set := mkProposalExecutor {
  pe_identity : ExecutorIdentity;
  pe_kind : ExecutorKind;
  propose : ProposalInput -> Result ProposalResult
}.

Record VerificationExecutor : Set := mkVerificationExecutor {
  ve_identity : ExecutorIdentity;
  ve_kind : ExecutorKind;
  verify : VerificationInput -> Result AcceptanceResult
}.

(** ** Contracts

    What the interface comments promise of a backend, for the clients'
    theorems. *)

(** A proposal that succeeds carries a candidate, and a candidate is only
    carried by a success and has the requested depth. *)
Class ProposerContract (p : ProposalExecutor) : Prop := {
  proposer_success : forall i r,
    is_u32 (pi_depth i) -> propose p i = Ok r -> pr_outcome r = ProposalOutcome.Success ->
    is_Some (pr_candidate r);
  proposer_candidate : forall i r c,
    is_u32 (pi_depth i) -> propose p i = Ok r -> pr_candidate r = Some c ->
    pr_outcome r = ProposalOutcome.Success /\ cand_size c = pi_depth i
}.

(** The reported acceptance never exceeds the candidate. *)
Class VerifierContract (v : VerificationExecutor) : Prop := {
  verifier_bound : forall i r,
    verify v i = Ok r -> 0 <= ar_accepted_prefix r <= cand_size (vi_candidate i)
}.

(** ** Lemmas *)

Lemma cand_size_nonneg c : 0 <= cand_size c.
Proof. apply zlen_nonneg. Qed.

#[export] Hint Resolve cand_size_nonneg : fabric.

Lemma cand_empty_iff c : cand_empty c = true <-> cand_size c = 0.
Proof.
  unfold cand_empty, cand_size. destruct (tokens c); [done |].
  rewrite zlen_cons. pose proof (zlen_nonneg l). split; [done | lia].
Qed.

(** Candidate validation.  [validate] accepts exactly the non-empty
    candidates of at most [max_depth] tokens and returns their exact length;
    otherwise the error tells which bound failed. *)
Theorem validate_correct max_depth c :
  0 <= max_depth < 4294967296 ->
  match validate max_depth c with
  | Ok d => d = cand_size c /\ 1 <= d <= max_depth
  | Failed e =>
      (err_code e = ErrorCode.empty_candidate /\ cand_size c = 0) \/
      (err_code e = ErrorCode.impossible_candidate_depth /\ max_depth < cand_size c)
  end.
Proof.
  intros Hm. unfold validate. pose proof (cand_size_nonneg c) as H0.
  destruct (cand_empty c) eqn:E.
  - apply cand_empty_iff in E. naive_solver.
  - assert (cand_size c <> 0) by (rewrite <- cand_empty_iff; congruence).
    destruct (Z.ltb_spec max_depth (cand_size c)); simpl; [naive_solver |].
    unfold cand_depth. rewrite u32_small by (unfold is_u32; lia). lia.
Qed.

Lemma validate_correct_witness :
  match validate 4 (mkCandidate [token_of 7]) with
  | Ok d => d = cand_size (mkCandidate [token_of 7]) /\ 1 <= d <= 4
  | Failed e =>
      (err_code e = ErrorCode.empty_candidate /\ cand_size (mkCandidate [token_of 7]) = 0) \/
      (err_code e = ErrorCode.impossible_candidate_depth /\ 4 < cand_size (mkCandidate [token_of 7]))
  end.
Proof. apply validate_correct. lia. Defined.
