(* ===== verification/Policy.v ===== *)
(** * Policy, adaptive depth and backpressure (policy.hpp, policy.cpp)

    The proposal policy, the adaptive-depth history and its depth choice, the
    backpressure decision and the per-tenant budget record. *)

From S2P Require Import Prelude Ids Doubles.

(** [enum class LatencyClass]. *)
Module LatencyClass.

Inductive t : Set := Interactive | Balanced | Throughput.

#[global] Instance eq_dec : EqDecision t.
Proof. solve_decision. Defined.

End LatencyClass.
Abbreviation LatencyClass := LatencyClass.t.

(** [struct ProposalPolicy]. *)
Record ProposalPolicy : Set := mkProposalPolicy {
  pol_max_depth : Z;
  pol_max_branches : Z;
  pol_max_candidate_tokens_per_proposal : Z;
  pol_max_concurrent_proposals_per_sequence : Z;
  pol_max_proposer_compute_budget : Z;
  pol_max_proposer_memory_budget : Z;
  pol_max_outstanding_speculative_work : Z;
  pol_max_speculative_delay_ns : Z;
  pol_latency_class : LatencyClass;
  pol_speculating_enabled : bool;
  pol_tenant_max_speculative_budget_ns : Z;
  pol_tenant_max_concurrent_branches : Z;
  pol_min_economic_acceptance_ratio : double;
  pol_adaptive_window : Z;
  pol_adaptive_depth_enabled : bool
}.

Definition ProposalPolicy_default : ProposalPolicy :=
  mkProposalPolicy 4 1 64 2 0 0 8 1000000000 LatencyClass.Balanced true 0 0 (double_of 0) 32
    true.

#[export] Instance eta_ProposalPolicy : Etable ProposalPolicy := fun r =>
  mkProposalPolicy (pol_max_depth r) (pol_max_branches r)
    (pol_max_candidate_tokens_per_proposal r) (pol_max_concurrent_proposals_per_sequence r)
    (pol_max_proposer_compute_budget r) (pol_max_proposer_memory_budget r)
    (pol_max_outstanding_speculative_work r) (pol_max_speculative_delay_ns r)
    (pol_latency_class r) (pol_speculating_enabled r) (pol_tenant_max_speculative_budget_ns r)
    (pol_tenant_max_concurrent_branches r) (pol_min_economic_acceptance_ratio r)
    (pol_adaptive_window r) (pol_adaptive_depth_enabled r).

(** [class AdaptiveDepth]: the recent acceptance ratios, oldest first, and the
    window that bounds them. *)
Record AdaptiveDepth : Set := mkAdaptiveDepth {
  history_ : list double;
  window_ : Z
}.

Definition AdaptiveDepth_default : AdaptiveDepth := mkAdaptiveDepth [] 32.

(** [record(ratio)]: push back, then drop the front when over the window. *)
Definition record_ratio (ratio : double) (a : AdaptiveDepth) : AdaptiveDepth :=
  let h := history_ a ++ [ratio] in
  mkAdaptiveDepth (if window_ a <? zlen h then tail h else h) (window_ a).

Definition set_window (w : Z) (a : AdaptiveDepth) : AdaptiveDepth := mkAdaptiveDepth (history_ a) w.

Definition clear_history (a : AdaptiveDepth) : AdaptiveDepth := mkAdaptiveDepth [] (window_ a).

Definition average_ratio (a : AdaptiveDepth) : double :=
  match history_ a with
  | [] => double_of 0
  | h => ddiv (fold_left dadd h (double_of 0)) (double_of (zlen h))
  end.

(** The fraction of the maximal depth for an average ratio [r]. *)
Definition depth_factor (r : double) : double :=
  if dgeb r (lit 80 100) then double_of 1
  else if dgeb r (lit 50 100) then
    dadd (lit 60 100) (dmul (lit 40 100) (ddiv (dsub r (lit 50 100)) (lit 30 100)))
  else dadd (lit 30 100) (dmul (lit 30 100) (ddiv r (lit 50 100))).

(** The real-valued depth, before rounding. *)
Definition scaled_depth (r : double) (max_depth available_memory_headroom : Z)
    (verifier_saturation : double) : double :=
  let depth := dmul (double_of max_depth) (depth_factor r) in
  let depth :=
    if available_memory_headroom =? 0 then depth
    else
      let memory_ratio :=
        dmin (double_of 1)
          (ddiv (double_of available_memory_headroom)
             (dmul (double_of 128) (double_of max_depth))) in
      dmul depth memory_ratio in
  let sat := dclamp verifier_saturation (double_of 0) (double_of 1) in
  dmul depth (dsub (double_of 1) (dmul (lit 1 2) sat)).

(** [std::clamp(v, lo, hi)] on ints: undefined when [hi < lo]. *)
Definition iclamp (v lo hi : Z) : option Z :=
  if hi <? lo then None else Some (if v <? lo then lo else if hi <? v then hi else v).

(** [choose_depth]; [None] when the clamp's precondition is violated. *)
Definition choose_depth `{Platform} (policy : ProposalPolicy) (available_memory_headroom : Z)
    (verifier_saturation : double) (a : AdaptiveDepth) : option Z :=
  if negb (pol_adaptive_depth_enabled policy) || (match history_ a with [] => true | _ => false end)
  then Some (pol_max_depth policy)
  else
    let depth :=
      scaled_depth (average_ratio a) (pol_max_depth policy) available_memory_headroom
        verifier_saturation in
    let d := u32 (llround depth) in
    match iclamp (int32 d) 1 (int32 (pol_max_depth policy)) with
    | Some c => Some (u32 c)
    | None => None
    end.

(** [enum class BackpressureReason]. *)
Module BackpressureReason.

Inductive t : Set := None | ProposerCapacity | VerifierCapacity | BranchLimit | MemoryHeadroom | OutstandingLimit | TenantBudget | DeadlineTooTight | EconomicsBelowThreshold.

#[global] Instance eq_dec : EqDecision t.
Proof. solve_decision. Defined.

End BackpressureReason.
Abbreviation BackpressureReason := BackpressureReason.t.

(** [struct BackpressureDecision]. *)
Record BackpressureDecision : Set := mkBackpressureDecision {
  bp_blocked : bool;
  bp_reason : BackpressureReason;
  bp_detail : string
}.

Definition BackpressureDecision_default : BackpressureDecision :=
  mkBackpressureDecision false BackpressureReason.None EmptyString.

#[export] Instance BackpressureDecision_eq_dec : EqDecision BackpressureDecision.
Proof. solve_decision. Defined.

Definition bp_allow : BackpressureDecision := BackpressureDecision_default.

Definition bp_deny (r : BackpressureReason) (d : string) : BackpressureDecision :=
  mkBackpressureDecision true r d.

(** [struct ProposalRationale]. *)
Record ProposalRationale : Set := mkProposalRationale {
  rat_depth : Z;
  rat_branch_count : Z;
  rat_depth_reason : string;
  rat_branch_reason : string;
  rat_proposer_reason : string;
  rat_verifier_reason : string
}.

Definition ProposalRationale_default : ProposalRationale :=
  mkProposalRationale 0 1 EmptyString EmptyString EmptyString EmptyString.

(** [struct TenantSpecBudget]. *)
Record TenantSpecBudget : Set := mkTenantSpecBudget {
  tb_tenant : TenantId;
  tb_budget_units : Z;
  tb_used_units : Z;
  tb_current_branches : Z;
  tb_weight : double;
  tb_speculative_work_ns : Z
}.

Definition TenantSpecBudget_default : TenantSpecBudget :=
  mkTenantSpecBudget null_id 0 0 0 (double_of 1) 0.

(** [remaining_units()]. *)
Definition remaining_units (b : TenantSpecBudget) : Z :=
  if tb_used_units b <? tb_budget_units b then u64 (tb_budget_units b - tb_used_units b) else 0.

(** [enum class ValueOrigin]. *)
Module ValueOrigin.

Inductive t : Set := Measured | Derived | Configured | Estimated.

#[global] Instance eq_dec : EqDecision t.
Proof. solve_decision. Defined.

End ValueOrigin.
Abbreviation ValueOrigin := ValueOrigin.t.

(** ** Lemmas *)

Lemma iclamp_Some v lo hi c :
  iclamp v lo hi = Some c <-> lo <= hi /\ c = Z.max lo (Z.min v hi).
Proof. unfold iclamp. repeat case_ztest; split; intros E; try injection E; try (f_equal; lia); try lia; naive_solver lia. Qed.

Lemma int32_small x : 0 <= x < 2147483648 -> int32 x = x.
Proof. intros. unfold int32. rewrite u32_small by (unfold is_u32; lia). case_ztest; lia. Qed.

Lemma int32_range x : -2147483648 <= int32 x < 2147483648.
Proof. unfold int32. pose proof (u32_range x) as R. unfold is_u32 in R. case_ztest; lia. Qed.

Lemma length_record_ratio x a :
  zlen (history_ (record_ratio x a)) =
  if window_ a <? zlen (history_ a) + 1 then zlen (history_ a) else zlen (history_ a) + 1.
Proof.
  unfold record_ratio. simpl. rewrite zlen_app, zlen_cons, zlen_nil.
  replace (zlen (history_ a) + (1 + 0)) with (zlen (history_ a) + 1) by lia.
  case_ztest; [| rewrite zlen_app, zlen_cons, zlen_nil; lia].
  destruct (history_ a) as [| y h]; simpl; [reflexivity |].
  rewrite zlen_app, !zlen_cons, zlen_nil. lia.
Qed.

(** Recording a sequence of ratios, oldest first. *)
Definition record_all (rs : list double) (a : AdaptiveDepth) : AdaptiveDepth :=
  fold_left (fun a r => record_ratio r a) rs a.

Lemma window_record_all rs a : window_ (record_all rs a) = window_ a.
Proof. revert a. induction rs as [| r rs IH]; intros a; [done |]. simpl. by rewrite IH. Qed.

Lemma history_record_ratio r a :
  0 <= window_ a -> zlen (history_ a) <= window_ a ->
  history_ (record_ratio r a) =
  drop (length (history_ a ++ [r]) - Z.to_nat (window_ a)) (history_ a ++ [r]).
Proof.
  intros Hw Hl. unfold record_ratio. simpl. rewrite length_app, zlen_app, zlen_cons, zlen_nil.
  unfold zlen in *. simpl length. case_ztest.
  - replace (length (history_ a) + 1 - Z.to_nat (window_ a))%nat with 1%nat by lia.
    by destruct (history_ a ++ [r]).
  - by replace (length (history_ a) + 1 - Z.to_nat (window_ a))%nat with 0%nat by lia.
Qed.

(** The acceptance history is a bounded queue: after any sequence of
    records it holds exactly the last [window] ratios, in order, provided the
    window was not shrunk below the history. *)
Theorem record_keeps_last_window rs a :
  0 <= window_ a -> zlen (history_ a) <= window_ a ->
  history_ (record_all rs a) =
  drop (length (history_ a ++ rs) - Z.to_nat (window_ a)) (history_ a ++ rs).
Proof.
  revert a. induction rs as [| r rs IH]; intros a Hw Hl.
  - rewrite app_nil_r. unfold zlen in Hl.
    by replace (length (history_ a) - Z.to_nat (window_ a))%nat with 0%nat by lia.
  - simpl. rewrite IH; [| done | rewrite length_record_ratio; simpl; case_ztest; lia].
    rewrite history_record_ratio by done. simpl window_.
    set (k := (length (history_ a ++ [r]) - Z.to_nat (window_ a))%nat).
    rewrite <- drop_app_le by (unfold k; lia).
    rewrite drop_drop, <- app_assoc, length_drop. simpl. f_equal.
    unfold k. rewrite !length_app. simpl. lia.
Qed.

Lemma record_keeps_last_window_witness :
  history_ (record_all [double_of 1; double_of 2; double_of 3] (mkAdaptiveDepth [] 2)) =
  drop (length ([] ++ [double_of 1; double_of 2; double_of 3]) - Z.to_nat 2)
    ([] ++ [double_of 1; double_of 2; double_of 3]).
Proof. apply (record_keeps_last_window _ (mkAdaptiveDepth [] 2)); unfold zlen; simpl; lia. Defined.
