(* ===== verification/Depth.v ===== *)
(** * The adaptive depth, as real numbers (policy.cpp)

    [choose_depth] computes with doubles.  Here is what it means to compute -
    the mean acceptance ratio, a piecewise linear factor of it, the share of
    the memory headroom, the saturation of the verifier - and the proof that
    the depth it chooses is that real number rounded to an integer. *)

From Stdlib Require Import Reals Lra Psatz SpecFloat.
From S2P Require Import Prelude Doubles Rounding Policy.

(** ** The intended depth *)

Section Ideal.
Local Open Scope R_scope.

(** The mean acceptance ratio. *)
Definition mean (h : list double) : R := fold_right Rplus 0 (map value h) / IZR (zlen h).

(** The fraction of the policy depth for a mean ratio. *)
Definition ideal_factor (r : R) : R :=
  if Rle_dec (8 / 10) r then 1
  else if Rle_dec (1 / 2) r then 6 / 10 + 4 / 10 * ((r - 1 / 2) / (3 / 10))
  else 3 / 10 + 3 / 10 * (r / (1 / 2)).

(** 128 units of headroom for each token of the policy depth; 0 is no limit. *)
Definition ideal_memory (max_depth headroom : Z) : R :=
  if Z.eqb headroom 0 then 1 else Rmin 1 (IZR headroom / (128 * IZR max_depth)).

(** A saturated verifier halves the depth. *)
Definition ideal_load (saturation : R) : R := 1 - 1 / 2 * Rmax 0 (Rmin saturation 1).

Definition ideal_depth (max_depth headroom : Z) (saturation : R) (h : list double) : R :=
  IZR max_depth *
  (ideal_factor (mean h) * ideal_memory max_depth headroom * ideal_load saturation).
End Ideal.

(** An acceptance ratio. *)
Definition ratio (x : double) : Prop := number x /\ (0 <= value x <= 1)%R.

(** ** Lemmas: errors *)

(** Half a unit in the last place of 1. *)
Abbreviation eps := (bpow (-53)).

Lemma eps_value : eps = (/ 9007199254740992)%R.
Proof. unfold bpow. simpl. f_equal. lra. Qed.

Lemma eps_small : (0 < eps <= / 1000000000000)%R.
Proof. rewrite eps_value. lra. Qed.

Lemma bpow_minus_50 : bpow (-50) = (/ 1125899906842624)%R.
Proof. unfold bpow. simpl. f_equal. lra. Qed.

Lemma tiny_eps : (bpow (-1075) <= eps)%R.
Proof. by apply bpow_le. Qed.

Lemma small_overflow x : (x <= 1000000000000)%R -> (x < bpow 1000)%R.
Proof.
  intros H. apply Rle_lt_trans with (1 := H). apply Rlt_le_trans with (bpow 40).
  - rewrite bpow_nonneg by done. apply IZR_lt. done.
  - by apply bpow_le.
Qed.

(** Absolute and relative errors. *)
Lemma accurate_error y x b : accurate y x -> (Rabs x <= b)%R ->
  (Rabs (value y - x) <= (b + 1) * eps)%R.
Proof. intros [_ A] B. pose proof eps_small. pose proof tiny_eps. nra. Qed.

Lemma accurate_relative y x : accurate y x -> (bpow (-100) <= x)%R ->
  (Rabs (value y - x) <= 2 * eps * x)%R.
Proof.
  intros [_ A] B. pose proof (bpow_pos (-100)). rewrite (Rabs_right x) in A by lra.
  pose proof (bpow_le (-1075) (-53 + -100) ltac:(lia)) as T. rewrite bpow_add in T.
  pose proof eps_small. nra.
Qed.

(** A double within [k] of [x]. *)
Definition near (y : double) (x k : R) : Prop := number y /\ (Rabs (value y - x) <= k)%R.

Lemma Rabs_between x k : (Rabs x <= k)%R <-> (- k <= x <= k)%R.
Proof. unfold Rabs. destruct (Rcase_abs x); lra. Qed.

Lemma near_weaken y x k l : near y x k -> (k <= l)%R -> near y x l.
Proof. intros [N E] L. split; [done | lra]. Qed.

(** A part of [M] tokens times a part of one. *)
Lemma product_near M a b X Y k l :
  (1 <= M <= 4294967296)%R -> (0 <= X <= 1)%R -> (0 <= Y <= 1)%R ->
  (0 <= k <= / 1000)%R -> (0 <= l <= / 1000)%R ->
  near a (M * X) (M * k) -> near b Y l ->
  near (dmul a b) (M * (X * Y)) (M * (1001 / 1000 * k + l + 3 * eps)).
Proof.
  intros HM HX HY Hk Hl [Na Ea] [Nb Eb]. pose proof eps_small as He.
  set (A := (value a / M)%R). assert (Va : value a = (M * A)%R) by (unfold A; field; lra).
  assert (HA : (- k <= A - X <= k)%R).
  { rewrite Va in Ea. replace (M * A - M * X)%R with (M * (A - X))%R in Ea by ring.
    apply Rabs_between in Ea. split; nra. }
  clearbody A. apply Rabs_between in Eb. set (B := value b) in *.
  assert (AB : (- (1001 / 1000 * k + l) <= A * B - X * Y <= 1001 / 1000 * k + l)%R).
  { replace (A * B - X * Y)%R with ((A - X) * Y + X * (B - Y) + (A - X) * (B - Y))%R by ring.
    split; nra. }
  assert (XY : (0 <= X * Y <= 1)%R) by (split; nra). set (AB' := (A * B)%R) in *.
  assert (Vab : (value a * B = M * AB')%R) by (unfold AB'; rewrite Va; ring). clearbody AB'.
  pose proof (mul_accurate a b Na Nb) as Ac. fold B in Ac. rewrite Vab in Ac.
  assert (Bd : (Rabs (M * AB') <= 2 * M)%R) by (apply Rabs_between; split; nra).
  specialize (Ac ltac:(apply small_overflow; lra)).
  pose proof (accurate_error _ _ _ Ac Bd) as Er. split; [apply Ac |].
  apply Rabs_between in Er. apply Rabs_between. set (v := value (dmul a b)) in *.
  assert (S : ((2 * M + 1) * eps <= M * (3 * eps))%R) by nra.
  set (d := (1001 / 1000 * k + l)%R) in *.
  assert (D : (- (M * d) <= M * AB' - M * (X * Y) <= M * d)%R) by (split; nra).
  replace (M * (1001 / 1000 * k + l + 3 * eps))%R with (M * d + M * (3 * eps))%R by (unfold d; ring).
  lra.
Qed.

(** ** Lemmas: the mean *)

Abbreviation total h := (fold_right Rplus 0%R (map value h)).

Lemma total_range h : Forall ratio h -> (0 <= total h <= IZR (zlen h))%R.
Proof.
  induction 1 as [| x h [_ X] _ IH]; [change (zlen (@nil double)) with 0; simpl; lra |]. cbn [map fold_right]. rewrite zlen_cons, plus_IZR. lra.
Qed.

Lemma sum_near h : Forall ratio h -> forall acc S k, near acc S k -> (0 <= S)%R ->
  (S + IZR (zlen h) <= 1024)%R -> (0 <= k)%R -> (k + IZR (zlen h) * (1027 * eps) <= 1)%R ->
  near (fold_left dadd h acc) (S + total h) (k + IZR (zlen h) * (1027 * eps)).
Proof.
  pose proof eps_small as He.
  induction 1 as [| x h [Nx X] F IH]; intros acc S k [Na Ea] HS HB Hk K.
  - cbn [fold_left map fold_right]. change (zlen (@nil double)) with 0.
    rewrite Rmult_0_l, !Rplus_0_r. by split.
  - cbn [fold_left map fold_right]. rewrite zlen_cons, plus_IZR in *.
    pose proof (total_range h F) as T. assert (L : (0 <= IZR (zlen h))%R) by lra.
    apply Rabs_between in Ea.
    assert (K' : (0 <= IZR (zlen h) * (1027 * eps))%R) by (apply Rmult_le_pos; lra).
    assert (B : (Rabs (value acc + value x) <= 1026)%R) by (apply Rabs_between; lra).
    pose proof (add_accurate acc x Na Nx ltac:(apply small_overflow; lra)) as A.
    pose proof (accurate_error _ _ _ A B) as E. apply Rabs_between in E.
    replace (S + (value x + total h))%R with (S + value x + total h)%R by ring.
    eapply near_weaken; [apply (IH (dadd acc x) (S + value x)%R (k + 1027 * eps)%R) |]; try lra.
    split; [apply A |]. apply Rabs_between. lra.
Qed.

(** Integers convert with a small relative error. *)
Lemma integer_near n : 1 <= n <= 4294967296 ->
  number (double_of n) /\ (Rabs (value (double_of n) - IZR n) <= 2 * eps * IZR n)%R.
Proof.
  intros [L%IZR_le U%IZR_le]. assert (A : accurate (double_of n) (IZR n)).
  { apply double_of_accurate, small_overflow. apply Rabs_between. lra. }
  split; [apply A |]. apply accurate_relative; [exact A |]. apply Rle_trans with (2 := L).
  change 1%R with (bpow 0). by apply bpow_le.
Qed.

Lemma average_near a : Forall ratio (history_ a) -> history_ a <> [] -> zlen (history_ a) <= 1024 ->
  near (average_ratio a) (mean (history_ a)) (1100 * eps) /\ (0 <= mean (history_ a) <= 1)%R.
Proof.
  intros F Ne Hn. pose proof eps_small as He. pose proof (total_range _ F) as T.
  assert (N1 : 1 <= zlen (history_ a)) by (destruct (history_ a); [done | rewrite zlen_cons; pose proof (zlen_nonneg l); lia]).
  assert (Av : average_ratio a =
    ddiv (fold_left dadd (history_ a) (double_of 0)) (double_of (zlen (history_ a))))
    by (unfold average_ratio; by destruct (history_ a)).
  rewrite Av. clear Av Ne. set (h := history_ a) in *. set (n := zlen h) in *.
  destruct (integer_near n ltac:(lia)) as [Nn En]. apply IZR_le in Hn, N1. apply Rabs_between in En.
  assert (Z0 : near (double_of 0) 0 0) by (split; [done | simpl; rewrite Rminus_0_r, Rabs_R0; lra]).
  destruct (sum_near h F (double_of 0) 0 0 Z0) as [Ns Es];
    [lra | fold n; lra | lra | fold n; nra |].
  rewrite !Rplus_0_l in Es. fold n in Es. apply Rabs_between in Es. unfold mean. fold n.
  set (s := fold_left dadd h (double_of 0)) in *. set (m := (total h / IZR n)%R).
  assert (Tm : (total h = m * IZR n)%R) by (unfold m; field; lra).
  assert (M : (0 <= m <= 1)%R) by (split; nra). split; [| exact M]. clearbody m.
  set (d := double_of n) in *. set (N := IZR n) in *.
  assert (Vd : (1 / 2 <= value d)%R) by nra.
  set (q := (value s / value d)%R). assert (Q : (q * value d = value s)%R) by (unfold q; field; lra).
  assert (Eq : (- (1035 * eps) <= q - m <= 1035 * eps)%R).
  { rewrite Tm in Es. assert (E1 : (- (1030 * eps * N) <= (q - m) * value d <= 1030 * eps * N)%R).
    { replace ((q - m) * value d)%R with ((value s - m * N) - m * (value d - N))%R by (rewrite <- Q; ring).
      assert (- (2 * eps * N) <= m * (value d - N) <= 2 * eps * N)%R by (split; nra). lra. }
    assert (E2 : (1030 * eps * N <= 1035 * eps * value d)%R) by nra. split; nra. }
  assert (A : accurate (ddiv s d) q).
  { apply div_accurate; [done | done | lra |]. apply small_overflow. apply Rabs_between. unfold q in Eq. lra. }
  assert (B : (Rabs q <= 2)%R) by (apply Rabs_between; lra).
  pose proof (accurate_error _ _ _ A B) as E. split; [apply A |].
  apply Rabs_between in E. apply Rabs_between. lra.
Qed.

(** ** Lemmas: the factor *)

Section Near.
  Context (a b : double) (X Y k l : R) (A : near a X k) (B : near b Y l).
  Context (Hk : (0 <= k <= / 1000)%R) (Hl : (0 <= l <= / 1000)%R).

Lemma near_add : (-2 <= X <= 2)%R -> (-2 <= Y <= 2)%R -> near (dadd a b) (X + Y) (k + l + 6 * eps).
Proof using A B Hk Hl.
  intros HX HY. destruct A as [Na Ea], B as [Nb Eb]. pose proof eps_small as He.
  apply Rabs_between in Ea, Eb.
  assert (C : (Rabs (value a + value b) <= 5)%R) by (apply Rabs_between; lra).
  pose proof (add_accurate a b Na Nb ltac:(apply small_overflow; lra)) as Ac.
  pose proof (accurate_error _ _ _ Ac C) as E. split; [apply Ac |].
  apply Rabs_between in E. apply Rabs_between. lra.
Qed.

Lemma near_sub : (-2 <= X <= 2)%R -> (-2 <= Y <= 2)%R -> near (dsub a b) (X - Y) (k + l + 6 * eps).
Proof using A B Hk Hl.
  intros HX HY. destruct A as [Na Ea], B as [Nb Eb]. pose proof eps_small as He.
  apply Rabs_between in Ea, Eb.
  assert (C : (Rabs (value a - value b) <= 5)%R) by (apply Rabs_between; lra).
  pose proof (sub_accurate a b Na Nb ltac:(apply small_overflow; lra)) as Ac.
  pose proof (accurate_error _ _ _ Ac C) as E. split; [apply Ac |].
  apply Rabs_between in E. apply Rabs_between. lra.
Qed.

Lemma near_mul P Q : (- P <= X <= P)%R -> (- Q <= Y <= Q)%R -> (P <= 2)%R -> (Q <= 2)%R ->
  near (dmul a b) (X * Y) ((Q + / 1000) * k + P * l + 7 * eps).
Proof using A B Hk Hl.
  intros HX HY HP HQ. destruct A as [Na Ea], B as [Nb Eb]. pose proof eps_small as He.
  apply Rabs_between in Ea, Eb. set (x := value a) in *. set (y := value b) in *.
  assert (D : (- ((Q + / 1000) * k + P * l) <= x * y - X * Y <= (Q + / 1000) * k + P * l)%R).
  { replace (x * y - X * Y)%R with ((x - X) * y + X * (y - Y))%R by ring.
    assert (- ((Q + / 1000) * k) <= (x - X) * y <= (Q + / 1000) * k)%R by (split; nra).
    assert (- (P * l) <= X * (y - Y) <= P * l)%R by (split; nra). lra. }
  assert (C : (Rabs (x * y) <= 6)%R) by (apply Rabs_between; split; nra).
  pose proof (mul_accurate a b Na Nb ltac:(apply small_overflow; fold x y; lra)) as Ac.
  pose proof (accurate_error _ _ _ Ac C) as E. split; [apply Ac |].
  apply Rabs_between in E. apply Rabs_between. fold x y in E. lra.
Qed.

Lemma near_div : (29 / 100 <= Y <= 2)%R -> (- (5 / 4 * Y) <= X <= 5 / 4 * Y)%R ->
  near (ddiv a b) (X / Y) (4 * (k + 5 / 4 * l) + 3 * eps).
Proof using A B Hk Hl.
  intros HY HX. destruct A as [Na Ea], B as [Nb Eb]. pose proof eps_small as He.
  apply Rabs_between in Ea, Eb. set (x := value a) in *. set (y := value b) in *.
  set (q := (x / y)%R). set (Q := (X / Y)%R).
  assert (Eq : (q * y = x)%R) by (unfold q; field; lra).
  assert (EQ : (Q * Y = X)%R) by (unfold Q; field; lra). clearbody Q.
  assert (HQ : (- (5 / 4) <= Q <= 5 / 4)%R) by (split; nra).
  assert (D : (- (k + 5 / 4 * l) <= (q - Q) * y <= k + 5 / 4 * l)%R).
  { replace ((q - Q) * y)%R with ((x - X) - Q * (y - Y))%R by (rewrite <- Eq, <- EQ; ring).
    assert (- (5 / 4 * l) <= Q * (y - Y) <= 5 / 4 * l)%R by (split; nra). lra. }
  assert (G : (- (4 * (k + 5 / 4 * l)) <= q - Q <= 4 * (k + 5 / 4 * l))%R) by (split; nra).
  assert (C : (Rabs q <= 2)%R) by (apply Rabs_between; lra).
  pose proof (div_accurate a b Na Nb ltac:(fold y; lra) ltac:(apply small_overflow; fold x y q; lra)) as Ac.
  pose proof (accurate_error _ _ _ Ac C) as E. split; [apply Ac |].
  apply Rabs_between in E. fold x y q in E. apply Rabs_between. lra.
Qed.
End Near.

Lemma one_number : number (double_of 1).
Proof. by split_and!; try left. Qed.

Lemma one_value : value (double_of 1) = 1%R.
Proof.
  change (double_of 1) with (S754_finite false 4503599627370496 (-52)). cbn [value signed].
  change (-52) with (- (52)). rewrite bpow_opp, bpow_nonneg by done. change (2 ^ 52) with 4503599627370496. lra.
Qed.

Lemma near_exact y : number y -> near y (value y) 0.
Proof. split; [done |]. rewrite Rminus_diag, Rabs_R0. lra. Qed.

(** Literals of the code. *)
Lemma lit_near n : 29 <= n <= 100 -> near (lit n 100) (IZR n / 100) (30 * eps).
Proof.
  intros Hn. pose proof eps_small as He.
  destruct (integer_near n ltac:(lia)) as [Nn En]. destruct (integer_near 100 ltac:(lia)) as [Nd Ed].
  destruct Hn as [H0%IZR_le H1%IZR_le]. apply Rabs_between in En, Ed. unfold lit.
  set (x := value (double_of n)) in *. set (y := value (double_of 100)) in *. set (q := (x / y)%R).
  assert (Eq : (q * y = x)%R) by (unfold q; field; lra). set (Q := (IZR n / 100)%R).
  assert (EQ : (Q * 100 = IZR n)%R) by (unfold Q; lra).
  assert (G : (- (20 * eps) <= q - Q <= 20 * eps)%R) by (split; nra).
  assert (C : (Rabs q <= 2)%R) by (apply Rabs_between; lra).
  pose proof (div_accurate _ _ Nn Nd ltac:(fold y; lra) ltac:(apply small_overflow; fold x y q; lra)) as Ac.
  pose proof (accurate_error _ _ _ Ac C) as E. split; [apply Ac |].
  apply Rabs_between in E. fold x y q in E. apply Rabs_between. lra.
Qed.

Lemma half_value : number (lit 1 2) /\ value (lit 1 2) = (1 / 2)%R.
Proof.
  change (lit 1 2) with (S754_finite false 4503599627370496 (-53)). split; [by split_and!; try left |].
  cbn [value signed]. rewrite eps_value. lra.
Qed.

(** The factor of the code is the intended one. *)
Lemma factor_near r : number r -> (- (1 / 100) <= value r <= 101 / 100)%R ->
  near (depth_factor r) (ideal_factor (value r)) (600 * eps).
Proof.
  intros N R. pose proof eps_small as He.
  pose proof (lit_near 80 ltac:(lia)) as N80. pose proof (lit_near 50 ltac:(lia)) as N50.
  pose proof (lit_near 60 ltac:(lia)) as N60. pose proof (lit_near 40 ltac:(lia)) as N40.
  pose proof (lit_near 30 ltac:(lia)) as N30. pose proof (near_exact r N) as Nr.
  pose proof (dgeb_values r (lit 80 100) N (proj1 N80)) as G80.
  pose proof (dgeb_values r (lit 50 100) N (proj1 N50)) as G50.
  pose proof (proj2 N80) as [L8 U8]%Rabs_between. pose proof (proj2 N50) as [L5 U5]%Rabs_between.
  unfold depth_factor, ideal_factor. set (x := value r) in *.
  destruct (dgeb r (lit 80 100)); [| destruct (dgeb r (lit 50 100))].
  - pose proof (proj1 G80 eq_refl). split; [apply one_number |]. rewrite one_value. apply Rabs_between.
    repeat destruct Rle_dec; lra.
  - assert (x < value (lit 80 100))%R by (apply Rnot_le_lt; intros ?%G80; done).
    pose proof (proj1 G50 eq_refl).
    pose proof (near_sub _ _ _ _ _ _ Nr N50 ltac:(lra) ltac:(lra) ltac:(lra) ltac:(lra)) as Y1.
    pose proof (near_div _ _ _ _ _ _ Y1 N30 ltac:(lra) ltac:(lra) ltac:(lra) ltac:(lra)) as Y2.
    pose proof (near_mul _ _ _ _ _ _ N40 Y2 ltac:(lra) ltac:(lra) (4 / 10) (5 / 4) ltac:(lra)
      ltac:(lra) ltac:(lra) ltac:(lra)) as Y3.
    pose proof (near_add _ _ _ _ _ _ N60 Y3 ltac:(lra) ltac:(lra) ltac:(lra) ltac:(lra)) as [Y4 Y5].
    split; [exact Y4 |]. apply Rabs_between in Y5. apply Rabs_between. repeat destruct Rle_dec; lra.
  - assert (x < value (lit 50 100))%R by (apply Rnot_le_lt; intros ?%G50; done).
    pose proof (near_div _ _ _ _ _ _ Nr N50 ltac:(lra) ltac:(lra) ltac:(lra) ltac:(lra)) as Y2.
    pose proof (near_mul _ _ _ _ _ _ N30 Y2 ltac:(lra) ltac:(lra) (3 / 10) (5 / 4) ltac:(lra)
      ltac:(lra) ltac:(lra) ltac:(lra)) as Y3.
    pose proof (near_add _ _ _ _ _ _ N30 Y3 ltac:(lra) ltac:(lra) ltac:(lra) ltac:(lra)) as [Y4 Y5].
    split; [exact Y4 |]. apply Rabs_between in Y5. apply Rabs_between. repeat destruct Rle_dec; lra.
Qed.

Lemma factor_lipschitz x y k : (Rabs (x - y) <= k)%R ->
  (Rabs (ideal_factor x - ideal_factor y) <= 4 / 3 * k)%R.
Proof.
  rewrite !Rabs_between. unfold ideal_factor. intros. repeat destruct Rle_dec; split; lra.
Qed.

Lemma factor_range r : (0 <= r)%R -> (3 / 10 <= ideal_factor r <= 1)%R.
Proof. unfold ideal_factor. intros. repeat destruct Rle_dec; lra. Qed.

Lemma near_factor r m : near r m (1100 * eps) -> (0 <= m <= 1)%R ->
  near (depth_factor r) (ideal_factor m) (2100 * eps).
Proof.
  intros [N E] M. pose proof eps_small as He. pose proof (factor_lipschitz _ _ _ E) as L.
  apply Rabs_between in E. destruct (factor_near r N ltac:(lra)) as [Nf Ef]. split; [exact Nf |].
  apply Rabs_between in L, Ef. apply Rabs_between. lra.
Qed.

(** ** Lemmas: the headroom and the load *)

(** A quotient of quantities known to [2 * eps] and [8 * eps]. *)
Lemma quotient_relative x y H D : (1 <= H <= 4294967296)%R -> (1 <= D <= 1000000000000)%R ->
  (Rabs (x - H) <= 2 * eps * H)%R -> (Rabs (y - D) <= 8 * eps * D)%R ->
  (Rabs (x / y - H / D) <= 11 * eps * (H / D))%R /\ (1 / 2 <= y)%R.
Proof.
  intros HH HD Ex Ey. pose proof eps_small as He. apply Rabs_between in Ex, Ey.
  assert (Hy : (99 / 100 * D <= y)%R) by nra. split; [| lra].
  set (q := (x / y)%R). set (Q := (H / D)%R).
  assert (Eq : (q * y = x)%R) by (unfold q; field; lra).
  assert (EQ : (Q * D = H)%R) by (unfold Q; field; lra).
  assert (Q0 : (0 < Q)%R) by (apply Rdiv_pos_pos; lra). clearbody q Q.
  assert (G : (- (10 * eps * H) <= (q - Q) * y <= 10 * eps * H)%R).
  { replace ((q - Q) * y)%R with ((x - H) - Q * (y - D))%R by (rewrite <- Eq, <- EQ; ring).
    assert (- (8 * eps * H) <= Q * (y - D) <= 8 * eps * H)%R by (rewrite <- EQ; split; nra). lra. }
  assert (B : (10 * eps * H <= 11 * eps * Q * y)%R).
  { rewrite <- EQ. replace (10 * eps * (Q * D))%R with (eps * Q * (10 * D))%R by ring.
    replace (11 * eps * Q * y)%R with (eps * Q * (11 * y))%R by ring.
    apply Rmult_le_compat_l; [apply Rmult_le_pos |]; lra. }
  apply Rabs_between. split; nra.
Qed.

Lemma min_near b I : (0 <= I)%R -> (- (16 * eps * I) <= b - I <= 16 * eps * I)%R ->
  (Rabs (Rmin 1 b - Rmin 1 I) <= 60 * eps)%R.
Proof.
  intros I0 B. pose proof eps_small as He. apply Rabs_between. destruct (Rle_dec I 2) as [L | L].
  - assert (16 * eps * I <= 32 * eps)%R by nra. unfold Rmin. repeat destruct Rle_dec; lra.
  - assert (16 * eps * I <= / 100 * I)%R by nra. unfold Rmin. repeat destruct Rle_dec; lra.
Qed.

(** The headroom that the whole policy depth takes. *)
Lemma demand_near m : 1 <= m < 2147483648 ->
  number (dmul (double_of 128) (double_of m)) /\
  (Rabs (value (dmul (double_of 128) (double_of m)) - 128 * IZR m) <= 8 * eps * (128 * IZR m))%R.
Proof.
  intros Hm. pose proof eps_small as He. destruct (integer_near m ltac:(lia)) as [Nm Em].
  destruct (integer_near 128 ltac:(lia)) as [Nc Ec].
  assert (Rm : (1 <= IZR m <= 2147483648)%R) by (split; apply IZR_le; lia).
  set (M := IZR m) in *. apply Rabs_between in Em, Ec.
  set (c := value (double_of 128)) in *. set (v := value (double_of m)) in *.
  assert (P : (- (5 * eps * (128 * M)) <= c * v - 128 * M <= 5 * eps * (128 * M))%R).
  { replace (c * v - 128 * M)%R with ((c - 128) * v + 128 * (v - M))%R by ring.
    assert (- (257 * eps * M) <= (c - 128) * v <= 257 * eps * M)%R by (split; nra). lra. }
  assert (P0 : (127 * M <= c * v <= 129 * M)%R) by (split; nra).
  pose proof (mul_accurate _ _ Nc Nm) as A. fold c v in A.
  specialize (A ltac:(apply small_overflow, Rabs_between; lra)).
  pose proof (accurate_relative _ _ A) as E.
  specialize (E ltac:(apply Rle_trans with (bpow 0); [by apply bpow_le | change (bpow 0) with 1%R; lra])).
  split; [apply A |]. apply Rabs_between in E. apply Rabs_between.
  assert (2 * eps * (c * v) <= 3 * eps * (128 * M))%R by nra. lra.
Qed.

Lemma memory_near m h : 1 <= m < 2147483648 -> 1 <= h < 4294967296 ->
  near (dmin (double_of 1) (ddiv (double_of h) (dmul (double_of 128) (double_of m))))
    (Rmin 1 (IZR h / (128 * IZR m))) (60 * eps).
Proof.
  intros Hm Hh. pose proof eps_small as He. destruct (integer_near h ltac:(lia)) as [Nh Eh].
  destruct (demand_near m Hm) as [Ny Ey].
  assert (Rm : (1 <= IZR m <= 2147483648)%R) by (split; apply IZR_le; lia).
  assert (Rh : (1 <= IZR h <= 4294967296)%R) by (split; apply IZR_le; lia).
  set (D := (128 * IZR m)%R) in *. set (H := IZR h) in *.
  assert (RD : (1 <= D <= 300000000000)%R) by (unfold D; lra). clearbody D H.
  set (y := dmul (double_of 128) (double_of m)) in *.
  destruct (quotient_relative _ _ H D ltac:(lra) ltac:(lra) Eh Ey) as [Eq Hy].
  set (I := (H / D)%R) in *. assert (EI : (I * D = H)%R) by (unfold I; field; lra).
  assert (I0 : (/ 1000000000000 <= I <= 4294967296)%R) by (split; nra). clearbody I.
  pose proof (div_accurate _ _ Nh Ny ltac:(lra)) as A. set (q := (value (double_of h) / value y)%R) in *.
  apply Rabs_between in Eq. assert (Q0 : (/ 2000000000000 <= q <= 2 * I)%R) by (split; nra).
  specialize (A ltac:(apply small_overflow, Rabs_between; lra)).
  pose proof (accurate_relative _ _ A) as E. specialize (E ltac:(apply Rle_trans with (bpow (-50));
    [by apply bpow_le | rewrite bpow_minus_50; lra])).
  destruct A as [N _]. destruct (dmin_values (double_of 1) _ one_number N) as [Nx Vx].
  split; [exact Nx |]. rewrite Vx, one_value. apply min_near; [lra |]. apply Rabs_between in E.
  assert (2 * eps * q <= 4 * eps * I)%R by nra. lra.
Qed.

Lemma load_near s : number s ->
  near (dsub (double_of 1) (dmul (lit 1 2) (dclamp s (double_of 0) (double_of 1))))
    (ideal_load (value s)) (20 * eps) /\ (1 / 2 <= ideal_load (value s) <= 1)%R.
Proof.
  intros N. pose proof eps_small as He. destruct half_value as [Nh Vh].
  destruct (dclamp_values s (double_of 0) (double_of 1) N I one_number) as [Nc Vc];
    [rewrite one_value; simpl; lra |].
  rewrite one_value in Vc. change (value (double_of 0)) with 0%R in Vc. unfold ideal_load.
  set (c := dclamp _ _ _) in *.
  assert (R : (0 <= Rmax 0 (Rmin (value s) 1) <= 1)%R) by (unfold Rmax, Rmin; repeat destruct Rle_dec; lra).
  split; [| lra]. rewrite <- Vc in *.
  pose proof (near_exact _ Nc) as A. pose proof (near_exact _ Nh) as B. rewrite Vh in B.
  pose proof (near_exact _ one_number) as D. rewrite one_value in D.
  pose proof (near_mul _ _ _ _ _ _ B A ltac:(lra) ltac:(lra) (1 / 2) 1 ltac:(lra) ltac:(lra) ltac:(lra)
    ltac:(lra)) as E.
  eapply near_weaken; [apply (near_sub _ _ _ _ _ _ D E); lra | lra].
Qed.

Lemma memory_range m h : 1 <= m -> 0 <= h -> (0 <= ideal_memory m h <= 1)%R.
Proof.
  intros Hm%IZR_le Hh%IZR_le. unfold ideal_memory. case_ztest; [lra |].
  assert (0 <= IZR h / (128 * IZR m))%R by (apply Rmult_le_pos; [done |]; apply Rlt_le, Rinv_0_lt_compat; lra).
  unfold Rmin. destruct Rle_dec; lra.
Qed.

Lemma scaled_near r m h s q : near r q (1100 * eps) -> (0 <= q <= 1)%R -> number s ->
  1 <= m < 2147483648 -> is_u32 h ->
  near (scaled_depth r m h s)
    (IZR m * (ideal_factor q * ideal_memory m h * ideal_load (value s))) (IZR m * (2400 * eps)).
Proof.
  intros Hr Hq Hs Hm Hh. pose proof eps_small as He. unfold is_u32 in Hh.
  assert (RM : (1 <= IZR m <= 4294967296)%R) by (split; apply IZR_le; lia).
  pose proof (near_factor r q Hr Hq) as F. pose proof (factor_range q (proj1 Hq)) as RF.
  pose proof (memory_range m h ltac:(lia) ltac:(lia)) as RMem.
  destruct (load_near s Hs) as [L RL].
  assert (N0 : near (double_of m) (IZR m * 1) (IZR m * (2 * eps))).
  { destruct (integer_near m ltac:(lia)) as [Nm Em]. split; [exact Nm |].
    by rewrite Rmult_1_r, (Rmult_comm (IZR m)). }
  pose proof (product_near _ _ _ 1 (ideal_factor q) (2 * eps) (2100 * eps) RM ltac:(lra) ltac:(lra)
    ltac:(lra) ltac:(lra) N0 F) as N1.
  rewrite Rmult_1_l in N1. unfold scaled_depth. cbv zeta.
  set (depth := dmul (double_of m) (depth_factor r)) in *.
  set (depth' := if h =? 0 then depth else _).
  assert (N2 : near depth' (IZR m * (ideal_factor q * ideal_memory m h)) (IZR m * (2200 * eps))).
  { unfold depth', ideal_memory. destruct (Z.eqb_spec h 0).
    - rewrite Rmult_1_r. apply (near_weaken _ _ _ _ N1). apply Rmult_le_compat_l; lra.
    - unfold ideal_memory in RMem. rewrite (proj2 (Z.eqb_neq h 0)) in RMem by done.
      pose proof (memory_near m h ltac:(lia) ltac:(lia)) as Mn.
      pose proof (product_near _ _ _ (ideal_factor q) (Rmin 1 (IZR h / (128 * IZR m)))
        (1001 / 1000 * (2 * eps) + 2100 * eps + 3 * eps) (60 * eps) RM ltac:(lra) ltac:(lra)
        ltac:(lra) ltac:(lra) N1 Mn) as N2.
      apply (near_weaken _ _ _ _ N2). apply Rmult_le_compat_l; lra. }
  pose proof (product_near _ _ _ (ideal_factor q * ideal_memory m h) (ideal_load (value s))
    (2200 * eps) (20 * eps) RM ltac:(split; nra) ltac:(lra) ltac:(lra) ltac:(lra) N2 L) as N3.
  apply (near_weaken _ _ _ _ N3).
  apply Rmult_le_compat_l; lra.
Qed.

(** Rounding what is within [1/1000] of the ideal, and clamping. *)
Lemma rounded_in_range `{Platform} m y x : 1 <= m < 2147483648 -> number y ->
  (Rabs (value y - x) <= / 1000)%R -> (0 <= x <= IZR m)%R ->
  0 <= llround y <= m /\ (Rabs (IZR (llround y) - x) <= 1 / 2 + / 1000)%R.
Proof.
  intros Hm N E X. apply Rabs_between in E.
  assert (M : (IZR m <= 2147483648)%R) by (apply IZR_le; lia).
  pose proof (llround_near y N) as R. specialize (R ltac:(rewrite bpow_nonneg by done;
    apply Rle_lt_trans with 2147483649%R; [apply Rabs_between; lra | by apply IZR_lt])).
  apply Rabs_between in R. split; [| apply Rabs_between; lra].
  split; apply Z.lt_succ_r, lt_IZR; rewrite ?succ_IZR; lra.
Qed.

(** ** The property *)

Section Depth.
  Context `{Platform}.

(** C36: the adaptive depth is the intended one.  For a policy depth of a
    positive [int] (others make the clamp undefined), any headroom, any finite
    saturation, and up to 1024 acceptance ratios between 0 and 1, [choose_depth]
    is defined.  Without a history, or when the policy
    does not adapt, it is the policy depth.  Otherwise it is the real number
    that the code means to compute - the policy depth times a factor of the
    mean ratio (1 from 0.8 on, from 0.6 to 1 above 0.5, from 0.3 to 0.6 below),
    times the share of 128 units of headroom per token, times 1 minus half the
    saturation clamped to the unit interval - rounded to an integer and raised
    to at least 1; all the rounding of the double arithmetic together moves it
    by less than a thousandth. *)
Theorem choose_depth_accurate policy headroom saturation a :
  1 <= pol_max_depth policy < 2147483648 -> is_u32 headroom -> number saturation ->
  Forall ratio (history_ a) -> zlen (history_ a) <= 1024 ->
  (pol_adaptive_depth_enabled policy = false \/ history_ a = [] ->
   choose_depth policy headroom saturation a = Some (pol_max_depth policy)) /\
  (pol_adaptive_depth_enabled policy = true -> history_ a <> [] ->
   exists d, choose_depth policy headroom saturation a = Some (Z.max 1 d) /\
     0 <= d <= pol_max_depth policy /\
     (Rabs (IZR d - ideal_depth (pol_max_depth policy) headroom (value saturation) (history_ a))
      <= 1 / 2 + / 1000)%R).
Proof.
  intros Hm Hh Hs F Hn. unfold choose_depth. split.
  { by intros [-> | ->]; [| rewrite orb_true_r]. }
  intros -> Ne. set (m := pol_max_depth policy) in *.
  replace (match history_ a with [] => true | _ => false end) with false by (by destruct (history_ a)).
  cbn [negb orb]. destruct (average_near a F Ne Hn) as [A Rq].
  destruct (scaled_near _ m headroom saturation _ A Rq Hs Hm Hh) as [N E].
  assert (RM : (1 <= IZR m <= 2147483648)%R) by (split; apply IZR_le; lia).
  pose proof (factor_range _ (proj1 Rq)) as RF. pose proof (memory_range m headroom ltac:(lia)) as RMem.
  specialize (RMem ltac:(unfold is_u32 in Hh; lia)). destruct (load_near _ Hs) as [_ RL].
  set (X := (ideal_factor _ * ideal_memory m headroom * ideal_load _)%R) in *.
  assert (RX : (0 <= X <= 1)%R).
  { unfold X. assert (0 <= ideal_factor (mean (history_ a)) * ideal_memory m headroom <= 1)%R
      by (split; nra). split; nra. }
  destruct (rounded_in_range m _ (IZR m * X) Hm N) as [[D0 D1] D].
  { apply Rle_trans with (1 := E). rewrite eps_value. lra. }
  { split; nra. }
  set (d := llround _) in *. exists d.
  rewrite (u32_small d), !int32_small by (unfold is_u32; lia).
  unfold iclamp. rewrite (proj2 (Z.ltb_ge _ _)) by lia.
  split; [| split; [lia | exact D]].
  rewrite u32_small by (unfold is_u32; repeat case_ztest; lia). f_equal. repeat case_ztest; lia.
Qed.
End Depth.

(** Half the tokens accepted, then all of them; headroom for half the policy
    depth. *)
Definition mixed_history : AdaptiveDepth := mkAdaptiveDepth [lit 1 2; double_of 1] 32.

Lemma mixed_history_ratios : Forall ratio (history_ mixed_history).
Proof.
  destruct half_value as [N V]. constructor; [split; [exact N | rewrite V; lra] |].
  constructor; [split; [exact one_number | rewrite one_value; lra] | constructor].
Qed.

Example mixed_depth :
  @choose_depth x64_platform (ProposalPolicy_default <| pol_max_depth := 8 |>) 512 (double_of 0)
    mixed_history = Some 4.
Proof. vm_compute. reflexivity. Qed.

Lemma choose_depth_accurate_witness :
  exists d,
    @choose_depth x64_platform (ProposalPolicy_default <| pol_max_depth := 8 |>) 512 (double_of 0)
      mixed_history = Some (Z.max 1 d) /\ 0 <= d <= 8 /\
    (Rabs (IZR d - ideal_depth 8 512 (value (double_of 0)) (history_ mixed_history))
     <= 1 / 2 + / 1000)%R.
Proof.
  apply (proj2 (@choose_depth_accurate x64_platform (ProposalPolicy_default <| pol_max_depth := 8 |>)
    512 (double_of 0) mixed_history ltac:(in_range) ltac:(in_range) I mixed_history_ratios
    ltac:(in_range))); [reflexivity | discriminate].
Defined.
