(* ===== verification/Scheduler.v ===== *)
(** * Requests and the speculation scheduler (request.hpp, fabric.hpp,
    the scheduler part of fabric.cpp)

    The request record, and the scheduler's two decisions: the proposal plan
    of a cycle and the backpressure check before it. *)

From S2P Require Import Prelude Errors Ids Doubles Model Data Policy.

(** [struct SpeculationRequest]. *)
Record SpeculationRequest : Set := mkSpeculationRequest {
  rq_id : RequestId;
  rq_sequence : SequenceId;
  rq_tenant : TenantId;
  rq_client : ClientId;
  rq_target_model : ModelIdentity;
  rq_draft_model : ModelIdentity;
  rq_pair_key : ModelPairCompatibilityKey;
  rq_prefix : list Z;
  rq_max_attempts : Z;
  rq_deadline_ns : option Z;
  rq_policy : ProposalPolicy;
  rq_prompt_label : string
}.

Definition SpeculationRequest_default : SpeculationRequest :=
  mkSpeculationRequest null_id null_id null_id null_id ModelIdentity_default
    ModelIdentity_default ModelPairCompatibilityKey_default [] 3 None ProposalPolicy_default
    EmptyString.

#[export] Instance eta_SpeculationRequest : Etable SpeculationRequest := fun r =>
  mkSpeculationRequest (rq_id r) (rq_sequence r) (rq_tenant r) (rq_client r) (rq_target_model r)
    (rq_draft_model r) (rq_pair_key r) (rq_prefix r) (rq_max_attempts r) (rq_deadline_ns r)
    (rq_policy r) (rq_prompt_label r).

(** [class SpeculationScheduler]. *)
Record SpeculationScheduler : Set := mkScheduler {
  sch_policy : ProposalPolicy;
  sch_adaptive : AdaptiveDepth
}.

(** [explicit SpeculationScheduler(ProposalPolicy)]. *)
Definition new_scheduler (policy : ProposalPolicy) : SpeculationScheduler :=
  mkScheduler policy AdaptiveDepth_default.

#[export] Instance eta_SpeculationScheduler : Etable SpeculationScheduler := fun r =>
  mkScheduler (sch_policy r) (sch_adaptive r).

(** The dispatch token of a plan. *)
Definition plan_dispatch (req : SpeculationRequest) (auth_generation : AuthGeneration)
  : DispatchId :=
  mkId (Z.lxor (u64 (get (rq_id req) * 0x100000001B3))
          (u64 (get auth_generation * 0x9E3779B97F4A7C15))).

(** The depth [plan_proposal] settles on, before the final maximum with 1. *)
Definition plan_depth `{Platform} (s : SpeculationScheduler) (available_depth_headroom
    available_memory_headroom : Z) (verifier_saturation : double) : option Z :=
  let policy := sch_policy s in
  let depth := pol_max_depth policy in
  let depth :=
    match pol_latency_class policy with
    | LatencyClass.Interactive => Z.min 2 (pol_max_depth policy)
    | _ => depth
    end in
  let depth :=
    if negb (available_depth_headroom =? 0) then Z.min depth available_depth_headroom
    else depth in
  if pol_adaptive_depth_enabled policy then
    choose_depth policy available_memory_headroom verifier_saturation (sch_adaptive s)
  else Some depth.

(** [plan_proposal]: the plan and the rationale it fills in; [None] when the
    depth choice is undefined. *)
Definition plan_proposal `{Platform} (s : SpeculationScheduler) (req : SpeculationRequest)
    (auth_generation : AuthGeneration) (available_depth_headroom available_memory_headroom : Z)
    (verifier_saturation : double) : option (ProposalPlan * ProposalRationale) :=
  depth ← plan_depth s available_depth_headroom available_memory_headroom verifier_saturation;
  let depth := Z.max 1 depth in
  let branch_count := Z.max 1 (pol_max_branches (sch_policy s)) in
  let rationale :=
    mkProposalRationale depth branch_count
      (if pol_adaptive_depth_enabled (sch_policy s)
       then "adaptive depth " +:+ pretty depth +:+ " from acceptance history"
       else "fixed policy depth " +:+ pretty depth)
      ("branch count " +:+ pretty branch_count +:+ " from policy")
      ("draft model " +:+ mdl_name (rq_draft_model req))
      ("target model " +:+ mdl_name (rq_target_model req)) in
  let plan :=
    ProposalPlan_default
      <| pl_request := rq_id req |>
      <| pl_sequence := rq_sequence req |>
      <| pl_attempt := null_id |>
      <| pl_depth := depth |>
      <| pl_branch_count := branch_count |>
      <| pl_proposer := rq_draft_model req |>
      <| pl_dispatch := plan_dispatch req auth_generation |>
      <| pl_rationale := rat_depth_reason rationale +:+ "; " +:+ rat_proposer_reason rationale |> in
  Some (plan, rationale).

(** [check_backpressure]; the request and the active branches are unused. *)
Definition check_backpressure (s : SpeculationScheduler) (req : SpeculationRequest)
    (active_branches outstanding_speculative memory_headroom : Z) (acceptance_ratio : double)
  : BackpressureDecision :=
  let policy := sch_policy s in
  if negb (pol_speculating_enabled policy) then
    bp_deny BackpressureReason.None "speculation disabled by policy"
  else if (pol_max_outstanding_speculative_work policy <=? outstanding_speculative)
          && negb (pol_max_outstanding_speculative_work policy =? 0) then
    bp_deny BackpressureReason.OutstandingLimit "outstanding speculative work limit"
  else if memory_headroom =? 0 then
    bp_deny BackpressureReason.MemoryHeadroom "no memory headroom"
  else if dgtb (pol_min_economic_acceptance_ratio policy) (double_of 0)
          && dltb acceptance_ratio (pol_min_economic_acceptance_ratio policy) then
    bp_deny BackpressureReason.EconomicsBelowThreshold "acceptance economics below threshold"
  else bp_allow.

(** ** Lemmas *)

(** What a cycle needs to get past the backpressure check. *)
Definition backpressure_clear (s : SpeculationScheduler) (outstanding memory_headroom : Z)
    (ratio : double) : Prop :=
  let policy := sch_policy s in
  pol_speculating_enabled policy = true /\
  (pol_max_outstanding_speculative_work policy = 0 \/
   outstanding < pol_max_outstanding_speculative_work policy) /\
  memory_headroom <> 0 /\
  (dgtb (pol_min_economic_acceptance_ratio policy) (double_of 0) = false \/
   dltb ratio (pol_min_economic_acceptance_ratio policy) = false).

Lemma check_backpressure_iff s req active outstanding headroom ratio :
  bp_blocked (check_backpressure s req active outstanding headroom ratio) = false <->
  backpressure_clear s outstanding headroom ratio.
Proof.
  unfold check_backpressure, backpressure_clear. cbv zeta.
  destruct (pol_speculating_enabled (sch_policy s)); simpl; [| naive_solver].
  destruct (dgtb _ _), (dltb _ _); repeat case_ztest; simpl; naive_solver lia.
Qed.

(** Backpressure is exact and explained: a cycle is let through exactly
    when speculation is enabled, the outstanding work is under its limit,
    there is memory headroom and the acceptance economics hold; a refusal
    always names its reason, tested in that order. *)
Theorem check_backpressure_correct s req active outstanding headroom ratio :
  let d := check_backpressure s req active outstanding headroom ratio in
  (bp_blocked d = false <-> backpressure_clear s outstanding headroom ratio) /\
  (bp_blocked d = true -> bp_detail d <> EmptyString) /\
  (bp_reason d = BackpressureReason.OutstandingLimit <->
   pol_speculating_enabled (sch_policy s) = true /\
   pol_max_outstanding_speculative_work (sch_policy s) <> 0 /\
   pol_max_outstanding_speculative_work (sch_policy s) <= outstanding).
Proof.
  intros d. split; [apply check_backpressure_iff |].
  unfold d, check_backpressure. cbv zeta.
  destruct (pol_speculating_enabled (sch_policy s)); simpl; [| naive_solver].
  destruct (dgtb _ _), (dltb _ _); repeat case_ztest; simpl; naive_solver lia.
Qed.

Section Plan.
  Context `{Platform}.

Lemma plan_depth_bounds s dh mh sat :
  1 <= pol_max_depth (sch_policy s) < 2147483648 -> 0 <= dh ->
  exists d, plan_depth s dh mh sat = Some d /\ 1 <= Z.max 1 d <= pol_max_depth (sch_policy s).
Proof.
  intros Hm Hh. unfold plan_depth. cbv zeta.
  destruct (pol_adaptive_depth_enabled (sch_policy s)) eqn:Ha.
  - unfold choose_depth. destruct (negb _ || _); [eexists; split; [done | lia] |].
    rewrite (int32_small (pol_max_depth (sch_policy s))) by lia.
    unfold iclamp. rewrite (proj2 (Z.ltb_ge _ _)) by lia.
    eexists; split; [done |]. rewrite u32_small; [| unfold is_u32]; repeat case_ztest; lia.
  - destruct (pol_latency_class (sch_policy s)); case_ztest; simpl; eexists; split; (done || lia).
Qed.

(** A policy that always asks for its full depth. *)
Definition fixed_depth (policy : ProposalPolicy) : Prop :=
  pol_adaptive_depth_enabled policy = false /\ pol_latency_class policy <> LatencyClass.Interactive.

Lemma plan_depth_fixed s mh sat :
  fixed_depth (sch_policy s) -> plan_depth s 0 mh sat = Some (pol_max_depth (sch_policy s)).
Proof.
  intros [A L]. unfold plan_depth. rewrite A. by destruct (pol_latency_class (sch_policy s)).
Qed.

(** Every plan is executable: for a policy depth of a positive [int] the
    plan exists, asks for between 1 and [max_depth] tokens and for at least
    one branch, and identifies the request, its sequence and its draft
    model. *)
Theorem plan_proposal_correct s req gen dh mh sat :
  1 <= pol_max_depth (sch_policy s) < 2147483648 -> 0 <= dh ->
  exists plan rationale,
    plan_proposal s req gen dh mh sat = Some (plan, rationale) /\
    1 <= pl_depth plan <= pol_max_depth (sch_policy s) /\
    pl_branch_count plan = Z.max 1 (pol_max_branches (sch_policy s)) /\
    pl_request plan = rq_id req /\ pl_sequence plan = rq_sequence req /\
    pl_proposer plan = rq_draft_model req /\
    rat_depth rationale = pl_depth plan /\
    (pol_adaptive_depth_enabled (sch_policy s) = false ->
     (pol_latency_class (sch_policy s) = LatencyClass.Interactive -> pl_depth plan <= 2) /\
     (dh <> 0 -> pl_depth plan <= dh)).
Proof.
  intros Hm Hh. unfold plan_proposal.
  destruct (plan_depth_bounds s dh mh sat Hm Hh) as (d & Ed & Hd). rewrite Ed. simpl.
  do 2 eexists. split; [reflexivity |]. simpl.
  repeat (split; [first [done | lia] |]).
  intros Ha. unfold plan_depth in Ed. rewrite Ha in Ed. cbv zeta in Ed.
  injection Ed as <-. split.
  - intros ->. case_ztest; simpl; lia.
  - intros Hdh. destruct (pol_latency_class (sch_policy s)); case_ztest; simpl; lia.
Qed.

(** Adaptive depth overrides the latency class.  With adaptive depth
    enabled, an interactive policy and a depth headroom do not limit the
    plan: while the history is empty the planned depth is [max_depth]. *)
Theorem adaptive_plan_ignores_latency_class s req gen dh mh sat :
  pol_adaptive_depth_enabled (sch_policy s) = true -> history_ (sch_adaptive s) = [] ->
  1 <= pol_max_depth (sch_policy s) ->
  exists plan rationale,
    plan_proposal s req gen dh mh sat = Some (plan, rationale) /\
    pl_depth plan = pol_max_depth (sch_policy s).
Proof.
  intros Ha Hh Hm. unfold plan_proposal, plan_depth, choose_depth. rewrite Ha, Hh. simpl.
  do 2 eexists. split; [reflexivity |]. simpl. lia.
Qed.
End Plan.

Definition interactive_policy : ProposalPolicy :=
  ProposalPolicy_default <| pol_latency_class := LatencyClass.Interactive |>
    <| pol_max_depth := 8 |>.

Lemma plan_proposal_correct_witness :
  exists plan rationale,
    @plan_proposal x64_platform
      (new_scheduler (interactive_policy <| pol_adaptive_depth_enabled := false |>))
      SpeculationRequest_default null_id 5 0 (double_of 0) = Some (plan, rationale) /\
    1 <= pl_depth plan <= 2.
Proof.
  destruct (@plan_proposal_correct x64_platform
    (new_scheduler (interactive_policy <| pol_adaptive_depth_enabled := false |>))
    SpeculationRequest_default null_id 5 0 (double_of 0) ltac:(in_range) ltac:(lia))
    as (plan & rationale & E & D & _ & _ & _ & _ & _ & F).
  exists plan, rationale. split; [exact E |].
  destruct (F eq_refl) as [G _]. specialize (G eq_refl). lia.
Defined.

Lemma adaptive_plan_ignores_latency_class_witness :
  exists plan rationale,
    @plan_proposal x64_platform (new_scheduler interactive_policy) SpeculationRequest_default
      null_id 5 0 (double_of 0) = Some (plan, rationale) /\ pl_depth plan = 8.
Proof.
  apply (@adaptive_plan_ignores_latency_class x64_platform (new_scheduler interactive_policy));
    [reflexivity | reflexivity | in_range].
Defined.
