(* ===== verification/Synthetic.v ===== *)
(** * The deterministic synthetic model (cpu_proposer.hpp and the model parts
    of cpu_proposer.cpp and cpu_verifier.cpp)

    The integer recurrence the CPU and CUDA executors run: a state of 16
    32-bit words, a token derived from it, and a step that feeds the token
    back.  [draft_tokens] is the proposer's loop, [judge] the verifier's; the
    lemmas relate both to [target_tokens], the sequence the target model
    produces on its own. *)

From S2P Require Import Prelude Ids Data.

(** ** The model *)

Definition kTargetModelSeed : Z := 0x5A17B0C.

Definition kSyntheticVocab : Z := 4096.

Definition kStateWords : nat := 16.

(** [struct SyntheticModel]. *)
Record SyntheticModel : Set := mkModel {
  weights : list (list Z);
  bias : list Z;
  mix_a : Z;
  mix_b : Z
}.

(** [splitmix64_update(x)]: the word drawn and the advanced generator. *)
Definition splitmix64_update (x : Z) : Z * Z :=
  let x := u64 (x + 0x9E3779B97F4A7C15) in
  let z := x in
  let z := u64 (Z.lxor z (Z.shiftr z 30) * 0xBF58476D1CE4E5B9) in
  let z := u64 (Z.lxor z (Z.shiftr z 27) * 0x94D049BB133111EB) in
  let z := Z.lxor z (Z.shiftr z 31) in
  (u32 z, x).

(** The loop [for (j < n) out[j] = splitmix64_update(x) & mask]. *)
Fixpoint draw_words (mask : Z) (n : nat) (x : Z) : list Z * Z :=
  match n with
  | O => ([], x)
  | S n =>
      let '(w, x) := splitmix64_update x in
      let '(ws, x) := draw_words mask n x in
      (Z.land w mask :: ws, x)
  end.

(** The outer loop of [make_model]: a row of weights, then its bias. *)
Fixpoint draw_rows (n : nat) (x : Z) : list (list Z) * list Z * Z :=
  match n with
  | O => ([], [], x)
  | S n =>
      let '(row, x) := draw_words 0xFFFF kStateWords x in
      let '(b, x) := splitmix64_update x in
      let '(rows, bs, x) := draw_rows n x in
      (row :: rows, Z.land b 0xFFFF :: bs, x)
  end.

(** [make_model(weight_seed)]. *)
Definition make_model (weight_seed : Z) : SyntheticModel :=
  let x := Z.lor weight_seed (Z.shiftl 1 32) in
  let '(rows, bs, _) := draw_rows kStateWords x in
  mkModel rows bs 0x9E3779B9 0x85EBCA6B.

(** [seed_state(seed, state)]. *)
Definition seed_state (seed : Z) : list Z :=
  (draw_words 0xFFFFFFFF kStateWords seed).1.

(** The inner loop of [step]: one word of the next state. *)
Definition step_word (m : SyntheticModel) (state : list Z) (prev_token : Z)
    (row : list Z * Z) : Z :=
  fold_left (fun acc sw => Z.lxor (u32 (acc * mix_b m)) (u32 (sw.1 * sw.2)))
    (zip state row.1) (Z.lxor row.2 (u32 (mix_a m * prev_token))).

(** [step(state, prev_token)]. *)
Definition step (m : SyntheticModel) (state : list Z) (prev_token : Z) : list Z :=
  map (step_word m state prev_token) (zip (weights m) (bias m)).

(** [state[i]] of a state array, all of whose indices are in range. *)
Definition word (state : list Z) (i : nat) : Z := nth i state 0.

(** [token(state, index, prev_token, vocab_size)]. *)
Definition token (m : SyntheticModel) (state : list Z) (index prev_token vocab_size : Z) : Z :=
  let raw :=
    Z.lxor (Z.lxor (Z.lxor (Z.lxor (Z.lxor (word state 0) (word state 7)) (word state 13))
      (u32 (mix_a m * u32 (index + 1)))) (mix_b m)) prev_token in
  if vocab_size =? 0 then 0 else raw mod vocab_size.

(** [mix64(a, b, c, d)]. *)
Definition mix64 (a b c d : Z) : Z :=
  let x := Z.lxor (u64 (a * 0x9E3779B97F4A7C15)) b in
  let x := u64 (Z.lxor x (Z.shiftr x 27) * 0xBF58476D1CE4E5B9) in
  let x := u64 (Z.lxor x (Z.shiftr x 31) * 0x94D049BB133111EB) in
  let x := u64 (Z.lxor x (Z.shiftr x 27) + u64 (c * 0x9E3779B97F4A7C15)) in
  let x := Z.lxor x d in
  let x := u64 (Z.lxor x (Z.shiftr x 30) * 0xBF58476D1CE4E5B9) in
  let x := u64 (Z.lxor x (Z.shiftr x 29) * 0x94D049BB133111EB) in
  Z.lxor x (Z.shiftr x 32).

(** ** The two loops *)

(** The token a draft emits where the target expects [expected]. *)
Definition draft_token (aligned_tokens branch_index i expected : Z) : Z :=
  if i <? aligned_tokens then expected
  else u32 (expected + 1 + branch_index) mod kSyntheticVocab.

(** The proposer's loop from index [i]: [n] tokens. *)
Fixpoint draft_tokens (m : SyntheticModel) (aligned_tokens branch_index : Z) (n : nat)
    (i : Z) (state : list Z) (prev : Z) : list Token :=
  match n with
  | O => []
  | S n =>
      let expected := token m state i prev kSyntheticVocab in
      let tok := draft_token aligned_tokens branch_index i expected in
      token_of tok :: draft_tokens m aligned_tokens branch_index n (i + 1) (step m state tok) tok
  end.

(** What the verifier's loop accumulates. *)
Record Verdict : Set := mkVerdict {
  per_position : list Z;
  accepted_prefix : Z;
  first_rejection_index : Z
}.

(** The verifier's loop from index [i] over the remaining candidate tokens;
    [n] is the candidate length. *)
Fixpoint judge (m : SyntheticModel) (n : Z) (cand : list Token) (i : Z) (state : list Z)
    (prev : Z) (v : Verdict) : Verdict :=
  match cand with
  | [] => v
  | t :: cand =>
      let expected := token m state i prev kSyntheticVocab in
      let accepted := expected =? tk_id t in
      let v :=
        mkVerdict (per_position v ++ [if accepted then 1 else 0])
          (if accepted then u32 (accepted_prefix v + 1) else accepted_prefix v)
          (if accepted then first_rejection_index v
           else if first_rejection_index v =? n then i else first_rejection_index v) in
      judge m n cand (i + 1) (step m state expected) expected v
  end.

(** ** The reference sequence *)

(** The first [n] tokens of the target model itself. *)
Fixpoint target_tokens (m : SyntheticModel) (n : nat) (i : Z) (state : list Z) (prev : Z)
  : list Z :=
  match n with
  | O => []
  | S n =>
      let e := token m state i prev kSyntheticVocab in
      e :: target_tokens m n (i + 1) (step m state e) e
  end.

(** The length of the longest common prefix. *)
Fixpoint lcp (a b : list Z) : Z :=
  match a, b with
  | x :: a, y :: b => if x =? y then 1 + lcp a b else 0
  | _, _ => 0
  end.

(** The per-position matches of two sequences, as the verifier reports them,
    and how many there are. *)
Definition matches (a b : list Z) : list Z :=
  map (fun ab => if ab.1 =? ab.2 then 1 else 0) (zip a b).

Definition match_count (a b : list Z) : Z := fold_right Z.add 0 (matches a b).

Definition ids (l : list Token) : list Z := map tk_id l.

(** ** Lemmas *)

Section Sequences.
  Implicit Types a b : list Z.

Lemma lcp_nonneg a b : 0 <= lcp a b.
Proof. revert b. induction a as [| x a IH]; intros [| y b]; simpl; try lia. specialize (IH b). case_ztest; lia. Qed.

Lemma lcp_take a b : take (Z.to_nat (lcp a b)) a = take (Z.to_nat (lcp a b)) b.
Proof.
  revert b. induction a as [| x a IH]; intros [| y b]; try done. simpl.
  destruct (Z.eqb_spec x y) as [-> |]; [| done]. pose proof (lcp_nonneg a b).
  replace (Z.to_nat (1 + lcp a b)) with (S (Z.to_nat (lcp a b))) by lia.
  simpl. by rewrite IH.
Qed.

Lemma lcp_refl a : lcp a a = zlen a.
Proof. induction a as [| x a IH]; [done |]. simpl. rewrite Z.eqb_refl, zlen_cons. lia. Qed.

Lemma lcp_le a b : lcp a b <= zlen a.
Proof.
  revert b. induction a as [| x a IH]; intros b; [done |].
  pose proof (zlen_nonneg a). destruct b as [| y b]; simpl; rewrite zlen_cons; [lia |].
  specialize (IH b). case_ztest; lia.
Qed.

Lemma match_count_cons x y a b :
  match_count (x :: a) (y :: b) = (if x =? y then 1 else 0) + match_count a b.
Proof. reflexivity. Qed.

Lemma match_count_range a b : lcp a b <= match_count a b <= zlen a.
Proof.
  revert b. induction a as [| x a IH]; intros [| y b];
    [done | done | unfold match_count; simpl; pose proof (zlen_nonneg (x :: a)); lia |].
  rewrite match_count_cons, zlen_cons. simpl. specialize (IH b).
  pose proof (lcp_nonneg a b). case_ztest; lia.
Qed.

(** All positions match exactly when the sequences are equal. *)
Lemma match_count_full a b : length a = length b -> match_count a b = zlen a <-> a = b.
Proof.
  revert b. induction a as [| x a IH]; intros [| y b] Hl; try done. simpl in Hl.
  rewrite match_count_cons, zlen_cons. pose proof (match_count_range a b) as R.
  specialize (IH b ltac:(lia)). destruct (Z.eqb_spec x y) as [-> | N].
  - rewrite <- (Z.add_cancel_l _ _ 1) in IH. rewrite IH. naive_solver.
  - split; [lia | intros [= E _]; contradiction].
Qed.

Lemma match_count_zero a b :
  match_count a b = 0 <-> Forall (fun v => v = 0) (matches a b).
Proof.
  assert (P : Forall (fun v => 0 <= v) (matches a b)).
  { unfold matches. apply Forall_map, Forall_true. intros ab. case_ztest; lia. }
  unfold match_count. induction P as [| v l Hv Hl IH]; simpl; [done |].
  assert (0 <= fold_right Z.add 0 l) by (clear -Hl; induction Hl; simpl; lia).
  rewrite Forall_cons. rewrite <- IH. lia.
Qed.
End Sequences.

Section Loops.
  Context (m : SyntheticModel).

Lemma token_range state i prev : 0 <= token m state i prev kSyntheticVocab < kSyntheticVocab.
Proof. unfold token, kSyntheticVocab. simpl. apply Z.mod_pos_bound. lia. Qed.

Lemma length_target_tokens n : forall i state prev,
  length (target_tokens m n i state prev) = n.
Proof. induction n as [| n IH]; intros; simpl; [done |]. by rewrite IH. Qed.

Lemma length_draft_tokens al bi n : forall i state prev,
  length (draft_tokens m al bi n i state prev) = n.
Proof. induction n as [| n IH]; intros; simpl; [done |]. by rewrite IH. Qed.

Lemma draft_token_range al bi i e :
  0 <= e < kSyntheticVocab -> 0 <= draft_token al bi i e < kSyntheticVocab.
Proof.
  intros He. unfold draft_token. case_ztest; [done |]. apply Z.mod_pos_bound. done.
Qed.

(** The vocabulary divides [2^32], so the perturbation is a plain shift: it
    keeps the token exactly when the shift is a multiple of the vocabulary. *)
Lemma draft_token_perturbed al bi i e :
  0 <= e < kSyntheticVocab -> al <= i ->
  (draft_token al bi i e = e <-> (1 + bi) mod kSyntheticVocab = 0).
Proof.
  intros He Hi. unfold draft_token, kSyntheticVocab in *.
  destruct (Z.ltb_spec i al); [lia |]. rewrite u32_mod. zdm.
Qed.

Lemma draft_token_aligned al bi i e : i < al -> draft_token al bi i e = e.
Proof. intros. unfold draft_token. destruct (Z.ltb_spec i al); lia. Qed.

(** A draft follows the target for its aligned prefix and leaves it there. *)
Lemma lcp_target_draft al bi n : forall i state prev,
  (1 + bi) mod kSyntheticVocab <> 0 ->
  lcp (target_tokens m n i state prev) (ids (draft_tokens m al bi n i state prev)) =
  Z.max 0 (Z.min (al - i) (Z.of_nat n)).
Proof.
  induction n as [| n IH]; intros i state prev Hb; [simpl; lia |].
  cbn [target_tokens draft_tokens ids map lcp tk_id token_of].
  set (e := token m state i prev kSyntheticVocab).
  assert (He : 0 <= e < kSyntheticVocab) by apply token_range.
  destruct (Z.lt_ge_cases i al) as [Hi | Hi].
  - rewrite draft_token_aligned by done. rewrite Z.eqb_refl.
    fold (ids (draft_tokens m al bi n (i + 1) (step m state e) e)). rewrite IH by done. lia.
  - pose proof (draft_token_perturbed al bi i e He Hi) as P.
    destruct (Z.eqb_spec e (draft_token al bi i e)) as [E | _]; [| lia].
    symmetry in E. apply P in E. contradiction.
Qed.

(** A fully aligned draft is the target sequence. *)
Lemma draft_target al bi n : forall i state prev,
  i + Z.of_nat n <= al ->
  ids (draft_tokens m al bi n i state prev) = target_tokens m n i state prev.
Proof.
  induction n as [| n IH]; intros i state prev Hi; [done |].
  cbn [target_tokens draft_tokens ids map tk_id token_of].
  rewrite draft_token_aligned by lia. f_equal. apply IH. lia.
Qed.

(** A branch index one below a multiple of the vocabulary perturbs nothing. *)
Lemma draft_unperturbed al bi n : (1 + bi) mod kSyntheticVocab = 0 -> forall i state prev,
  ids (draft_tokens m al bi n i state prev) = target_tokens m n i state prev.
Proof.
  intros Hb. induction n as [| n IH]; intros i state prev; [done |].
  cbn [target_tokens draft_tokens ids map tk_id token_of].
  set (e := token m state i prev kSyntheticVocab).
  assert (E : draft_token al bi i e = e).
  { destruct (Z.lt_ge_cases i al); [by apply draft_token_aligned |].
    apply draft_token_perturbed; [apply token_range | done | done]. }
  rewrite E. f_equal. apply IH.
Qed.

(** The verifier's loop computes the matches, their number, and the length of
    the common prefix of the candidate and the target. *)
Lemma judge_spec n cand : forall i state prev v,
  0 <= i -> i + zlen cand = n -> is_u32 n -> 0 <= accepted_prefix v <= i ->
  let target := target_tokens m (length cand) i state prev in
  judge m n cand i state prev v =
  mkVerdict (per_position v ++ matches target (ids cand))
    (accepted_prefix v + match_count target (ids cand))
    (if first_rejection_index v =? n then i + lcp target (ids cand)
     else first_rejection_index v).
Proof.
  induction cand as [| t cand IH]; intros i state prev v Hi Hn Hn32 Hv target.
  - rewrite zlen_nil in Hn. unfold target. destruct v as [pp ap fr]. simpl.
    unfold matches, match_count. simpl. rewrite app_nil_r, Z.add_0_r.
    f_equal. case_ztest; lia.
  - rewrite zlen_cons in Hn. pose proof (zlen_nonneg cand). unfold is_u32 in Hn32.
    unfold target. cbn [judge length target_tokens ids map lcp].
    set (e := token m state i prev kSyntheticVocab).
    rewrite match_count_cons. fold (ids cand).
    assert (Em : forall l, matches (e :: l) (tk_id t :: ids cand) =
                   (if e =? tk_id t then 1 else 0) :: matches l (ids cand)) by reflexivity.
    rewrite Em. rewrite IH; [| lia | lia | done | cbn [accepted_prefix]].
    + cbn [per_position accepted_prefix first_rejection_index].
      rewrite <- app_assoc. destruct (Z.eqb_spec e (tk_id t)) as [E | N].
      * rewrite u32_small by (unfold is_u32; lia). f_equal; [lia |]. case_ztest; lia.
      * destruct (Z.eqb_spec (first_rejection_index v) n); f_equal; try lia;
          repeat case_ztest; lia.
    + case_ztest; [rewrite u32_small by (unfold is_u32; lia) |]; lia.
Qed.
End Loops.

#[export] Hint Rewrite length_target_tokens length_draft_tokens : fabric.
