(* ===== verification/Cpu.v ===== *)
(** * The CPU executors (cpu_proposer.cpp, cpu_verifier.cpp)

    The deterministic proposer and verifier over the synthetic model, every
    branch of [propose] and [verify] included, and what holds of the pair. *)

From S2P Require Import Prelude Errors Ids Model Data Synthetic.

(** [input.base_state.id * C ^ input.base_state.generation * D], the common
    start of both seeds. *)
Definition state_base (s : StateRef) : Z :=
  Z.lxor (u64 (get (sr_id s) * 0x9E3779B97F4A7C15))
         (u64 (get (sr_generation s) * 0x94D049BB133111EB)).

(** ** The proposer *)

Module CpuProposer.

(** [struct CpuProposerConfig]; only [aligned_tokens] is read. *)
Record Config : Set := mkConfig {
  state_seed : Z;
  weight_seed : Z;
  aligned_tokens : Z;
  divergence_seed : Z;
  monotonic_tokens : bool
}.

Definition Config_aligned (n : Z) : Config := mkConfig 0xC0FFEE 0xF00D n 0xDEADBEEF true.

(** [CpuProposerExecutor::identity()]. *)
Definition identity : ExecutorIdentity :=
  mkExecutorIdentity (mkId 0x50524F50) "cpu-proposer" ExecutorKind.CPU 1.

Definition failure (outcome : ProposalOutcome) (code : ErrorCode) (detail : string)
  : ProposalResult :=
  ProposalResult_default <| pr_outcome := outcome |> <| pr_error := code |>
    <| pr_detail := detail |>.

(** The proposer's seed. *)
Definition seed_of (input : ProposalInput) : Z :=
  mix64 (state_base (pi_base_state input)) (get (pi_base_generation input))
    (get (mdl_revision (pv_proposer_model (pi_provenance input))))
    (u64 (pi_depth input * 0x100000001B3)).

(** The speculative state a successful proposal describes. *)
Definition speculative_state (input : ProposalInput) : StateDescriptor :=
  StateDescriptor_default
    <| sd_ref := mkStateRef (sr_id (pi_base_state input))
                   (mkId (u64 (get (sr_generation (pi_base_state input)) + 1))) |>
    <| sd_role := SequenceRole.Speculative |>
    <| sd_reservation := ReservationState.Used |>
    <| sd_owner := StateOwner.Proposal |>
    <| sd_bytes_held := u64 (pi_depth input * 64) |>.

(** [CpuProposerExecutor::propose]. *)
Definition propose (cfg_ : Config) (input : ProposalInput) : Result ProposalResult :=
  if pi_depth input =? 0 then
    Ok (failure ProposalOutcome.NonRetryableFailure ErrorCode.invalid_zero_depth
          "proposal depth must be positive")
  else if 256 <? pi_depth input then
    Ok (failure ProposalOutcome.NonRetryableFailure ErrorCode.invalid_depth
          "proposal depth exceeds synthetic model bound")
  else if negb (pi_compute_budget input =? 0) && (pi_compute_budget input <? pi_depth input) then
    Ok (failure ProposalOutcome.RetryableFailure ErrorCode.budget_exceeded
          "proposal would exceed compute budget")
  else
    let tgt := make_model kTargetModelSeed in
    let tokens :=
      draft_tokens tgt (aligned_tokens cfg_) (pi_branch_index input)
        (Z.to_nat (pi_depth input)) 0 (seed_state (seed_of input)) 0 in
    Ok (ProposalResult_default
          <| pr_outcome := ProposalOutcome.Success |>
          <| pr_candidate := Some (mkCandidate tokens) |>
          <| pr_speculative_state := Some (speculative_state input) |>
          <| pr_compute_spent := u64 (pi_depth input * 8) |>
          <| pr_memory_held := sd_bytes_held (speculative_state input) |>
          <| pr_execution_measured_ns := pi_depth input |>
          <| pr_detail := "proposer produced " +:+ pretty (pi_depth input) +:+ " tokens" |>).

(** The executor object. *)
Definition executor (cfg_ : Config) : ProposalExecutor :=
  mkProposalExecutor identity ExecutorKind.CPU (propose cfg_).

End CpuProposer.

(** ** The verifier *)

Module CpuVerifier.

(** [make_target_model()], the verifier's own copy of the target. *)
Definition make_target_model : SyntheticModel :=
  let x := Z.lor kTargetModelSeed (Z.shiftl 1 32) in
  let '(rows, bs, _) := draw_rows kStateWords x in
  mkModel rows bs 0x9E3779B9 0x85EBCA6B.

(** The verifier's own copy of [mix64]. *)
Definition mix64 (a b c d : Z) : Z :=
  let x := Z.lxor (u64 (a * 0x9E3779B97F4A7C15)) b in
  let x := u64 (Z.lxor x (Z.shiftr x 27) * 0xBF58476D1CE4E5B9) in
  let x := u64 (Z.lxor x (Z.shiftr x 31) * 0x94D049BB133111EB) in
  let x := u64 (Z.lxor x (Z.shiftr x 27) + u64 (c * 0x9E3779B97F4A7C15)) in
  let x := Z.lxor x d in
  let x := u64 (Z.lxor x (Z.shiftr x 30) * 0xBF58476D1CE4E5B9) in
  let x := u64 (Z.lxor x (Z.shiftr x 29) * 0x94D049BB133111EB) in
  Z.lxor x (Z.shiftr x 32).

(** [CpuVerifierExecutor::identity()]. *)
Definition identity : ExecutorIdentity :=
  mkExecutorIdentity (mkId 0x56455249) "cpu-verifier" ExecutorKind.CPU 1.

Definition failure (len : Z) (retryable : bool) (note : string) : AcceptanceResult :=
  AcceptanceResult_default <| ar_outcome := AcceptanceOutcome.VerifierFailure |>
    <| ar_candidate_length := len |> <| ar_retryable := retryable |>
    <| ar_verifier_note := note |>.

(** The verifier's seed. *)
Definition seed_of (input : VerificationInput) : Z :=
  mix64 (state_base (vi_authoritative_state input)) (get (vi_authoritative_generation input))
    (get (mdl_revision (vi_proposer input)))
    (u64 (cand_size (vi_candidate input) * 0x100000001B3)).

(** The outcome of [accepted] matches out of [n]. *)
Definition outcome_of (n accepted : Z) : AcceptanceOutcome :=
  if accepted =? n then AcceptanceOutcome.FullAccept
  else if accepted =? 0 then AcceptanceOutcome.RejectAll
  else AcceptanceOutcome.PartialAccept.

Arguments outcome_of : simpl never.

(** The result record filled in after the loop. *)
Definition verdict_result (input : VerificationInput) (n : Z) (v : Verdict)
  : AcceptanceResult :=
  let next_state_generation : StateGeneration :=
    mkId (u64 (get (sr_generation (vi_authoritative_state input)) + accepted_prefix v)) in
  AcceptanceResult_default
    <| ar_outcome := outcome_of n (accepted_prefix v) |>
    <| ar_candidate_length := n |>
    <| ar_accepted_prefix := accepted_prefix v |>
    <| ar_first_rejection_index := first_rejection_index v |>
    <| ar_per_position := per_position v |>
    <| ar_authoritative_next_generation :=
         mkId (u64 (get (vi_authoritative_generation input) + accepted_prefix v)) |>
    <| ar_authoritative_next_state :=
         mkStateRef (sr_id (vi_authoritative_state input)) next_state_generation |>
    <| ar_authoritative_next_state_generation := next_state_generation |>
    <| ar_execution_measured_ns := n |>
    <| ar_verifier_note :=
         "deterministic verifier accepted " +:+ pretty (accepted_prefix v) +:+ "/" +:+ pretty n |>.

(** The loop, from the initial counters. *)
Definition run_judge (m : SyntheticModel) (n : Z) (cand : list Token) (state : list Z)
  : Verdict := judge m n (take (Z.to_nat n) cand) 0 state 0 (mkVerdict [] 0 n).

(** [CpuVerifierExecutor::verify]. *)
Definition verify (input : VerificationInput) : Result AcceptanceResult :=
  let len := u32 (cand_size (vi_candidate input)) in
  if cand_empty (vi_candidate input) then Ok (failure 0 true "candidate is empty")
  else if is_null (cti_tokenizer (vi_candidate_identity input)) then
    Ok (failure len true "tokenizer identity missing")
  else if negb (cti_vocab_size (vi_candidate_identity input) =? kSyntheticVocab) then
    Ok (failure len false "vocabulary size incompatible")
  else
    let v :=
      run_judge make_target_model len (tokens (vi_candidate input))
        (seed_state (seed_of input)) in
    Ok (verdict_result input len v).

(** The executor object. *)
Definition executor : VerificationExecutor :=
  mkVerificationExecutor identity ExecutorKind.CPU verify.

End CpuVerifier.

(** ** Lemmas *)

(** The two executors hold the same target model and mixing function. *)
Lemma make_target_model_shared : CpuVerifier.make_target_model = make_model kTargetModelSeed.
Proof. vm_compute. reflexivity. Qed.

Lemma mix64_shared : CpuVerifier.mix64 = mix64.
Proof. unfold CpuVerifier.mix64. unfold mix64. reflexivity. Qed.

(** The target sequence for a seed. *)
Definition target_of (seed : Z) (n : nat) : list Z :=
  target_tokens (make_model kTargetModelSeed) n 0 (seed_state seed) 0.

Lemma run_judge_spec seed cand :
  is_u32 (zlen cand) ->
  let target := target_of seed (length cand) in
  CpuVerifier.run_judge (make_model kTargetModelSeed) (zlen cand) cand (seed_state seed) =
  mkVerdict (matches target (ids cand)) (match_count target (ids cand)) (lcp target (ids cand)).
Proof.
  intros Hn target. unfold CpuVerifier.run_judge.
  rewrite take_ge by (unfold zlen; lia).
  rewrite judge_spec by (simpl; lia || done). cbn [per_position accepted_prefix first_rejection_index].
  by rewrite Z.eqb_refl, !Z.add_0_l.
Qed.

(** A verification input the verifier judges. *)
Definition judged (input : VerificationInput) : Prop :=
  1 <= cand_size (vi_candidate input) < 4294967296 /\
  cti_tokenizer (vi_candidate_identity input) <> null_id /\
  cti_vocab_size (vi_candidate_identity input) = kSyntheticVocab.

(** What the target expects for a verification input. *)
Definition expected_tokens (input : VerificationInput) : list Z :=
  target_of (CpuVerifier.seed_of input) (length (tokens (vi_candidate input))).

Lemma length_expected_tokens input :
  length (expected_tokens input) = length (ids (tokens (vi_candidate input))).
Proof. unfold expected_tokens, target_of, ids. rewrite length_map. apply length_target_tokens. Qed.

Lemma verify_judged input :
  judged input ->
  let cand := ids (tokens (vi_candidate input)) in
  CpuVerifier.verify input =
  Ok (CpuVerifier.verdict_result input (cand_size (vi_candidate input))
        (mkVerdict (matches (expected_tokens input) cand)
           (match_count (expected_tokens input) cand) (lcp (expected_tokens input) cand))).
Proof.
  intros (Hn & Ht & Hv) cand. unfold CpuVerifier.verify.
  assert (En : u32 (cand_size (vi_candidate input)) = cand_size (vi_candidate input))
    by (apply u32_small; unfold is_u32; lia).
  rewrite En. destruct (cand_empty _) eqn:E; [apply cand_empty_iff in E; lia |].
  destruct (is_null _) eqn:N; [apply is_null_iff in N; contradiction |].
  rewrite Hv, Z.eqb_refl. simpl negb. cbv iota zeta.
  rewrite make_target_model_shared. unfold cand_size at 2.
  rewrite run_judge_spec; [done |]. unfold is_u32, cand_size in *. lia.
Qed.

(** The CPU executors keep the contracts of their interfaces. *)
Lemma propose_cases cfg input :
  0 <= pi_depth input ->
  if (1 <=? pi_depth input) && (pi_depth input <=? 256) &&
     ((pi_compute_budget input =? 0) || (pi_depth input <=? pi_compute_budget input))
  then
    exists r, CpuProposer.propose cfg input = Ok r /\ pr_outcome r = ProposalOutcome.Success /\
      pr_candidate r = Some (mkCandidate
        (draft_tokens (make_model kTargetModelSeed) (CpuProposer.aligned_tokens cfg)
           (pi_branch_index input) (Z.to_nat (pi_depth input)) 0
           (seed_state (CpuProposer.seed_of input)) 0)) /\
      pr_speculative_state r = Some (CpuProposer.speculative_state input) /\
      pr_memory_held r = 64 * pi_depth input
  else
    exists o c d, CpuProposer.propose cfg input = Ok (CpuProposer.failure o c d) /\
      o <> ProposalOutcome.Success /\ c <> ErrorCode.ok.
Proof.
  intros H0. unfold CpuProposer.propose.
  destruct (Z.eqb_spec (pi_depth input) 0) as [E | N0]; [rewrite E; simpl; eauto 10 |].
  destruct (Z.ltb_spec 256 (pi_depth input)) as [H | H].
  { rewrite (proj2 (Z.leb_gt _ 256)), andb_false_r by lia. simpl. eauto 10. }
  rewrite !(proj2 (Z.leb_le _ _)) by lia. simpl andb.
  destruct (Z.eqb_spec (pi_compute_budget input) 0); simpl negb; simpl andb; simpl orb.
  2: destruct (Z.ltb_spec (pi_compute_budget input) (pi_depth input)); cbn [andb].
  2: rewrite (proj2 (Z.leb_gt _ _)) by lia; eauto 10.
  2: rewrite (proj2 (Z.leb_le _ _)) by lia.
  all: eexists; split; [reflexivity |]; repeat (split; [reflexivity |]); simpl;
    rewrite u64_small by (unfold is_u64; lia); lia.
Qed.

#[export] Instance cpu_proposer_contract cfg :
  ProposerContract (CpuProposer.executor cfg).
Proof.
  constructor; intros i r; [intros Hd E S | intros c Hd E C]; simpl in E;
    unfold is_u32 in Hd; unfold CpuProposer.propose in E;
    (destruct (Z.eqb_spec (pi_depth i) 0); [injection E as <-; discriminate |]);
    (destruct (256 <? pi_depth i); [injection E as <-; discriminate |]);
    (destruct (negb _ && _); injection E as <-; [discriminate |]).
  - by eexists.
  - injection C as <-. split; [done |]. unfold cand_size, zlen. cbn [tokens].
    rewrite length_draft_tokens. lia.
Qed.

Lemma length_judge_bound m n cand : forall i state prev v,
  0 <= accepted_prefix v ->
  0 <= accepted_prefix (judge m n cand i state prev v) <= accepted_prefix v + zlen cand.
Proof.
  induction cand as [| t cand IH]; intros i state prev v Hv; simpl; [unfold zlen; simpl; lia |].
  rewrite zlen_cons.
  match goal with |- context [judge m n cand ?i' ?s' ?p' ?v'] =>
    specialize (IH i' s' p' v'); set (v2 := v') in * end.
  assert (0 <= accepted_prefix v2 <= accepted_prefix v + 1).
  { unfold v2. cbn [accepted_prefix]. case_ztest; [| lia]. rewrite u32_mod. zdm. }
  specialize (IH ltac:(lia)). lia.
Qed.

#[export] Instance cpu_verifier_contract : VerifierContract CpuVerifier.executor.
Proof.
  constructor. intros i r E. cbn [verify CpuVerifier.executor] in E.
  unfold CpuVerifier.verify in E. cbv zeta in E. pose proof (cand_size_nonneg (vi_candidate i)).
  destruct (cand_empty _); [injection E as <-; simpl; lia |].
  destruct (is_null _); [injection E as <-; simpl; lia |].
  destruct (negb _); injection E as <-; [simpl; lia |]. cbn [ar_accepted_prefix].
  unfold CpuVerifier.verdict_result, CpuVerifier.run_judge. simpl.
  match goal with |- context [judge ?m ?n ?c ?i ?s ?p ?v] =>
    pose proof (length_judge_bound m n c i s p v ltac:(simpl; lia)) as B end.
  rewrite zlen_take in B. simpl accepted_prefix in B at 2. unfold cand_size in *. simpl in *. lia.
Qed.

Lemma draft_tokens_in_vocab m al bi n : forall i state prev,
  Forall (fun t => 0 <= tk_id t < kSyntheticVocab) (draft_tokens m al bi n i state prev).
Proof.
  induction n as [| n IH]; intros i state prev; [constructor |]. simpl. constructor; [| apply IH].
  apply draft_token_range, token_range.
Qed.

Lemma outcome_of_cases n k : 1 <= n ->
  (CpuVerifier.outcome_of n k = AcceptanceOutcome.FullAccept <-> k = n) /\
  (CpuVerifier.outcome_of n k = AcceptanceOutcome.RejectAll <-> k = 0) /\
  CpuVerifier.outcome_of n k <> AcceptanceOutcome.VerifierFailure.
Proof. intros. unfold CpuVerifier.outcome_of. repeat case_ztest; naive_solver lia. Qed.

Lemma verdict_result_fields input n v :
  let r := CpuVerifier.verdict_result input n v in
  ar_outcome r = CpuVerifier.outcome_of n (accepted_prefix v) /\
  ar_accepted_prefix r = accepted_prefix v /\
  ar_first_rejection_index r = first_rejection_index v /\
  ar_per_position r = per_position v /\
  get (ar_authoritative_next_generation r) =
    u64 (get (vi_authoritative_generation input) + accepted_prefix v).
Proof. done. Qed.

(** The verifier either judges the candidate or fails. *)
Lemma verify_total input :
  is_u32 (cand_size (vi_candidate input)) ->
  (judged input /\
   CpuVerifier.verify input =
   Ok (CpuVerifier.verdict_result input (cand_size (vi_candidate input))
         (mkVerdict (matches (expected_tokens input) (ids (tokens (vi_candidate input))))
            (match_count (expected_tokens input) (ids (tokens (vi_candidate input))))
            (lcp (expected_tokens input) (ids (tokens (vi_candidate input))))))) \/
  (~ judged input /\
   exists len b note,
     CpuVerifier.verify input = Ok (CpuVerifier.failure len b note) /\
     (b = true <-> cand_size (vi_candidate input) = 0 \/
                   cti_tokenizer (vi_candidate_identity input) = null_id)).
Proof.
  unfold is_u32. intros Hn.
  pose proof (cand_empty_iff (vi_candidate input)) as Ce.
  pose proof (is_null_iff (cti_tokenizer (vi_candidate_identity input))) as Ct.
  pose proof (verify_judged input) as V.
  unfold judged, CpuVerifier.verify in *. cbv zeta in *.
  destruct (cand_empty _); [right; split; [naive_solver lia | naive_solver] |].
  assert (1 <= cand_size (vi_candidate input)) by (destruct Ce as [_ Ce]; naive_solver lia).
  destruct (is_null _); [right; split; [naive_solver | naive_solver] |].
  destruct (Z.eqb_spec (cti_vocab_size (vi_candidate_identity input)) kSyntheticVocab);
    simpl negb in *; cbv iota in *; [left | right; split; naive_solver lia].
  assert (cti_tokenizer (vi_candidate_identity input) <> null_id) by naive_solver.
  split; [split; [lia | done] |]. apply V. split; [lia | done].
Qed.

(** C26: the proposer on every branch.  For a 32-bit depth, [propose] never
    reports an error of its own: it succeeds exactly when the depth is between
    1 and 256 and within the compute budget, and then holds exactly [depth]
    tokens of the vocabulary, 64 bytes per token of speculative state one
    generation ahead of the base state; otherwise it reports a failure outcome
    with an error code and no candidate. *)
Theorem propose_correct cfg input :
  is_u32 (pi_depth input) ->
  exists r, CpuProposer.propose cfg input = Ok r /\
    (pr_outcome r = ProposalOutcome.Success <->
     1 <= pi_depth input <= 256 /\
     (pi_compute_budget input = 0 \/ pi_depth input <= pi_compute_budget input)) /\
    match pr_candidate r with
    | Some c =>
        pr_outcome r = ProposalOutcome.Success /\ cand_size c = pi_depth input /\
        Forall (fun t => 0 <= tk_id t < kSyntheticVocab) (tokens c) /\
        pr_memory_held r = 64 * pi_depth input /\
        exists d, pr_speculative_state r = Some d /\ sd_bytes_held d = 64 * pi_depth input /\
          get (sr_generation (sd_ref d)) =
          (get (sr_generation (pi_base_state input)) + 1) mod 18446744073709551616
    | None => pr_outcome r <> ProposalOutcome.Success /\ pr_error r <> ErrorCode.ok
    end.
Proof.
  intros Hd. unfold is_u32 in Hd.
  pose proof (propose_cases cfg input (proj1 Hd)) as C.
  destruct ((1 <=? pi_depth input) && (pi_depth input <=? 256) &&
     ((pi_compute_budget input =? 0) || (pi_depth input <=? pi_compute_budget input))) eqn:E.
  - destruct C as (r & -> & So & Ec & Es & Em). exists r.
    split; [done |]. rewrite Ec, Es, Em. rewrite !andb_true_iff, orb_true_iff, !Z.leb_le, Z.eqb_eq in E.
    split; [naive_solver |]. split; [done |]. split; [| split; [| split; [done |]]].
    + unfold cand_size, zlen. cbn [tokens]. rewrite length_draft_tokens. lia.
    + apply draft_tokens_in_vocab.
    + eexists. split; [done |]. simpl. rewrite !u64_mod, (Z.mod_small (_ * 64)) by lia. lia.
  - destruct C as (o & c & d & -> & No & Nc). eexists. split; [done |]. simpl.
    rewrite !andb_false_iff, orb_false_iff, !Z.leb_gt, Z.eqb_neq in E.
    split; [| done]. split; [done | lia].
Qed.

(** C25: the verifier on every branch.  [verify] never reports an error of its
    own.  A candidate it can judge gets, position by position, the comparison
    with the target sequence recomputed from the input; the accepted count is
    the number of matching positions, the first rejection is the length of the
    common prefix, the outcome is full exactly for the target sequence itself
    and a rejection exactly when no position matches, and the next generations
    advance by the accepted count.  An input it cannot judge is a verifier
    failure that accepts nothing, retryable unless the vocabulary is wrong. *)
Theorem verify_correct input :
  is_u32 (cand_size (vi_candidate input)) ->
  let cand := ids (tokens (vi_candidate input)) in
  exists r, CpuVerifier.verify input = Ok r /\
    (ar_outcome r <> AcceptanceOutcome.VerifierFailure <-> judged input) /\
    (judged input ->
     ar_per_position r = matches (expected_tokens input) cand /\
     ar_accepted_prefix r = match_count (expected_tokens input) cand /\
     ar_first_rejection_index r = lcp (expected_tokens input) cand /\
     ar_first_rejection_index r <= ar_accepted_prefix r <= cand_size (vi_candidate input) /\
     (ar_outcome r = AcceptanceOutcome.FullAccept <-> cand = expected_tokens input) /\
     (ar_outcome r = AcceptanceOutcome.RejectAll <->
      Forall (fun b => b = 0) (ar_per_position r)) /\
     get (ar_authoritative_next_generation r) =
     (get (vi_authoritative_generation input) + ar_accepted_prefix r) mod 18446744073709551616) /\
    (~ judged input ->
     ar_accepted_prefix r = 0 /\
     (ar_retryable r = true <->
      cand_size (vi_candidate input) = 0 \/ cti_tokenizer (vi_candidate_identity input) = null_id)).
Proof.
  intros Hn. set (cand := ids (tokens (vi_candidate input))).
  destruct (verify_total input Hn) as [(J & E) | (J & len & b & note & E & R)].
  - eexists. split; [exact E |]. pose proof (match_count_range (expected_tokens input) cand) as B.
    assert (L : zlen (expected_tokens input) = cand_size (vi_candidate input))
      by (unfold zlen; rewrite length_expected_tokens; unfold cand_size, zlen, ids;
          by rewrite length_map).
    pose proof (match_count_full (expected_tokens input) cand (length_expected_tokens input)) as F.
    pose proof (match_count_zero (expected_tokens input) cand) as Z0.
    pose proof (outcome_of_cases (cand_size (vi_candidate input))
                  (match_count (expected_tokens input) cand) (proj1 (proj1 J))) as O.
    match goal with |- context [CpuVerifier.verdict_result input ?n ?v] =>
      destruct (verdict_result_fields input n v) as (-> & -> & -> & -> & ->) end.
    cbn [accepted_prefix first_rejection_index per_position].
    split; [| split; [intros _ | done]].
    { split; [done |]. intros _. apply O. }
    rewrite u64_mod. destruct O as (O1 & O2 & O3).
    fold cand. rewrite O1, O2, <- L, F, Z0. repeat split; (done || lia || congruence).
  - eexists. split; [exact E |]. simpl. split; [done | split; [done |]]. intros _. by rewrite R.
Qed.

(** The verification input a proposal is checked under: the same authority
    envelope, the proposer's candidate and a usable token identity. *)
Definition same_envelope (pin : ProposalInput) (vin : VerificationInput) : Prop :=
  vi_authoritative_state vin = pi_base_state pin /\
  vi_authoritative_generation vin = pi_base_generation pin /\
  mdl_revision (vi_proposer vin) = mdl_revision (pv_proposer_model (pi_provenance pin)) /\
  cti_tokenizer (vi_candidate_identity vin) <> null_id /\
  cti_vocab_size (vi_candidate_identity vin) = kSyntheticVocab.

Lemma draft_seen_by_verifier cfg pin r vin :
  is_u32 (pi_depth pin) -> CpuProposer.propose cfg pin = Ok r ->
  pr_candidate r = Some (vi_candidate vin) -> same_envelope pin vin ->
  judged vin /\ cand_size (vi_candidate vin) = pi_depth pin /\
  exists seed, let m := make_model kTargetModelSeed in
    expected_tokens vin = target_of seed (Z.to_nat (pi_depth pin)) /\
    tokens (vi_candidate vin) =
      draft_tokens m (CpuProposer.aligned_tokens cfg) (pi_branch_index pin)
        (Z.to_nat (pi_depth pin)) 0 (seed_state seed) 0.
Proof.
  intros Hd E Hc (Es & Eg & Er & Ht & Hv). unfold is_u32 in Hd.
  pose proof (propose_cases cfg pin (proj1 Hd)) as C.
  destruct ((1 <=? pi_depth pin) && (pi_depth pin <=? 256) && _) eqn:B.
  2: { destruct C as (o & c & d & E' & _). rewrite E' in E. injection E as <-. discriminate. }
  destruct C as (r' & E' & _ & Ec & _). rewrite E' in E. injection E as ->.
  rewrite Ec in Hc. injection Hc as Hc.
  rewrite !andb_true_iff, !Z.leb_le in B.
  assert (L : length (tokens (vi_candidate vin)) = Z.to_nat (pi_depth pin))
    by (rewrite <- Hc; apply length_draft_tokens).
  assert (Sz : cand_size (vi_candidate vin) = pi_depth pin) by (unfold cand_size, zlen; lia).
  split; [unfold judged; split; [lia | done] |]. split; [done |].
  exists (CpuProposer.seed_of pin). cbv zeta. split; [| by rewrite <- Hc].
  unfold expected_tokens, target_of. rewrite L.
  unfold CpuVerifier.seed_of, CpuProposer.seed_of. by rewrite mix64_shared, Es, Eg, Er, Sz.
Qed.

(** The operations of the executor objects. *)
Lemma propose_executor cfg : propose (CpuProposer.executor cfg) = CpuProposer.propose cfg.
Proof. reflexivity. Qed.

Lemma verify_executor : verify CpuVerifier.executor = CpuVerifier.verify.
Proof. reflexivity. Qed.

Lemma verify_judged_prefix input a :
  judged input -> CpuVerifier.verify input = Ok a ->
  ar_accepted_prefix a = match_count (expected_tokens input) (ids (tokens (vi_candidate input))).
Proof. intros J. rewrite (verify_judged input J). by intros <-%(inj Ok). Qed.

(** Draft and target, from the same seed. *)
(** How far a draft of [n] tokens follows the target: to its alignment, and all
    the way on a branch that perturbs nothing. *)
Definition draft_reach (al bi n : Z) : Z :=
  if (1 + bi) mod kSyntheticVocab =? 0 then n else Z.min al n.

Lemma draft_reach_perturbed al bi n : (1 + bi) mod kSyntheticVocab <> 0 -> draft_reach al bi n = Z.min al n.
Proof. intros Hb. unfold draft_reach. by rewrite (proj2 (Z.eqb_neq _ _) Hb). Qed.

Lemma draft_reach_aligned al bi n : n <= al -> draft_reach al bi n = n.
Proof. intros. unfold draft_reach. case_ztest; lia. Qed.

Lemma draft_target_of al bi n seed : draft_reach al bi (Z.of_nat n) = Z.of_nat n ->
  ids (draft_tokens (make_model kTargetModelSeed) al bi n 0 (seed_state seed) 0) =
  target_of seed n.
Proof.
  unfold draft_reach, target_of. destruct (Z.eqb_spec ((1 + bi) mod kSyntheticVocab) 0);
    intros; [by apply draft_unperturbed | apply draft_target; lia].
Qed.

Lemma zlen_target_of seed n : zlen (target_of seed n) = Z.of_nat n.
Proof. unfold zlen, target_of. by rewrite length_target_tokens. Qed.

Lemma lcp_target_of al bi n seed : 0 <= al ->
  lcp (target_of seed n)
    (ids (draft_tokens (make_model kTargetModelSeed) al bi n 0 (seed_state seed) 0)) =
  draft_reach al bi (Z.of_nat n).
Proof.
  intros Ha. pose proof (draft_target_of al bi n seed) as U. unfold draft_reach in *.
  destruct (Z.eqb_spec ((1 + bi) mod kSyntheticVocab) 0).
  - by rewrite U, lcp_refl, zlen_target_of.
  - unfold target_of. rewrite lcp_target_draft by done. lia.
Qed.

(** C22: draft quality decides acceptance.  When the verifier checks a CPU
    proposal under the proposer's own authority envelope, the first rejection
    is at the smaller of the configured alignment and the depth - or at the
    depth, on a branch that perturbs no token because its index is one below a
    multiple of the vocabulary -; and the whole draft is accepted, with the
    generation advanced by its depth, exactly when every token is aligned or
    the branch perturbs none. *)
Theorem draft_quality_decides_acceptance cfg pin r vin :
  is_u32 (pi_depth pin) -> 0 <= CpuProposer.aligned_tokens cfg ->
  CpuProposer.propose cfg pin = Ok r -> pr_candidate r = Some (vi_candidate vin) ->
  same_envelope pin vin ->
  exists a, CpuVerifier.verify vin = Ok a /\
    ar_first_rejection_index a =
      (if (1 + pi_branch_index pin) mod kSyntheticVocab =? 0 then pi_depth pin
       else Z.min (CpuProposer.aligned_tokens cfg) (pi_depth pin)) /\
    ar_first_rejection_index a <= ar_accepted_prefix a <= pi_depth pin /\
    (ar_outcome a = AcceptanceOutcome.FullAccept <->
     pi_depth pin <= CpuProposer.aligned_tokens cfg \/
     (1 + pi_branch_index pin) mod kSyntheticVocab = 0) /\
    (ar_outcome a = AcceptanceOutcome.FullAccept ->
     ar_accepted_prefix a = pi_depth pin /\
     get (ar_authoritative_next_generation a) =
     (get (pi_base_generation pin) + pi_depth pin) mod 18446744073709551616).
Proof.
  intros Hd Ha E Hc Env.
  destruct (draft_seen_by_verifier cfg pin r vin Hd E Hc Env) as (J & Sz & seed & Ex & Tk).
  eexists. split; [apply (verify_judged vin J) |].
  match goal with |- context [CpuVerifier.verdict_result vin ?n ?v] =>
    destruct (verdict_result_fields vin n v) as (-> & -> & -> & _ & ->) end.
  cbn [accepted_prefix first_rejection_index per_position].
  destruct J as (Hn & _). rewrite Sz in *.
  destruct (outcome_of_cases (pi_depth pin)
    (match_count (expected_tokens vin) (ids (tokens (vi_candidate vin)))) (proj1 Hn)) as (O & _).
  pose proof (match_count_full _ _ (length_expected_tokens vin)) as F.
  pose proof (match_count_range (expected_tokens vin) (ids (tokens (vi_candidate vin)))) as R.
  assert (L : zlen (expected_tokens vin) = pi_depth pin)
    by (rewrite Ex, zlen_target_of; lia).
  assert (P : lcp (expected_tokens vin) (ids (tokens (vi_candidate vin))) =
              draft_reach (CpuProposer.aligned_tokens cfg) (pi_branch_index pin) (pi_depth pin))
    by (rewrite Ex, Tk, lcp_target_of, Z2Nat.id by (done || lia); done).
  rewrite L in F, R. rewrite O, F. split; [done |]. split; [lia |]. split.
  - split; intros H.
    + rewrite <- H, lcp_refl in P. unfold draft_reach in P. case_ztest; [by right | left; lia].
    + rewrite Tk, Ex. symmetry. apply draft_target_of. rewrite Z2Nat.id by lia.
      unfold draft_reach. case_ztest; [done | destruct H; [lia | done]].
  - intros H. split; [done |]. apply F in H. rewrite H. destruct Env as (_ & -> & _).
    apply u64_mod.
Qed.

(** The accepted count is not a prefix length.  A candidate that differs
    from the target sequence in its first position only is rejected at index 0
    and still reported with an accepted prefix of all its other positions: the
    count is the number of matches, and the caller commits that many leading
    tokens, the rejected one included. *)
Theorem accepted_prefix_counts_all_matches input x y rest :
  judged input -> ids (tokens (vi_candidate input)) = x :: rest ->
  expected_tokens input = y :: rest -> x <> y ->
  exists a, CpuVerifier.verify input = Ok a /\ ar_first_rejection_index a = 0 /\
    ar_accepted_prefix a = cand_size (vi_candidate input) - 1.
Proof.
  intros J Ec Ex Ne. eexists. split; [apply (verify_judged input J) |].
  match goal with |- context [CpuVerifier.verdict_result input ?n ?v] =>
    destruct (verdict_result_fields input n v) as (_ & -> & -> & _ & _) end.
  cbn [accepted_prefix first_rejection_index].
  assert (S : cand_size (vi_candidate input) = zlen (ids (tokens (vi_candidate input))))
    by (unfold cand_size, zlen, ids; by rewrite length_map).
  rewrite S, Ec, Ex, match_count_cons, zlen_cons. simpl.
  destruct (Z.eqb_spec y x) as [E |]; [congruence |].
  split; [done |]. rewrite (proj2 (match_count_full rest rest eq_refl) eq_refl). lia.
Qed.

(** ** Witnesses *)

Definition sample_proposal_input : ProposalInput :=
  ProposalInput_default <| pi_depth := 4 |> <| pi_base_state := mkStateRef (mkId 42) (mkId 7) |>
    <| pi_base_generation := mkId 3 |>.

Definition sample_verification_input (c : CandidateSequence) : VerificationInput :=
  VerificationInput_default <| vi_candidate := c |>
    <| vi_authoritative_state := mkStateRef (mkId 42) (mkId 7) |>
    <| vi_authoritative_generation := mkId 3 |>
    <| vi_candidate_identity := mkCandidateTokenIdentity (mkId 1) 4096 "int32" |>.

(** The draft of depth 4 whose first two tokens are aligned: the target's are
    131, 249, 3874, 2529. *)
Definition sample_draft : CandidateSequence := mkCandidate (map token_of [131; 249; 3875; 1178]).

Lemma propose_correct_witness :
  exists r, CpuProposer.propose (CpuProposer.Config_aligned 2) sample_proposal_input = Ok r /\
    pr_outcome r = ProposalOutcome.Success.
Proof.
  destruct (propose_correct (CpuProposer.Config_aligned 2) sample_proposal_input ltac:(in_range))
    as (r & E & S & _).
  exists r. split; [exact E |]. apply S. simpl. lia.
Defined.

Lemma verify_correct_witness :
  exists r, CpuVerifier.verify (sample_verification_input (mkCandidate [token_of 1])) = Ok r /\
    ar_accepted_prefix r <= 1.
Proof.
  destruct (verify_correct (sample_verification_input (mkCandidate [token_of 1])) ltac:(in_range))
    as (r & E & _ & S & _).
  exists r. split; [exact E |]. apply S. split; [by vm_compute | by split].
Defined.

Lemma draft_quality_decides_acceptance_witness :
  exists a, CpuVerifier.verify (sample_verification_input sample_draft) = Ok a /\
    ar_first_rejection_index a = 2.
Proof.
  destruct (draft_quality_decides_acceptance (CpuProposer.Config_aligned 2)
    sample_proposal_input
    (value_or (CpuProposer.propose (CpuProposer.Config_aligned 2) sample_proposal_input)
       ProposalResult_default)
    (sample_verification_input sample_draft)) as (a & E & F & _).
  - in_range.
  - simpl. lia.
  - by vm_compute.
  - by vm_compute.
  - by repeat split.
  - exists a. by split.
Defined.

Lemma accepted_prefix_counts_all_matches_witness :
  exists a,
    CpuVerifier.verify
      (sample_verification_input (mkCandidate (map token_of [7; 249; 3874; 2529]))) = Ok a /\
    ar_first_rejection_index a = 0 /\ ar_accepted_prefix a = 3.
Proof.
  apply (accepted_prefix_counts_all_matches
    (sample_verification_input (mkCandidate (map token_of [7; 249; 3874; 2529]))) 7 131
    [249; 3874; 2529]); [| by vm_compute | by vm_compute | lia].
  split; [by vm_compute | by split].
Defined.
