(* ===== verification/CudaKernels.v ===== *)
(** * The CUDA kernels (the device code of cuda_executor.cu)

    Both kernels run one block of 16 threads, one per word of the hidden state.
    Thread 0 selects a token, then all threads compute the next state between
    barriers.  Between two barriers the threads take their individual reads and
    writes in any interleaving: a schedule lists whose turn it is.  The lemmas
    show that no schedule matters and that the kernels compute the loops of
    the CPU executors. *)

From S2P Require Import Prelude Data Synthetic.

Definition kNW : nat := 16.
Definition kVocab : Z := 4096.
Definition kTargetSeed : Z := 0x5A17B0C.
Definition kMA : Z := 0x9E3779B9.
Definition kMB : Z := 0x85EBCA6B.

(** [splitmix(x)]: the word drawn and the advanced generator. *)
Definition splitmix (x : Z) : Z * Z :=
  let x := u64 (x + 0x9E3779B97F4A7C15) in
  let z := u64 (Z.lxor x (Z.shiftr x 30) * 0xBF58476D1CE4E5B9) in
  let z := u64 (Z.lxor z (Z.shiftr z 27) * 0x94D049BB133111EB) in
  (u32 (Z.lxor z (Z.shiftr z 31)), x).

(** [n] successive draws. *)
Fixpoint draws (n : nat) (x : Z) : list Z * Z :=
  match n with
  | O => ([], x)
  | S n => let '(w, x) := splitmix x in let '(ws, x) := draws n x in (w :: ws, x)
  end.

(** The rows of [build_target], flat, and the biases. *)
Fixpoint build_rows (n : nat) (x : Z) : list Z * list Z :=
  match n with
  | O => ([], [])
  | S n =>
      let '(row, x) := draws kNW x in
      let '(bias, x) := splitmix x in
      let '(w, b) := build_rows n x in
      (map (fun v => Z.land v 0xFFFF) row ++ w, Z.land bias 0xFFFF :: b)
  end.

(** [build_target(w, b)]. *)
Definition build_target : list Z * list Z :=
  build_rows kNW (Z.lor kTargetSeed (Z.shiftl 1 32)).

(** [mix64], the host's own copy. *)
Definition mix64 (a b c d : Z) : Z :=
  let x := Z.lxor (u64 (a * 0x9E3779B97F4A7C15)) b in
  let x := u64 (Z.lxor x (Z.shiftr x 27) * 0xBF58476D1CE4E5B9) in
  let x := u64 (Z.lxor x (Z.shiftr x 31) * 0x94D049BB133111EB) in
  let x := u64 (Z.lxor x (Z.shiftr x 27) + u64 (c * 0x9E3779B97F4A7C15)) in
  let x := Z.lxor x d in
  let x := u64 (Z.lxor x (Z.shiftr x 30) * 0xBF58476D1CE4E5B9) in
  let x := u64 (Z.lxor x (Z.shiftr x 29) * 0x94D049BB133111EB) in
  Z.lxor x (Z.shiftr x 32).

(** ** Threads between barriers *)

(** What the threads of a block read and write: the state in device memory,
    the shared [next] and [sprev], and one register of each thread. *)
Record Block : Set := mkBlock {
  bk_state : list Z;
  bk_next : list Z;
  bk_sprev : Z;
  bk_reg : list Z
}.

#[export] Instance eta_Block : Etable Block := fun r =>
  mkBlock (bk_state r) (bk_next r) (bk_sprev r) (bk_reg r).

(** A schedule of the interval between two barriers, and one for each of the
    two intervals of every loop round. *)
Definition Schedule : Set := nat -> list nat * list nat.

(** Whose turn it is takes its next step; [pc] counts the steps taken. *)
Fixpoint run_turns (program : nat -> nat -> Block -> Block) (turns : list nat) (pc : nat -> nat)
    (m : Block) : Block :=
  match turns with
  | [] => m
  | t :: turns =>
      run_turns program turns (fun u => if decide (u = t) then S (pc u) else pc u)
        (program t (pc t) m)
  end.

(** Every thread of the block takes [steps] turns. *)
Definition fair (steps : nat) (turns : list nat) : Prop :=
  forall t, length (filter (eq t) turns) = if decide (t < kNW)%nat then steps else 0%nat.

Section Kernels.
  Context (w b : list Z).

(** Thread [t] computing [next[t]]: the initial value, one step for every
    [j], the store. *)
Definition advance_program (t pc : nat) (m : Block) : Block :=
  match pc with
  | O => m <| bk_reg ::= <[t := Z.lxor (word b t) (u32 (kMA * bk_sprev m))]> |>
  | S j =>
      if decide (j < kNW)%nat then
        m <| bk_reg ::= <[t := Z.lxor (u32 (word (bk_reg m) t * kMB))
                                      (u32 (word (bk_state m) j * word w (t * kNW + j)))]> |>
      else m <| bk_next ::= <[t := word (bk_reg m) t]> |>
  end.

(** Thread [t] storing [state[t] = next[t]]: the load, the store. *)
Definition copy_program (t pc : nat) (m : Block) : Block :=
  match pc with
  | O => m <| bk_reg ::= <[t := word (bk_next m) t]> |>
  | _ => m <| bk_state ::= <[t := word (bk_reg m) t]> |>
  end.

(** The two intervals at the end of a loop round. *)
Definition advance_state (s : list nat * list nat) (m : Block) : Block :=
  run_turns copy_program s.2 (fun _ => 0%nat) (run_turns advance_program s.1 (fun _ => 0%nat) m).

(** Thread 0 at the start of a kernel. *)
Definition start_block (seed : Z) (m : Block) : Block :=
  m <| bk_state := (draws kNW seed).1 |> <| bk_sprev := 0 |>.

(** The token thread 0 derives from the state. *)
Definition raw_token (i : nat) (m : Block) : Z :=
  Z.lxor (Z.lxor (Z.lxor (Z.lxor (Z.lxor (word (bk_state m) 0) (word (bk_state m) 7))
    (word (bk_state m) 13)) (u32 (kMA * u32 (Z.of_nat i + 1)))) kMB) (bk_sprev m).

(** The loop of [proposeKernel] from round [i], [n] more of them. *)
Fixpoint propose_rounds (sched : Schedule) (vocab aligned branch : Z) (n i : nat) (m : Block)
    (toks : list Z) : list Z :=
  match n with
  | O => toks
  | S n =>
      let expected := raw_token i m mod vocab in
      let tok := if Z.of_nat i <? aligned then expected
                 else u32 (expected + 1 + branch) mod vocab in
      propose_rounds sched vocab aligned branch n (S i)
        (advance_state (sched i) (m <| bk_sprev := tok |>)) (<[i := tok]> toks)
  end.

(** [proposeKernel]: the token buffer after it. *)
Definition propose_kernel (sched : Schedule) (m : Block) (toks : list Z) (seed : Z)
    (depth : nat) (vocab aligned branch : Z) : list Z :=
  propose_rounds sched vocab aligned branch depth 0 (start_block seed m) toks.

(** What [verifyKernel] writes back. *)
Record Judged : Set := mkJudged {
  jd_perpos : list Z;
  jd_accepted : Z;
  jd_firstrej : Z
}.

(** The loop of [verifyKernel] from round [i], [n] more of them. *)
Fixpoint verify_rounds (sched : Schedule) (vocab len : Z) (cand : list Z) (n i : nat)
    (m : Block) (j : Judged) : Judged :=
  match n with
  | O => j
  | S n =>
      let expected := raw_token i m mod vocab in
      let acc := expected =? word cand i in
      verify_rounds sched vocab len cand n (S i)
        (advance_state (sched i) (m <| bk_sprev := expected |>))
        (mkJudged (<[i := if acc then 1 else 0]> (jd_perpos j))
           (if acc then u32 (jd_accepted j + 1) else jd_accepted j)
           (if acc then jd_firstrej j
            else if jd_firstrej j =? len then Z.of_nat i else jd_firstrej j))
  end.

(** [verifyKernel]. *)
Definition verify_kernel (sched : Schedule) (m : Block) (cand perpos : list Z) (seed len vocab : Z)
  : Judged :=
  verify_rounds sched vocab len cand (Z.to_nat len) 0 (start_block seed m)
    (mkJudged perpos 0 len).
End Kernels.

(** ** Lemmas: no schedule matters *)

(** A block whose arrays have a word per thread. *)
Record block_ok (m : Block) : Prop := {
  bo_state : length (bk_state m) = kNW;
  bo_next : length (bk_next m) = kNW;
  bo_reg : length (bk_reg m) = kNW
}.

(** The two intervals of every round are fair. *)
Definition fair_schedule (sched : Schedule) : Prop :=
  forall i, fair 18 (sched i).1 /\ fair 2 (sched i).2.

Lemma word_insert l t v u :
  (t < length l)%nat -> word (<[t := v]> l) u = if decide (u = t) then v else word l u.
Proof.
  intros Ht. unfold word. rewrite !nth_lookup. case_decide as E.
  - subst u. by rewrite list_lookup_insert_eq.
  - by rewrite list_lookup_insert_ne.
Qed.

Lemma word_ext l (f : nat -> Z) :
  (forall t, (t < length l)%nat -> word l t = f t) -> l = map f (seq 0 (length l)).
Proof.
  intros E. apply (nth_ext _ _ 0 (f 0%nat)); [by rewrite length_map, length_seq |].
  intros t Ht. rewrite map_nth, seq_nth by done. by apply E.
Qed.

(** An invariant of single turns is an invariant of an interval. *)
Lemma run_turns_ind (program : nat -> nat -> Block -> Block) (steps : nat)
    (I : (nat -> nat) -> Block -> Prop) :
  (forall pc m t, (t < kNW)%nat -> (pc t < steps)%nat -> I pc m ->
     I (fun u => if decide (u = t) then S (pc u) else pc u) (program t (pc t) m)) ->
  forall turns, fair steps turns -> forall m, I (fun _ => 0%nat) m ->
  exists pc, (forall t, (t < kNW)%nat -> pc t = steps) /\
    I pc (run_turns program turns (fun _ => 0%nat) m).
Proof.
  intros Step turns Fair.
  assert (G : forall pc m,
    (forall t, (pc t + length (filter (eq t) turns))%nat =
       if decide (t < kNW)%nat then steps else 0%nat) -> I pc m ->
    exists pc', (forall t, (t < kNW)%nat -> pc' t = steps) /\ I pc' (run_turns program turns pc m)).
  { clear Fair. induction turns as [| t turns IH]; intros pc m Hpc HI; simpl.
    - exists pc. split; [| done]. intros t Ht. specialize (Hpc t).
      rewrite filter_nil, Nat.add_0_r in Hpc. by rewrite decide_True in Hpc.
    - assert (Ht : (t < kNW)%nat /\ (pc t < steps)%nat).
      { specialize (Hpc t). rewrite filter_cons_True in Hpc by done. cbn [length] in Hpc.
        case_decide; lia. }
      destruct Ht as [Ht Hs]. apply IH; [| by apply Step].
      intros u. specialize (Hpc u). destruct (decide (u = t)) as [-> | N].
      + rewrite filter_cons_True in Hpc by done. cbn [length] in Hpc. lia.
      + by rewrite filter_cons_False in Hpc by done. }
  intros m. apply G. exact Fair.
Qed.

Section Advance.
  Context (w b : list Z) (m0 : Block).

(** The register of thread [t] after [c] rounds of its inner loop. *)
Definition partial_word (t c : nat) : Z :=
  fold_left (fun acc j => Z.lxor (u32 (acc * kMB)) (u32 (word (bk_state m0) j * word w (t * kNW + j))))
    (seq 0 c) (Z.lxor (word b t) (u32 (kMA * bk_sprev m0))).

Lemma partial_word_S t c :
  partial_word t (S c) =
  Z.lxor (u32 (partial_word t c * kMB)) (u32 (word (bk_state m0) c * word w (t * kNW + c))).
Proof. unfold partial_word. by rewrite seq_S, fold_left_app. Qed.

Definition advancing (pc : nat -> nat) (m : Block) : Prop :=
  bk_state m = bk_state m0 /\ bk_sprev m = bk_sprev m0 /\ block_ok m /\
  forall t, (t < kNW)%nat ->
    ((1 <= pc t)%nat -> word (bk_reg m) t = partial_word t (Nat.min (pc t - 1) kNW)) /\
    ((18 <= pc t)%nat -> word (bk_next m) t = partial_word t kNW).

Lemma advancing_step pc m t : (t < kNW)%nat -> (pc t < 18)%nat -> advancing pc m ->
  advancing (fun u => if decide (u = t) then S (pc u) else pc u) (advance_program w b t (pc t) m).
Proof.
  intros Ht Hpc (Es & Ep & [Ls Ln Lr] & A). unfold advance_program.
  pose proof (A t Ht) as [Ar _]. destruct (pc t) as [| j] eqn:E; [| case_decide as Hj].
  - split_and!; try done; [constructor; simpl; by rewrite ?length_insert |].
    intros u Hu. simpl. rewrite word_insert by (by rewrite Lr). case_decide as D.
    + subst u. rewrite E. split; [intros _ | lia]. rewrite Ep. reflexivity.
    + by apply A.
  - split_and!; try done; [constructor; simpl; by rewrite ?length_insert |].
    intros u Hu. simpl. rewrite word_insert by (by rewrite Lr). case_decide as D.
    + subst u. rewrite E. split; [| unfold kNW in *; lia]. intros _.
      rewrite Ar, Es by lia.
      replace (Nat.min (S (S j) - 1) kNW) with (S j) by lia.
      by replace (Nat.min (S j - 1) kNW) with j by lia; rewrite partial_word_S.
    + by apply A.
  - split_and!; try done; [constructor; simpl; by rewrite ?length_insert |].
    intros u Hu. simpl. rewrite word_insert by (by rewrite Ln).
    pose proof (A u Hu) as [Au1 Au2]. case_decide as D.
    + subst u. rewrite E in *. replace (Nat.min (S (S j) - 1) kNW) with kNW by lia.
      replace (Nat.min (S j - 1) kNW) with kNW in Ar by lia. split; intros _; apply Ar; lia.
    + by split.
Qed.

Definition copying (next : list Z) (pc : nat -> nat) (m : Block) : Prop :=
  bk_next m = next /\ bk_sprev m = bk_sprev m0 /\ block_ok m /\
  forall t, (t < kNW)%nat ->
    (pc t = 1%nat -> word (bk_reg m) t = word next t) /\
    ((2 <= pc t)%nat -> word (bk_state m) t = word next t).

Lemma copying_step next pc m t : (t < kNW)%nat -> (pc t < 2)%nat -> copying next pc m ->
  copying next (fun u => if decide (u = t) then S (pc u) else pc u) (copy_program t (pc t) m).
Proof.
  intros Ht Hpc (En & Ep & [Ls Ln Lr] & A). unfold copy_program.
  pose proof (A t Ht) as [Ar _]. destruct (pc t) as [| [| j]] eqn:E; [| | lia];
    (split_and!; try done; [constructor; simpl; by rewrite ?length_insert |]);
    intros u Hu; simpl; rewrite word_insert by lia; pose proof (A u Hu); case_decide as D;
    try done; subst u; rewrite E; (split; intros ?; [| try lia]); try lia.
  all: first [by rewrite En | by apply Ar].
Qed.

(** Whatever the schedule, a round ends in the next state. *)
Lemma advance_state_spec s : block_ok m0 -> fair 18 s.1 -> fair 2 s.2 ->
  let m := advance_state w b s m0 in
  bk_state m = map (fun t => partial_word t kNW) (seq 0 kNW) /\ bk_sprev m = bk_sprev m0 /\
  block_ok m.
Proof.
  intros B0 F1 F2. unfold advance_state.
  destruct (run_turns_ind (advance_program w b) 18 advancing advancing_step _ F1 m0)
    as (pc & Hpc & A).
  { split_and!; try done. intros; lia. }
  destruct A as (_ & Ep & B & A). set (m1 := run_turns _ s.1 _ _) in *.
  destruct (run_turns_ind copy_program 2 (copying (bk_next m1)) (copying_step _) _ F2 m1)
    as (pc' & Hpc' & En & Ep' & B' & A').
  { split_and!; try done. intros; lia. }
  split_and!; [| done | done].
  rewrite (word_ext _ (fun t => partial_word t kNW)); [by rewrite (bo_state _ B') |].
  intros t Ht. rewrite (bo_state _ B') in Ht.
  destruct (A' t Ht) as [_ A2]. rewrite A2 by (rewrite Hpc'; lia).
  destruct (A t Ht) as [_ A3]. apply A3. rewrite Hpc; lia.
Qed.
End Advance.

(** ** Lemmas: the kernels run the CPU model *)

Lemma zip_map {A B C} (f : A -> B) (g : A -> C) l :
  zip (map f l) (map g l) = map (fun x => (f x, g x)) l.
Proof. induction l as [| x l IH]; simpl; [done | by rewrite IH]. Qed.

Lemma fold_left_map {A B C} (f : A -> B -> A) (g : C -> B) l a :
  fold_left f (map g l) a = fold_left (fun a x => f a (g x)) l a.
Proof. revert a. induction l as [| x l IH]; intros a; simpl; [done | apply IH]. Qed.

Lemma map_nth_seq {A} (l : list A) d : l = map (fun i => nth i l d) (seq 0 (length l)).
Proof.
  apply (nth_ext _ _ d (nth 0 l d)); [by rewrite length_map, length_seq |].
  intros i Hi. by rewrite (map_nth (fun i => nth i l d)), seq_nth.
Qed.

(** A matrix stored row by row. *)
Lemma word_concat n rows t j : Forall (fun r => length r = n) rows -> (j < n)%nat ->
  (t < length rows)%nat -> word (concat rows) (t * n + j) = word (nth t rows []) j.
Proof.
  unfold word. intros Hr Hj. revert t. induction Hr as [| r rows Hl Hr IH]; intros [| t] Ht;
    simpl in *; try lia.
  - by rewrite app_nth1 by lia.
  - rewrite app_nth2 by lia. replace (n + t * n + j - length r)%nat with (t * n + j)%nat by lia.
    apply IH. lia.
Qed.

(** The generator of the device is the host's. *)
Lemma draws_words n x : draws n x = draw_words 0xFFFFFFFF n x.
Proof.
  revert x. induction n as [| n IH]; intros x; [done |]. cbn [draws draw_words].
  change (splitmix64_update x) with (splitmix x). destruct (splitmix x) as [v y] eqn:E.
  rewrite IH. destruct (draw_words _ n y). unfold splitmix in E. injection E as <- <-.
  f_equal. f_equal. unfold u32. by rewrite <- Z.land_assoc.
Qed.

Lemma start_block_state seed m : bk_state (start_block seed m) = seed_state seed.
Proof. cbn [start_block bk_state set]. unfold seed_state. by rewrite <- draws_words. Qed.

Lemma length_draws n x : length (draws n x).1 = n.
Proof.
  revert x. induction n as [| n IH]; intros x; [done |]. cbn [draws].
  destruct (splitmix x) as [v y]. specialize (IH y). destruct (draws n y) as [ws z]. simpl in *.
  by rewrite IH.
Qed.

(** A model in the layout of the kernels. *)
Record kernel_model (M : SyntheticModel) (w b : list Z) : Prop := {
  km_rows : Forall (fun r => length r = kNW) (weights M);
  km_weights : length (weights M) = kNW;
  km_bias : length (bias M) = kNW;
  km_mix : mix_a M = kMA /\ mix_b M = kMB;
  km_flat : w = concat (weights M) /\ b = bias M
}.

(** [build_target] is the target model of the CPU executors. *)
Lemma build_target_model : kernel_model (make_model kTargetModelSeed) build_target.1 build_target.2.
Proof.
  assert (T : (bool_decide (Forall (fun r => length r = kNW) (weights (make_model kTargetModelSeed))) &&
               (length (weights (make_model kTargetModelSeed)) =? kNW)%nat &&
               (length (bias (make_model kTargetModelSeed)) =? kNW)%nat &&
               (mix_a (make_model kTargetModelSeed) =? kMA) &&
               (mix_b (make_model kTargetModelSeed) =? kMB) &&
               bool_decide (build_target =
                 (concat (weights (make_model kTargetModelSeed)),
                  bias (make_model kTargetModelSeed)))) = true) by (by vm_compute).
  revert T. generalize (make_model kTargetModelSeed), build_target. intros M [w b] T.
  rewrite !andb_true_iff, !bool_decide_eq_true, !Z.eqb_eq, !Nat.eqb_eq in T.
  destruct T as (((((T1 & T2) & T3) & T4) & T5) & [= -> ->]). by constructor.
Qed.

Section Model.
  Context (M : SyntheticModel) (w b : list Z) (KM : kernel_model M w b).

Lemma step_word_partial m t : block_ok m -> (t < kNW)%nat ->
  step_word M (bk_state m) (bk_sprev m) (nth t (weights M) [], nth t (bias M) 0) =
  partial_word w b m t kNW.
Proof.
  intros [Ls _ _] Ht. destruct KM as [Hr Hw Hb [Ea Eb] [-> ->]].
  unfold step_word, partial_word. cbn [fst snd]. rewrite Ea, Eb.
  rewrite (map_nth_seq (bk_state m) 0), Ls at 1.
  rewrite (word_ext (nth t (weights M) []) (fun j => word (concat (weights M)) (t * kNW + j))).
  - replace (length (nth t (weights M) [])) with kNW.
    + by rewrite zip_map, fold_left_map.
    + symmetry. rewrite Forall_forall in Hr. apply Hr. apply list_elem_of_In, nth_In. lia.
  - intros j Hj. symmetry. apply word_concat; [done | | lia].
    replace (length (nth t (weights M) [])) with kNW in Hj; [done |].
    symmetry. rewrite Forall_forall in Hr. apply Hr. apply list_elem_of_In, nth_In. lia.
Qed.

(** One round advances the state as [step] does, whatever the schedule. *)
Lemma advance_state_step s m : block_ok m -> fair 18 s.1 -> fair 2 s.2 ->
  let m' := advance_state w b s m in
  bk_state m' = step M (bk_state m) (bk_sprev m) /\ bk_sprev m' = bk_sprev m /\ block_ok m'.
Proof.
  intros B F1 F2. destruct (advance_state_spec w b m s B F1 F2) as (E & P & B').
  split_and!; [| done | done]. rewrite E. unfold step.
  rewrite (map_nth_seq (weights M) []), (map_nth_seq (bias M) 0).
  destruct KM as [_ -> -> _ _]. rewrite zip_map, map_map. apply map_ext_in.
  intros t Ht. apply in_seq in Ht. symmetry. apply step_word_partial; [done | lia].
Qed.

Lemma raw_token_mod i m : raw_token i m mod kVocab =
  token M (bk_state m) (Z.of_nat i) (bk_sprev m) kSyntheticVocab.
Proof. destruct KM as [_ _ _ [Ea Eb] _]. unfold token, raw_token. by rewrite Ea, Eb. Qed.

(** The proposer kernel writes the draft of the CPU proposer. *)
Lemma propose_rounds_draft sched aligned branch : fair_schedule sched ->
  forall n i m done rest, block_ok m -> length done = i -> length rest = n ->
  propose_rounds w b sched kVocab aligned branch n i m (done ++ rest) =
  done ++ ids (draft_tokens M aligned branch n (Z.of_nat i) (bk_state m) (bk_sprev m)).
Proof.
  intros F. induction n as [| n IH]; intros i m dn rest B Hd Hr.
  - by rewrite (nil_length_inv rest Hr).
  - destruct rest as [| x rest]; [done |]. cbn [propose_rounds draft_tokens ids map].
    rewrite raw_token_mod. set (e := token M _ _ _ _).
    change (if Z.of_nat i <? aligned then e else u32 (e + 1 + branch) mod kVocab)
      with (draft_token aligned branch (Z.of_nat i) e).
    set (tok := draft_token _ _ _ _). cbn [tk_id token_of]. fold (ids (draft_tokens M aligned branch n
      (Z.of_nat i + 1) (step M (bk_state m) tok) tok)).
    destruct (F i) as [F1 F2].
    destruct (advance_state_step (sched i) (m <| bk_sprev := tok |>)) as (Es & Ep & B');
      [by destruct B | done | done |].
    rewrite <- Hd at 3. rewrite insert_app_r_alt, Nat.sub_diag by lia. cbn [insert list_insert].
    rewrite (cons_middle tok dn rest), (app_assoc dn [tok] rest).
    rewrite IH; [| done | rewrite length_app; simpl; lia | simpl in Hr; lia].
    rewrite Es, Ep, <- app_assoc. cbn [bk_state bk_sprev set].
    by replace (Z.of_nat (S i)) with (Z.of_nat i + 1) by lia.
Qed.

(** What the verifier's loop has accumulated, as the kernel stores it. *)
Definition stored (v : Verdict) : Judged :=
  mkJudged (per_position v) (accepted_prefix v) (first_rejection_index v).

(** The verifier kernel accumulates the verdict of the CPU verifier. *)
Lemma verify_rounds_judge sched len cand : fair_schedule sched ->
  forall toks i m rest v, block_ok m -> length (per_position v) = i ->
  length rest = length toks -> drop i cand = ids toks ->
  verify_rounds w b sched kVocab len cand (length toks) i m
    (mkJudged (per_position v ++ rest) (accepted_prefix v) (first_rejection_index v)) =
  stored (judge M len toks (Z.of_nat i) (bk_state m) (bk_sprev m) v).
Proof.
  intros F. induction toks as [| t toks IH]; intros i m rest v B Hd Hr Hc.
  - rewrite (nil_length_inv rest Hr), app_nil_r. done.
  - destruct rest as [| x rest]; [done |]. cbn [length verify_rounds judge jd_perpos jd_accepted jd_firstrej].
    assert (Hw : word cand i = tk_id t).
    { unfold word. rewrite nth_lookup. rewrite <- (Nat.add_0_r i), <- lookup_drop, Hc. done. }
    rewrite raw_token_mod, Hw. set (e := token M _ _ _ _).
    destruct (F i) as [F1 F2].
    destruct (advance_state_step (sched i) (m <| bk_sprev := e |>)) as (Es & Ep & B');
      [by destruct B | done | done |].
    rewrite <- Hd at 3. rewrite insert_app_r_alt, Nat.sub_diag by lia. cbn [insert list_insert].
    rewrite (cons_middle _ (per_position v) rest), (app_assoc (per_position v) _ rest).
    match goal with |- context [judge M len toks _ _ _ ?u] => set (v' := u) end.
    specialize (IH (S i) (advance_state w b (sched i) (m <| bk_sprev := e |>)) rest v' B').
    rewrite Es, Ep in IH. cbn [bk_state bk_sprev set] in IH.
    replace (Z.of_nat (S i)) with (Z.of_nat i + 1) in IH by lia.
    apply IH.
    + unfold v'. cbn [per_position]. rewrite length_app. simpl. lia.
    + simpl in Hr. lia.
    + replace (S i) with (i + 1)%nat by lia. rewrite <- drop_drop, Hc. done.
Qed.
End Model.

Lemma start_block_ok seed m : block_ok m -> block_ok (start_block seed m).
Proof. intros []. constructor; [apply length_draws | done | done]. Qed.

(** The kernels on the device, from arbitrary contents of its memory. *)
Lemma propose_kernel_draft sched m toks seed depth aligned branch :
  fair_schedule sched -> block_ok m -> length toks = depth ->
  propose_kernel build_target.1 build_target.2 sched m toks seed depth kVocab aligned branch =
  ids (draft_tokens (make_model kTargetModelSeed) aligned branch depth 0 (seed_state seed) 0).
Proof.
  intros F B L. pose proof build_target_model as KM.
  generalize dependent (make_model kTargetModelSeed). generalize build_target. intros wb M KM.
  unfold propose_kernel.
  pose proof (propose_rounds_draft M wb.1 wb.2 KM sched aligned branch F depth 0
    (start_block seed m) [] toks (start_block_ok _ _ B) eq_refl L) as E.
  by rewrite start_block_state in E.
Qed.

Lemma verify_kernel_judge sched m cand perpos seed :
  fair_schedule sched -> block_ok m -> length perpos = length cand ->
  verify_kernel build_target.1 build_target.2 sched m (ids cand) perpos seed (zlen cand) kVocab =
  stored (judge (make_model kTargetModelSeed) (zlen cand) cand 0 (seed_state seed) 0
            (mkVerdict [] 0 (zlen cand))).
Proof.
  intros F B L. pose proof build_target_model as KM.
  generalize dependent (make_model kTargetModelSeed). generalize build_target. intros wb M KM.
  unfold verify_kernel. replace (Z.to_nat (zlen cand)) with (length cand) by (unfold zlen; lia).
  pose proof (verify_rounds_judge M wb.1 wb.2 KM sched (zlen cand) (ids cand) F cand 0
    (start_block seed m) perpos (mkVerdict [] 0 (zlen cand)) (start_block_ok _ _ B) eq_refl L
    (drop_0 _)) as E.
  by rewrite start_block_state in E.
Qed.
