(* ===== verification/Cuda.v ===== *)
(** * The CUDA executors (cuda_executor.hpp, the host code of cuda_executor.cu)

    [propose] and [verify] around the kernels of [CudaKernels].  The CUDA
    runtime is not part of the program: what its calls do during one executor
    call is the parameter [Runtime], and [RuntimeOk] states what its
    documentation promises of calls that succeed. *)

From S2P Require Import Prelude Errors Ids Model Data Synthetic Cpu CudaKernels.

(** One executor call as the CUDA runtime serves it: whether device 0 can be
    selected; the [k]-th [cudaMalloc], of [n] 32-bit words, with what the
    memory happens to hold; whether the [k]-th copy to and from the device
    succeeds; the text of the error after the kernel, if any; what shared
    memory and registers hold when the kernel starts; and the schedule. *)
Record Runtime : Set := mkRuntime {
  rt_set_device : bool;
  rt_malloc : nat -> nat -> option (list Z);
  rt_to_device : nat -> bool;
  rt_from_device : nat -> bool;
  rt_error : option string;
  rt_next : list Z;
  rt_sprev : Z;
  rt_reg : list Z;
  rt_schedule : Schedule
}.

(** Memory of the requested size, a word of shared memory and a register for
    every thread, and barriers that let every thread finish its interval. *)
Class RuntimeOk (rt : Runtime) : Prop := {
  rt_malloc_size : forall k n buf, rt_malloc rt k n = Some buf -> length buf = n;
  rt_next_size : length (rt_next rt) = kNW;
  rt_reg_size : length (rt_reg rt) = kNW;
  rt_fair : fair_schedule (rt_schedule rt)
}.

(** The block a kernel starts with. *)
Definition block_of (rt : Runtime) (dstate : list Z) : Block :=
  mkBlock dstate (rt_next rt) (rt_sprev rt) (rt_reg rt).

(** ** The proposer *)

Module CudaProposer.

(** [CudaProposerExecutor::identity()]. *)
Definition identity : ExecutorIdentity :=
  mkExecutorIdentity (mkId 0x43555052) "cuda-proposer" ExecutorKind.CUDA 1.

Definition failure (code : ErrorCode) (detail : string) : ProposalResult :=
  ProposalResult_default <| pr_outcome := ProposalOutcome.NonRetryableFailure |>
    <| pr_error := code |> <| pr_detail := detail |>.

Definition seed_of (input : ProposalInput) : Z :=
  CudaKernels.mix64 (state_base (pi_base_state input)) (get (pi_base_generation input))
    (get (mdl_revision (pv_proposer_model (pi_provenance input))))
    (u64 (pi_depth input * 0x100000001B3)).

(** The result record filled in from the tokens copied back. *)
Definition success (input : ProposalInput) (host_tok : list Z) : ProposalResult :=
  let held := u64 (pi_depth input * 64) in
  ProposalResult_default
    <| pr_outcome := ProposalOutcome.Success |>
    <| pr_candidate := Some (mkCandidate (map token_of host_tok)) |>
    <| pr_speculative_state := Some (StateDescriptor_default
         <| sd_ref := mkStateRef (sr_id (pi_base_state input))
                        (mkId (u64 (get (sr_generation (pi_base_state input)) + 1))) |>
         <| sd_role := SequenceRole.Speculative |>
         <| sd_reservation := ReservationState.Used |>
         <| sd_owner := StateOwner.Proposal |>
         <| sd_bytes_held := held |>) |>
    <| pr_compute_spent := u64 (pi_depth input * 4) |>
    <| pr_memory_held := held |>
    <| pr_execution_measured_ns := u64 (pi_depth input * 2) |>
    <| pr_detail := "cuda-proposer produced " +:+ pretty (pi_depth input) +:+ " tokens" |>.

(** [CudaProposerExecutor::propose]. *)
Definition propose (aligned_tokens_ branch_index_ : Z) (rt : Runtime) (input : ProposalInput)
  : Result ProposalResult :=
  let depth := Z.to_nat (pi_depth input) in
  if pi_depth input =? 0 then
    Ok (failure ErrorCode.invalid_zero_depth "proposal depth must be positive")
  else if 256 <? pi_depth input then
    Ok (failure ErrorCode.invalid_depth "proposal depth exceeds CUDA bound")
  else if negb (rt_set_device rt) then
    Ok (failure ErrorCode.incompatible_device "could not select CUDA device 0")
  else
    match rt_malloc rt 0 (kNW * kNW), rt_malloc rt 1 kNW, rt_malloc rt 2 kNW,
          rt_malloc rt 3 depth with
    | Some _, Some _, Some dstate, Some dtok =>
        if negb (rt_to_device rt 0 && rt_to_device rt 1) then
          Ok (failure ErrorCode.internal "CUDA copy to device failed")
        else
          match rt_error rt with
          | Some e => Ok (failure ErrorCode.internal ("CUDA proposer kernel failed: " +:+ e))
          | None =>
              let dtok :=
                propose_kernel build_target.1 build_target.2 (rt_schedule rt)
                  (block_of rt dstate) dtok (seed_of input) depth kVocab aligned_tokens_
                  branch_index_ in
              if negb (rt_from_device rt 0) then
                Ok (failure ErrorCode.internal "CUDA copy from device failed")
              else Ok (success input dtok)
          end
    | _, _, _, _ => Ok (failure ErrorCode.internal "CUDA device allocation failed")
    end.

(** Every runtime call of a proposal of this depth succeeds. *)
Definition device_ok (rt : Runtime) (depth : nat) : Prop :=
  rt_set_device rt = true /\
  is_Some (rt_malloc rt 0 (kNW * kNW)) /\ is_Some (rt_malloc rt 1 kNW) /\
  is_Some (rt_malloc rt 2 kNW) /\ is_Some (rt_malloc rt 3 depth) /\
  rt_to_device rt 0 && rt_to_device rt 1 = true /\ rt_error rt = None /\
  rt_from_device rt 0 = true.

(** The executor object; the runtime may serve every call differently. *)
Definition executor (aligned_tokens_ branch_index_ : Z) (rt : ProposalInput -> Runtime)
  : ProposalExecutor :=
  mkProposalExecutor identity ExecutorKind.CUDA
    (fun input => propose aligned_tokens_ branch_index_ (rt input) input).

End CudaProposer.

(** ** The verifier *)

Module CudaVerifier.

(** [CudaVerifierExecutor::identity()]. *)
Definition identity : ExecutorIdentity :=
  mkExecutorIdentity (mkId 0x43564552) "cuda-verifier" ExecutorKind.CUDA 1.

Definition failure (len : Z) (retryable : bool) (note : string) : AcceptanceResult :=
  AcceptanceResult_default <| ar_outcome := AcceptanceOutcome.VerifierFailure |>
    <| ar_candidate_length := len |> <| ar_retryable := retryable |>
    <| ar_verifier_note := note |>.

Definition seed_of (input : VerificationInput) : Z :=
  CudaKernels.mix64 (state_base (vi_authoritative_state input))
    (get (vi_authoritative_generation input)) (get (mdl_revision (vi_proposer input)))
    (u64 (cand_size (vi_candidate input) * 0x100000001B3)).

(** The result record filled in from the values copied back. *)
Definition success (input : VerificationInput) (len : Z) (j : Judged) : AcceptanceResult :=
  let next_state_generation : StateGeneration :=
    mkId (u64 (get (sr_generation (vi_authoritative_state input)) + jd_accepted j)) in
  AcceptanceResult_default
    <| ar_candidate_length := len |>
    <| ar_accepted_prefix := jd_accepted j |>
    <| ar_first_rejection_index := jd_firstrej j |>
    <| ar_per_position := map u8 (jd_perpos j) |>
    <| ar_outcome := if jd_accepted j =? len then AcceptanceOutcome.FullAccept
                     else if jd_accepted j =? 0 then AcceptanceOutcome.RejectAll
                     else AcceptanceOutcome.PartialAccept |>
    <| ar_authoritative_next_generation :=
         mkId (u64 (get (vi_authoritative_generation input) + jd_accepted j)) |>
    <| ar_authoritative_next_state :=
         mkStateRef (sr_id (vi_authoritative_state input)) next_state_generation |>
    <| ar_authoritative_next_state_generation := next_state_generation |>
    <| ar_execution_measured_ns := u64 (len * 2) |>
    <| ar_verifier_note :=
         "cuda-verifier accepted " +:+ pretty (jd_accepted j) +:+ "/" +:+ pretty len |>.

(** [CudaVerifierExecutor::verify]. *)
Definition verify (rt : Runtime) (input : VerificationInput) : Result AcceptanceResult :=
  let len := u32 (cand_size (vi_candidate input)) in
  let n := Z.to_nat len in
  if cand_empty (vi_candidate input) then Ok (failure len true "candidate is empty")
  else if negb (rt_set_device rt) then
    Ok (failure len false "could not select CUDA device 0")
  else
    let cand := map tk_id (take n (tokens (vi_candidate input))) in
    match rt_malloc rt 0 (kNW * kNW), rt_malloc rt 1 kNW, rt_malloc rt 2 n, rt_malloc rt 3 kNW,
          rt_malloc rt 4 n, rt_malloc rt 5 1, rt_malloc rt 6 1 with
    | Some _, Some _, Some _, Some dstate, Some dper, Some _, Some _ =>
        if negb (rt_to_device rt 0 && rt_to_device rt 1 && rt_to_device rt 2) then
          Ok (failure len false "CUDA copy to device failed")
        else
          match rt_error rt with
          | Some e => Ok (failure len false ("CUDA verifier kernel failed: " +:+ e))
          | None =>
              let j :=
                verify_kernel build_target.1 build_target.2 (rt_schedule rt)
                  (block_of rt dstate) cand dper (seed_of input) len kVocab in
              if negb (rt_from_device rt 0 && rt_from_device rt 1 && rt_from_device rt 2) then
                Ok (failure len false "CUDA copy from device failed")
              else Ok (success input len j)
          end
    | _, _, _, _, _, _, _ => Ok (failure len false "CUDA device allocation failed")
    end.

(** Every runtime call of a verification of [n] tokens succeeds. *)
Definition device_ok (rt : Runtime) (n : nat) : Prop :=
  rt_set_device rt = true /\
  is_Some (rt_malloc rt 0 (kNW * kNW)) /\ is_Some (rt_malloc rt 1 kNW) /\
  is_Some (rt_malloc rt 2 n) /\ is_Some (rt_malloc rt 3 kNW) /\ is_Some (rt_malloc rt 4 n) /\
  is_Some (rt_malloc rt 5 1) /\ is_Some (rt_malloc rt 6 1) /\
  rt_to_device rt 0 && rt_to_device rt 1 && rt_to_device rt 2 = true /\ rt_error rt = None /\
  rt_from_device rt 0 && rt_from_device rt 1 && rt_from_device rt 2 = true.

(** The executor object. *)
Definition executor (rt : VerificationInput -> Runtime) : VerificationExecutor :=
  mkVerificationExecutor identity ExecutorKind.CUDA (fun input => verify (rt input) input).

End CudaVerifier.

(** ** Lemmas *)

Lemma block_of_ok rt `{!RuntimeOk rt} k dstate :
  rt_malloc rt k kNW = Some dstate -> block_ok (block_of rt dstate).
Proof. intros E. constructor; [by eapply rt_malloc_size | apply rt_next_size | apply rt_reg_size]. Qed.

Lemma token_of_draft m al bi n : forall i state prev,
  map token_of (ids (draft_tokens m al bi n i state prev)) = draft_tokens m al bi n i state prev.
Proof.
  induction n as [| n IH]; intros i state prev; [done |]. cbn [draft_tokens ids map tk_id token_of].
  f_equal. apply IH.
Qed.

Lemma mix64_device_shared : CudaKernels.mix64 = Synthetic.mix64.
Proof. unfold CudaKernels.mix64. unfold Synthetic.mix64. reflexivity. Qed.

Lemma proposer_seed_shared input bi :
  CudaProposer.seed_of input =
  CpuProposer.seed_of (input <| pi_branch_index := bi |> <| pi_compute_budget := 0 |>).
Proof. unfold CudaProposer.seed_of, CpuProposer.seed_of. by rewrite mix64_device_shared. Qed.

Lemma verifier_seed_shared input : CudaVerifier.seed_of input = CpuVerifier.seed_of input.
Proof.
  unfold CudaVerifier.seed_of, CpuVerifier.seed_of. by rewrite mix64_device_shared, mix64_shared.
Qed.

(** What two backends have to agree on. *)
Definition same_proposal (r c : ProposalResult) : Prop :=
  pr_outcome r = pr_outcome c /\ pr_candidate r = pr_candidate c /\ pr_error r = pr_error c /\
  pr_speculative_state r = pr_speculative_state c /\ pr_memory_held r = pr_memory_held c.

Definition same_acceptance (r c : AcceptanceResult) : Prop :=
  ar_outcome r = ar_outcome c /\ ar_candidate_length r = ar_candidate_length c /\
  ar_accepted_prefix r = ar_accepted_prefix c /\
  ar_first_rejection_index r = ar_first_rejection_index c /\
  ar_per_position r = ar_per_position c /\
  ar_authoritative_next_generation r = ar_authoritative_next_generation c /\
  ar_authoritative_next_state r = ar_authoritative_next_state c /\
  ar_authoritative_next_state_generation r = ar_authoritative_next_state_generation c.

(** A runtime call that fails is not one of a device that works. *)
Ltac device_fault :=
  let D := fresh in
  intros D; decompose [and] D; clear D;
  repeat match goal with H : is_Some None |- _ => destruct H; discriminate end; congruence.

Ltac faulty :=
  left; do 2 eexists; split; [reflexivity |]; split; [discriminate |];
  right; right; split; [assumption | device_fault].

(** A proposal of the device: a failure without a candidate, only when the
    input or the device is at fault, or the draft of the CPU model. *)
Lemma cuda_propose_cases al bi rt input :
  RuntimeOk rt -> 0 <= pi_depth input ->
  (exists code d, CudaProposer.propose al bi rt input = Ok (CudaProposer.failure code d) /\
     code <> ErrorCode.ok /\
     (pi_depth input = 0 /\ code = ErrorCode.invalid_zero_depth \/
      256 < pi_depth input /\ code = ErrorCode.invalid_depth \/
      1 <= pi_depth input <= 256 /\ ~ CudaProposer.device_ok rt (Z.to_nat (pi_depth input)))) \/
  1 <= pi_depth input <= 256 /\
  CudaProposer.propose al bi rt input =
    Ok (CudaProposer.success input
          (ids (draft_tokens (make_model kTargetModelSeed) al bi (Z.to_nat (pi_depth input)) 0
                  (seed_state (CudaProposer.seed_of input)) 0))).
Proof.
  intros Hrt H0. unfold CudaProposer.propose, CudaProposer.device_ok.
  destruct (Z.eqb_spec (pi_depth input) 0); [left; do 2 eexists; by split_and!; [| | left] |].
  destruct (Z.ltb_spec 256 (pi_depth input));
    [left; do 2 eexists; by split_and!; [| | right; left] |].
  assert (1 <= pi_depth input <= 256) by lia.
  destruct (rt_set_device rt); cbn [negb]; [| faulty].
  destruct (rt_malloc rt 0 _); [| faulty].
  destruct (rt_malloc rt 1 _); [| faulty].
  destruct (rt_malloc rt 2 _) as [dstate |] eqn:Ds; [| faulty].
  destruct (rt_malloc rt 3 _) as [dtok |] eqn:Dt; [| faulty].
  destruct (_ && _); cbn [negb]; [| faulty].
  destruct (rt_error rt); [faulty |].
  destruct (rt_from_device rt 0); cbn [negb]; [| faulty].
  right. split; [done |]. rewrite propose_kernel_draft; [done | apply rt_fair | | ].
  - by eapply block_of_ok.
  - by eapply rt_malloc_size.
Qed.

Ltac faulty_verify := left; do 2 eexists; split; [reflexivity |]; right; device_fault.

(** A verification on the device: a failure, only when there is nothing to
    judge or the device is at fault, or the verdict of the CPU's loop. *)
Lemma cuda_verify_cases rt input :
  RuntimeOk rt ->
  let len := u32 (cand_size (vi_candidate input)) in
  (exists b note, CudaVerifier.verify rt input = Ok (CudaVerifier.failure len b note) /\
     (cand_size (vi_candidate input) = 0 \/ ~ CudaVerifier.device_ok rt (Z.to_nat len))) \/
  1 <= cand_size (vi_candidate input) /\
  CudaVerifier.verify rt input =
    Ok (CudaVerifier.success input len
          (stored (CpuVerifier.run_judge (make_model kTargetModelSeed) len
                     (tokens (vi_candidate input)) (seed_state (CudaVerifier.seed_of input))))).
Proof.
  intros Hrt len. unfold CudaVerifier.verify, CudaVerifier.device_ok. fold len.
  pose proof (cand_empty_iff (vi_candidate input)) as Ce.
  pose proof (cand_size_nonneg (vi_candidate input)) as Hs.
  destruct (cand_empty _); [left; do 2 eexists; split; [done |]; left; by apply Ce |].
  assert (1 <= cand_size (vi_candidate input)).
  { destruct (Z.eq_dec (cand_size (vi_candidate input)) 0) as [E |]; [| lia].
    apply Ce in E. discriminate. }
  destruct (rt_set_device rt); cbn [negb]; [| faulty_verify].
  destruct (rt_malloc rt 0 _); [| faulty_verify].
  destruct (rt_malloc rt 1 _); [| faulty_verify].
  destruct (rt_malloc rt 2 _); [| faulty_verify].
  destruct (rt_malloc rt 3 _) as [dstate |] eqn:Ds; [| faulty_verify].
  destruct (rt_malloc rt 4 _) as [dper |] eqn:Dp; [| faulty_verify].
  destruct (rt_malloc rt 5 _); [| faulty_verify].
  destruct (rt_malloc rt 6 _); [| faulty_verify].
  destruct (rt_to_device rt 0 && _ && _); cbn [negb]; [| faulty_verify].
  destruct (rt_error rt); [faulty_verify |].
  destruct (rt_from_device rt 0 && _ && _); cbn [negb]; [| faulty_verify].
  right. split; [done |]. change (map tk_id ?l) with (ids l).
  assert (Hl : len = zlen (take (Z.to_nat len) (tokens (vi_candidate input)))).
  { rewrite zlen_take. fold (cand_size (vi_candidate input)). unfold len. rewrite u32_mod. zdm. }
  apply rt_malloc_size in Dp. unfold CpuVerifier.run_judge.
  set (cand := take _ _) in *. clearbody cand len. subst len.
  rewrite verify_kernel_judge; [done | apply rt_fair | by eapply block_of_ok |].
  rewrite Dp. unfold zlen. lia.
Qed.

(** What the CPU verifier says of an input it judges. *)
Definition judged_verdict (input : VerificationInput) : Verdict :=
  let cand := ids (tokens (vi_candidate input)) in
  mkVerdict (matches (expected_tokens input) cand) (match_count (expected_tokens input) cand)
    (lcp (expected_tokens input) cand).

Lemma device_verdict input : is_u32 (cand_size (vi_candidate input)) ->
  CpuVerifier.run_judge (make_model kTargetModelSeed) (u32 (cand_size (vi_candidate input)))
    (tokens (vi_candidate input)) (seed_state (CudaVerifier.seed_of input)) =
  judged_verdict input.
Proof.
  intros Hn. rewrite u32_small by done. unfold cand_size. rewrite run_judge_spec by done.
  unfold judged_verdict, expected_tokens. by rewrite verifier_seed_shared.
Qed.

Lemma u8_matches a b : map u8 (matches a b) = matches a b.
Proof.
  unfold matches. rewrite map_map. apply map_ext. intros ab. by destruct (ab.1 =? ab.2).
Qed.

(** Both backends keep the contracts of their interfaces. *)
#[export] Instance cuda_proposer_contract al bi rt `{!forall i, RuntimeOk (rt i)} :
  ProposerContract (CudaProposer.executor al bi rt).
Proof.
  constructor; intros i r; [intros Hd E S | intros c Hd E C]; cbn [propose CudaProposer.executor] in E;
    unfold is_u32 in Hd;
    (destruct (cuda_propose_cases al bi (rt i) i) as [(code & d & Ep & _) | [_ Ep]];
      [done | lia | |]); rewrite Ep in E; injection E as <-; try done.
  injection C as <-. split; [done |]. unfold cand_size, zlen. cbn [tokens].
  rewrite length_map. unfold ids. rewrite length_map, length_draft_tokens. lia.
Qed.

(** ** Properties *)

(** C23: The CUDA proposer drafts what the CPU proposer drafts.  Whatever the
    runtime does - it may refuse the device, an allocation, a copy or the
    kernel, leave any contents in fresh memory, and interleave the reads and
    writes of the 16 threads in any order between barriers - [propose] either
    agrees with the CPU proposer of the same alignment on outcome, error,
    candidate and speculative state, or it is a non-retryable failure with an
    error and no candidate; and when every runtime call succeeds it agrees.
    The branch index is the executor's own, not the input's, and the compute
    budget is not looked at. *)
Theorem cuda_propose_matches_cpu al bi rt input :
  RuntimeOk rt -> is_u32 (pi_depth input) ->
  let cpu_input := input <| pi_branch_index := bi |> <| pi_compute_budget := 0 |> in
  exists r c,
    CudaProposer.propose al bi rt input = Ok r /\
    CpuProposer.propose (CpuProposer.Config_aligned al) cpu_input = Ok c /\
    (same_proposal r c \/
     pr_outcome r = ProposalOutcome.NonRetryableFailure /\ pr_candidate r = None /\
     pr_error r <> ErrorCode.ok) /\
    (CudaProposer.device_ok rt (Z.to_nat (pi_depth input)) -> same_proposal r c).
Proof.
  intros Hrt Hd cpu_input. unfold is_u32 in Hd. unfold CpuProposer.propose.
  change (pi_depth cpu_input) with (pi_depth input).
  change (pi_compute_budget cpu_input) with 0. cbn [Z.eqb negb andb].
  destruct (cuda_propose_cases al bi rt input Hrt ltac:(lia))
    as [(code & d & -> & Hc & F) | (B & ->)].
  - assert (P : forall code c, pr_outcome c = ProposalOutcome.NonRetryableFailure ->
      pr_candidate c = None -> pr_error c = code -> pr_speculative_state c = None ->
      pr_memory_held c = 0 -> same_proposal (CudaProposer.failure code d) c)
      by (unfold same_proposal; intros; split_and!; by symmetry).
    destruct F as [(E & ->) | [(E & ->) | (B & N)]].
    + rewrite E. do 2 eexists. split_and!; [done | done | left; by apply P | intros _; by apply P].
    + rewrite (proj2 (Z.eqb_neq _ 0)), (proj2 (Z.ltb_lt 256 _)) by lia.
      do 2 eexists. split_and!; [done | done | left; by apply P | intros _; by apply P].
    + rewrite (proj2 (Z.eqb_neq _ 0)), (proj2 (Z.ltb_ge 256 _)) by lia.
      do 2 eexists. split_and!; [done | done | by right | done].
  - rewrite (proj2 (Z.eqb_neq _ 0)), (proj2 (Z.ltb_ge 256 _)) by lia.
    do 2 eexists. split_and!; [done | done | left | intros _].
    all: unfold same_proposal, CudaProposer.success; rewrite token_of_draft;
      rewrite (proposer_seed_shared input bi); by split_and!.
Qed.

Lemma success_judges input n j :
  ar_outcome (CudaVerifier.success input n j) <> AcceptanceOutcome.VerifierFailure.
Proof. simpl. by repeat case_ztest. Qed.

(** The device's record of a verdict is the CPU verifier's. *)
Lemma cuda_success_same input n v :
  same_acceptance (CudaVerifier.success input n (stored (mkVerdict (matches v.1 v.2)
      (match_count v.1 v.2) (lcp v.1 v.2))))
    (CpuVerifier.verdict_result input n (mkVerdict (matches v.1 v.2)
      (match_count v.1 v.2) (lcp v.1 v.2))).
Proof.
  unfold same_acceptance, CudaVerifier.success, CpuVerifier.verdict_result, CpuVerifier.outcome_of.
  split_and!; try done. apply u8_matches.
Qed.

#[export] Instance cuda_verifier_contract rt `{!forall i, RuntimeOk (rt i)} :
  VerifierContract (CudaVerifier.executor rt).
Proof.
  constructor. intros i r E. cbn [verify CudaVerifier.executor] in E.
  pose proof (cand_size_nonneg (vi_candidate i)).
  destruct (cuda_verify_cases (rt i) i) as [(b & note & Ep & _) | [_ Ep]]; [done | |];
    rewrite Ep in E; injection E as <-; [simpl; lia |].
  cbn [ar_accepted_prefix CudaVerifier.success stored jd_accepted].
  unfold CpuVerifier.run_judge.
  match goal with |- context [judge ?m ?n ?c ?k ?s ?p ?v] =>
    pose proof (length_judge_bound m n c k s p v ltac:(simpl; lia)) as B end.
  rewrite zlen_take in B. simpl accepted_prefix in B at 2. unfold cand_size in *. simpl in *. lia.
Qed.

(** C24: The CUDA verifier judges as the CPU verifier judges.  Whatever the
    runtime does, [verify] either fails, accepting nothing, or reports for a
    non-empty candidate the comparison with the target sequence, whatever
    tokenizer and vocabulary the input names; on an input that the CPU
    verifier judges the two agree on outcome, lengths, positions and next
    generations.  When every runtime call succeeds it does not fail. *)
Theorem cuda_verify_matches_cpu rt input :
  RuntimeOk rt -> is_u32 (cand_size (vi_candidate input)) ->
  let cand := ids (tokens (vi_candidate input)) in
  exists r, CudaVerifier.verify rt input = Ok r /\
    (ar_outcome r = AcceptanceOutcome.VerifierFailure /\ ar_accepted_prefix r = 0 \/
     ar_outcome r <> AcceptanceOutcome.VerifierFailure /\
     ar_per_position r = matches (expected_tokens input) cand /\
     ar_accepted_prefix r = match_count (expected_tokens input) cand /\
     ar_first_rejection_index r = lcp (expected_tokens input) cand /\
     (judged input ->
      exists c, CpuVerifier.verify input = Ok c /\ same_acceptance r c)) /\
    (CudaVerifier.device_ok rt (length (tokens (vi_candidate input))) ->
     1 <= cand_size (vi_candidate input) -> ar_outcome r <> AcceptanceOutcome.VerifierFailure).
Proof.
  intros Hrt Hn cand.
  pose proof (device_verdict input Hn) as V.
  destruct (cuda_verify_cases rt input Hrt) as [(b & note & -> & F) | (H1 & ->)];
    rewrite (u32_small (cand_size _)) in * by done.
  - eexists. split; [done |]. split; [by left |]. intros D Hs. destruct F as [F | F]; [lia |].
    by replace (Z.to_nat (cand_size (vi_candidate input))) with
      (length (tokens (vi_candidate input))) in F by (unfold cand_size, zlen; lia).
  - rewrite V. pose proof (success_judges input (cand_size (vi_candidate input))
                             (stored (judged_verdict input))).
    eexists. split; [done |]. split; [right | done]. split_and!; [done | | done | done |].
    + apply u8_matches.
    + intros J. rewrite verify_judged by done. eexists. split; [done |].
      apply (cuda_success_same input _ (expected_tokens input, cand)).
Qed.

(** ** A runtime at work *)

(** Thread after thread, then in the opposite order; memory holds sevens. *)
Definition sample_runtime : Runtime :=
  mkRuntime true (fun _ n => Some (repeat 7 n)) (fun _ => true) (fun _ => true) None
    (repeat 7 kNW) 7 (repeat 7 kNW)
    (fun _ => (concat (repeat (seq 0 kNW) 18), concat (repeat (rev (seq 0 kNW)) 2))).

Lemma fair_rounds l steps : fair 1 l -> fair steps (concat (repeat l steps)).
Proof.
  intros F t. specialize (F t). induction steps as [| n IH]; [by case_decide |].
  cbn [repeat concat]. rewrite filter_app, length_app, F, IH. by case_decide.
Qed.

Lemma fair_seq : fair 1 (seq 0 kNW).
Proof.
  intros t. case_decide as D.
  - unfold kNW in *. do 16 (destruct t as [| t]; [done |]). lia.
  - destruct (filter (eq t) (seq 0 kNW)) as [| u l] eqn:E; [done |].
    assert (I : u ∈ filter (eq t) (seq 0 kNW)) by (rewrite E; left).
    apply list_elem_of_filter in I as [<- I]. apply elem_of_seq in I. lia.
Qed.

Lemma fair_perm l l' : Permutation l l' -> fair 1 l -> fair 1 l'.
Proof. intros P F t. by rewrite <- P. Qed.

Lemma sample_runtime_ok : RuntimeOk sample_runtime.
Proof.
  constructor.
  - intros k n buf [= <-]. apply repeat_length.
  - done.
  - done.
  - intros i. split; apply fair_rounds; [apply fair_seq |].
    eapply fair_perm; [apply Permutation_rev | apply fair_seq].
Qed.

Lemma cuda_propose_matches_cpu_witness :
  exists r c,
    CudaProposer.propose 3 2 sample_runtime sample_proposal_input = Ok r /\
    CpuProposer.propose (CpuProposer.Config_aligned 3)
      (sample_proposal_input <| pi_branch_index := 2 |> <| pi_compute_budget := 0 |>) = Ok c /\
    same_proposal r c.
Proof.
  destruct (cuda_propose_matches_cpu 3 2 sample_runtime sample_proposal_input sample_runtime_ok)
    as (r & c & Er & Ec & _ & S); [in_range |].
  exists r, c. split; [exact Er |]. split; [exact Ec |]. apply S.
  by repeat split; eexists.
Defined.

Lemma cuda_verify_matches_cpu_witness :
  exists r c,
    CudaVerifier.verify sample_runtime (sample_verification_input sample_draft) = Ok r /\
    CpuVerifier.verify (sample_verification_input sample_draft) = Ok c /\ same_acceptance r c.
Proof.
  destruct (cuda_verify_matches_cpu sample_runtime (sample_verification_input sample_draft)
              sample_runtime_ok) as (r & Er & C & D); [in_range |].
  destruct C as [[F _] | (_ & _ & _ & _ & J)].
  - exfalso. apply D in F; [done | by repeat split; eexists | by vm_compute].
  - destruct J as (c & Ec & S); [split; [by vm_compute | by split] |].
    exists r, c. by split_and!.
Defined.
