(* ===== verification/Bytes.v ===== *)
(** * Fixed-width readers over byte vectors

    The wire decoder and the archive reader share one idiom: a position in a
    byte vector, and a read that fails when fewer bytes remain than it needs.
    The reader's state is the list of the bytes after the position. *)

From S2P Require Import Prelude Errors.

Definition bytes : Set := list Z.

(** Each is one. *)
Definition octets (p : bytes) : Prop := Forall is_u8 p.

(** [if (pos + n > size) return false; v = ...; pos += n; return true]. *)
Definition read_le (n : nat) (rest : bytes) : option (Z * bytes) :=
  if zlen rest <? Z.of_nat n then None
  else Some (le_value (take n rest), drop n rest).

(** A failed read becomes the error of its call site. *)
Definition or_error {A} (r : option A) (code : ErrorCode) (msg : string) : Result A :=
  match r with Some a => Ok a | None => err code msg end.

(** [k] reads of width [w] into a vector. *)
Fixpoint read_fields (w k : nat) (rest : bytes) : option (list Z * bytes) :=
  match k with
  | O => Some ([], rest)
  | S k =>
      match read_le w rest with
      | None => None
      | Some (v, rest) =>
          match read_fields w k rest with
          | None => None
          | Some (vs, rest) => Some (v :: vs, rest)
          end
      end
  end.

(** [for (v : vs) put(out, v)]. *)
Definition put_fields (w : nat) (vs : list Z) : bytes := concat (map (le_bytes w) vs).

(** ** Lemmas *)

Definition fits (w : nat) (v : Z) : Prop := 0 <= v < 256 ^ Z.of_nat w.

Lemma fits_u32 v : is_u32 v -> fits 4 v.
Proof. exact id. Qed.

Lemma fits_u64 v : is_u64 v -> fits 8 v.
Proof. exact id. Qed.

#[export] Hint Resolve fits_u32 fits_u64 : fabric.

Lemma zlen_le_bytes w v : zlen (le_bytes w v) = Z.of_nat w.
Proof. unfold zlen. by rewrite length_le_bytes. Qed.

Lemma put_fields_cons w v vs : put_fields w (v :: vs) = le_bytes w v ++ put_fields w vs.
Proof. reflexivity. Qed.

Lemma zlen_put_fields w vs : zlen (put_fields w vs) = Z.of_nat w * zlen vs.
Proof.
  induction vs as [| v vs IH]; [unfold zlen; simpl; lia |].
  unfold put_fields in *. simpl. rewrite zlen_app, zlen_le_bytes, IH, zlen_cons. lia.
Qed.

Lemma put_fields_u8 w vs : Forall is_u8 (put_fields w vs).
Proof.
  induction vs as [| v vs IH]; [constructor |].
  unfold put_fields. simpl. apply Forall_app. split; [apply le_bytes_u8 | exact IH].
Qed.

#[export] Hint Resolve le_bytes_u8 put_fields_u8 : fabric.
#[export] Hint Rewrite zlen_le_bytes zlen_put_fields : fabric.

(** Reading back what was written. *)
Lemma read_le_put w v rest : fits w v -> read_le w (le_bytes w v ++ rest) = Some (v, rest).
Proof.
  intros Hv. unfold read_le. rewrite zlen_app, zlen_le_bytes.
  rewrite (proj2 (Z.ltb_ge _ _)) by (pose proof (zlen_nonneg rest); lia).
  rewrite take_app_length', drop_app_length' by (by rewrite length_le_bytes).
  by rewrite le_value_le_bytes.
Qed.

(** What is read is what was written: the reader is canonical. *)
Lemma read_le_inv w rest v rest' :
  Forall is_u8 rest -> read_le w rest = Some (v, rest') ->
  rest = le_bytes w v ++ rest' /\ fits w v /\ Forall is_u8 rest'.
Proof.
  intros Hr. unfold read_le. destruct (Z.ltb_spec (zlen rest) (Z.of_nat w)) as [| L];
    [discriminate |]. intros [= <- <-].
  assert (Ht : Forall is_u8 (take w rest)) by (by apply Forall_take).
  assert (Lt : length (take w rest) = w) by (rewrite length_take; unfold zlen in L; lia).
  split; [| split].
  - pose proof (le_bytes_le_value _ Ht) as E. rewrite Lt in E. rewrite E. by rewrite take_drop.
  - unfold fits. pose proof (le_value_range _ Ht) as R. unfold zlen in R. by rewrite Lt in R.
  - by apply Forall_drop.
Qed.

Lemma read_le_None w rest : read_le w rest = None <-> zlen rest < Z.of_nat w.
Proof. unfold read_le. case_ztest; naive_solver lia. Qed.

Lemma read_fields_put w vs rest :
  Forall (fits w) vs -> read_fields w (length vs) (put_fields w vs ++ rest) = Some (vs, rest).
Proof.
  induction 1 as [| v vs Hv _ IH]; [done |].
  unfold put_fields in *. simpl. rewrite <- app_assoc, read_le_put by done. by rewrite IH.
Qed.

Lemma read_fields_inv w k : forall rest vs rest',
  Forall is_u8 rest -> read_fields w k rest = Some (vs, rest') ->
  rest = put_fields w vs ++ rest' /\ length vs = k /\ Forall (fits w) vs /\ Forall is_u8 rest'.
Proof.
  induction k as [| k IH]; intros rest vs rest' Hr; simpl.
  - intros [= <- <-]. by repeat split.
  - destruct (read_le w rest) as [[v r1] |] eqn:E; [| discriminate].
    destruct (read_fields w k r1) as [[vs1 r2] |] eqn:F; [| discriminate].
    intros [= <- <-]. apply read_le_inv in E as (-> & Hv & H1); [| done].
    apply IH in F as (-> & <- & Hvs & H2); [| done].
    split; [unfold put_fields; simpl; by rewrite app_assoc |].
    split; [done |]. split; [by constructor | done].
Qed.

(** The reader consumes exactly the fields it returns. *)
Lemma read_fields_rest w k : forall rest vs rest',
  read_fields w k rest = Some (vs, rest') ->
  zlen rest = Z.of_nat w * Z.of_nat k + zlen rest' /\ rest' = drop (w * k) rest.
Proof.
  induction k as [| k IH]; intros rest vs rest'; simpl.
  - intros [= _ <-]. rewrite Nat.mul_0_r. split; [lia | done].
  - unfold read_le. destruct (Z.ltb_spec (zlen rest) (Z.of_nat w)); [discriminate |].
    destruct (read_fields w k (drop w rest)) as [[vs1 r2] |] eqn:F; [| discriminate].
    intros [= _ <-]. apply IH in F as [L ->]. unfold zlen in *. rewrite length_drop in L.
    split; [nia |]. rewrite drop_drop. f_equal. lia.
Qed.

Lemma read_fields_None w k : forall rest,
  (1 <= w)%nat -> read_fields w k rest = None <-> zlen rest < Z.of_nat w * Z.of_nat k.
Proof.
  induction k as [| k IH]; intros rest Hw; simpl read_fields.
  - split; [done | pose proof (zlen_nonneg rest); lia].
  - destruct (read_le w rest) as [[v r1] |] eqn:E.
    + specialize (IH r1 Hw). unfold read_le in E.
      destruct (Z.ltb_spec (zlen rest) (Z.of_nat w)); [discriminate |]. injection E as _ <-.
      assert (L : zlen (drop w rest) = zlen rest - Z.of_nat w)
        by (unfold zlen in *; rewrite length_drop; lia).
      destruct (read_fields w k (drop w rest)) as [[vs r2] |]; [| naive_solver lia].
      split; [done |]. intros. exfalso. destruct IH as [_ IH]. ospecialize (IH _); [lia | done].
    + apply read_le_None in E. split; [intros _; nia | done].
Qed.
