(* ===== verification/Wire.v ===== *)
(** * The framed wire protocol (wire.hpp, wire.cpp)

    Messages, their payload encoding, and the length-prefixed frames that
    carry them.  Byte vectors are lists of integers; the body string is the
    list of its bytes. *)

From S2P Require Import Prelude Errors Bytes.

(** [kMaxFrameSize], [kProtocolVersion], [kFrameLenWidth]. *)
Definition kMaxFrameSize : Z := 16 * 1024 * 1024.
Definition kProtocolVersion : Z := 1.
Definition kFrameLenWidth : Z := 4.

(** [enum class Msg : std::uint32_t]: a value of the underlying type, since
    both [encode] and [decode] cast to and from it. *)
Module Msg.

Definition t : Set := Z.
Definition Null : t := 0.
Definition Hello : t := 1.
Definition SubmitRequest : t := 2.
Definition ProposalDispatch : t := 3.
Definition ProposalResult : t := 4.
Definition VerificationDispatch : t := 5.
Definition VerificationResult : t := 6.
Definition Commit : t := 7.
Definition Reject : t := 8.
Definition Cancel : t := 9.
Definition Info : t := 10.
Definition Shutdown : t := 11.

End Msg.

(** [struct Message]. *)
Record Message : Set := mkMessage {
  protocol_version : Z;
  type : Msg.t;
  u64_fields : list Z;
  u32_fields : list Z;
  body : bytes
}.

#[export] Instance Message_eq_dec : EqDecision Message.
Proof. solve_decision. Defined.

(** A message of the current protocol version. *)
Definition message (ty : Msg.t) (f64 f32 : list Z) (b : bytes) : Message :=
  mkMessage kProtocolVersion ty f64 f32 b.

(** [valid()]. *)
Definition valid (msg : Message) : bool :=
  (protocol_version msg =? kProtocolVersion) && negb (type msg =? Msg.Null).

Definition put_u32 (v : Z) : bytes := le_bytes 4 v.

Definition put_u64 (v : Z) : bytes := le_bytes 8 v.

(** [encode]. *)
Definition encode (msg : Message) : Result bytes :=
  if negb (valid msg) then err ErrorCode.invalid_message "cannot encode invalid message"
  else if (64 <? zlen (u64_fields msg)) || (64 <? zlen (u32_fields msg))
          || (1024 * 1024 <? zlen (body msg)) then
    err ErrorCode.oversized_frame "message fields exceed protocol limits"
  else
    Ok (put_u32 (protocol_version msg) ++ put_u32 (type msg) ++
        put_u32 (u32 (zlen (u64_fields msg))) ++ put_u32 (u32 (zlen (u32_fields msg))) ++
        put_u32 (u32 (zlen (body msg))) ++
        concat (map put_u64 (u64_fields msg)) ++ concat (map put_u32 (u32_fields msg)) ++
        body msg).

(** [decode] after the header: the counted fields, the body, the end. *)
Definition decode_fields (version ty n64 n32 blen : Z) (rest : bytes) : Result Message :=
  let* '(f64, rest) :=
    or_error (read_fields 8 (Z.to_nat n64) rest) ErrorCode.truncated_frame "truncated u64 field" in
  let* '(f32, rest) :=
    or_error (read_fields 4 (Z.to_nat n32) rest) ErrorCode.truncated_frame "truncated u32 field" in
  if zlen rest <? blen then err ErrorCode.truncated_frame "truncated body"
  else
    let b := take (Z.to_nat blen) rest in
    let rest := drop (Z.to_nat blen) rest in
    if negb (zlen rest =? 0) then err ErrorCode.malformed "trailing bytes in payload"
    else Ok (mkMessage version ty f64 f32 b).

(** [decode]. *)
Definition decode (payload : bytes) : Result Message :=
  if zlen payload <? 20 then err ErrorCode.truncated_frame "payload too short"
  else
    let* '(version, rest) :=
      or_error (read_le 4 payload) ErrorCode.truncated_frame "missing protocol version" in
    if negb (version =? kProtocolVersion) then
      err ErrorCode.unknown_protocol_version "unknown protocol version"
    else
      let* '(t, rest) :=
        or_error (read_le 4 rest) ErrorCode.truncated_frame "missing message type" in
      if (t =? Msg.Null) || (Msg.Shutdown <? t) then
        err ErrorCode.unknown_message_type ("unknown message type " +:+ pretty t)
      else
        let* '(n64, rest) :=
          or_error (read_le 4 rest) ErrorCode.truncated_frame "missing field counts" in
        let* '(n32, rest) :=
          or_error (read_le 4 rest) ErrorCode.truncated_frame "missing field counts" in
        let* '(blen, rest) :=
          or_error (read_le 4 rest) ErrorCode.truncated_frame "missing field counts" in
        if (64 <? n64) || (64 <? n32) || (1024 * 1024 <? blen) then
          err ErrorCode.oversized_frame "field counts exceed limits"
        else decode_fields version t n64 n32 blen rest.

(** [add_frame_prefix]. *)
Definition add_frame_prefix (payload : bytes) : Result bytes :=
  if kMaxFrameSize <? zlen payload then
    err ErrorCode.oversized_frame "payload exceeds max frame"
  else
    let len := u32 (zlen payload) in
    Ok (le_bytes 4 len ++ payload).

(** [extract_frame]. *)
Definition extract_frame (stream : bytes) : Result bytes :=
  if zlen stream <? kFrameLenWidth then
    err ErrorCode.truncated_frame "stream too short for frame length"
  else
    let len := le_value (take 4 stream) in
    if len =? 0 then err ErrorCode.zero_length_message "zero-length frame"
    else if kMaxFrameSize <? len then err ErrorCode.oversized_frame "frame exceeds max size"
    else if zlen stream <? kFrameLenWidth + len then
      err ErrorCode.truncated_frame "stream shorter than frame"
    else Ok (take (Z.to_nat len) (drop 4 stream)).

(** ** Lemmas *)

(** The messages the protocol can carry. *)
Record wf_message (m : Message) : Prop := {
  wf_version : protocol_version m = kProtocolVersion;
  wf_type : Msg.Hello <= type m <= Msg.Shutdown;
  wf_u64 : Forall is_u64 (u64_fields m);
  wf_u32 : Forall is_u32 (u32_fields m);
  wf_body : Forall is_u8 (body m);
  wf_n64 : zlen (u64_fields m) <= 64;
  wf_n32 : zlen (u32_fields m) <= 64;
  wf_blen : zlen (body m) <= 1048576
}.

(** The header [encode] writes. *)
Definition header (version ty n64 n32 blen : Z) : bytes :=
  le_bytes 4 version ++ le_bytes 4 ty ++ le_bytes 4 n64 ++ le_bytes 4 n32 ++ le_bytes 4 blen.

Lemma zlen_header v t a b c : zlen (header v t a b c) = 20.
Proof. unfold header. by autorewrite with fabric. Qed.

(** The bytes after the header of an encoded message. *)
Definition fields_bytes (m : Message) : bytes :=
  put_fields 8 (u64_fields m) ++ put_fields 4 (u32_fields m) ++ body m.

Definition fields_len (n64 n32 blen : Z) : Z := 8 * n64 + 4 * n32 + blen.

Lemma zlen_fields_bytes m :
  zlen (fields_bytes m) =
  fields_len (zlen (u64_fields m)) (zlen (u32_fields m)) (zlen (body m)).
Proof. unfold fields_bytes, fields_len. autorewrite with fabric. lia. Qed.

Lemma encode_wf m : wf_message m ->
  encode m =
  Ok (header (protocol_version m) (type m) (zlen (u64_fields m)) (zlen (u32_fields m))
        (zlen (body m)) ++ fields_bytes m).
Proof.
  intros W. destruct W as [Wv Wt _ _ _ W64 W32 Wb]. unfold encode, valid.
  rewrite Wv. unfold Msg.Hello, Msg.Shutdown in Wt.
  rewrite (proj2 (Z.eqb_neq (type m) Msg.Null)) by (unfold Msg.Null; lia).
  rewrite !(proj2 (Z.ltb_ge _ _)) by lia. cbn [negb andb orb Z.eqb Pos.eqb kProtocolVersion].
  pose proof (zlen_nonneg (u64_fields m)). pose proof (zlen_nonneg (u32_fields m)).
  pose proof (zlen_nonneg (body m)).
  rewrite !u32_small by (unfold is_u32; lia).
  unfold header, fields_bytes, put_fields, put_u32, put_u64. by rewrite <- !app_assoc.
Qed.

(** Decoding past a good header is decided by the length alone. *)
Lemma decode_fields_length v t n64 n32 blen rest :
  0 <= n64 -> 0 <= n32 -> 0 <= blen ->
  (zlen rest < fields_len n64 n32 blen /\
   error_code (decode_fields v t n64 n32 blen rest) = ErrorCode.truncated_frame) \/
  (fields_len n64 n32 blen < zlen rest /\
   error_code (decode_fields v t n64 n32 blen rest) = ErrorCode.malformed) \/
  (zlen rest = fields_len n64 n32 blen /\
   has_value (decode_fields v t n64 n32 blen rest) = true).
Proof.
  intros H64 H32 Hb. unfold decode_fields, fields_len.
  destruct (read_fields 8 (Z.to_nat n64) rest) as [[f64 r1] |] eqn:E1; simpl.
  2: { apply read_fields_None in E1; [left; split; [lia | done] | lia]. }
  apply read_fields_rest in E1 as [L1 _].
  destruct (read_fields 4 (Z.to_nat n32) r1) as [[f32 r2] |] eqn:E2; simpl.
  2: { apply read_fields_None in E2; [left; split; [lia | done] | lia]. }
  apply read_fields_rest in E2 as [L2 _].
  destruct (Z.ltb_spec (zlen r2) blen); [left; split; [lia | done] |].
  assert (L3 : zlen (drop (Z.to_nat blen) r2) = zlen r2 - blen)
    by (unfold zlen in *; rewrite length_drop; lia).
  rewrite L3. destruct (Z.eqb_spec (zlen r2 - blen) 0); simpl;
    right; [right | left]; split; (done || lia).
Qed.

(** Decoding past a good header rebuilds the message. *)
Lemma decode_fields_put m : wf_message m ->
  decode_fields (protocol_version m) (type m) (zlen (u64_fields m)) (zlen (u32_fields m))
    (zlen (body m)) (fields_bytes m) = Ok m.
Proof.
  intros [_ _ W64 W32 _ _ _ _]. unfold decode_fields, fields_bytes.
  unfold zlen. rewrite !Nat2Z.id.
  rewrite read_fields_put by (eapply Forall_impl; [exact W64 |]; auto with fabric). simpl.
  rewrite read_fields_put by (eapply Forall_impl; [exact W32 |]; auto with fabric). simpl.
  rewrite Z.ltb_irrefl, drop_all, firstn_all. simpl. by destruct m.
Qed.

Lemma decode_fields_inv v t n64 n32 blen rest m :
  Forall is_u8 rest -> 0 <= n64 <= 64 -> 0 <= n32 <= 64 -> 0 <= blen <= 1048576 ->
  v = kProtocolVersion -> Msg.Hello <= t <= Msg.Shutdown ->
  decode_fields v t n64 n32 blen rest = Ok m ->
  wf_message m /\ protocol_version m = v /\ type m = t /\ zlen (u64_fields m) = n64 /\
  zlen (u32_fields m) = n32 /\ zlen (body m) = blen /\ rest = fields_bytes m.
Proof.
  intros Hr H64 H32 Hb Hv Ht. unfold decode_fields.
  destruct (read_fields 8 (Z.to_nat n64) rest) as [[f64 r1] |] eqn:E1; [simpl | discriminate].
  apply read_fields_inv in E1 as (-> & L1 & F1 & R1); [| done].
  destruct (read_fields 4 (Z.to_nat n32) r1) as [[f32 r2] |] eqn:E2; [simpl | discriminate].
  apply read_fields_inv in E2 as (-> & L2 & F2 & R2); [| done].
  destruct (Z.ltb_spec (zlen r2) blen); [discriminate |].
  destruct (Z.eqb_spec (zlen (drop (Z.to_nat blen) r2)) 0) as [E0 |]; [simpl | discriminate].
  intros [= <-]. unfold zlen in *. rewrite length_drop in E0.
  rewrite take_ge by lia. unfold fields_bytes. simpl.
  assert (Z.of_nat (length f64) = n64 /\ Z.of_nat (length f32) = n32 /\
          Z.of_nat (length r2) = blen) as (? & ? & ?) by lia.
  split; [| by repeat split]. constructor; simpl; unfold zlen; (done || lia || auto).
Qed.

(** [decode] as a function of the header values and the rest. *)
Lemma decode_header v t n64 n32 blen rest :
  fits 4 v -> fits 4 t -> fits 4 n64 -> fits 4 n32 -> fits 4 blen ->
  decode (header v t n64 n32 blen ++ rest) =
  if negb (v =? kProtocolVersion) then
    err ErrorCode.unknown_protocol_version "unknown protocol version"
  else if (t =? Msg.Null) || (Msg.Shutdown <? t) then
    err ErrorCode.unknown_message_type ("unknown message type " +:+ pretty t)
  else if (64 <? n64) || (64 <? n32) || (1024 * 1024 <? blen) then
    err ErrorCode.oversized_frame "field counts exceed limits"
  else decode_fields v t n64 n32 blen rest.
Proof.
  intros Hv Ht Ha Hb Hc. unfold decode. rewrite zlen_app, zlen_header.
  rewrite (proj2 (Z.ltb_ge _ _)) by (pose proof (zlen_nonneg rest); lia).
  unfold header. rewrite <- !app_assoc.
  rewrite read_le_put by done. cbn [or_error and_then]. destruct (negb _); [done |].
  rewrite read_le_put by done. cbn [or_error and_then]. destruct (_ || _); [done |].
  do 3 (rewrite read_le_put by done; cbn [or_error and_then]). done.
Qed.

Lemma split_header payload :
  Forall is_u8 payload -> 20 <= zlen payload ->
  exists v t n64 n32 blen rest,
    payload = header v t n64 n32 blen ++ rest /\
    fits 4 v /\ fits 4 t /\ fits 4 n64 /\ fits 4 n32 /\ fits 4 blen /\ Forall is_u8 rest.
Proof.
  intros H8 H20.
  assert (R : forall b, Forall is_u8 b -> 4 <= zlen b ->
    exists x b', b = le_bytes 4 x ++ b' /\ fits 4 x /\ Forall is_u8 b' /\ zlen b' = zlen b - 4).
  { intros b Hb L. destruct (read_le 4 b) as [[x b'] |] eqn:E;
      [| apply read_le_None in E; lia].
    apply read_le_inv in E as (-> & Hx & Hb'); [| done]. exists x, b'. rewrite zlen_app, zlen_le_bytes.
    repeat split; (done || apply Hx || lia). }
  destruct (R _ H8 ltac:(lia)) as (v & r1 & -> & Fv & R1 & L1).
  destruct (R _ R1 ltac:(lia)) as (t & r2 & -> & Ft & R2 & L2).
  destruct (R _ R2 ltac:(lia)) as (a & r3 & -> & Fa & R3 & L3).
  destruct (R _ R3 ltac:(lia)) as (b & r4 & -> & Fb & R4 & L4).
  destruct (R _ R4 ltac:(lia)) as (c & r5 & -> & Fc & R5 & L5).
  exists v, t, a, b, c, r5. unfold header. rewrite <- !app_assoc. by split_and!.
Qed.

(** A well-formed message has a header that passes every check. *)
Lemma decode_wf_header m rest : wf_message m ->
  decode (header (protocol_version m) (type m) (zlen (u64_fields m)) (zlen (u32_fields m))
            (zlen (body m)) ++ rest) =
  decode_fields (protocol_version m) (type m) (zlen (u64_fields m)) (zlen (u32_fields m))
    (zlen (body m)) rest.
Proof.
  intros W. destruct W as [Wv Wt _ _ _ W64 W32 Wb]. unfold Msg.Hello, Msg.Shutdown in Wt.
  pose proof (zlen_nonneg (u64_fields m)). pose proof (zlen_nonneg (u32_fields m)).
  pose proof (zlen_nonneg (body m)).
  rewrite decode_header by (rewrite ?Wv; unfold fits, kProtocolVersion; simpl; lia).
  rewrite Wv, (proj2 (Z.eqb_neq (type m) Msg.Null)) by (unfold Msg.Null; lia).
  rewrite !(proj2 (Z.ltb_ge _ _)) by (unfold Msg.Shutdown; lia). done.
Qed.

Lemma decode_encode m : wf_message m ->
  exists p, encode m = Ok p /\ decode p = Ok m.
Proof.
  intros W. eexists. split; [by apply encode_wf |].
  rewrite decode_wf_header by done. by apply decode_fields_put.
Qed.

Lemma decode_ok_inv p m :
  Forall is_u8 p -> decode p = Ok m -> wf_message m /\ encode m = Ok p.
Proof.
  intros H8 E. destruct (Z.lt_ge_cases (zlen p) 20) as [S | S].
  { unfold decode in E. rewrite (proj2 (Z.ltb_lt _ _)) in E by lia. discriminate. }
  destruct (split_header p H8 S) as (v & t & a & b & c & rest & -> & Fv & Ft & Fa & Fb & Fc & R).
  rewrite decode_header in E by done.
  assert (N : forall x, fits 4 x -> 0 <= x) by (unfold fits; lia).
  pose proof (N _ Fa). pose proof (N _ Fb). pose proof (N _ Fc). pose proof (N _ Ft).
  destruct (Z.eqb_spec v kProtocolVersion) as [Hv |]; cbn [negb] in E; [| discriminate].
  destruct (Z.eqb_spec t Msg.Null) as [| Ht]; cbn [orb] in E; [discriminate E |].
  destruct (Z.ltb_spec Msg.Shutdown t) as [| Ht']; cbn [orb] in E; [discriminate E |].
  destruct (Z.ltb_spec 64 a); cbn [orb] in E; [discriminate E |].
  destruct (Z.ltb_spec 64 b); cbn [orb] in E; [discriminate E |].
  change (1024 * 1024) with 1048576 in E.
  destruct (Z.ltb_spec 1048576 c); cbn [orb] in E; [discriminate E |].
  apply decode_fields_inv in E as (W & <- & <- & <- & <- & <- & ->);
    [| done | lia | lia | lia | done | unfold Msg.Hello, Msg.Shutdown, Msg.Null in *; lia].
  split; [done |]. by apply encode_wf.
Qed.

Lemma encode_size m p : wf_message m -> encode m = Ok p ->
  Forall is_u8 p /\ 20 <= zlen p <= 1049364.
Proof.
  intros W. rewrite encode_wf by done. intros <-%(inj Ok).
  rewrite zlen_app, zlen_header, zlen_fields_bytes. unfold fields_len.
  pose proof (zlen_nonneg (u64_fields m)). pose proof (zlen_nonneg (u32_fields m)).
  pose proof (zlen_nonneg (body m)). destruct W as [_ _ _ _ W8 W64 W32 Wb].
  split; [| lia]. unfold header, fields_bytes. rewrite !Forall_app.
  repeat split; auto with fabric.
Qed.

Lemma add_frame_ok p : zlen p <= kMaxFrameSize ->
  add_frame_prefix p = Ok (le_bytes 4 (zlen p) ++ p).
Proof.
  intros L. unfold add_frame_prefix. rewrite (proj2 (Z.ltb_ge _ _)) by lia.
  pose proof (zlen_nonneg p). rewrite u32_small; [done |].
  unfold is_u32, kMaxFrameSize in *. lia.
Qed.

Lemma extract_frame_put p more : 1 <= zlen p <= kMaxFrameSize ->
  extract_frame ((le_bytes 4 (zlen p) ++ p) ++ more) = Ok p.
Proof.
  intros L. unfold extract_frame, kFrameLenWidth. autorewrite with fabric.
  pose proof (zlen_nonneg more). rewrite (proj2 (Z.ltb_ge _ _)) by lia.
  rewrite <- app_assoc, take_app_length', drop_app_length' by (by rewrite length_le_bytes).
  rewrite le_value_le_bytes by (unfold kMaxFrameSize in L; simpl; lia).
  rewrite (proj2 (Z.eqb_neq _ _)), !(proj2 (Z.ltb_ge _ _)) by lia.
  rewrite take_app_length' by (unfold zlen; lia). done.
Qed.

Lemma extract_frame_inv stream p :
  Forall is_u8 stream -> extract_frame stream = Ok p ->
  1 <= zlen p <= kMaxFrameSize /\
  exists frame more, add_frame_prefix p = Ok frame /\ stream = frame ++ more.
Proof.
  intros H8. unfold extract_frame, kFrameLenWidth.
  destruct (Z.ltb_spec (zlen stream) 4); [discriminate |].
  assert (T8 : Forall is_u8 (take 4 stream)) by (by apply Forall_take).
  assert (Lt : length (take 4 stream) = 4%nat) by (rewrite length_take; unfold zlen in *; lia).
  pose proof (le_value_range _ T8) as R. pose proof (le_bytes_le_value _ T8) as V.
  rewrite Lt in V. set (len := le_value (take 4 stream)) in *.
  destruct (Z.eqb_spec len 0); [discriminate |].
  destruct (Z.ltb_spec kMaxFrameSize len); [discriminate |].
  destruct (Z.ltb_spec (zlen stream) (4 + len)); [discriminate |]. intros [= <-].
  assert (Lp : zlen (take (Z.to_nat len) (drop 4 stream)) = len).
  { rewrite zlen_take. unfold zlen in *. rewrite length_drop. lia. }
  rewrite Lp. split; [lia |]. eexists _, (drop (Z.to_nat len) (drop 4 stream)).
  split; [apply add_frame_ok; lia |]. by rewrite Lp, V, <- app_assoc, take_drop, take_drop.
Qed.

(** C16: the wire codec is a bijection.  On byte strings, [decode] accepts
    exactly the encodings of well-formed messages and returns the encoded
    message: encoding then decoding is the identity, and every accepted
    payload is the one encoding of its message.  A message is well formed when
    its version is the protocol's, its type is known and its fields and body
    are within their limits; what the fields mean is not looked at, so that a
    message with any identities and any depths is accepted. *)
Theorem wire_codec_bijective p m :
  Forall is_u8 p -> decode p = Ok m <-> wf_message m /\ encode m = Ok p.
Proof.
  intros H8. split; [by apply decode_ok_inv |].
  intros [W E]. destruct (decode_encode m W) as (p' & E' & D). congruence.
Qed.

(** Truncation and padding are detected.  Any byte string with the header
    of an encoded message is accepted only at exactly the encoding's length:
    shorter payloads are rejected as truncated, longer ones as malformed. *)
Theorem wire_length_exact m p q :
  wf_message m -> encode m = Ok p -> take 20 q = take 20 p ->
  (zlen q < zlen p -> error_code (decode q) = ErrorCode.truncated_frame) /\
  (zlen p < zlen q -> error_code (decode q) = ErrorCode.malformed) /\
  (zlen p = zlen q -> has_value (decode q) = true).
Proof.
  intros W E H. pose proof (encode_size m p W E) as [_ Lp].
  destruct (Z.lt_ge_cases (zlen q) 20) as [S | S].
  { unfold decode. rewrite (proj2 (Z.ltb_lt _ _)) by lia. split; [done | lia]. }
  rewrite encode_wf in E by done. apply (inj Ok) in E.
  assert (Hq : q = take 20 p ++ drop 20 q) by (rewrite <- H; by rewrite take_drop).
  rewrite <- E, take_app_le, take_ge in Hq
    by (pose proof (zlen_header (protocol_version m) (type m) (zlen (u64_fields m))
          (zlen (u32_fields m)) (zlen (body m))); unfold zlen in *; lia).
  rewrite Hq, <- E. rewrite decode_wf_header by done.
  rewrite !zlen_app, zlen_header, zlen_fields_bytes.
  pose proof (decode_fields_length (protocol_version m) (type m) (zlen (u64_fields m))
    (zlen (u32_fields m)) (zlen (body m)) (drop 20 q) (zlen_nonneg _) (zlen_nonneg _)
    (zlen_nonneg _)) as D.
  naive_solver lia.
Qed.

(** C35: framing.  Every encoded message fits a frame, and [extract_frame]
    finds it again at the head of any stream that starts with that frame;
    conversely a stream yields a payload only when it starts with the frame
    of that payload, which is non-empty and at most 16 MiB. *)
Theorem framing_round_trip m p :
  wf_message m -> encode m = Ok p ->
  exists frame, add_frame_prefix p = Ok frame /\ zlen frame = 4 + zlen p /\
    (forall more, extract_frame (frame ++ more) = Ok p) /\
    (forall stream p', Forall is_u8 stream -> extract_frame stream = Ok p' ->
       1 <= zlen p' <= kMaxFrameSize /\
       exists frame' more, add_frame_prefix p' = Ok frame' /\ stream = frame' ++ more).
Proof.
  intros W E. pose proof (encode_size m p W E) as [H8 L].
  assert (Hp : zlen p <= kMaxFrameSize) by (unfold kMaxFrameSize; lia).
  eexists. split; [apply add_frame_ok; lia |]. rewrite zlen_app, zlen_le_bytes.
  split; [lia |]. split; [intros more; by apply extract_frame_put; lia |].
  apply extract_frame_inv.
Qed.

(** ** Witnesses *)

Definition sample_message : Message := message Msg.Commit [7; 18446744073709551615] [5] [104; 105].

Lemma sample_message_wf : wf_message sample_message.
Proof.
  by constructor; (in_range || (vm_compute; split; discriminate) || by vm_compute).
Qed.

Definition sample_payload : bytes := value_or (encode sample_message) [].

Lemma wire_codec_bijective_witness :
  decode sample_payload = Ok sample_message <->
  wf_message sample_message /\ encode sample_message = Ok sample_payload.
Proof. apply wire_codec_bijective. in_range. Defined.

Lemma wire_length_exact_witness :
  error_code (decode (sample_payload ++ [0])) = ErrorCode.malformed.
Proof.
  apply (wire_length_exact sample_message sample_payload (sample_payload ++ [0])
    sample_message_wf eq_refl eq_refl). by vm_compute.
Defined.

Lemma framing_round_trip_witness :
  exists frame, add_frame_prefix sample_payload = Ok frame /\
    extract_frame (frame ++ frame) = Ok sample_payload.
Proof.
  destruct (framing_round_trip sample_message sample_payload sample_message_wf eq_refl)
    as (frame & E & _ & X & _).
  exists frame. split; [exact E | apply X].
Defined.
