(* ===== verification/Persistence.v ===== *)
(** * The state archive (persistence.hpp, persistence.cpp)

    The versioned, checksummed binary format of the authoritative state: the
    CRC-32, the writer, and the validating reader.  [FileStore] is stream
    input and output and is not modelled. *)

From S2P Require Import Prelude Errors Ids Bytes Data.

Definition kMaxRequests : Z := 1000000.
Definition kMaxTokensPerRequest : Z := 1000000.

(** ** CRC-32 *)

(** One round of the inner loop. *)
Definition crc_bit (crc : Z) : Z :=
  let mask := u32 (- Z.land crc 1) in
  Z.lxor (Z.shiftr crc 1) (Z.land 0xEDB88320 mask).

(** The loop body for one byte. *)
Definition crc_byte (crc b : Z) : Z := Nat.iter 8 crc_bit (Z.lxor crc b).

Definition crc_bytes (crc : Z) (data : bytes) : Z := fold_left crc_byte data crc.

(** [crc32(data, len)]. *)
Definition crc32 (data : bytes) : Z := u32 (Z.lnot (crc_bytes 0xFFFFFFFF data)).

(** ** The archive *)

(** [struct PersistedRequest]. *)
Record PersistedRequest : Set := mkPersistedRequest {
  pq_id : RequestId;
  pq_sequence : SequenceId;
  pq_attempt : AttemptId;
  pq_epoch : CoordinatorEpoch;
  pq_auth_gen : AuthGeneration;
  pq_auth_state : StateRef;
  pq_committed : list Z
}.

#[export] Instance PersistedRequest_eq_dec : EqDecision PersistedRequest.
Proof. solve_decision. Defined.

(** [struct StateArchive]. *)
Record StateArchive : Set := mkArchive {
  format_version : Z;
  ar_epoch : CoordinatorEpoch;
  requests : list PersistedRequest
}.

#[export] Instance StateArchive_eq_dec : EqDecision StateArchive.
Proof. solve_decision. Defined.

(** The fixed-width writer calls. *)
Definition w_u32 (v : Z) : bytes := le_bytes 4 v.
Definition w_u64 (v : Z) : bytes := le_bytes 8 v.

(** The bytes ['S' 'F' 'A' 'R']. *)
Definition magic : bytes := [83; 70; 65; 82].

(** The loop body of [serialize_archive]. *)
Definition write_request (r : PersistedRequest) : bytes :=
  w_u64 (get (pq_id r)) ++ w_u64 (get (pq_sequence r)) ++ w_u64 (get (pq_attempt r)) ++
  w_u64 (get (pq_epoch r)) ++ w_u64 (get (pq_auth_gen r)) ++
  w_u64 (get (sr_id (pq_auth_state r))) ++ w_u64 (get (sr_generation (pq_auth_state r))) ++
  w_u32 (u32 (zlen (pq_committed r))) ++ concat (map w_u32 (pq_committed r)).

(** The payload of [serialize_archive]. *)
Definition archive_payload (archive : StateArchive) : bytes :=
  magic ++ w_u32 (format_version archive) ++ w_u64 (get (ar_epoch archive)) ++
  w_u32 (u32 (zlen (requests archive))) ++ concat (map write_request (requests archive)).

(** A payload followed by its checksum. *)
Definition with_checksum (payload : bytes) : bytes := payload ++ le_bytes 4 (crc32 payload).

(** [serialize_archive]. *)
Definition serialize_archive (archive : StateArchive) : Result bytes :=
  Ok (with_checksum (archive_payload archive)).

(** The seven 64-bit reads of a request, with the error of each. *)
Fixpoint read_u64s (names : list string) (rest : bytes) : Result (list Z * bytes) :=
  match names with
  | [] => Ok ([], rest)
  | name :: names =>
      let* '(v, rest) := or_error (read_le 8 rest) ErrorCode.truncated_frame name in
      let* '(vs, rest) := read_u64s names rest in
      Ok (v :: vs, rest)
  end.

Definition request_fields : list string :=
  ["request id"; "sequence"; "attempt"; "epoch"; "auth_gen"; "state id"; "state gen"].

(** The loop body of [deserialize_archive]. *)
Definition read_request (rest : bytes) : Result (PersistedRequest * bytes) :=
  let* '(vs, rest) := read_u64s request_fields rest in
  let* '(tcount, rest) := or_error (read_le 4 rest) ErrorCode.truncated_frame "token count" in
  if kMaxTokensPerRequest <? tcount then err ErrorCode.out_of_range "token count too large"
  else
    let* '(committed, rest) :=
      or_error (read_fields 4 (Z.to_nat tcount) rest) ErrorCode.truncated_frame "token" in
    let v i := nth i vs 0 in
    Ok (mkPersistedRequest (mkId (v 0%nat)) (mkId (v 1%nat)) (mkId (v 2%nat)) (mkId (v 3%nat))
          (mkId (v 4%nat)) (mkStateRef (mkId (v 5%nat)) (mkId (v 6%nat))) committed, rest).

Fixpoint read_requests (count : nat) (rest : bytes) : Result (list PersistedRequest * bytes) :=
  match count with
  | O => Ok ([], rest)
  | S count =>
      let* '(p, rest) := read_request rest in
      let* '(ps, rest) := read_requests count rest in
      Ok (p :: ps, rest)
  end.

(** The reader of [deserialize_archive], run over the whole blob. *)
Definition read_archive (blob : bytes) : Result (StateArchive * bytes) :=
  let* '(m, rest) := or_error (read_fields 1 4 blob) ErrorCode.malformed "bad magic" in
  if negb (bool_decide (m = magic)) then err ErrorCode.malformed "bad magic"
  else
    let* '(version, rest) :=
      or_error (read_le 4 rest) ErrorCode.truncated_frame "missing version" in
    if negb (version =? 1) then
      err ErrorCode.unknown_protocol_version ("unsupported archive version " +:+ pretty version)
    else
      let* '(epoch, rest) :=
        or_error (read_le 8 rest) ErrorCode.truncated_frame "missing epoch" in
      let* '(count, rest) :=
        or_error (read_le 4 rest) ErrorCode.truncated_frame "missing count" in
      if kMaxRequests <? count then err ErrorCode.out_of_range "request count too large"
      else
        let* '(rs, rest) := read_requests (Z.to_nat count) rest in
        Ok (mkArchive version (mkId epoch) rs, rest).

(** [deserialize_archive]; what the reader leaves unread is ignored. *)
Definition deserialize_archive (blob : bytes) : Result StateArchive :=
  if zlen blob <? 24 then err ErrorCode.truncated_frame "archive is truncated"
  else
    let payload_len := (length blob - 4)%nat in
    let stored_crc := le_value (drop payload_len blob) in
    let computed_crc := crc32 (take payload_len blob) in
    if negb (stored_crc =? computed_crc) then
      err ErrorCode.corrupt "archive checksum mismatch"
    else result_map (read_archive blob) fst.

(** ** Lemmas: the CRC register *)

Section Crc.

Definition poly : Z := 0xEDB88320.

(** The round by cases on the low bit. *)
Lemma crc_bit_odd x : 0 <= x ->
  crc_bit x = Z.lxor (Z.shiftr x 1) (if Z.odd x then poly else 0).
Proof.
  intros Hx. unfold crc_bit, poly.
  replace (Z.land x 1) with (if Z.odd x then 1 else 0).
  - by destruct (Z.odd x).
  - change 1 with (Z.ones 1) at 2. rewrite Z.land_ones, Zmod_odd by lia. by destruct (Z.odd x).
Qed.

Lemma lxor_u32 a b : is_u32 a -> is_u32 b -> is_u32 (Z.lxor a b).
Proof.
  unfold is_u32. intros Ha Hb. split; [apply Z.lxor_nonneg; lia |].
  destruct (Z.eq_dec (Z.lxor a b) 0) as [-> | N]; [lia |].
  assert (0 <= Z.lxor a b) by (apply Z.lxor_nonneg; lia).
  apply (Z.log2_lt_pow2 _ 32); [lia |].
  eapply Z.le_lt_trans; [apply Z.log2_lxor; lia |].
  apply Z.max_lub_lt.
  - destruct (Z.eq_dec a 0) as [-> |]; [simpl; lia | apply (Z.log2_lt_pow2 _ 32); lia].
  - destruct (Z.eq_dec b 0) as [-> |]; [simpl; lia | apply (Z.log2_lt_pow2 _ 32); lia].
Qed.

Lemma crc_bit_u32 x : is_u32 x -> is_u32 (crc_bit x).
Proof.
  intros Hx. unfold is_u32 in Hx. rewrite crc_bit_odd by lia. apply lxor_u32.
  - unfold is_u32. rewrite Z.shiftr_div_pow2 by lia. zdm.
  - destruct (Z.odd x); in_range.
Qed.

(** The round is linear over exclusive or. *)
Lemma crc_bit_lxor a b : 0 <= a -> 0 <= b ->
  crc_bit (Z.lxor a b) = Z.lxor (crc_bit a) (crc_bit b).
Proof.
  intros Ha Hb. rewrite !crc_bit_odd by (try apply Z.lxor_nonneg; lia).
  rewrite Z.shiftr_lxor.
  assert (E : Z.odd (Z.lxor a b) = xorb (Z.odd a) (Z.odd b))
    by (rewrite <- !Z.bit0_odd; apply Z.lxor_spec).
  rewrite E. destruct (Z.odd a), (Z.odd b); simpl xorb; cbv iota;
    rewrite ?Z.lxor_0_r; apply Z.bits_inj'; intros i Hi; rewrite !Z.lxor_spec;
    by destruct (Z.testbit (Z.shiftr a 1) i), (Z.testbit (Z.shiftr b 1) i), (Z.testbit poly i).
Qed.

(** The round can be undone: bit 31 tells whether the polynomial was added. *)
Lemma crc_bit_zero x : is_u32 x -> crc_bit x = 0 -> x = 0.
Proof.
  unfold is_u32. intros Hx. rewrite crc_bit_odd by lia. intros E%Z.lxor_eq.
  destruct (Z.odd x) eqn:O.
  - assert (Z.shiftr x 1 < poly) by (rewrite Z.shiftr_div_pow2 by lia; unfold poly; zdm). lia.
  - rewrite Z.shiftr_div_pow2 in E by lia. rewrite Zodd_mod in O. apply Z.eqb_neq in O. zdm.
Qed.

Lemma iter_crc_u32 n x : is_u32 x -> is_u32 (Nat.iter n crc_bit x).
Proof. intros Hx. induction n as [| n IH]; [done |]. by apply crc_bit_u32. Qed.

Lemma iter_crc_lxor n a b : is_u32 a -> is_u32 b ->
  Nat.iter n crc_bit (Z.lxor a b) = Z.lxor (Nat.iter n crc_bit a) (Nat.iter n crc_bit b).
Proof.
  intros Ha Hb. induction n as [| n IH]; [done |]. simpl. rewrite IH.
  pose proof (iter_crc_u32 n a Ha) as Ia. pose proof (iter_crc_u32 n b Hb) as Ib.
  unfold is_u32 in *. apply crc_bit_lxor; lia.
Qed.

Lemma iter_crc_zero n x : is_u32 x -> Nat.iter n crc_bit x = 0 -> x = 0.
Proof.
  intros Hx. induction n as [| n IH]; [done |]. simpl. intros E.
  apply IH, crc_bit_zero; [by apply iter_crc_u32 | done].
Qed.

Lemma iter_crc_inj n a b : is_u32 a -> is_u32 b ->
  Nat.iter n crc_bit a = Nat.iter n crc_bit b -> a = b.
Proof.
  intros Ha Hb E. apply Z.lxor_eq. apply (iter_crc_zero n); [by apply lxor_u32 |].
  rewrite iter_crc_lxor by done. rewrite E. apply Z.lxor_nilpotent.
Qed.

Lemma crc_bit_double x : 0 <= x -> crc_bit (2 * x) = x.
Proof.
  intros Hx. rewrite crc_bit_odd by lia. rewrite Z.odd_mul, Z.lxor_0_r.
  rewrite Z.shiftr_div_pow2 by lia. zdm.
Qed.

Lemma iter_crc_shift n x : 0 <= x -> Nat.iter n crc_bit (2 ^ Z.of_nat n * x) = x.
Proof.
  intros Hx. revert x Hx. induction n as [| n IH]; intros x Hx; [simpl; lia |].
  rewrite Nat.iter_succ. replace (2 ^ Z.of_nat (S n) * x) with (2 ^ Z.of_nat n * (2 * x))
    by (rewrite Nat2Z.inj_succ, Z.pow_succ_r by lia; ring).
  rewrite IH by lia. by apply crc_bit_double.
Qed.

(** Up to four bytes enter the register as one little-endian word. *)
Lemma crc_bytes_word bs : Forall is_u8 bs -> (length bs <= 4)%nat -> forall c, is_u32 c ->
  crc_bytes c bs = Nat.iter (8 * length bs) crc_bit (Z.lxor c (le_value bs)).
Proof.
  induction 1 as [| b bs Hb Hbs IH]; intros L c Hc; [simpl; symmetry; apply Z.lxor_0_r |].
  simpl length in *. pose proof (le_value_range bs Hbs) as R.
  assert (Hv : 0 <= le_value bs < 16777216).
  { assert (256 ^ zlen bs <= 256 ^ 3)
      by (apply Z.pow_le_mono_r; [lia | unfold zlen; lia]). simpl in *. lia. }
  assert (Hb32 : is_u32 b) by (by apply is_u8_u32).
  assert (Hv32 : is_u32 (256 * le_value bs)) by (unfold is_u32; lia).
  cbn [crc_bytes fold_left]. change (fold_left crc_byte bs ?x) with (crc_bytes x bs).
  rewrite IH; [| lia | apply iter_crc_u32, lxor_u32; done].
  replace (8 * S (length bs))%nat with (8 * length bs + 8)%nat by lia.
  rewrite Nat.iter_add. f_equal. rewrite le_value_cons by done.
  unfold is_u8 in Hb.
  replace (b + 256 * le_value bs) with (Z.lxor b (256 * le_value bs)).
  - rewrite <- Z.lxor_assoc, (iter_crc_lxor 8 (Z.lxor c b)) by (done || by apply lxor_u32).
    unfold crc_byte. f_equal. symmetry. apply (iter_crc_shift 8). lia.
  - pose proof (lor_shiftl_add b (le_value bs) 8) as S.
    rewrite Z.shiftl_mul_pow2 in S by lia. change (2 ^ 8) with 256 in S.
    rewrite (Z.mul_comm 256), <- S by lia. apply Z.lxor_lor.
    apply Z.bits_inj'. intros i Hi. rewrite Z.land_spec, Z.bits_0.
    destruct (Z.ltb_spec i 8).
    + rewrite <- (Z.shiftl_mul_pow2 _ 8), (Z.shiftl_spec_low _ 8) by lia. apply andb_false_r.
    + by rewrite (testbit_high b i 8) by lia.
Qed.

Lemma crc_byte_u32 c b : is_u32 c -> is_u8 b -> is_u32 (crc_byte c b).
Proof. intros Hc Hb. unfold crc_byte. apply iter_crc_u32, lxor_u32; auto with fabric. Qed.

Lemma crc_byte_inj c c' b : is_u32 c -> is_u32 c' -> is_u8 b ->
  crc_byte c b = crc_byte c' b -> c = c'.
Proof.
  intros Hc Hc' Hb%is_u8_u32. unfold crc_byte. intros E.
  apply iter_crc_inj in E; [| by apply lxor_u32 ..].
  apply (f_equal (fun x => Z.lxor x b)) in E.
  by rewrite !Z.lxor_assoc, Z.lxor_nilpotent, !Z.lxor_0_r in E.
Qed.

Lemma crc_bytes_u32 bs : Forall is_u8 bs -> forall c, is_u32 c -> is_u32 (crc_bytes c bs).
Proof.
  induction 1 as [| b bs Hb _ IH]; intros c Hc; [done |].
  apply (IH (crc_byte c b)). by apply crc_byte_u32.
Qed.

Lemma crc_bytes_inj bs : Forall is_u8 bs -> forall c c', is_u32 c -> is_u32 c' ->
  crc_bytes c bs = crc_bytes c' bs -> c = c'.
Proof.
  induction 1 as [| b bs Hb _ IH]; intros c c' Hc Hc' E; [done |].
  apply (crc_byte_inj c c' b); [done.. |].
  apply (IH (crc_byte c b) (crc_byte c' b)); [by apply crc_byte_u32 .. | exact E].
Qed.

Lemma crc_bytes_app c a b : crc_bytes c (a ++ b) = crc_bytes (crc_bytes c a) b.
Proof. apply fold_left_app. Qed.

(** Two different bursts of at most four bytes leave different registers. *)
Lemma crc_burst c mid mid' post :
  is_u32 c -> Forall is_u8 mid -> Forall is_u8 mid' -> Forall is_u8 post ->
  length mid' = length mid -> (length mid <= 4)%nat ->
  crc_bytes c (mid ++ post) = crc_bytes c (mid' ++ post) -> mid = mid'.
Proof.
  intros Hc Hm Hm' Hp L L4. rewrite !crc_bytes_app. intros E.
  apply crc_bytes_inj in E; [| done | by apply crc_bytes_u32 ..].
  assert (V : forall bs, Forall is_u8 bs -> (length bs <= 4)%nat -> is_u32 (le_value bs)).
  { intros bs Hb Lb. pose proof (le_value_range bs Hb). unfold is_u32.
    assert (256 ^ zlen bs <= 256 ^ 4) by (apply Z.pow_le_mono_r; unfold zlen; lia).
    simpl in *. lia. }
  rewrite !crc_bytes_word, L in E by (done || lia).
  apply iter_crc_inj in E; [| by apply lxor_u32; [| apply V; [| lia]] ..].
  apply (f_equal (Z.lxor c)) in E.
  rewrite <- !Z.lxor_assoc, Z.lxor_nilpotent, !Z.lxor_0_l in E.
  rewrite <- (le_bytes_le_value mid), <- (le_bytes_le_value mid') by done. by rewrite L, E.
Qed.

(** The checksum test as one run of the register over the whole blob. *)
Definition crc_residue : Z := Nat.iter 32 crc_bit 0xFFFFFFFF.

Lemma crc32_lxor data : Forall is_u8 data ->
  crc32 data = Z.lxor (crc_bytes 0xFFFFFFFF data) 0xFFFFFFFF.
Proof.
  intros H. unfold crc32, u32. pose proof (crc_bytes_u32 data H 0xFFFFFFFF ltac:(in_range)) as R.
  unfold is_u32 in R. set (x := crc_bytes _ data) in *. apply Z.bits_inj'. intros i Hi.
  change 4294967295 with (Z.ones 32).
  rewrite Z.land_spec, Z.lnot_spec, Z.lxor_spec, Z.testbit_ones_nonneg by lia.
  destruct (Z.ltb_spec i 32); [by destruct (Z.testbit x i) |].
  rewrite (testbit_high x i 32) by (simpl; lia). done.
Qed.

Lemma checksum_residue payload suffix :
  Forall is_u8 payload -> Forall is_u8 suffix -> length suffix = 4%nat ->
  le_value suffix = crc32 payload <-> crc_bytes 0xFFFFFFFF (payload ++ suffix) = crc_residue.
Proof.
  intros Hp Hs L. pose proof (crc_bytes_u32 payload Hp 0xFFFFFFFF ltac:(in_range)) as R.
  pose proof (le_value_range suffix Hs) as V. unfold zlen in V. rewrite L in V. simpl in V.
  rewrite crc_bytes_app, crc_bytes_word, L, crc32_lxor by (done || lia).
  set (x := crc_bytes _ payload) in *. unfold crc_residue. change (8 * 4)%nat with 32%nat. split.
  - intros ->. by rewrite <- Z.lxor_assoc, Z.lxor_nilpotent, Z.lxor_0_l.
  - intros E. apply iter_crc_inj in E; [| apply lxor_u32; [done | exact V] | in_range].
    rewrite <- E, <- Z.lxor_assoc, Z.lxor_nilpotent. by rewrite Z.lxor_0_l.
Qed.
End Crc.

#[local] Opaque crc_residue.

(** ** Lemmas: the reader *)

(** The requests and archives the format can carry. *)
Record wf_request (r : PersistedRequest) : Prop := {
  wr_ids : Forall is_u64 [get (pq_id r); get (pq_sequence r); get (pq_attempt r);
    get (pq_epoch r); get (pq_auth_gen r); get (sr_id (pq_auth_state r));
    get (sr_generation (pq_auth_state r))];
  wr_tokens : Forall is_u32 (pq_committed r);
  wr_count : zlen (pq_committed r) <= kMaxTokensPerRequest
}.

Record wf_archive (a : StateArchive) : Prop := {
  wa_version : format_version a = 1;
  wa_epoch : is_u64 (get (ar_epoch a));
  wa_requests : Forall wf_request (requests a);
  wa_count : zlen (requests a) <= kMaxRequests
}.

Lemma concat_put_fields w vs : concat (map (le_bytes w) vs) = put_fields w vs.
Proof. reflexivity. Qed.

Lemma read_u64s_put names vs rest :
  Forall is_u64 vs -> length names = length vs ->
  read_u64s names (put_fields 8 vs ++ rest) = Ok (vs, rest).
Proof.
  intros H. revert names. induction H as [| v vs Hv _ IH]; intros [| n names] L; try done.
  rewrite put_fields_cons, <- app_assoc. cbn [read_u64s].
  rewrite read_le_put by (by apply fits_u64). cbn [or_error and_then].
  rewrite IH by (simpl in L; lia). done.
Qed.

(** The 64-bit fields of a request, as written. *)
Definition request_u64s (r : PersistedRequest) : list Z :=
  [get (pq_id r); get (pq_sequence r); get (pq_attempt r); get (pq_epoch r);
   get (pq_auth_gen r); get (sr_id (pq_auth_state r)); get (sr_generation (pq_auth_state r))].

Lemma write_request_fields r :
  zlen (pq_committed r) < 4294967296 ->
  write_request r =
  put_fields 8 (request_u64s r) ++ le_bytes 4 (zlen (pq_committed r)) ++
  put_fields 4 (pq_committed r).
Proof.
  intros H. pose proof (zlen_nonneg (pq_committed r)). unfold write_request, w_u64, w_u32.
  rewrite u32_small by (unfold is_u32; lia). unfold put_fields, request_u64s.
  cbn [map concat]. by rewrite app_nil_r, <- !app_assoc.
Qed.

Lemma read_write_request r rest : wf_request r ->
  read_request (write_request r ++ rest) = Ok (r, rest).
Proof.
  intros [W T C]. unfold kMaxTokensPerRequest in C.
  pose proof (zlen_nonneg (pq_committed r)).
  rewrite write_request_fields by lia. unfold read_request.
  rewrite <- !app_assoc, read_u64s_put by done. cbn [and_then].
  rewrite read_le_put by (unfold fits; simpl; lia). cbn [or_error and_then].
  rewrite (proj2 (Z.ltb_ge _ _)) by (unfold kMaxTokensPerRequest; lia).
  unfold zlen. rewrite Nat2Z.id, read_fields_put
    by (eapply Forall_impl; [exact T |]; auto with fabric).
  cbn [and_then or_error]. by destruct r as [[] [] [] [] [] [[] []] c].
Qed.

Lemma read_write_requests rs rest : Forall wf_request rs ->
  read_requests (length rs) (concat (map write_request rs) ++ rest) = Ok (rs, rest).
Proof.
  induction 1 as [| r rs Hr _ IH]; [done |]. cbn [length read_requests map concat].
  rewrite <- app_assoc, read_write_request by done. cbn [and_then]. by rewrite IH.
Qed.

Lemma archive_payload_fields a :
  zlen (requests a) < 4294967296 ->
  archive_payload a =
  put_fields 1 magic ++ le_bytes 4 (format_version a) ++ le_bytes 8 (get (ar_epoch a)) ++
  le_bytes 4 (zlen (requests a)) ++ concat (map write_request (requests a)).
Proof.
  intros H. pose proof (zlen_nonneg (requests a)). unfold archive_payload, w_u64, w_u32.
  assert (E : put_fields 1 magic = magic) by (by vm_compute).
  rewrite E, u32_small by (unfold is_u32; lia). reflexivity.
Qed.

(** The reader on a header whose request count is read as [count]. *)
Lemma read_archive_header v e count rest : fits 4 v -> fits 8 e -> fits 4 count ->
  read_archive (put_fields 1 magic ++ le_bytes 4 v ++ le_bytes 8 e ++ le_bytes 4 count ++ rest) =
  if negb (v =? 1) then
    err ErrorCode.unknown_protocol_version ("unsupported archive version " +:+ pretty v)
  else if kMaxRequests <? count then err ErrorCode.out_of_range "request count too large"
  else let* '(rs, rest) := read_requests (Z.to_nat count) rest in
       Ok (mkArchive v (mkId e) rs, rest).
Proof.
  intros Hv He Hc. unfold read_archive.
  rewrite (read_fields_put 1 magic) by (unfold fits; repeat constructor; simpl; lia).
  cbn [or_error and_then]. rewrite bool_decide_true by done. cbn [negb].
  rewrite read_le_put by done. cbn [or_error and_then]. destruct (negb _); [done |].
  rewrite read_le_put by done. cbn [or_error and_then].
  rewrite read_le_put by done. cbn [or_error and_then]. done.
Qed.

Lemma read_archive_payload a rest : wf_archive a ->
  read_archive (archive_payload a ++ rest) = Ok (a, rest).
Proof.
  intros [Wv We Wr Wc]. unfold kMaxRequests in Wc. pose proof (zlen_nonneg (requests a)).
  rewrite archive_payload_fields by lia. rewrite <- !app_assoc.
  rewrite read_archive_header; [| rewrite Wv; unfold fits; simpl; lia | by apply fits_u64
    | unfold fits; simpl; lia].
  rewrite Wv. cbn [negb Z.eqb Pos.eqb].
  rewrite (proj2 (Z.ltb_ge _ _)) by (unfold kMaxRequests; lia).
  unfold zlen. rewrite Nat2Z.id, read_write_requests by done. cbn [and_then].
  destruct a as [v [e] rs]. simpl in *. by subst v.
Qed.

(** A blob with a matching checksum is handed to the reader. *)
Lemma deserialize_checksum payload :
  Forall is_u8 payload -> 20 <= zlen payload ->
  deserialize_archive (with_checksum payload) =
  result_map (read_archive (with_checksum payload)) fst.
Proof.
  intros H8 L. unfold deserialize_archive, with_checksum.
  rewrite zlen_app, zlen_le_bytes. rewrite (proj2 (Z.ltb_ge _ _)) by lia.
  assert (E : (length (payload ++ le_bytes 4 (crc32 payload)) - 4)%nat = length payload)
    by (rewrite length_app, length_le_bytes; lia).
  rewrite E, take_app_length, drop_app_length.
  rewrite le_value_le_bytes, Z.eqb_refl; [done |].
  apply (u32_range (Z.lnot (crc_bytes 0xFFFFFFFF payload))).
Qed.

Lemma write_request_u8 r : Forall is_u8 (write_request r).
Proof.
  unfold write_request, w_u64, w_u32. rewrite concat_put_fields, !Forall_app.
  repeat split; auto with fabric.
Qed.

Lemma archive_payload_u8 a : Forall is_u8 (archive_payload a).
Proof.
  unfold archive_payload, w_u64, w_u32. rewrite !Forall_app.
  repeat split; auto with fabric; [by apply (bool_decide_unpack _) |].
  apply Forall_concat, Forall_map, Forall_true. apply write_request_u8.
Qed.

Lemma zlen_archive_payload a : 20 <= zlen (archive_payload a).
Proof.
  unfold archive_payload, w_u64, w_u32. rewrite !zlen_app, !zlen_le_bytes.
  pose proof (zlen_nonneg (concat (map write_request (requests a)))). unfold magic, zlen. simpl. lia.
Qed.

#[export] Hint Resolve write_request_u8 archive_payload_u8 zlen_archive_payload : fabric.

Lemma deserialize_payload a junk : wf_archive a -> Forall is_u8 junk ->
  deserialize_archive (with_checksum (archive_payload a ++ junk)) = Ok a.
Proof.
  intros W J. pose proof (zlen_archive_payload a). pose proof (zlen_nonneg junk).
  rewrite deserialize_checksum;
    [| apply Forall_app; auto with fabric | rewrite zlen_app; lia].
  unfold with_checksum. rewrite <- app_assoc, read_archive_payload by done. done.
Qed.

(** *** What the reader accepts *)

Lemma read_u64s_inv names : forall rest vs rest',
  Forall is_u8 rest -> read_u64s names rest = Ok (vs, rest') ->
  rest = put_fields 8 vs ++ rest' /\ length vs = length names /\ Forall is_u64 vs /\
  Forall is_u8 rest'.
Proof.
  induction names as [| n names IH]; intros rest vs rest' H8; cbn [read_u64s].
  - intros [= <- <-]. by split_and!.
  - destruct (read_le 8 rest) as [[v r1] |] eqn:E; [cbn [or_error and_then] | discriminate].
    apply read_le_inv in E as (-> & Hv & H1); [| done].
    destruct (read_u64s names r1) as [[vs1 r2] |] eqn:F; [cbn [and_then] | discriminate].
    apply IH in F as (-> & L & Hvs & H2); [| done]. intros [= <- <-].
    split_and!; [| simpl; lia | by constructor | done].
    rewrite put_fields_cons. by rewrite <- app_assoc.
Qed.

Lemma read_request_inv rest r rest' :
  Forall is_u8 rest -> read_request rest = Ok (r, rest') ->
  rest = write_request r ++ rest' /\ wf_request r /\ Forall is_u8 rest'.
Proof.
  intros H8. unfold read_request.
  destruct (read_u64s request_fields rest) as [[vs r1] |] eqn:E; [cbn [and_then] | discriminate].
  apply read_u64s_inv in E as (-> & L & Hvs & H1); [| done].
  destruct (read_le 4 r1) as [[tcount r2] |] eqn:F; [cbn [or_error and_then] | discriminate].
  apply read_le_inv in F as (-> & Ft & H2); [| done]. unfold fits in Ft. simpl in Ft.
  destruct (Z.ltb_spec kMaxTokensPerRequest tcount) as [| Hc]; [discriminate |].
  destruct (read_fields 4 (Z.to_nat tcount) r2) as [[com r3] |] eqn:G;
    [cbn [or_error and_then] | discriminate].
  apply read_fields_inv in G as (-> & Lc & Hcom & H3); [| done].
  intros [= <- <-].
  assert (Lz : zlen com = tcount) by (unfold zlen; lia).
  simpl in L. do 7 (destruct vs as [| ? vs]; [discriminate |]). destruct vs; [| discriminate].
  rewrite write_request_fields by (simpl; unfold kMaxTokensPerRequest in Hc; lia).
  cbn [pq_committed request_u64s nth get pq_id pq_sequence pq_attempt pq_epoch pq_auth_gen
       pq_auth_state sr_id sr_generation]. rewrite Lz.
  split; [by rewrite <- !app_assoc |]. split; [| done]. constructor; simpl; (done || lia).
Qed.

Lemma read_requests_inv count : forall rest rs rest',
  Forall is_u8 rest -> read_requests count rest = Ok (rs, rest') ->
  rest = concat (map write_request rs) ++ rest' /\ length rs = count /\
  Forall wf_request rs /\ Forall is_u8 rest'.
Proof.
  induction count as [| count IH]; intros rest rs rest' H8; cbn [read_requests].
  - intros [= <- <-]. by split_and!.
  - destruct (read_request rest) as [[r r1] |] eqn:E; [cbn [and_then] | discriminate].
    apply read_request_inv in E as (-> & Hr & H1); [| done].
    destruct (read_requests count r1) as [[rs1 r2] |] eqn:F; [cbn [and_then] | discriminate].
    apply IH in F as (-> & <- & Hrs & H2); [| done]. intros [= <- <-].
    split_and!; [| done | by constructor | done]. cbn [map concat]. by rewrite <- app_assoc.
Qed.

Lemma read_archive_inv blob a rest :
  Forall is_u8 blob -> read_archive blob = Ok (a, rest) ->
  wf_archive a /\ blob = archive_payload a ++ rest.
Proof.
  intros H8. unfold read_archive.
  destruct (read_fields 1 4 blob) as [[m r1] |] eqn:E1; [cbn [or_error and_then] | discriminate].
  apply read_fields_inv in E1 as (-> & _ & _ & H1); [| done].
  case_bool_decide as Em; [subst m; cbn [negb] | discriminate].
  destruct (read_le 4 r1) as [[v r2] |] eqn:E2; [cbn [or_error and_then] | discriminate].
  apply read_le_inv in E2 as (-> & Fv & H2); [| done].
  destruct (Z.eqb_spec v 1) as [-> |]; [cbn [negb] | discriminate].
  destruct (read_le 8 r2) as [[e r3] |] eqn:E3; [cbn [or_error and_then] | discriminate].
  apply read_le_inv in E3 as (-> & Fe & H3); [| done].
  destruct (read_le 4 r3) as [[c r4] |] eqn:E4; [cbn [or_error and_then] | discriminate].
  apply read_le_inv in E4 as (-> & Fc & H4); [| done]. unfold fits in Fc. simpl in Fc.
  destruct (Z.ltb_spec kMaxRequests c) as [| Hc]; [discriminate |].
  destruct (read_requests (Z.to_nat c) r4) as [[rs r5] |] eqn:E5; [cbn [and_then] | discriminate].
  apply read_requests_inv in E5 as (-> & L & Hrs & H5); [| done]. intros [= <- <-].
  assert (Lz : zlen rs = c) by (unfold zlen; lia).
  split; [constructor; simpl; (done || lia) |].
  rewrite archive_payload_fields by (simpl; unfold kMaxRequests in Hc; lia).
  cbn [format_version ar_epoch get requests]. by rewrite Lz, <- !app_assoc.
Qed.

Lemma deserialize_residue blob :
  Forall is_u8 blob -> 24 <= zlen blob ->
  if bool_decide (crc_bytes 0xFFFFFFFF blob = crc_residue)
  then deserialize_archive blob = result_map (read_archive blob) fst
  else deserialize_archive blob = err ErrorCode.corrupt "archive checksum mismatch".
Proof.
  intros H8 L. unfold deserialize_archive. rewrite (proj2 (Z.ltb_ge _ _)) by lia.
  set (n := (length blob - 4)%nat). unfold zlen in L.
  pose proof (checksum_residue (take n blob) (drop n blob)) as R. rewrite take_drop in R.
  ospecialize (R (Forall_take _ _ _ H8) (Forall_drop _ _ _ H8) _);
    [rewrite length_drop; unfold n; lia |].
  rewrite (bool_decide_ext _ _ (iff_sym R)).
  case_bool_decide as B; destruct (Z.eqb_spec (le_value (drop n blob)) (crc32 (take n blob)));
    done.
Qed.

(** C17: archive round trip.  Every archive of the current format version with
    64-bit identifiers and 32-bit tokens, within the two size limits, is
    restored exactly from its serialization. *)
Theorem archive_round_trip a :
  wf_archive a ->
  exists blob, serialize_archive a = Ok blob /\ Forall is_u8 blob /\
    deserialize_archive blob = Ok a.
Proof.
  intros W. eexists. split; [reflexivity |]. split.
  - unfold with_checksum. apply Forall_app. auto with fabric.
  - rewrite <- (app_nil_r (archive_payload a)). by apply deserialize_payload.
Qed.

(** C18: what recovery accepts is well formed.  A blob that is accepted holds,
    from its first byte, exactly the payload of the archive it is restored to,
    every field in range and within the limits: recovery never invents
    requests or tokens that are not in the blob. *)
Theorem archive_accepted_sound blob a :
  Forall is_u8 blob -> deserialize_archive blob = Ok a ->
  wf_archive a /\ exists rest, blob = archive_payload a ++ rest.
Proof.
  intros H8. unfold deserialize_archive.
  destruct (zlen blob <? 24); [discriminate |]. cbv zeta. destruct (negb _); [discriminate |].
  destruct (read_archive blob) as [[b rest] |] eqn:E; [| discriminate]. intros [= <-].
  apply read_archive_inv in E as [W ->]; [| done]. eauto.
Qed.

(** C19: corruption is detected.  Replace any window of at most four
    consecutive bytes of a serialized archive, payload or checksum or across
    both, by different bytes: the blob is rejected as corrupt, whatever the
    bytes now claim. *)
Theorem archive_burst_detected a pre mid mid' post :
  serialize_archive a = Ok (pre ++ mid ++ post) ->
  Forall is_u8 mid' -> length mid' = length mid -> (length mid <= 4)%nat -> mid' <> mid ->
  error_code (deserialize_archive (pre ++ mid' ++ post)) = ErrorCode.corrupt.
Proof.
  intros E%(inj Ok) M' L L4 N. unfold with_checksum in E.
  pose proof (archive_payload_u8 a) as P8.
  pose proof (le_bytes_u8 4 (crc32 (archive_payload a))) as C8.
  assert (B8 : Forall is_u8 (pre ++ mid ++ post)) by (rewrite <- E; by apply Forall_app).
  rewrite !Forall_app in B8. destruct B8 as (Pre & Mid & Post).
  assert (R : crc_bytes 0xFFFFFFFF (pre ++ mid ++ post) = crc_residue).
  { rewrite <- E. apply checksum_residue; [done.. | apply le_value_le_bytes].
    apply (u32_range (Z.lnot _)). }
  assert (L24 : 24 <= zlen (pre ++ mid' ++ post)).
  { replace (zlen (pre ++ mid' ++ post)) with (zlen (pre ++ mid ++ post))
      by (unfold zlen; rewrite !length_app; lia).
    rewrite <- E, zlen_app, zlen_le_bytes. pose proof (zlen_archive_payload a). lia. }
  assert (B8 : Forall is_u8 (pre ++ mid' ++ post)) by auto using Forall_app_2.
  pose proof (deserialize_residue _ B8 L24) as D.
  rewrite bool_decide_false in D; [by rewrite D |].
  rewrite <- R, !(crc_bytes_app _ pre). intros B. apply N.
  apply (crc_burst (crc_bytes 0xFFFFFFFF pre) mid' mid post);
    [| assumption | assumption | assumption | symmetry; assumption | lia | assumption].
  apply crc_bytes_u32; [assumption | in_range].
Qed.

(** Trailing bytes are not rejected.  Any bytes appended to an archive's
    payload before the checksum is computed are ignored on recovery: the blob
    is accepted and restores the same archive. *)
Theorem archive_trailing_bytes_ignored a junk :
  wf_archive a -> Forall is_u8 junk ->
  deserialize_archive (with_checksum (archive_payload a ++ junk)) = Ok a.
Proof. apply deserialize_payload. Qed.

(** The writer does not enforce the reader's limit.  An archive with more
    than a million requests is serialized without an error, and the blob is
    then rejected by recovery. *)
Theorem archive_over_limit_not_recoverable a :
  format_version a = 1 -> is_u64 (get (ar_epoch a)) ->
  kMaxRequests < zlen (requests a) < 4294967296 ->
  exists blob, serialize_archive a = Ok blob /\
    error_code (deserialize_archive blob) = ErrorCode.out_of_range.
Proof.
  intros Hv He Hn. eexists. split; [reflexivity |].
  rewrite deserialize_checksum by auto with fabric.
  unfold with_checksum. rewrite archive_payload_fields by lia. rewrite <- !app_assoc.
  rewrite read_archive_header; [| rewrite Hv; unfold fits; simpl; lia | by apply fits_u64
    | unfold fits, kMaxRequests in *; simpl; lia].
  rewrite Hv. cbn [negb Z.eqb Pos.eqb]. by rewrite (proj2 (Z.ltb_lt _ _)) by lia.
Qed.

(** ** Witnesses *)

Definition sample_archive : StateArchive :=
  mkArchive 1 (mkId 3)
    [mkPersistedRequest (mkId 42) (mkId 5) (mkId 1) (mkId 3) (mkId 7)
       (mkStateRef (mkId 42) (mkId 7)) [131; 249; 3874]].

Lemma sample_archive_wf : wf_archive sample_archive.
Proof.
  constructor; [done | in_range | | by vm_compute].
  repeat constructor; (in_range || by vm_compute).
Qed.

Lemma archive_round_trip_witness :
  exists blob, serialize_archive sample_archive = Ok blob /\ Forall is_u8 blob /\
    deserialize_archive blob = Ok sample_archive.
Proof. apply archive_round_trip, sample_archive_wf. Defined.

Definition sample_blob : bytes := with_checksum (archive_payload sample_archive).

Lemma archive_accepted_sound_witness :
  wf_archive sample_archive /\ exists rest, sample_blob = archive_payload sample_archive ++ rest.
Proof. apply archive_accepted_sound; [in_range | by vm_compute]. Defined.

Lemma archive_burst_detected_witness :
  error_code (deserialize_archive
    (take 90 sample_blob ++ [0; 0; 0; 0] ++ drop 94 sample_blob)) = ErrorCode.corrupt.
Proof.
  apply (archive_burst_detected sample_archive (take 90 sample_blob)
    (take 4 (drop 90 sample_blob)) [0; 0; 0; 0] (drop 94 sample_blob));
    [by vm_compute | in_range | done | by vm_compute; lia | by vm_compute].
Defined.

Lemma archive_trailing_bytes_ignored_witness :
  deserialize_archive (with_checksum (archive_payload sample_archive ++ [1; 2; 3])) =
  Ok sample_archive.
Proof. apply archive_trailing_bytes_ignored; [apply sample_archive_wf | in_range]. Defined.

Definition oversized_requests : list PersistedRequest :=
  repeat (mkPersistedRequest null_id null_id null_id null_id null_id StateRef_default [])
    (Z.to_nat 1000001).

Lemma zlen_oversized_requests : zlen oversized_requests = 1000001.
Proof. unfold zlen, oversized_requests. rewrite repeat_length. apply Z2Nat.id. lia. Qed.

Lemma archive_over_limit_not_recoverable_witness :
  exists blob, serialize_archive (mkArchive 1 (mkId 3) oversized_requests) = Ok blob /\
    error_code (deserialize_archive blob) = ErrorCode.out_of_range.
Proof.
  assert (He : is_u64 3) by in_range.
  assert (Hn : kMaxRequests < zlen oversized_requests < 4294967296)
    by (rewrite zlen_oversized_requests; unfold kMaxRequests; lia).
  exact (archive_over_limit_not_recoverable (mkArchive 1 (mkId 3) oversized_requests)
           eq_refl He Hn).
Defined.
