(* ===== verification/FileStore.v ===== *)
(** * The file store (the class [FileStore] of persistence.hpp, persistence.cpp)

    [save] truncates and rewrites one file, [load] reads it back.  The file is
    an optional byte string.  What the streams of the Standard C++ Library do
    is a parameter of each call, [WriteStream] and [ReadStream]; [WriteOk] and
    [ReadOk] state what a stream that reports success has done.  [None] is the
    exception of a string of negative size. *)

From S2P Require Import Prelude Errors Ids Bytes Data Persistence.

(** The contents of the file at a path; [None] when there is none. *)
Definition File : Set := option bytes.

(** One output stream: whether it opens, how many of the bytes written reach
    the file, whether it is good after the flush. *)
Record WriteStream : Set := mkWriteStream {
  ws_is_open : bool;
  ws_reached : nat;
  ws_good : bool
}.

(** One input stream: whether it opens, the position [tellg] reports at the
    end, and [gcount] after the read. *)
Record ReadStream : Set := mkReadStream {
  is_open : bool;
  tellg : Z;
  gcount : Z
}.

(** [FileStore::save]; opening with [trunc] empties the file. *)
Definition save (path : string) (ws : WriteStream) (blob : bytes) (file : File)
  : Result unit * File :=
  if negb (ws_is_open ws) then
    (err ErrorCode.internal ("could not open " +:+ path +:+ " for write"), file)
  else
    let file := Some (take (ws_reached ws) blob) in
    if negb (ws_good ws) then (err ErrorCode.internal ("short write to " +:+ path), file)
    else (Ok tt, file).

(** [FileStore::load]; a buffer of zeros is read into. *)
Definition load (path : string) (rs : ReadStream) (file : File) : option (Result bytes) :=
  match file with
  | Some contents =>
      if negb (is_open rs) then
        Some (err ErrorCode.not_found ("could not open " +:+ path +:+ " for read"))
      else
        let sz := tellg rs in
        if sz <? 0 then None
        else
          let read := take (Z.to_nat (gcount rs)) contents in
          let data := read ++ repeat 0 (Z.to_nat sz - length read) in
          if negb (gcount rs =? sz) then
            Some (err ErrorCode.internal ("short read from " +:+ path))
          else Some (Ok data)
  | None => Some (err ErrorCode.not_found ("could not open " +:+ path +:+ " for read"))
  end.

(** A stream that is good has written everything. *)
Class WriteOk (ws : WriteStream) (blob : bytes) : Prop :=
  write_all : ws_good ws = true -> length (take (ws_reached ws) blob) = length blob.

(** A stream that opens reports the size of the file and reads it. *)
Record ReadOk (rs : ReadStream) (contents : bytes) : Prop := {
  ro_open : is_open rs = true;
  ro_size : tellg rs = zlen contents;
  ro_count : gcount rs = zlen contents
}.

(** Saving an archive, and recovering one. *)
Definition save_archive (path : string) (ws : WriteStream) (a : StateArchive) (file : File)
  : Result unit * File :=
  match serialize_archive a with
  | Ok blob => save path ws blob file
  | Failed e => (Failed e, file)
  end.

Definition recover (path : string) (rs : ReadStream) (file : File)
  : option (Result StateArchive) :=
  r ← load path rs file; Some (and_then r deserialize_archive).

(** ** Lemmas *)

Lemma load_reads path rs contents :
  ReadOk rs contents -> load path rs (Some contents) = Some (Ok contents).
Proof.
  intros [O S C]. unfold load. rewrite O, S, C, Z.eqb_refl. cbn [negb].
  pose proof (zlen_nonneg contents). rewrite (proj2 (Z.ltb_ge _ _)) by lia.
  unfold zlen. rewrite Nat2Z.id, firstn_all, Nat.sub_diag. cbn [repeat]. by rewrite app_nil_r.
Qed.

(** A part of a blob holds no other archive than the blob. *)
Lemma deserialize_prefix a n b :
  wf_archive a -> deserialize_archive (take n (with_checksum (archive_payload a))) = Ok b ->
  b = a /\ (length (archive_payload a) <= n)%nat.
Proof.
  intros W E. set (blob := with_checksum (archive_payload a)) in *.
  assert (H8 : Forall is_u8 blob) by (unfold blob, with_checksum; apply Forall_app; auto with fabric).
  unfold deserialize_archive in E. destruct (zlen _ <? 24); [discriminate |]. cbv zeta in E.
  destruct (negb _); [discriminate |].
  destruct (read_archive (take n blob)) as [[b' rest] |] eqn:R; [| discriminate].
  injection E as <-. apply read_archive_inv in R as [Wb Eb]; [| by apply Forall_take].
  assert (A : read_archive blob = Ok (b', rest ++ drop n blob)).
  { rewrite <- (take_drop n blob) at 1. rewrite Eb, <- app_assoc. by apply read_archive_payload. }
  unfold blob, with_checksum in A. rewrite read_archive_payload in A by done.
  injection A as Ea Er. split; [done |]. subst b'.
  apply (f_equal length) in Eb. rewrite length_take, !length_app in Eb. lia.
Qed.

(** ** Properties *)

Section Store.
  Context (path : string) (ws : WriteStream) (a : StateArchive) (file : File).
  Hypothesis W : wf_archive a.
  Hypothesis WO : WriteOk ws (with_checksum (archive_payload a)).

(** C20: recovery never invents state.  Save a well-formed archive over
    whatever the file held, the stream writing any part of it, and read the
    file back: a save that succeeds is recovered exactly; a save that could
    not open the file leaves it as it was; and whatever a save that failed in
    the middle left behind is either refused or it is the very archive, with
    its whole payload on disk - never an older, shorter or different one. *)
Theorem save_recover rs r file' :
  save_archive path ws a file = (r, file') ->
  (forall contents, file' = Some contents -> ReadOk rs contents) ->
  (r = Ok tt -> recover path rs file' = Some (Ok a)) /\
  (ws_is_open ws = false -> error_code r = ErrorCode.internal /\ file' = file) /\
  (ws_is_open ws = true ->
     (has_value r = ws_good ws) /\ is_Some (recover path rs file') /\
     forall b, recover path rs file' = Some (Ok b) ->
       b = a /\ (length (archive_payload a) <= ws_reached ws)%nat).
Proof using W WO.
  unfold save_archive, serialize_archive, save. set (blob := with_checksum (archive_payload a)).
  intros E RO. destruct (ws_is_open ws); cbn [negb] in E; [| by injection E as <- <-].
  assert (F : file' = @Some bytes (take (ws_reached ws) blob))
    by (destruct (negb (ws_good ws)); injection E as _ <-; done).
  subst file'. pose proof (load_reads path rs _ (RO _ eq_refl)) as L. unfold recover. rewrite L.
  cbn [mbind option_bind and_then]. split_and!; [| done |].
  - destruct (ws_good ws) eqn:G; cbn [negb] in E; injection E as <-; [intros _ | discriminate].
    rewrite take_ge; [| apply WO in G; fold blob in G; rewrite length_take in G; lia].
    unfold blob. rewrite <- (app_nil_r (archive_payload a)).
    by rewrite deserialize_payload.
  - intros _. split_and!; [by destruct (ws_good ws); injection E as <- | by eexists |].
    intros b Eb. injection Eb as Eb. by apply deserialize_prefix in Eb.
Qed.
End Store.

(** A save that stops after forty bytes, on a file that held something else. *)
Lemma save_recover_witness :
  has_value (save_archive "state.sf" (mkWriteStream true 40 false) sample_archive (Some [1; 2])).1 =
    false /\
  forall b, recover "state.sf" (mkReadStream true 40 40)
    (save_archive "state.sf" (mkWriteStream true 40 false) sample_archive (Some [1; 2])).2 =
    Some (Ok b) -> b = sample_archive.
Proof.
  destruct (save_recover "state.sf" (mkWriteStream true 40 false) sample_archive (Some [1; 2])
    sample_archive_wf ltac:(discriminate) (mkReadStream true 40 40)
    _ _ (surjective_pairing _)) as (_ & _ & F).
  - intros contents [= <-]. constructor; [done | by vm_compute | by vm_compute].
  - destruct (F eq_refl) as (E & _ & G). split; [exact E |]. intros b Eb. by apply G in Eb as [-> _].
Defined.
