(* ===== verification/Fabric.v ===== *)
(** * The runtime state and its requests (fabric.hpp, the [Impl] and the API of
    fabric.cpp apart from [run_cycle]; the cycle outcome of request.hpp)

    The engine's whole state is one record; every operation that takes the
    engine lock is a function of it.  The clock is the monotonic half of a
    [Clock] (Clock.v): the [n]-th reading of the run, and the number of readings
    so far. *)

From stdpp Require Import gmap sorting.
From S2P Require Import Prelude Errors Ids Doubles Model Lifecycle Data Policy Scheduler.

(** [enum class CycleOutcomeKind] (request.hpp). *)
Module CycleOutcomeKind.

Inductive t : Set := ProposalSuccess | ProposalRetryableFailure | ProposalNonRetryableFailure | VerificationSuccessFullAccept | VerificationSuccessPartialAccept | VerificationRejectAll | VerificationRetryableFailure | VerificationNonRetryableFailure | Cancelled | Expired | StaleAuthorityRejected | Superseded.

#[global] Instance eq_dec : EqDecision t.
Proof. solve_decision. Defined.

End CycleOutcomeKind.
Abbreviation CycleOutcomeKind := CycleOutcomeKind.t.

(** [struct CycleOutcome]. *)
Record CycleOutcome : Set := mkCycleOutcome {
  out_outcome : CycleOutcomeKind;
  out_phase : SpeculativePhase;
  out_acceptance : AcceptanceOutcome;
  out_commit : CommitResult;
  out_rollback : RollbackResult;
  out_proposal : ProposalId;
  out_branch : BranchId;
  out_proposed_tokens : Z;
  out_accepted_tokens : Z;
  out_rejected_tokens : Z;
  out_depth : Z;
  out_summary : string;
  out_error : ErrorCode
}.

Definition CycleOutcome_default : CycleOutcome :=
  mkCycleOutcome CycleOutcomeKind.ProposalSuccess SpeculativePhase.Ready
    AcceptanceOutcome.RejectAll CommitResult_default RollbackResult_default null_id null_id 0 0
    0 0 EmptyString ErrorCode.ok.

#[export] Instance eta_CycleOutcome : Etable CycleOutcome := fun r =>
  mkCycleOutcome (out_outcome r) (out_phase r) (out_acceptance r) (out_commit r)
    (out_rollback r) (out_proposal r) (out_branch r) (out_proposed_tokens r)
    (out_accepted_tokens r) (out_rejected_tokens r) (out_depth r) (out_summary r) (out_error r).

(** [committed()], [rolled_back()] and [CycleOutcome::make]. *)
Definition out_committed (o : CycleOutcome) : bool := cr_success (out_commit o).

Definition out_rolled_back (o : CycleOutcome) : bool := rb_success (out_rollback o).

Definition make_outcome (k : CycleOutcomeKind) : CycleOutcome :=
  CycleOutcome_default <| out_outcome := k |>.

(** ** Observability records *)

(** [struct Event]. *)
Record Event : Set := mkEvent {
  ev_id : EventId;
  ev_timestamp_ns : Z;
  ev_request : RequestId;
  ev_type : string;
  ev_detail : string;
  ev_json : string
}.

Definition Event_default : Event :=
  mkEvent null_id 0 null_id EmptyString EmptyString EmptyString.

#[export] Instance eta_Event : Etable Event := fun r =>
  mkEvent (ev_id r) (ev_timestamp_ns r) (ev_request r) (ev_type r) (ev_detail r) (ev_json r).

#[export] Instance Event_eq_dec : EqDecision Event.
Proof. solve_decision. Defined.

(** [struct Stats]. *)
Record Stats : Set := mkStats {
  st_requests_eligible_for_speculation : Z;
  st_speculative_cycles_started : Z;
  st_speculation_bypasses : Z;
  st_proposals_produced : Z;
  st_proposals_rejected_stale : Z;
  st_verifications_run : Z;
  st_tokens_proposed : Z;
  st_tokens_accepted : Z;
  st_tokens_rejected : Z;
  st_full_accept_count : Z;
  st_partial_accept_count : Z;
  st_full_reject_count : Z;
  st_rollback_count : Z;
  st_retry_count : Z;
  st_cancel_count : Z;
  st_stale_rejections_by_epoch : Z;
  st_stale_rejections_by_boot : Z;
  st_stale_rejections_by_attempt : Z;
  st_stale_rejections_by_generation : Z;
  st_acceptance_ratio : double;
  st_speculative_reservations_current : Z;
  st_slots_outstanding : Z
}.

Definition Stats_default : Stats :=
  mkStats 0 0 0 0 0 0 0 0 0 0 0 0 0 0 0 0 0 0 0 (double_of 0) 0 0.

#[export] Instance eta_Stats : Etable Stats := fun r =>
  mkStats (st_requests_eligible_for_speculation r) (st_speculative_cycles_started r)
    (st_speculation_bypasses r) (st_proposals_produced r) (st_proposals_rejected_stale r)
    (st_verifications_run r) (st_tokens_proposed r) (st_tokens_accepted r)
    (st_tokens_rejected r) (st_full_accept_count r) (st_partial_accept_count r)
    (st_full_reject_count r) (st_rollback_count r) (st_retry_count r) (st_cancel_count r)
    (st_stale_rejections_by_epoch r) (st_stale_rejections_by_boot r)
    (st_stale_rejections_by_attempt r) (st_stale_rejections_by_generation r)
    (st_acceptance_ratio r) (st_speculative_reservations_current r) (st_slots_outstanding r).

(** [struct Snapshot]. *)
Record Snapshot : Set := mkSnapshot {
  sn_taken_at : string;
  sn_monotonic_ns : Z;
  sn_epoch : CoordinatorEpoch;
  sn_active_requests : Z;
  sn_active_branches : Z;
  sn_active_reservations : Z;
  sn_active_proposals : Z;
  sn_summaries : list string
}.

(** [struct Explain]. *)
Record Explain : Set := mkExplain {
  ex_question : string;
  ex_answer_text : string;
  ex_answer_json : string;
  ex_reasons : list string
}.

(** ** The engine state *)

(** [struct SpeculationFabric::Config]; the persistence handle is never used by
    the engine. *)
Record Config : Set := mkConfig {
  cfg_proposer : option ProposalExecutor;
  cfg_verifier : option VerificationExecutor;
  cfg_clock : nat -> Z;
  cfg_policy : ProposalPolicy;
  cfg_epoch : CoordinatorEpoch
}.

Definition Config_default : Config :=
  mkConfig None None (fun _ => 0) ProposalPolicy_default null_id.

#[export] Instance eta_Config : Etable Config := fun r =>
  mkConfig (cfg_proposer r) (cfg_verifier r) (cfg_clock r) (cfg_policy r) (cfg_epoch r).

(** [struct Impl::RequestState]. *)
Record RequestState : Set := mkRequestState {
  rs_req : SpeculationRequest;
  rs_attempt : AttemptId;
  rs_epoch : CoordinatorEpoch;
  rs_auth_gen : AuthGeneration;
  rs_auth_state : StateRef;
  rs_auth_state_gen : StateGeneration;
  rs_committed : list Z;
  rs_branches : list Branch;
  rs_proposals : list Proposal;
  rs_reservations : list Reservation;
  rs_cycle : SpeculativeStateMachine;
  rs_cancelled : bool;
  rs_terminal : bool;
  rs_completed_cycles : Z;
  rs_retry_count : Z;
  rs_events : list Event
}.

Definition RequestState_default : RequestState :=
  mkRequestState SpeculationRequest_default null_id null_id null_id StateRef_default null_id []
    [] [] [] Machine_default false false 0 0 [].

#[export] Instance eta_RequestState : Etable RequestState := fun r =>
  mkRequestState (rs_req r) (rs_attempt r) (rs_epoch r) (rs_auth_gen r) (rs_auth_state r)
    (rs_auth_state_gen r) (rs_committed r) (rs_branches r) (rs_proposals r) (rs_reservations r)
    (rs_cycle r) (rs_cancelled r) (rs_terminal r) (rs_completed_cycles r) (rs_retry_count r)
    (rs_events r).

(** [class SpeculationFabric] with its [Impl]: the public copy of the
    configuration, the engine's own copy, the scheduler the engine consults,
    the requests, the statistics and the event log; and how often the clock
    has been read. *)
Record Fabric : Set := mkFabric {
  fb_cfg : Config;
  fb_impl_cfg : Config;
  fb_scheduler : SpeculationScheduler;
  fb_requests : gmap RequestId RequestState;
  fb_stats : Stats;
  fb_global_events : list Event;
  fb_clock_reads : nat
}.

#[export] Instance eta_Fabric : Etable Fabric := fun r =>
  mkFabric (fb_cfg r) (fb_impl_cfg r) (fb_scheduler r) (fb_requests r) (fb_stats r)
    (fb_global_events r) (fb_clock_reads r).

(** [SpeculationFabric(Config)]. *)
Definition new_fabric (cfg : Config) : Fabric :=
  mkFabric cfg cfg (new_scheduler (cfg_policy cfg)) empty Stats_default [] 0.

(** [++counter] of a 64-bit and of a 32-bit counter. *)
Definition incr (x : Z) : Z := u64 (x + 1).
Definition incr32 (x : Z) : Z := u32 (x + 1).

(** [clock->monotonic_ns()]. *)
Definition monotonic_ns (f : Fabric) : Z * Fabric :=
  (cfg_clock (fb_impl_cfg f) (fb_clock_reads f), f <| fb_clock_reads ::= S |>).

(** [deque.push_back(e); if (deque.size() > cap) deque.pop_front();] *)
Definition push_capped (cap : Z) (e : Event) (events : list Event) : list Event :=
  let events := events ++ [e] in
  if cap <? zlen events then tail events else events.

(** An update of the request a map iterator points to. *)
Definition update_request (id : RequestId) (g : RequestState -> RequestState) (f : Fabric)
  : Fabric := f <| fb_requests ::= alter g id |>.

Definition update_stats (g : Stats -> Stats) (f : Fabric) : Fabric := f <| fb_stats ::= g |>.

(** [push_event]. *)
Definition push_event (id : RequestId) (type detail json : string) (f : Fabric) : Fabric :=
  let '(now, f) := monotonic_ns f in
  let e := mkEvent (mkId (zlen (fb_global_events f) + 1)) now id type detail json in
  let f := f <| fb_global_events ::= push_capped 2000 e |> in
  update_request id (fun rs => rs <| rs_events ::= push_capped 512 e |>) f.

(** [check_authority]: the envelope of a late message against the request. *)
Definition check_authority (rs : RequestState) (epoch : CoordinatorEpoch) (attempt : AttemptId)
    (base_gen : AuthGeneration) (prop_gen : Z) (f : Fabric) : Result unit * Fabric :=
  if rs_terminal rs then
    (err ErrorCode.completion_after_terminal "request is terminal", f)
  else if rs_cancelled rs then
    (err ErrorCode.completion_after_cancellation "request was cancelled", f)
  else if negb (is_null epoch) && (get epoch <? get (rs_epoch rs)) then
    (err ErrorCode.stale_epoch "message epoch is stale",
     update_stats (fun s => s <| st_stale_rejections_by_epoch ::= incr |>) f)
  else if negb (id_eqb attempt (rs_attempt rs)) then
    (err ErrorCode.stale_attempt "message belongs to an obsolete attempt",
     update_stats (fun s => s <| st_stale_rejections_by_attempt ::= incr |>) f)
  else if negb (id_eqb base_gen (rs_auth_gen rs)) then
    (err ErrorCode.wrong_base_generation "message targets a different authoritative base",
     update_stats (fun s => s <| st_stale_rejections_by_generation ::= incr |>) f)
  else if negb (prop_gen =? 0) then
    if existsb (fun p => get (prop_generation p) =? prop_gen) (rs_proposals rs) then (Ok tt, f)
    else
      (err ErrorCode.stale_proposal_generation "proposal generation is stale",
       update_stats (fun s => s <| st_stale_rejections_by_generation ::= incr |>) f)
  else (Ok tt, f).

(** [active_reservation_bytes]. *)
Definition active_reservation_bytes (rs : RequestState) : Z :=
  fold_left (fun total r => if res_is_active r then u32 (total + u32 (res_bytes r)) else total)
    (rs_reservations rs) 0.

(** ** The API *)

Definition unknown_request {T} : Result T := err ErrorCode.not_found "unknown request".

(** [requests[id]]: the entry, value-initialised on first use. *)
Definition subscript (id : RequestId) (f : Fabric) : RequestState * Fabric :=
  match fb_requests f !! id with
  | Some rs => (rs, f)
  | None => (RequestState_default, f <| fb_requests ::= insert id RequestState_default |>)
  end.

(** The fields [submit] assigns. *)
Definition admitted (epoch : CoordinatorEpoch) (req : SpeculationRequest) (rs : RequestState)
  : RequestState :=
  rs <| rs_req := req |>
     <| rs_attempt := mkId 1 |>
     <| rs_epoch := epoch |>
     <| rs_auth_gen := mkId 0 |>
     <| rs_auth_state :=
          mkStateRef (mkId (u64 (get (rq_sequence req) * 0x9E3779B97F4A7C15))) (mkId 0) |>
     <| rs_auth_state_gen := mkId 0 |>
     <| rs_committed := rq_prefix req |>
     <| rs_terminal := false |>
     <| rs_cancelled := false |>
     <| rs_completed_cycles := 0 |>
     <| rs_cycle := mkMachine SpeculativePhase.Ready |>.

(** [submit]. *)
Definition submit (req : SpeculationRequest) (f : Fabric) : Result unit * Fabric :=
  let id := rq_id req in
  let '(rs, f) := subscript id f in
  if negb (is_null (rq_id (rs_req rs))) then
    (err ErrorCode.already_exists "request id already registered", f)
  else
    let f := update_request id (admitted (cfg_epoch (fb_cfg f)) req) f in
    let f := update_stats (fun s => s <| st_requests_eligible_for_speculation ::= incr |>) f in
    (Ok tt, push_event id "request.submit" "request admitted" "{}" f).

(** The machine after an event whose result is ignored. *)
Definition apply_ (e : SpeculationEvent) (m : SpeculativeStateMachine) : SpeculativeStateMachine :=
  (apply e m).2.

(** [cancel]. *)
Definition cancel (id : RequestId) (why : string) (f : Fabric) : Result unit * Fabric :=
  match fb_requests f !! id with
  | None => (unknown_request, f)
  | Some rs =>
      if rs_cancelled rs then (Ok tt, f)
      else if rs_terminal rs then
        (err ErrorCode.already_terminal "request already terminal", f)
      else
        let f := update_request id (fun rs =>
          rs <| rs_cycle ::= apply_ SpeculationEvent.Cancel |>
             <| rs_reservations ::= map (fun r => r <| res_state := ReservationState.Released |>) |>
             <| rs_branches ::= map (fun b => b <| br_retired := true |>) |>
             <| rs_cancelled := true |>) f in
        let f := update_stats (fun s => s <| st_cancel_count ::= incr |>) f in
        (Ok tt, push_event id "request.cancel" why "{}" f)
  end.

(** [complete]. *)
Definition complete (id : RequestId) (f : Fabric) : Result unit * Fabric :=
  match fb_requests f !! id with
  | None => (unknown_request, f)
  | Some _ =>
      let f := update_request id (fun rs =>
        rs <| rs_terminal := true |>
           <| rs_cycle ::= apply_ SpeculationEvent.EnterTerminal |>) f in
      (Ok tt, push_event id "request.complete" "request terminal" "{}" f)
  end.

(** [authoritative_length], [proposals], [branches] and [events]. *)
Definition authoritative_length (id : RequestId) (f : Fabric) : Result Z :=
  match fb_requests f !! id with
  | None => unknown_request
  | Some rs => Ok (zlen (rs_committed rs))
  end.

Definition proposals (id : RequestId) (f : Fabric) : Result (list Proposal) :=
  match fb_requests f !! id with
  | None => unknown_request
  | Some rs => Ok (rs_proposals rs)
  end.

Definition branches (id : RequestId) (f : Fabric) : Result (list Branch) :=
  match fb_requests f !! id with
  | None => unknown_request
  | Some rs => Ok (rs_branches rs)
  end.

Definition events (id : RequestId) (f : Fabric) : list Event :=
  match fb_requests f !! id with
  | None => []
  | Some rs => rs_events rs
  end.

(** The requests in the order of the ordered map. *)
Definition request_before (a b : RequestId * RequestState) : Prop := get a.1 <= get b.1.

#[export] Instance request_before_dec a b : Decision (request_before a b).
Proof. unfold request_before. apply _. Defined.

Definition request_list (f : Fabric) : list (RequestId * RequestState) :=
  merge_sort request_before (map_to_list (fb_requests f)).

(** The number of active reservations of a request. *)
Definition active_reservations (rs : RequestState) : Z :=
  zlen (filter (fun r => res_is_active r = true) (rs_reservations rs)).

Definition sum_requests (g : RequestState -> Z) (f : Fabric) : Z :=
  fold_left (fun n kv => n + g kv.2) (request_list f) 0.

(** The acceptance ratio of the counters so far, or a default. *)
Definition ratio_of (s : Stats) (d : double) : double :=
  if st_tokens_proposed s =? 0 then d
  else ddiv (double_of (st_tokens_accepted s)) (double_of (st_tokens_proposed s)).

(** [stats]. *)
Definition stats (f : Fabric) : Stats :=
  (fb_stats f)
    <| st_acceptance_ratio := ratio_of (fb_stats f) (double_of 0) |>
    <| st_speculative_reservations_current := sum_requests active_reservations f |>
    <| st_slots_outstanding := 0 |>.

(** [snapshot]; it reads the clock. *)
Definition snapshot (f : Fabric) : Snapshot * Fabric :=
  let '(now, f) := monotonic_ns f in
  (mkSnapshot EmptyString now (cfg_epoch (fb_cfg f)) (zlen (request_list f))
     (sum_requests (fun rs => zlen (rs_branches rs)) f)
     (sum_requests active_reservations f)
     (sum_requests (fun rs => zlen (rs_proposals rs)) f)
     (map (fun kv => "seq=" +:+ id_str (rq_sequence (rs_req kv.2)) +:+ " len=" +:+
                     pretty (zlen (rs_committed kv.2))) (request_list f)), f).

(** [emit_event]. *)
Definition emit_event : RequestId -> string -> string -> string -> Fabric -> Fabric := push_event.

(** The double quote and the other characters [json_escape] rewrites. *)
Definition quote : string := String (Ascii.ascii_of_nat 34) EmptyString.
Definition backslash : string := String (Ascii.ascii_of_nat 92) EmptyString.

(** [json_escape]. *)
Fixpoint json_escape (s : string) : string :=
  match s with
  | EmptyString => EmptyString
  | String c s =>
      (if Ascii.eqb c (Ascii.ascii_of_nat 34) then backslash +:+ quote
       else if Ascii.eqb c (Ascii.ascii_of_nat 92) then backslash +:+ backslash
       else if Ascii.eqb c (Ascii.ascii_of_nat 10) then backslash +:+ "n"
       else if Ascii.eqb c (Ascii.ascii_of_nat 9) then backslash +:+ "t"
       else String c EmptyString) +:+ json_escape s
  end.

(** [explain]. *)
Definition explain (id : RequestId) (question : string) (f : Fabric) : Explain :=
  match fb_requests f !! id with
  | None =>
      mkExplain question ("unknown request " +:+ id_str id)
        ("{" +:+ quote +:+ "request" +:+ quote +:+ ":" +:+ quote +:+ "unknown" +:+ quote +:+ "}") []
  | Some rs =>
      let ss :=
        "sequence " +:+ id_str (rq_sequence (rs_req rs)) +:+ " (request " +:+ id_str id +:+
        "): authoritative generation " +:+ pretty (get (rs_auth_gen rs)) +:+
        ", committed " +:+ pretty (zlen (rs_committed rs)) +:+ " tokens, attempt " +:+
        pretty (get (rs_attempt rs)) +:+ ", epoch " +:+ pretty (get (rs_epoch rs)) +:+
        ", cycle phase " +:+ phase_to_string (phase (rs_cycle rs)) +:+
        ", branches " +:+ pretty (zlen (rs_branches rs)) +:+ ", proposals " +:+
        pretty (zlen (rs_proposals rs)) +:+ ", active reservations " +:+
        pretty (active_reservation_bytes rs) in
      mkExplain question ss
        ("{" +:+ quote +:+ "request" +:+ quote +:+ ":" +:+ quote +:+ id_str id +:+ quote +:+ "," +:+
         quote +:+ "gen" +:+ quote +:+ ":" +:+ pretty (get (rs_auth_gen rs)) +:+ "," +:+
         quote +:+ "len" +:+ quote +:+ ":" +:+ pretty (zlen (rs_committed rs)) +:+ "," +:+
         quote +:+ "phase" +:+ quote +:+ ":" +:+ quote +:+
         phase_to_string (phase (rs_cycle rs)) +:+ quote +:+ "}") [ss]
  end.

(** The tokens of the finalized proposals that were not committed. *)
Definition uncommitted_tokens (ps : list Proposal) : Z :=
  fold_left (fun n p => if prop_finalized p && negb (prop_committed p)
                        then u32 (n + u32 (cand_size (prop_candidate p))) else n) ps 0.

(** How many list elements satisfy a test, as a 32-bit counter. *)
Definition count32 {A} (test : A -> bool) (l : list A) : Z :=
  fold_left (fun n x => if test x then incr32 n else n) l 0.

Definition release_active (r : Reservation) : Reservation :=
  if res_is_active r then r <| res_state := ReservationState.Released |> else r.

(** [rollback]. *)
Definition rollback (id : RequestId) (why : string) (f : Fabric)
  : Result RollbackResult * Fabric :=
  match fb_requests f !! id with
  | None => (unknown_request, f)
  | Some rs =>
      let rb :=
        RollbackResult_default
          <| rb_rejected_tokens := uncommitted_tokens (rs_proposals rs) |>
          <| rb_accepted_prefix := u32 (zlen (rs_committed rs)) |>
          <| rb_restored_generation := rs_auth_gen rs |>
          <| rb_restored_state := rs_auth_state rs |>
          <| rb_restored_state_generation := rs_auth_state_gen rs |>
          <| rb_retired_branches := count32 br_is_active (rs_branches rs) |>
          <| rb_released_reservations := count32 res_is_active (rs_reservations rs) |>
          <| rb_success := true |>
          <| rb_detail := why |> in
      let f := update_request id (fun rs =>
        rs <| rs_branches ::= map (fun b => b <| br_retired := true |>) |>
           <| rs_reservations ::= map release_active |>) f in
      let f := update_stats (fun s => s <| st_rollback_count ::= incr |>) f in
      (Ok rb, push_event id "request.rollback" why "{}" f)
  end.

(** [retry]. *)
Definition retry (id : RequestId) (f : Fabric) : Result AttemptId * Fabric :=
  match fb_requests f !! id with
  | None => (unknown_request, f)
  | Some rs =>
      let limit := rq_max_attempts (rs_req rs) in
      if negb (limit =? 0) && (limit <=? rs_retry_count rs) then
        (err ErrorCode.retryable_failure "retry limit reached", f)
      else if rs_terminal rs || rs_cancelled rs then
        (err ErrorCode.invalid_state "cannot retry a terminal request", f)
      else
        let attempt : AttemptId := mkId (u64 (get (rs_attempt rs) + 1)) in
        let f := update_request id (fun rs =>
          rs <| rs_attempt := attempt |>
             <| rs_retry_count ::= incr32 |>
             <| rs_cycle := mkMachine SpeculativePhase.Ready |>) f in
        let f := update_stats (fun s => s <| st_retry_count ::= incr |>) f in
        (Ok attempt, push_event id "request.retry" ("new attempt " +:+ id_str attempt) "{}" f)
  end.

(** [epoch()] and [roll_epoch()]: only the public copy of the configuration. *)
Definition epoch (f : Fabric) : CoordinatorEpoch := cfg_epoch (fb_cfg f).

Definition roll_epoch (f : Fabric) : Fabric :=
  f <| fb_cfg ::= fun cfg => cfg <| cfg_epoch := mkId (u64 (get (cfg_epoch cfg) + 1)) |> |>.
