(* ===== verification/Cycle.v ===== *)
(** * One speculative cycle ([SpeculationFabric::run_cycle], fabric.cpp)

    [run_cycle] takes the engine lock in separate critical sections: it
    prepares the cycle, builds one proposal input per branch, builds one
    verification input per proposal, and settles the outcome.  The executors
    run between them, outside the lock.  Each critical section is one
    definition here; [run_cycle] composes them the way the code does.  [None]
    is undefined behaviour: a dereferenced empty candidate, a token index past
    the candidate, or an undefined depth choice. *)

From stdpp Require Import gmap.
From S2P Require Import Prelude Errors Ids Doubles Model Lifecycle Data Policy Scheduler Fabric.

(** The locals of [run_cycle] after its first critical section. *)
Record Local : Set := mkLocal {
  lc_proposer : ProposalExecutor;
  lc_verifier : VerificationExecutor;
  lc_plan : ProposalPlan;
  lc_depth : Z;
  lc_branch_count : Z
}.

(** The first critical section returns early or goes on. *)
Inductive Prepared : Set :=
| Done (r : Result CycleOutcome)
| Go (l : Local).

(** [struct BranchResult]. *)
Record BranchResult : Set := mkBranchResult {
  bres_pr : ProposalResult;
  bres_branch : BranchId;
  bres_proposer_model : ModelIdentity
}.

(** Whether the request's deadline has passed; reads the clock when there is
    one. *)
Definition deadline_passed (rs : RequestState) (f : Fabric) : bool * Fabric :=
  match rq_deadline_ns (rs_req rs) with
  | None => (false, f)
  | Some deadline => let '(now, f) := monotonic_ns f in (deadline <? now, f)
  end.

(** [(void)rs.cycle.apply(...)] for a list of events. *)
Definition apply_all (es : list SpeculationEvent) (rs : RequestState) : RequestState :=
  rs <| rs_cycle ::= fun m => fold_left (fun m e => apply_ e m) es m |>.

(** A terminal phase left over from the previous cycle is reset. *)
Definition reset_phase (rs : RequestState) : RequestState :=
  if is_terminal_phase (phase (rs_cycle rs))
  then rs <| rs_cycle := mkMachine SpeculativePhase.Ready |> else rs.

Section RunCycle.
  Context `{Platform}.

(** Phase 1: validate and prepare. *)
Definition prepare (id : RequestId) (f : Fabric) : option (Prepared * Fabric) :=
  match fb_requests f !! id with
  | None => Some (Done unknown_request, f)
  | Some rs =>
    if rs_terminal rs then
      Some (Done (Ok ((make_outcome CycleOutcomeKind.Superseded)
        <| out_phase := SpeculativePhase.Superseded |>)), f)
    else if rs_cancelled rs then
      Some (Done (Ok ((make_outcome CycleOutcomeKind.Cancelled)
        <| out_phase := SpeculativePhase.Cancelled |>)), f)
    else
      let '(expired, f) := deadline_passed rs f in
      if expired then
        Some (Done (Ok ((make_outcome CycleOutcomeKind.Expired)
          <| out_phase := SpeculativePhase.Expired |>)),
          push_event id "cycle.expired" "deadline passed" "{}" f)
      else
        let f := update_request id reset_phase f in
        let compat :=
          evaluate_compatibility
            (mkKey (rq_draft_model (rs_req rs)) (rq_target_model (rs_req rs)) 1) in
        if negb (compatible compat) then
          let summary :=
            "incompatible pair: " +:+
            match reasons compat with [] => "unspecified" | r :: _ => reason_detail r end in
          Some (Done (Ok ((make_outcome CycleOutcomeKind.ProposalNonRetryableFailure)
            <| out_error := ErrorCode.incompatible_model_pair |> <| out_summary := summary |>)),
            push_event id "cycle.incompatible" summary "{}" f)
        else
          let bp :=
            check_backpressure (fb_scheduler f) (rs_req rs) (u32 (zlen (rs_branches rs)))
              (u32 (zlen (rs_proposals rs)))
              (if active_reservation_bytes rs =? 0 then 1 else 0)
              (ratio_of (fb_stats f) (double_of 1)) in
          if bp_blocked bp then
            let f := update_stats (fun s => s <| st_speculation_bypasses ::= incr |>) f in
            Some (Done (Ok ((make_outcome CycleOutcomeKind.ProposalNonRetryableFailure)
              <| out_summary := "bypassed: " +:+ bp_detail bp |>)),
              push_event id "cycle.bypass" (bp_detail bp) "{}" f)
          else
            '(plan, _) ← plan_proposal (fb_scheduler f) (rs_req rs) (rs_auth_gen rs) 0 0
                           (double_of 0);
            match cfg_proposer (fb_impl_cfg f), cfg_verifier (fb_impl_cfg f) with
            | Some proposer, Some verifier =>
                let f := update_request id
                  (apply_all [SpeculationEvent.PlanProposal; SpeculationEvent.ReserveProposal;
                              SpeculationEvent.DispatchProposal]) f in
                Some (Go (mkLocal proposer verifier plan (Z.max 1 (pl_depth plan))
                            (Z.max 1 (pl_branch_count plan))), f)
            | _, _ =>
                Some (Done (Ok ((make_outcome CycleOutcomeKind.ProposalNonRetryableFailure)
                  <| out_error := ErrorCode.not_implemented |>
                  <| out_summary := "no proposer/verifier executor registered" |>)), f)
            end
  end.

(** ** Proposing *)

(** [BranchId{b + 1}]. *)
Definition branch_id (b : Z) : BranchId := mkId (u32 (b + 1)).

(** The proposal input of branch [b]. *)
Definition proposal_input (id : RequestId) (l : Local) (b : Z) (rs : RequestState)
  : ProposalInput :=
  ProposalInput_default
    <| pi_base_state := rs_auth_state rs |>
    <| pi_base_generation := rs_auth_gen rs |>
    <| pi_depth := lc_depth l |>
    <| pi_branch_index := b |>
    <| pi_branch_count := lc_branch_count l |>
    <| pi_deterministic_seed :=
         Z.lxor (get (rq_id (rs_req rs))) (u64 (get (rs_attempt rs) * 0x100000001B3)) |>
    <| pi_provenance :=
         ProposalProvenance_default
           <| pv_epoch := rs_epoch rs |>
           <| pv_request := id |>
           <| pv_sequence := rq_sequence (rs_req rs) |>
           <| pv_attempt := rs_attempt rs |>
           <| pv_branch := branch_id b |>
           <| pv_cycle := mkId (incr32 (rs_completed_cycles rs)) |>
           <| pv_proposer_model := rq_draft_model (rs_req rs) |>
           <| pv_base_generation := rs_auth_gen rs |>
           <| pv_dispatch := pl_dispatch (lc_plan l) |> |>.

(** The critical section of one branch. *)
Definition read_proposal_input (id : RequestId) (l : Local) (b : Z) (f : Fabric)
  : ProposalInput * Fabric :=
  let '(rs, f) := subscript id f in (proposal_input id l b rs, f).

(** The proposer's answer for one branch. *)
Definition branch_result (l : Local) (b : Z) (pin : ProposalInput) : Result BranchResult :=
  result_map (propose (lc_proposer l) pin) (fun pr =>
    mkBranchResult pr (branch_id b) (pv_proposer_model (pi_provenance pin))).

(** The loop over the branches from [b]: [n] more of them. *)
Fixpoint propose_loop (id : RequestId) (l : Local) (n : nat) (b : Z) (f : Fabric)
  : Result (list BranchResult) * Fabric :=
  match n with
  | O => (Ok [], f)
  | S n =>
      let '(pin, f) := read_proposal_input id l b f in
      match branch_result l b pin with
      | Failed e => (Failed e, f)
      | Ok r =>
          let '(rest, f) := propose_loop id l n (b + 1) f in
          (result_map rest (cons r), f)
      end
  end.

(** ** Verifying *)

(** The verification input of a proposed candidate. *)
Definition verification_input (id : RequestId) (l : Local) (br : BranchResult)
    (candidate : CandidateSequence) (rs : RequestState) : VerificationInput :=
  VerificationInput_default
    <| vi_request := id |>
    <| vi_sequence := rq_sequence (rs_req rs) |>
    <| vi_attempt := rs_attempt rs |>
    <| vi_branch := bres_branch br |>
    <| vi_candidate := candidate |>
    <| vi_candidate_identity :=
         CandidateTokenIdentity_default
           <| cti_tokenizer := tok_id (mdl_tokenizer (rq_draft_model (rs_req rs))) |>
           <| cti_vocab_size := 4096 |> |>
    <| vi_proposer := bres_proposer_model br |>
    <| vi_verifier := rq_target_model (rs_req rs) |>
    <| vi_compatibility := mkKey (bres_proposer_model br) (rq_target_model (rs_req rs)) 1 |>
    <| vi_authoritative_state := rs_auth_state rs |>
    <| vi_authoritative_generation := rs_auth_gen rs |>
    <| vi_authoritative_state_generation := rs_auth_state_gen rs |>
    <| vi_dispatch := pl_dispatch (lc_plan l) |>
    <| vi_epoch := rs_epoch rs |>.

(** The critical section of one verification; [*br.pr.candidate] is undefined
    when there is no candidate. *)
Definition read_verification_input (id : RequestId) (l : Local) (br : BranchResult) (f : Fabric)
  : option (VerificationInput * Fabric) :=
  let '(rs, f) := subscript id f in
  candidate ← pr_candidate (bres_pr br);
  Some (verification_input id l br candidate rs, f).

(** The loop over the proposed branches. *)
Fixpoint verify_loop (id : RequestId) (l : Local) (proposed : list BranchResult) (f : Fabric)
  : option (Result (list AcceptanceResult) * Fabric) :=
  match proposed with
  | [] => Some (Ok [], f)
  | br :: proposed =>
      '(vin, f) ← read_verification_input id l br f;
      match verify (lc_verifier l) vin with
      | Failed e => Some (Failed e, f)
      | Ok vr =>
          '(rest, f) ← verify_loop id l proposed f;
          Some (result_map rest (cons vr), f)
      end
  end.

(** ** Settling *)

Definition prefix_of (accepted : list AcceptanceResult) (i : nat) : Z :=
  ar_accepted_prefix (nth i accepted AcceptanceResult_default).

Definition branch_of (proposed : list BranchResult) (i : nat) : Z :=
  match proposed !! i with Some br => get (bres_branch br) | None => 0 end.

(** The body of the winner loop. *)
Definition better (proposed : list BranchResult) (accepted : list AcceptanceResult)
    (winner i : nat) : nat :=
  if prefix_of accepted winner <? prefix_of accepted i then i
  else if (prefix_of accepted i =? prefix_of accepted winner)
          && (branch_of proposed i <? branch_of proposed winner) then i
  else winner.

(** The index of the winning branch. *)
Definition select_winner (proposed : list BranchResult) (accepted : list AcceptanceResult)
  : nat :=
  fold_left (better proposed accepted) (seq 1 (length accepted - 1)) 0%nat.

(** The first branch with an identity is retired. *)
Fixpoint retire_first (id : BranchId) (branches : list Branch) : list Branch :=
  match branches with
  | [] => []
  | b :: branches =>
      if id_eqb (br_id b) id then b <| br_retired := true |> :: branches
      else b :: retire_first id branches
  end.

Definition has_branch (id : BranchId) (branches : list Branch) : bool :=
  existsb (fun b => id_eqb (br_id b) id) branches.

(** The branch record [retire_others] creates. *)
Definition new_branch (rs : RequestState) (id : BranchId) (retired : bool) : Branch :=
  Branch_default
    <| br_id := id |>
    <| br_request := rq_id (rs_req rs) |>
    <| br_sequence := rq_sequence (rs_req rs) |>
    <| br_attempt := rs_attempt rs |>
    <| br_cycle := mkId (incr32 (rs_completed_cycles rs)) |>
    <| br_base_generation := rs_auth_gen rs |>
    <| br_proposer := rq_draft_model (rs_req rs) |>
    <| br_retired := retired |>.

(** The loop body of [retire_others]: the branches so far and the losers
    counted. *)
Definition retire_step (rs : RequestState) (keep : BranchId) (acc : list Branch * Z)
    (br : BranchResult) : list Branch * Z :=
  let '(branches, losers) := acc in
  let id := bres_branch br in
  let loser := negb (id_eqb id keep) in
  let '(branches, losers) :=
    if has_branch id branches then (branches, losers)
    else (branches ++ [new_branch rs id loser], if loser then incr losers else losers) in
  if loser then
    (retire_first id branches, if has_branch id branches then incr losers else losers)
  else (branches, losers).

(** [retire_others(keep_index)]: the rollback record and the request after. *)
Definition retire_others (proposed : list BranchResult) (keep : BranchId)
    (accepted_prefix rejected_tokens : Z) (rs : RequestState) : RollbackResult * RequestState :=
  let '(branches, losers) := fold_left (retire_step rs keep) proposed (rs_branches rs, 0) in
  (RollbackResult_default
     <| rb_accepted_prefix := accepted_prefix |>
     <| rb_rejected_tokens := rejected_tokens |>
     <| rb_restored_generation := rs_auth_gen rs |>
     <| rb_restored_state := rs_auth_state rs |>
     <| rb_restored_state_generation := rs_auth_state_gen rs |>
     <| rb_success := true |>
     <| rb_retired_branches := u32 losers |>
     <| rb_released_reservations := count32 res_is_active (rs_reservations rs) |>,
   rs <| rs_branches := branches |> <| rs_reservations ::= map release_active |>).

(** The proposal record of the winning branch. *)
Definition winning_proposal (id : RequestId) (win : BranchResult) (cand : CandidateSequence)
    (accepted_prefix : Z) (rs : RequestState) : Proposal :=
  Proposal_default
    <| prop_id := mkId (zlen (rs_proposals rs) + 1) |>
    <| prop_generation := mkId (incr32 (rs_completed_cycles rs)) |>
    <| prop_provenance :=
         ProposalProvenance_default
           <| pv_epoch := rs_epoch rs |>
           <| pv_request := id |>
           <| pv_sequence := rq_sequence (rs_req rs) |>
           <| pv_attempt := rs_attempt rs |>
           <| pv_branch := bres_branch win |> |>
    <| prop_candidate := cand |>
    <| prop_token_identity :=
         CandidateTokenIdentity_default
           <| cti_tokenizer := tok_id (mdl_tokenizer (rq_draft_model (rs_req rs))) |>
           <| cti_vocab_size := 4096 |> |>
    <| prop_base_state := rs_auth_state rs |>
    <| prop_base_state_generation := rs_auth_state_gen rs |>
    <| prop_speculative_state :=
         sd_ref (default StateDescriptor_default (pr_speculative_state (bres_pr win))) |>
    <| prop_compute_spent := pr_compute_spent (bres_pr win) |>
    <| prop_memory_held := pr_memory_held (bres_pr win) |>
    <| prop_finalized := true |>
    <| prop_eligible_for_verification := true |>
    <| prop_committed := 0 <? accepted_prefix |>.

(** The committing loop and the advance of the generations; undefined when
    the accepted count runs past the candidate. *)
Definition commit_prefix (cand : CandidateSequence) (accepted_prefix : Z) (rs : RequestState)
  : option RequestState :=
  if cand_size cand <? accepted_prefix then None
  else
    let generation : StateGeneration :=
      mkId (u64 (get (sr_generation (rs_auth_state rs)) + accepted_prefix)) in
    Some (rs
      <| rs_committed ::= fun c => c ++ map tk_id (take (Z.to_nat accepted_prefix) (tokens cand)) |>
      <| rs_auth_gen := mkId (u64 (get (rs_auth_gen rs) + accepted_prefix)) |>
      <| rs_auth_state := mkStateRef (sr_id (rs_auth_state rs)) generation |>
      <| rs_auth_state_gen := generation |>).

(** The commit record of an acceptance. *)
Definition commit_record (accepted_prefix rejected : Z) (rs : RequestState) : CommitResult :=
  CommitResult_default
    <| cr_success := true |>
    <| cr_committed_tokens := accepted_prefix |>
    <| cr_accepted_prefix := accepted_prefix |>
    <| cr_rejected_tokens := rejected |>
    <| cr_new_generation := rs_auth_gen rs |>
    <| cr_new_state := rs_auth_state rs |>
    <| cr_new_state_generation := rs_auth_state_gen rs |>.

(** The verdict event, then the final one, whose result may set the phase. *)
Definition apply_verdict (verdict final : SpeculationEvent) (rs : RequestState)
    (o : CycleOutcome) : RequestState * CycleOutcome :=
  let rs := apply_all [verdict] rs in
  let '(r2, m) := apply final (rs_cycle rs) in
  (rs <| rs_cycle := m |>,
   match r2 with Ok p => o <| out_phase := p |> | Failed _ => o end).

(** The events a cycle reports before its verdict. *)
Definition verification_events : list SpeculationEvent :=
  [SpeculationEvent.ProposalFinished; SpeculationEvent.PlanVerification;
   SpeculationEvent.ReserveVerification; SpeculationEvent.DispatchVerification;
   SpeculationEvent.VerificationFinished].

(** The three branches on the accepted prefix: the request after, the outcome
    and the statistics counters of the branch. *)
Definition settle_branch (proposed : list BranchResult) (keep : BranchId)
    (cand : CandidateSequence) (accepted_prefix candidate_len rejected_tokens : Z)
    (prop : Proposal) (rs : RequestState) (o : CycleOutcome)
  : option (RequestState * CycleOutcome * (Stats -> Stats)) :=
  if accepted_prefix =? candidate_len then
    rs ← commit_prefix cand accepted_prefix rs;
    let rs := rs <| rs_proposals ::= fun ps => ps ++ [prop] |> in
    let '(rs, o) := apply_verdict SpeculationEvent.AcceptFull SpeculationEvent.Commit rs o in
    let '(rb, rs) := retire_others proposed keep accepted_prefix rejected_tokens rs in
    Some (rs,
      o <| out_rollback := rb |>
        <| out_outcome := CycleOutcomeKind.VerificationSuccessFullAccept |>
        <| out_commit := commit_record accepted_prefix 0 rs |>
        <| out_accepted_tokens := accepted_prefix |>
        <| out_rejected_tokens := 0 |>,
      fun s => s <| st_full_accept_count ::= incr |>)
  else if 0 <? accepted_prefix then
    rs ← commit_prefix cand accepted_prefix rs;
    let rs := rs <| rs_proposals ::= fun ps => ps ++ [prop] |> in
    let '(rs, o) := apply_verdict SpeculationEvent.AcceptPartial SpeculationEvent.Commit rs o in
    let '(rb, rs) := retire_others proposed keep accepted_prefix rejected_tokens rs in
    Some (rs,
      o <| out_rollback := rb |>
        <| out_commit := commit_record accepted_prefix rejected_tokens rs |>
        <| out_outcome := CycleOutcomeKind.VerificationSuccessPartialAccept |>
        <| out_accepted_tokens := accepted_prefix |>
        <| out_rejected_tokens := rejected_tokens |>,
      fun s => s <| st_partial_accept_count ::= incr |> <| st_rollback_count ::= incr |>)
  else
    let rs := rs <| rs_proposals ::= fun ps => ps ++ [prop] |> in
    let '(rs, o) := apply_verdict SpeculationEvent.RejectAll SpeculationEvent.Rollback rs o in
    let '(rb, rs) := retire_others proposed keep accepted_prefix rejected_tokens rs in
    Some (rs,
      o <| out_rollback := rb |>
        <| out_outcome := CycleOutcomeKind.VerificationRejectAll |>
        <| out_accepted_tokens := 0 |>
        <| out_rejected_tokens := candidate_len |>,
      fun s => s <| st_full_reject_count ::= incr |> <| st_rollback_count ::= incr |>).

(** The counters every settled cycle advances. *)
Definition count_cycle (candidate_len accepted_prefix rejected_tokens : Z) (s : Stats) : Stats :=
  s <| st_tokens_proposed ::= fun n => u64 (n + candidate_len) |>
    <| st_tokens_accepted ::= fun n => u64 (n + accepted_prefix) |>
    <| st_tokens_rejected ::= fun n => u64 (n + rejected_tokens) |>
    <| st_speculative_cycles_started ::= incr |>
    <| st_proposals_produced ::= incr |>
    <| st_verifications_run ::= incr |>.

Definition completed_detail (k : CycleOutcomeKind) : string :=
  match k with
  | CycleOutcomeKind.VerificationSuccessFullAccept => "full accept"
  | CycleOutcomeKind.VerificationSuccessPartialAccept => "partial accept"
  | _ => "reject all"
  end.

(** The settling of a live request by its winning branch. *)
Definition settle (id : RequestId) (l : Local) (proposed : list BranchResult)
    (win : BranchResult) (win_accept : AcceptanceResult) (rs : RequestState) (f : Fabric)
  : option (Result CycleOutcome * Fabric) :=
  cand ← pr_candidate (bres_pr win);
  let candidate_len := u32 (cand_size cand) in
  let accepted_prefix := ar_accepted_prefix win_accept in
  let rejected_tokens := u32 (candidate_len - accepted_prefix) in
  let prop := winning_proposal id win cand accepted_prefix rs in
  let o := CycleOutcome_default
             <| out_proposal := prop_id prop |>
             <| out_branch := bres_branch win |>
             <| out_depth := lc_depth l |>
             <| out_proposed_tokens := candidate_len |> in
  let rs := apply_all verification_events rs in
  '(rs, o, counters) ← settle_branch proposed (bres_branch win) cand accepted_prefix
                         candidate_len rejected_tokens prop rs o;
  let rs := rs <| rs_cycle := mkMachine SpeculativePhase.Ready |>
               <| rs_completed_cycles ::= incr32 |> in
  let f := update_request id (fun _ => rs) f in
  let f := update_stats counters f in
  let f := update_stats (count_cycle candidate_len accepted_prefix rejected_tokens) f in
  let ratio := if candidate_len =? 0 then double_of 0
               else ddiv (double_of accepted_prefix) (double_of candidate_len) in
  let f := f <| fb_scheduler ::= fun s => s <| sch_adaptive ::= record_ratio ratio |> |> in
  Some (Ok o, push_event id "cycle.completed" (completed_detail (out_outcome o)) "{}" f).

(** The last critical section. *)
Definition finish (id : RequestId) (l : Local) (proposed : list BranchResult)
    (accepted : list AcceptanceResult) (f : Fabric) : option (Result CycleOutcome * Fabric) :=
  match fb_requests f !! id with
  | None => Some (unknown_request, f)
  | Some rs =>
    if rs_terminal rs || rs_cancelled rs then
      let summary := "authority changed while speculative work was in flight" in
      let o := (make_outcome CycleOutcomeKind.StaleAuthorityRejected)
        <| out_error := if rs_terminal rs then ErrorCode.completion_after_terminal
                        else ErrorCode.completion_after_cancellation |>
        <| out_summary := summary |> in
      let f := update_stats (fun s => s <| st_proposals_rejected_stale ::= incr |>) f in
      Some (Ok o, push_event id "cycle.stale" summary "{}" f)
    else
      let winner := select_winner proposed accepted in
      win ← proposed !! winner;
      win_accept ← accepted !! winner;
      settle id l proposed win win_accept rs f
  end.

(** [run_cycle], with no other caller between its critical sections. *)
Definition run_cycle (id : RequestId) (f : Fabric) : option (Result CycleOutcome * Fabric) :=
  '(p, f) ← prepare id f;
  match p with
  | Done r => Some (r, f)
  | Go l =>
      match propose_loop id l (Z.to_nat (lc_branch_count l)) 0 f with
      | (Failed e, f) => Some (Failed e, f)
      | (Ok proposed, f) =>
          '(accepted, f) ← verify_loop id l proposed f;
          match accepted with
          | Failed e => Some (Failed e, f)
          | Ok accepted => finish id l proposed accepted f
          end
      end
  end.
End RunCycle.
