(* ===== verification/Authority.v ===== *)
(** * What every operation preserves

    The authoritative sequence of a request only grows, and only by commits.
    [evolves] states this of one request entry, [fabric_evolves] of the
    engine; every API operation and every critical section of [run_cycle]
    satisfies it, whatever the executors do and whoever runs in between. *)

From stdpp Require Import gmap.
From S2P Require Import Prelude Errors Ids Doubles Model Lifecycle Data Policy Scheduler Fabric Cycle.

(** ** Evolution of one request *)

(** A 64-bit counter advanced from [a] to [b] by [n] steps. *)
Definition advance (a b n : Z) : Prop := u64 (b - a) = u64 n.

(** An entry holding a submitted request. *)
Definition submitted (rs : RequestState) : Prop := is_null (rq_id (rs_req rs)) = false.

(** No commit may follow. *)
Definition closed (rs : RequestState) : Prop := rs_terminal rs = true \/ rs_cancelled rs = true.

Record evolved (a b : RequestState) : Prop := {
  ev_req : rs_req b = rs_req a;
  ev_epoch : rs_epoch b = rs_epoch a;
  ev_committed : rs_committed a `prefix_of` rs_committed b;
  ev_generation :
    advance (get (rs_auth_gen a)) (get (rs_auth_gen b))
      (zlen (rs_committed b) - zlen (rs_committed a));
  ev_state_id : sr_id (rs_auth_state b) = sr_id (rs_auth_state a);
  ev_state_generation :
    advance (get (sr_generation (rs_auth_state a))) (get (sr_generation (rs_auth_state b)))
      (zlen (rs_committed b) - zlen (rs_committed a));
  ev_proposals : rs_proposals a `prefix_of` rs_proposals b;
  ev_closed : closed a -> rs_committed b = rs_committed a;
  ev_terminal : rs_terminal a = true -> rs_terminal b = true;
  ev_cancelled : rs_cancelled a = true -> rs_cancelled b = true
}.

(** An entry that holds no submitted request may become anything. *)
Definition evolves (a b : RequestState) : Prop := submitted a -> evolved a b.

(** Every entry persists and evolves. *)
Definition fabric_evolves (f f' : Fabric) : Prop :=
  forall id rs, fb_requests f !! id = Some rs ->
    exists rs', fb_requests f' !! id = Some rs' /\ evolves rs rs'.

(** ** Lemmas *)

Section Evolution.
  Implicit Types a b c rs : RequestState.
  Implicit Types f g : Fabric.

Lemma advance_0 (x : Z) : advance x x 0.
Proof. unfold advance. f_equal. lia. Qed.

Lemma advance_trans (x y z : Z) n m : advance x y n -> advance y z m -> advance x z (n + m).
Proof. unfold advance. rewrite !u64_mod. intros. zdm. Qed.

Lemma advance_u64 (x : Z) n : advance x (u64 (x + n)) n.
Proof. unfold advance. rewrite !u64_mod. zdm. Qed.

Lemma evolved_refl a : evolved a a.
Proof. constructor; rewrite ?Z.sub_diag; auto using advance_0. Qed.

Lemma evolved_trans a b c : evolved a b -> evolved b c -> evolved a c.
Proof.
  intros [A1 A2 A3 A4 A5 A6 A7 A8 A9 A10] [B1 B2 B3 B4 B5 B6 B7 B8 B9 B10].
  constructor; try congruence; try (by etrans; eauto); auto.
  - replace (zlen (rs_committed c) - zlen (rs_committed a)) with
      ((zlen (rs_committed b) - zlen (rs_committed a)) +
       (zlen (rs_committed c) - zlen (rs_committed b))) by lia. by eapply advance_trans.
  - replace (zlen (rs_committed c) - zlen (rs_committed a)) with
      ((zlen (rs_committed b) - zlen (rs_committed a)) +
       (zlen (rs_committed c) - zlen (rs_committed b))) by lia. by eapply advance_trans.
  - intros C. rewrite B8, A8; [done | done |]. destruct C; [left | right]; auto.
Qed.

(** An update that touches none of the authoritative fields. *)
Lemma evolved_same a b :
  rs_req b = rs_req a -> rs_epoch b = rs_epoch a -> rs_committed b = rs_committed a ->
  rs_auth_gen b = rs_auth_gen a -> rs_auth_state b = rs_auth_state a ->
  rs_proposals b = rs_proposals a -> (rs_terminal a = true -> rs_terminal b = true) ->
  (rs_cancelled a = true -> rs_cancelled b = true) -> evolved a b.
Proof.
  intros E1 E2 E3 E4 E5 E6 E7 E8.
  constructor; rewrite ?E3, ?E4, ?E5, ?E6, ?Z.sub_diag; auto using advance_0.
Qed.

#[export] Instance evolves_preorder : PreOrder evolves.
Proof.
  split.
  - intros a _. apply evolved_refl.
  - intros a b c AB BC Sa. specialize (AB Sa). eapply evolved_trans; [exact AB |].
    apply BC. unfold submitted in *. by rewrite (ev_req _ _ AB).
Qed.

#[export] Instance fabric_evolves_preorder : PreOrder fabric_evolves.
Proof.
  split.
  - intros f id rs E. exists rs. split; [done | reflexivity].
  - intros f g h FG GH id rs E. destruct (FG id rs E) as (rs1 & E1 & V1).
    destruct (GH id rs1 E1) as (rs2 & E2 & V2). exists rs2. split; [done | by etrans].
Qed.

Lemma evolves_same_requests f g : fb_requests g = fb_requests f -> fabric_evolves f g.
Proof. intros E id rs Hl. exists rs. rewrite E. split; [done | reflexivity]. Qed.

Lemma update_request_evolves id upd f :
  (forall rs, fb_requests f !! id = Some rs -> evolves rs (upd rs)) ->
  fabric_evolves f (update_request id upd f).
Proof.
  intros H id' rs Hl. unfold update_request. simpl.
  destruct (decide (id' = id)) as [-> | N].
  - exists (upd rs). rewrite lookup_alter_eq, Hl. auto.
  - exists rs. rewrite lookup_alter_ne by done. split; [done | reflexivity].
Qed.

Lemma update_stats_evolves upd f : fabric_evolves f (update_stats upd f).
Proof. by apply evolves_same_requests. Qed.

Lemma push_event_evolves id t d j f : fabric_evolves f (push_event id t d j f).
Proof.
  unfold push_event, monotonic_ns. etrans; [| apply update_request_evolves].
  - by apply evolves_same_requests.
  - intros rs _ _. by apply evolved_same.
Qed.

Lemma subscript_evolves id f : fabric_evolves f (subscript id f).2.
Proof.
  unfold subscript. destruct (fb_requests f !! id) as [rs |] eqn:E; [reflexivity |].
  intros id' rs Hl. simpl. exists rs. rewrite lookup_insert_ne by congruence.
  split; [done | reflexivity].
Qed.

Lemma subscript_lookup id f :
  fb_requests (subscript id f).2 !! id = Some (subscript id f).1.
Proof.
  unfold subscript. destruct (fb_requests f !! id) eqn:E; [done |]. simpl. apply lookup_insert_eq.
Qed.
End Evolution.

#[export] Hint Resolve update_stats_evolves push_event_evolves subscript_evolves evolves_same_requests
  : fabric.

(** Chains evolution through the state updates of an operation. *)
Ltac evolve :=
  repeat first
    [ reflexivity
    | apply update_stats_evolves | apply push_event_evolves
    | (etrans; [| apply push_event_evolves])
    | (etrans; [| apply update_stats_evolves])
    | (apply update_request_evolves; intros ? ?)
    | (etrans; [| apply update_request_evolves; intros ? ?]) ].

(** *** The API *)

Section Api.
  Implicit Types f : Fabric.

Lemma submit_evolves req f : fabric_evolves f (submit req f).2.
Proof.
  unfold submit. pose proof (subscript_evolves (rq_id req) f) as V.
  pose proof (subscript_lookup (rq_id req) f) as L.
  destruct (subscript (rq_id req) f) as [rs f1]. simpl in V, L.
  destruct (negb _) eqn:N; simpl; [done |].
  etrans; [exact V |]. evolve. intros Sub. exfalso.
  unfold submitted in Sub. simplify_eq. by rewrite Sub in N.
Qed.

Lemma cancel_evolves id why f : fabric_evolves f (cancel id why f).2.
Proof.
  unfold cancel. destruct (fb_requests f !! id) as [rs |] eqn:L; [| reflexivity].
  destruct (rs_cancelled rs); [reflexivity |]. destruct (rs_terminal rs); [reflexivity |].
  simpl. evolve. intros _. by apply evolved_same.
Qed.

Lemma complete_evolves id f : fabric_evolves f (complete id f).2.
Proof.
  unfold complete. destruct (fb_requests f !! id); [| reflexivity].
  simpl. evolve. intros _. by apply evolved_same.
Qed.

Lemma rollback_evolves id why f : fabric_evolves f (rollback id why f).2.
Proof.
  unfold rollback. destruct (fb_requests f !! id); [| reflexivity].
  simpl. evolve. intros _. by apply evolved_same.
Qed.

Lemma retry_evolves id f : fabric_evolves f (retry id f).2.
Proof.
  unfold retry. destruct (fb_requests f !! id); [| reflexivity].
  destruct (_ && _); [reflexivity |]. destruct (_ || _); [reflexivity |].
  simpl. evolve. intros _. by apply evolved_same.
Qed.

Lemma snapshot_evolves f : fabric_evolves f (snapshot f).2.
Proof. by apply evolves_same_requests. Qed.

Lemma roll_epoch_evolves f : fabric_evolves f (roll_epoch f).
Proof. by apply evolves_same_requests. Qed.
End Api.

(** *** The critical sections of a cycle *)

(** What settling a cycle does to the request: the first [n] candidate tokens
    are committed, the generations advance by [n], one proposal is recorded. *)
Record settled (cand : CandidateSequence) (n : Z) (prop : Proposal) (a b : RequestState)
  : Prop := {
  stl_bound : 0 <= n <= cand_size cand;
  stl_committed :
    rs_committed b = rs_committed a ++ map tk_id (take (Z.to_nat n) (tokens cand));
  stl_generation :
    rs_auth_gen b = rs_auth_gen a /\ n = 0 \/
    rs_auth_gen b = mkId (u64 (get (rs_auth_gen a) + n));
  stl_state :
    rs_auth_state b = rs_auth_state a /\ n = 0 \/
    rs_auth_state b = mkStateRef (sr_id (rs_auth_state a))
                        (mkId (u64 (get (sr_generation (rs_auth_state a)) + n)));
  stl_state_gen :
    rs_auth_state_gen a = sr_generation (rs_auth_state a) ->
    rs_auth_state_gen b = sr_generation (rs_auth_state b);
  stl_proposals : rs_proposals b = rs_proposals a ++ [prop];
  stl_req : rs_req b = rs_req a;
  stl_epoch : rs_epoch b = rs_epoch a;
  stl_flags : rs_terminal b = rs_terminal a /\ rs_cancelled b = rs_cancelled a;
  stl_attempt : rs_attempt b = rs_attempt a /\ rs_retry_count b = rs_retry_count a;
  stl_reservations : rs_reservations b = map release_active (rs_reservations a);
  stl_cycles : rs_completed_cycles b = rs_completed_cycles a;
  stl_events : rs_events b = rs_events a
}.

(** The number of tokens the branch on the accepted prefix commits. *)
Definition committed_count (accepted_prefix candidate_len : Z) : Z :=
  if accepted_prefix =? candidate_len then accepted_prefix else Z.max 0 accepted_prefix.

Section Settle.
  Implicit Types a b rs : RequestState.
  Implicit Types f : Fabric.

Lemma zlen_committed_tokens cand n : 0 <= n <= cand_size cand ->
  zlen (map tk_id (take (Z.to_nat n) (tokens cand))) = n.
Proof. intros. rewrite zlen_map, zlen_take. unfold cand_size in *. lia. Qed.

Lemma settled_evolved cand n prop a b :
  settled cand n prop a b -> ~ closed a -> evolved a b.
Proof.
  intros [B C G S SG P R E [T X] _ _ _ _] NC.
  assert (L : zlen (rs_committed b) - zlen (rs_committed a) = n)
    by (rewrite C, zlen_app, zlen_committed_tokens by done; lia).
  constructor; rewrite ?L; try congruence.
  - rewrite C. by apply prefix_app_r.
  - destruct G as [[-> ->] | ->]; [apply advance_0 | apply advance_u64].
  - by destruct S as [[-> _] | ->].
  - destruct S as [[-> ->] | ->]; [apply advance_0 | apply advance_u64].
  - rewrite P. by apply prefix_app_r.
Qed.

(** [retire_others] touches only the branches and the reservations. *)
Lemma retire_others_spec proposed keep p r rs rb rs' :
  retire_others proposed keep p r rs = (rb, rs') ->
  exists bs, rs' = rs <| rs_branches := bs |> <| rs_reservations ::= map release_active |> /\
    bs = (fold_left (retire_step rs keep) proposed (rs_branches rs, 0)).1 /\
    rb_retired_branches rb =
      u32 (fold_left (retire_step rs keep) proposed (rs_branches rs, 0)).2.
Proof.
  unfold retire_others. destruct (fold_left _ _ _) as [bs n]. intros [= <- <-].
  exists bs. by split_and!.
Qed.

(** [apply_verdict] touches only the machine. *)
Lemma apply_verdict_spec v e rs o rs' o' :
  apply_verdict v e rs o = (rs', o') ->
  exists m q, rs' = rs <| rs_cycle := m |> /\ o' = o <| out_phase := q |> /\
    (q = out_phase o \/ apply e (fold_left (fun m e => apply_ e m) [v] (rs_cycle rs)) = (Ok q, m)).
Proof.
  unfold apply_verdict. destruct (apply e _) as [[p | er] m] eqn:E; intros [= <- <-].
  - exists m, p. split; [by destruct rs | split; [done | by right]].
  - exists m, (out_phase o). split; [by destruct rs | split; [by destruct o | by left]].
Qed.

(** The three branches, in one statement. *)
Lemma settle_branch_spec proposed keep cand p len rej prop rs o rs' o' cnt :
  0 <= len -> settle_branch proposed keep cand p len rej prop rs o = Some (rs', o', cnt) ->
  settled cand (committed_count p len) prop rs rs'.
Proof.
  intros Hl E. pose proof (cand_size_nonneg cand) as Hs. unfold settle_branch in E.
  destruct (Z.eqb_spec p len) as [Ep |]; [| destruct (Z.ltb_spec 0 p) as [Hp | Hp]].
  1,2: unfold commit_prefix in E; destruct (Z.ltb_spec (cand_size cand) p); [discriminate |];
    cbn [mbind option_bind] in E.
  all: match type of E with context [apply_verdict ?v ?e ?r ?o] =>
      destruct (apply_verdict v e r o) as [rs1 o1] eqn:V end;
    apply apply_verdict_spec in V as (m & q & -> & -> & _);
    match type of E with context [retire_others ?a ?b ?c ?d ?r] =>
      destruct (retire_others a b c d r) as [rb rs2] eqn:R end;
    apply retire_others_spec in R as (bs & -> & _);
    injection E as <- _ _; unfold committed_count.
  - rewrite (proj2 (Z.eqb_eq _ _) Ep). constructor; simpl; auto; lia.
  - rewrite (proj2 (Z.eqb_neq _ _)) by done. rewrite Z.max_r by lia.
    constructor; simpl; auto; lia.
  - rewrite (proj2 (Z.eqb_neq _ _)) by done. rewrite Z.max_l by lia.
    constructor; simpl; rewrite ?app_nil_r; auto; lia.
Qed.

(** The engine after a settled cycle, before its closing event. *)
Definition settled_fabric (id : RequestId) (rs : RequestState) (cnt : Stats -> Stats)
    (len p rej : Z) (f : Fabric) : Fabric :=
  let f := update_request id (fun _ => rs <| rs_cycle := mkMachine SpeculativePhase.Ready |>
                                         <| rs_completed_cycles ::= incr32 |>) f in
  let f := update_stats cnt f in
  let f := update_stats (count_cycle len p rej) f in
  let ratio := if len =? 0 then double_of 0 else ddiv (double_of p) (double_of len) in
  f <| fb_scheduler ::= fun s => s <| sch_adaptive ::= record_ratio ratio |> |>.

Lemma settle_inv id l proposed win wa rs f r f' :
  settle id l proposed win wa rs f = Some (r, f') ->
  exists cand rs' o cnt,
    let p := ar_accepted_prefix wa in
    let len := u32 (cand_size cand) in
    let prop := winning_proposal id win cand p rs in
    pr_candidate (bres_pr win) = Some cand /\
    settle_branch proposed (bres_branch win) cand p len (u32 (len - p)) prop
      (apply_all verification_events rs)
      (CycleOutcome_default <| out_proposal := prop_id prop |> <| out_branch := bres_branch win |>
         <| out_depth := lc_depth l |> <| out_proposed_tokens := len |>) = Some (rs', o, cnt) /\
    r = Ok o /\
    f' = push_event id "cycle.completed" (completed_detail (out_outcome o)) "{}"
           (settled_fabric id rs' cnt len p (u32 (len - p)) f).
Proof.
  unfold settle. destruct (pr_candidate _) as [cand |]; [cbn [mbind option_bind] | discriminate].
  match goal with |- context [settle_branch ?a ?b ?c ?d ?e ?g ?h ?i ?j] =>
    destruct (settle_branch a b c d e g h i j) as [[[rs' o] cnt] |] eqn:E; [| discriminate] end.
  cbn [mbind option_bind]. intros [= <- <-]. exists cand, rs', o, cnt. by split_and!.
Qed.

Lemma settle_evolves id l proposed win wa rs f r f' :
  fb_requests f !! id = Some rs -> ~ closed rs ->
  settle id l proposed win wa rs f = Some (r, f') -> fabric_evolves f f'.
Proof.
  intros Hl NC E. apply settle_inv in E as (cand & rs' & o & cnt & _ & B & _ & ->).
  apply settle_branch_spec in B; [| apply u32_range].
  apply settled_evolved in B; [| exact NC].
  etrans; [| apply push_event_evolves]. unfold settled_fabric.
  etrans; [| by apply evolves_same_requests].
  etrans; [| apply update_stats_evolves]. etrans; [| apply update_stats_evolves].
  apply update_request_evolves. intros rs0 Hl0. assert (rs0 = rs) as -> by congruence. intros _.
  eapply evolved_trans; [| eapply evolved_trans; [exact B |]]; by apply evolved_same.
Qed.

Lemma finish_evolves id l proposed accepted f r f' :
  finish id l proposed accepted f = Some (r, f') -> fabric_evolves f f'.
Proof.
  unfold finish. destruct (fb_requests f !! id) as [rs |] eqn:L.
  2: { intros [= _ <-]. reflexivity. }
  destruct (rs_terminal rs || rs_cancelled rs) eqn:C.
  - intros [= _ <-]. evolve.
  - destruct (proposed !! _) as [win |]; [cbn [mbind option_bind] | discriminate].
    destruct (accepted !! _) as [wa |]; [cbn [mbind option_bind] | discriminate].
    apply settle_evolves; [done |]. apply orb_false_iff in C as [C1 C2].
    intros [C | C]; congruence.
Qed.
End Settle.

Section Pieces.
  Context `{Platform}.
  Implicit Types f : Fabric.

Lemma deadline_passed_requests rs f : fb_requests (deadline_passed rs f).2 = fb_requests f.
Proof. unfold deadline_passed. by destruct (rq_deadline_ns _). Qed.

Lemma evolved_reset_phase rs : evolved rs (reset_phase rs).
Proof. unfold reset_phase. destruct (is_terminal_phase _); by apply evolved_same. Qed.

Lemma prepare_evolves id f p f' : prepare id f = Some (p, f') -> fabric_evolves f f'.
Proof.
  unfold prepare. destruct (fb_requests f !! id) as [rs |] eqn:L.
  2: { intros [= _ <-]. reflexivity. }
  destruct (rs_terminal rs); [intros [= _ <-]; reflexivity |].
  destruct (rs_cancelled rs); [intros [= _ <-]; reflexivity |].
  pose proof (deadline_passed_requests rs f) as D.
  destruct (deadline_passed rs f) as [[] f1]; cbn [snd] in D.
  { intros [= _ <-]. etrans; [| apply push_event_evolves]. by apply evolves_same_requests. }
  assert (V : fabric_evolves f (update_request id reset_phase f1)).
  { etrans; [by apply evolves_same_requests |]. apply update_request_evolves.
    intros ? _ _. apply evolved_reset_phase. }
  destruct (negb _); [intros [= _ <-]; etrans; [exact V |]; evolve |].
  destruct (bp_blocked _); [intros [= _ <-]; etrans; [exact V |]; evolve |].
  destruct (plan_proposal _ _ _ _ _ _) as [[plan rat] |]; [cbn [mbind option_bind] | discriminate].
  match goal with |- context [match cfg_proposer ?c with _ => _ end] =>
    destruct (cfg_proposer c), (cfg_verifier c) end; intros [= _ <-]; try exact V.
  etrans; [exact V |]. apply update_request_evolves. intros ? _ _. by apply evolved_same.
Qed.

Lemma read_proposal_input_evolves id l b f : fabric_evolves f (read_proposal_input id l b f).2.
Proof.
  unfold read_proposal_input. pose proof (subscript_evolves id f).
  by destruct (subscript id f).
Qed.

Lemma read_verification_input_evolves id l br f vin f' :
  read_verification_input id l br f = Some (vin, f') -> fabric_evolves f f'.
Proof.
  unfold read_verification_input. pose proof (subscript_evolves id f) as V.
  destruct (subscript id f) as [rs f1]. destruct (pr_candidate _); [| discriminate].
  cbn [mbind option_bind]. by intros [= _ <-].
Qed.
End Pieces.
