(* ===== verification/Interleaving.v ===== *)
(** * Concurrent callers

    The engine is shared by threads.  Every API operation is one critical
    section; [run_cycle] is several, with the executors running in between.
    A system is the engine and the running activations of [run_cycle]; its
    steps are the critical sections, in any order.  Executors are functions of
    their input, so an executor call is taken together with the critical
    section that reads its input. *)

From Stdlib Require Import Relations.
From stdpp Require Import gmap.
From S2P Require Import Prelude Errors Ids Doubles Model Lifecycle Data Policy Scheduler.
From S2P Require Import Fabric Cycle Authority.

(** ** Activations of [run_cycle] *)

(** Where an activation is, with its locals. *)
Inductive Thread : Set :=
| TStart (id : RequestId)
| TPropose (id : RequestId) (l : Local) (todo : nat) (b : Z) (proposed : list BranchResult)
| TVerify (id : RequestId) (l : Local) (proposed todo : list BranchResult)
    (accepted : list AcceptanceResult)
| TDone (r : Result CycleOutcome)
| TUndefined.

(** The API calls that change the engine. *)
Inductive Call : Set :=
| CSubmit (req : SpeculationRequest)
| CCancel (id : RequestId) (why : string)
| CComplete (id : RequestId)
| CRollback (id : RequestId) (why : string)
| CRetry (id : RequestId)
| CEmit (id : RequestId) (type detail json : string)
| CSnapshot
| CRollEpoch.

Definition call (c : Call) (f : Fabric) : Fabric :=
  match c with
  | CSubmit req => (submit req f).2
  | CCancel id why => (cancel id why f).2
  | CComplete id => (complete id f).2
  | CRollback id why => (rollback id why f).2
  | CRetry id => (retry id f).2
  | CEmit id t d j => emit_event id t d j f
  | CSnapshot => (snapshot f).2
  | CRollEpoch => roll_epoch f
  end.

Section Steps.
  Context `{Platform}.

(** The next critical section of an activation. *)
Definition thread_step (t : Thread) (f : Fabric) : Thread * Fabric :=
  match t with
  | TStart id =>
      match prepare id f with
      | None => (TUndefined, f)
      | Some (Done r, f) => (TDone r, f)
      | Some (Go l, f) => (TPropose id l (Z.to_nat (lc_branch_count l)) 0 [], f)
      end
  | TPropose id l O b proposed => (TVerify id l proposed proposed [], f)
  | TPropose id l (S n) b proposed =>
      let '(pin, f) := read_proposal_input id l b f in
      match branch_result l b pin with
      | Failed e => (TDone (Failed e), f)
      | Ok r => (TPropose id l n (b + 1) (proposed ++ [r]), f)
      end
  | TVerify id l proposed (br :: todo) accepted =>
      match read_verification_input id l br f with
      | None => (TUndefined, f)
      | Some (vin, f) =>
          match verify (lc_verifier l) vin with
          | Failed e => (TDone (Failed e), f)
          | Ok vr => (TVerify id l proposed todo (accepted ++ [vr]), f)
          end
      end
  | TVerify id l proposed [] accepted =>
      match finish id l proposed accepted f with
      | None => (TUndefined, f)
      | Some (r, f) => (TDone r, f)
      end
  | TDone r => (TDone r, f)
  | TUndefined => (TUndefined, f)
  end.

(** A system: the engine and its activations. *)
Definition System : Set := Fabric * list Thread.

Inductive sys_step : System -> System -> Prop :=
| step_call c f ts : sys_step (f, ts) (call c f, ts)
| step_spawn id f ts : sys_step (f, ts) (f, ts ++ [TStart id])
| step_thread i t t' f f' ts :
    ts !! i = Some t -> thread_step t f = (t', f') ->
    sys_step (f, ts) (f', <[i := t']> ts).

Definition sys_steps : System -> System -> Prop := rtc sys_step.

(** The systems that can arise from a new engine. *)
Definition reachable (cfg : Config) (s : System) : Prop := sys_steps (new_fabric cfg, []) s.

(** [n] steps of one activation on its own. *)
Fixpoint run_alone (n : nat) (t : Thread) (f : Fabric) : Thread * Fabric :=
  match n with
  | O => (t, f)
  | S n => let '(t, f) := thread_step t f in run_alone n t f
  end.

(** ** Lemmas *)

Lemma call_evolves c f : fabric_evolves f (call c f).
Proof.
  destruct c; simpl.
  - apply submit_evolves.
  - apply cancel_evolves.
  - apply complete_evolves.
  - apply rollback_evolves.
  - apply retry_evolves.
  - apply push_event_evolves.
  - apply snapshot_evolves.
  - apply roll_epoch_evolves.
Qed.

Lemma thread_step_evolves t f : fabric_evolves f (thread_step t f).2.
Proof.
  destruct t as [id | id l [| n] b pr | id l pr [| br todo] acc | r |]; simpl; try reflexivity.
  - destruct (prepare id f) as [[[r | l] f1] |] eqn:E; simpl; try reflexivity;
      by eapply prepare_evolves.
  - pose proof (read_proposal_input_evolves id l b f) as V.
    destruct (read_proposal_input id l b f) as [pin f1]. by destruct (branch_result l b pin).
  - destruct (finish id l pr acc f) as [[r f1] |] eqn:E; [| reflexivity].
    by eapply finish_evolves.
  - destruct (read_verification_input id l br f) as [[vin f1] |] eqn:E; [| reflexivity].
    apply read_verification_input_evolves in E. by destruct (verify _ _).
Qed.

Lemma sys_step_evolves s s' : sys_step s s' -> fabric_evolves s.1 s'.1.
Proof.
  intros [c f ts | id f ts | i t t' f f' ts _ E]; simpl; [apply call_evolves | reflexivity |].
  pose proof (thread_step_evolves t f) as V. by rewrite E in V.
Qed.

Lemma sys_steps_evolves s s' : sys_steps s s' -> fabric_evolves s.1 s'.1.
Proof.
  induction 1 as [s | s1 s2 s3 E _ IH]; [reflexivity |].
  etrans; [by apply sys_step_evolves | exact IH].
Qed.

(** C2: the authoritative sequence is safe under concurrency.  Whatever API
    calls and cycles of any number of threads interleave, with whatever
    executors: a submitted request stays registered with its request and
    epoch; its committed tokens only grow, at the end; both its generations
    advance by exactly the number of tokens committed; its proposals are never
    lost; and once it is terminal or cancelled it stays so and never commits
    again. *)
Theorem authority_monotonic s s' id rs :
  sys_steps s s' -> fb_requests s.1 !! id = Some rs -> submitted rs ->
  exists rs', fb_requests s'.1 !! id = Some rs' /\
    rs_req rs' = rs_req rs /\ rs_epoch rs' = rs_epoch rs /\
    rs_committed rs `prefix_of` rs_committed rs' /\
    rs_proposals rs `prefix_of` rs_proposals rs' /\
    advance (get (rs_auth_gen rs)) (get (rs_auth_gen rs'))
      (zlen (rs_committed rs') - zlen (rs_committed rs)) /\
    advance (get (sr_generation (rs_auth_state rs))) (get (sr_generation (rs_auth_state rs')))
      (zlen (rs_committed rs') - zlen (rs_committed rs)) /\
    (closed rs -> closed rs' /\ rs_committed rs' = rs_committed rs).
Proof.
  intros E L Sub. destruct (sys_steps_evolves s s' E id rs L) as (rs' & L' & V).
  destruct (V Sub) as [V1 V2 V3 V4 V5 V6 V7 V8 V9 V10]. exists rs'.
  split_and!; try done. intros C. split; [| by apply V8].
  destruct C as [C | C]; [left | right]; auto.
Qed.

(** *** An activation on its own *)

Lemma run_alone_add n m t f :
  run_alone (n + m) t f = (let '(t, f) := run_alone n t f in run_alone m t f).
Proof.
  revert t f. induction n as [| n IH]; intros t f; [done |]. simpl.
  destruct (thread_step t f). apply IH.
Qed.

(** Reaching a configuration from an activation, on its own. *)
Definition runs_to (t : Thread) (f : Fabric) (t' : Thread) (f' : Fabric) : Prop :=
  exists n, run_alone n t f = (t', f').

Lemma runs_to_step t f t1 f1 t' f' :
  thread_step t f = (t1, f1) -> runs_to t1 f1 t' f' -> runs_to t f t' f'.
Proof. intros E [n R]. exists (S n). simpl. by rewrite E. Qed.

Lemma runs_to_now t f t' f' : thread_step t f = (t', f') -> runs_to t f t' f'.
Proof. intros E. exists 1%nat. simpl. by rewrite E. Qed.

Lemma propose_runs id l n : forall b proposed f,
  match propose_loop id l n b f with
  | (Failed e, f') => runs_to (TPropose id l n b proposed) f (TDone (Failed e)) f'
  | (Ok rest, f') =>
      runs_to (TPropose id l n b proposed) f
        (TVerify id l (proposed ++ rest) (proposed ++ rest) []) f'
  end.
Proof.
  induction n as [| n IH]; intros b proposed f; cbn [propose_loop].
  - rewrite app_nil_r. by apply runs_to_now.
  - destruct (read_proposal_input id l b f) as [pin f1] eqn:E.
    destruct (branch_result l b pin) as [r | e] eqn:B.
    + specialize (IH (b + 1) (proposed ++ [r]) f1).
      destruct (propose_loop id l n (b + 1) f1) as [[rest | e] f2]; cbn [result_map];
        (eapply runs_to_step; [cbn [thread_step]; by rewrite E, B |]); [| exact IH].
      by rewrite <- app_assoc in IH.
    + apply runs_to_now. cbn [thread_step]. by rewrite E, B.
Qed.

Lemma verify_runs id l proposed todo : forall accepted f,
  match verify_loop id l todo f with
  | None => exists f', runs_to (TVerify id l proposed todo accepted) f TUndefined f'
  | Some (Failed e, f') => runs_to (TVerify id l proposed todo accepted) f (TDone (Failed e)) f'
  | Some (Ok rest, f') =>
      forall t g, runs_to (TVerify id l proposed [] (accepted ++ rest)) f' t g ->
        runs_to (TVerify id l proposed todo accepted) f t g
  end.
Proof.
  induction todo as [| br todo IH]; intros accepted f; cbn [verify_loop].
  - by rewrite app_nil_r.
  - destruct (read_verification_input id l br f) as [[vin f1] |] eqn:E; cbn [mbind option_bind].
    2: { exists f. apply runs_to_now. cbn [thread_step]. by rewrite E. }
    destruct (verify (lc_verifier l) vin) as [vr | e] eqn:V.
    2: { apply runs_to_now. cbn [thread_step]. by rewrite E, V. }
    assert (S : thread_step (TVerify id l proposed (br :: todo) accepted) f =
                (TVerify id l proposed todo (accepted ++ [vr]), f1))
      by (cbn [thread_step]; by rewrite E, V).
    specialize (IH (accepted ++ [vr]) f1).
    destruct (verify_loop id l todo f1) as [[[rest | e] f2] |]; cbn [mbind option_bind result_map].
    + intros t g R. eapply runs_to_step; [exact S |]. apply IH. by rewrite <- app_assoc.
    + by eapply runs_to_step.
    + destruct IH as [f' R]. exists f'. by eapply runs_to_step.
Qed.

Lemma finish_runs id l proposed accepted f :
  match finish id l proposed accepted f with
  | None => runs_to (TVerify id l proposed [] accepted) f TUndefined f
  | Some (r, f') => runs_to (TVerify id l proposed [] accepted) f (TDone r) f'
  end.
Proof.
  destruct (finish id l proposed accepted f) as [[r f'] |] eqn:E;
    apply runs_to_now; cbn [thread_step]; by rewrite E.
Qed.

Lemma run_cycle_runs id f :
  match run_cycle id f with
  | Some (r, f') => runs_to (TStart id) f (TDone r) f'
  | None => exists f', runs_to (TStart id) f TUndefined f'
  end.
Proof.
  unfold run_cycle. destruct (prepare id f) as [[[r | l] f1] |] eqn:E; cbn [mbind option_bind].
  - apply runs_to_now. cbn [thread_step]. by rewrite E.
  - assert (S : forall t g, runs_to (TPropose id l (Z.to_nat (lc_branch_count l)) 0 []) f1 t g ->
                  runs_to (TStart id) f t g)
      by (intros t g; apply runs_to_step; cbn [thread_step]; by rewrite E).
    pose proof (propose_runs id l (Z.to_nat (lc_branch_count l)) 0 [] f1) as P.
    destruct (propose_loop _ _ _ _ _) as [[proposed | e] f2]; [| by apply S].
    assert (S2 : forall t g, runs_to (TVerify id l proposed proposed []) f2 t g ->
                   runs_to (TStart id) f t g).
    { intros t g [n R]. apply S. destruct P as [m P]. exists (m + n)%nat.
      rewrite run_alone_add, P. exact R. }
    pose proof (verify_runs id l proposed proposed [] f2) as V.
    destruct (verify_loop _ _ _ _) as [[[accepted | e] f3] |]; cbn [mbind option_bind].
    + pose proof (finish_runs id l proposed accepted f3) as F.
      destruct (finish _ _ _ _ _) as [[r f4] |]; [| exists f3]; by apply S2, V.
    + by apply S2.
    + destruct V as [f' V]. exists f'. by apply S2.
  - exists f. apply runs_to_now. cbn [thread_step]. by rewrite E.
Qed.

Lemma runs_to_sys t f t' f' : runs_to t f t' f' -> sys_steps (f, [t]) (f', [t']).
Proof.
  intros [n R]. revert t f R. induction n as [| n IH]; intros t f; simpl.
  - intros [= -> ->]. apply rtc_refl.
  - destruct (thread_step t f) as [t1 f1] eqn:E. intros R.
    eapply rtc_l; [by apply (step_thread 0 t t1 f f1 [t]) | by apply IH].
Qed.

(** C8: [run_cycle] is the sequential run of its critical sections.  An
    activation that no other thread interrupts terminates: it ends with exactly
    the result and the engine state [run_cycle] computes, or in undefined
    behaviour exactly when [run_cycle] is undefined. *)
Theorem run_cycle_refines_critical_sections id f :
  match run_cycle id f with
  | Some (r, f') =>
      runs_to (TStart id) f (TDone r) f' /\ sys_steps (f, [TStart id]) (f', [TDone r])
  | None => exists f', runs_to (TStart id) f TUndefined f'
  end.
Proof.
  pose proof (run_cycle_runs id f) as R. destruct (run_cycle id f) as [[r f'] |]; [| exact R].
  split; [exact R | by apply runs_to_sys].
Qed.
End Steps.
