(* ===== verification/Phases.v ===== *)
(** * The phase a cycle reports

    [run_cycle] feeds its state machine every event of the cycle except
    [ProposalStarted] and [VerificationStarted], and ignores what [apply]
    returns.  So the machine never leaves the dispatch of the proposal, and no
    cycle reports the phase its verdict should have led to. *)

From stdpp Require Import gmap.
From S2P Require Import Prelude Errors Ids Doubles Model Lifecycle Data Policy Scheduler.
From S2P Require Import Fabric Cycle Authority Interleaving.

(** The phases the machine of a live request can be in between critical
    sections. *)
Definition early (p : SpeculativePhase) : Prop :=
  p = SpeculativePhase.Ready \/ p = SpeculativePhase.ProposalDispatched.

Definition phase_ok (rs : RequestState) : Prop := closed rs \/ early (phase (rs_cycle rs)).

Definition phases_ok (f : Fabric) : Prop :=
  forall id rs, fb_requests f !! id = Some rs -> phase_ok rs.

(** An outcome of a cycle that reached a verdict. *)
Definition verdict_kind (k : CycleOutcomeKind) : bool :=
  match k with
  | CycleOutcomeKind.VerificationSuccessFullAccept
  | CycleOutcomeKind.VerificationSuccessPartialAccept
  | CycleOutcomeKind.VerificationRejectAll => true
  | _ => false
  end.

(** What a cycle's result says of its phase. *)
Definition result_phase_ok (r : Result CycleOutcome) : Prop :=
  match r with
  | Ok o => verdict_kind (out_outcome o) = true -> out_phase o = SpeculativePhase.Ready
  | Failed _ => True
  end.

Definition thread_phase_ok (t : Thread) : Prop :=
  match t with TDone r => result_phase_ok r | _ => True end.

Definition system_phases_ok (s : System) : Prop :=
  phases_ok s.1 /\ Forall thread_phase_ok s.2.

(** ** Lemmas: the machine *)

(** The events of a cycle leave an early machine early. *)
Lemma early_verification m :
  early (phase m) ->
  fold_left (fun m e => apply_ e m) verification_events m = m.
Proof. destruct m as [p]. by intros [E | E]; simpl in E; subst p. Qed.

Lemma early_verdict v e m :
  v ∈ [SpeculationEvent.AcceptFull; SpeculationEvent.AcceptPartial; SpeculationEvent.RejectAll] ->
  e ∈ [SpeculationEvent.Commit; SpeculationEvent.Rollback] -> early (phase m) ->
  exists er, apply e (apply_ v m) = (Failed er, m).
Proof.
  destruct m as [p]. intros Hv He [E | E]; simpl in E; subst p;
    repeat (apply elem_of_cons in Hv as [-> | Hv]); try (by apply elem_of_nil in Hv);
    repeat (apply elem_of_cons in He as [-> | He]); try (by apply elem_of_nil in He);
    by eexists.
Qed.

Lemma early_dispatch m :
  early (phase m) ->
  early (phase (fold_left (fun m e => apply_ e m)
    [SpeculationEvent.PlanProposal; SpeculationEvent.ReserveProposal;
     SpeculationEvent.DispatchProposal] m)).
Proof. destruct m as [p]. intros [E | E]; simpl in E; subst p; by right. Qed.

Lemma early_no_verdict v e rs o rs' o' :
  v ∈ [SpeculationEvent.AcceptFull; SpeculationEvent.AcceptPartial; SpeculationEvent.RejectAll] ->
  e ∈ [SpeculationEvent.Commit; SpeculationEvent.Rollback] -> early (phase (rs_cycle rs)) ->
  apply_verdict v e rs o = (rs', o') -> o' = o.
Proof.
  intros Hv He Er. unfold apply_verdict, apply_all. cbn [fold_left].
  change (rs_cycle (rs <| rs_cycle ::= apply_ v |>)) with (apply_ v (rs_cycle rs)).
  destruct (early_verdict v e _ Hv He Er) as [er E].
  cbn [rs_cycle]. simpl. simpl in E. rewrite E. by intros [= _ <-].
Qed.

Lemma settle_branch_phase proposed keep cand p len rej prop rs o rs' o' cnt :
  early (phase (rs_cycle rs)) ->
  settle_branch proposed keep cand p len rej prop rs o = Some (rs', o', cnt) ->
  out_phase o' = out_phase o.
Proof.
  intros Er E. unfold settle_branch in E. destruct (p =? len); [| destruct (0 <? p)].
  1,2: unfold commit_prefix in E; destruct (cand_size cand <? p); [discriminate |];
    cbn [mbind option_bind] in E.
  all: match type of E with context [apply_verdict ?v ?e ?r ?o] =>
      destruct (apply_verdict v e r o) as [rs1 o1] eqn:V end;
    apply early_no_verdict in V as ->; [| set_solver | set_solver | exact Er];
    match type of E with context [retire_others ?a ?b ?c ?d ?r] =>
      destruct (retire_others a b c d r) as [rb rs2] end;
    by injection E as _ <- _.
Qed.

(** ** Lemmas: the operations *)

Section Ops.
  Implicit Types f : Fabric.

Lemma update_request_phases id upd f :
  phases_ok f ->
  (forall rs, fb_requests f !! id = Some rs -> phase_ok rs -> phase_ok (upd rs)) ->
  phases_ok (update_request id upd f).
Proof.
  intros O U id' rs. unfold update_request. simpl. destruct (decide (id' = id)) as [-> | N].
  - rewrite lookup_alter_eq. destruct (fb_requests f !! id) as [rs0 |] eqn:L; [| done].
    simpl. intros [= <-]. apply U; [done | by apply (O id)].
  - rewrite lookup_alter_ne by done. apply O.
Qed.

Lemma same_requests_phases f g : fb_requests g = fb_requests f -> phases_ok f -> phases_ok g.
Proof. intros E O id rs. rewrite E. apply O. Qed.

Lemma update_stats_phases upd f : phases_ok f -> phases_ok (update_stats upd f).
Proof. by apply same_requests_phases. Qed.

Lemma push_event_phases id t d j f : phases_ok f -> phases_ok (push_event id t d j f).
Proof.
  intros O. unfold push_event, monotonic_ns. apply update_request_phases; [| done].
  by apply (same_requests_phases f).
Qed.

Lemma subscript_phases id f : phases_ok f -> phases_ok (subscript id f).2.
Proof.
  intros O. unfold subscript. destruct (fb_requests f !! id); [exact O |].
  intros id' rs. simpl. rewrite lookup_insert_Some. intros [[_ <-] | [_ L]].
  - right. by left.
  - by apply (O id').
Qed.

Lemma call_phases c f : phases_ok f -> phases_ok (call c f).
Proof.
  intros O. destruct c as [req | id why | id | id why | id | id t d j | |]; simpl.
  - unfold submit. pose proof (subscript_phases (rq_id req) f O) as S.
    destruct (subscript (rq_id req) f) as [rs f1]. simpl in S. destruct (negb _); [exact S |].
    cbn [snd]. apply push_event_phases, update_stats_phases, update_request_phases; [exact S |].
    intros rs' _ _. right. by left.
  - unfold cancel. destruct (fb_requests f !! id) as [rs |]; [| exact O].
    destruct (rs_cancelled rs); [exact O |]. destruct (rs_terminal rs); [exact O |]. cbn [snd].
    apply push_event_phases, update_stats_phases, update_request_phases; [exact O |].
    intros rs' _ _. left. by right.
  - unfold complete. destruct (fb_requests f !! id); [| exact O]. cbn [snd].
    apply push_event_phases, update_request_phases; [exact O |]. intros rs' _ _. left. by left.
  - unfold rollback. destruct (fb_requests f !! id); [| exact O]. cbn [snd].
    by apply push_event_phases, update_stats_phases, update_request_phases.
  - unfold retry. destruct (fb_requests f !! id) as [rs |]; [| exact O].
    destruct (_ && _); [exact O |]. destruct (_ || _); [exact O |]. cbn [snd].
    apply push_event_phases, update_stats_phases, update_request_phases; [exact O |].
    intros rs' _ _. right. by left.
  - by apply push_event_phases.
  - by apply (same_requests_phases f).
  - by apply (same_requests_phases f).
Qed.

Lemma reset_phase_ok_phase rs : phase_ok rs -> phase_ok (reset_phase rs).
Proof.
  intros [C | E]; unfold reset_phase; destruct (is_terminal_phase _);
    [by left | by left | right; by left | by right].
Qed.
End Ops.

Section CycleOps.
  Context `{Platform}.
  Implicit Types f : Fabric.

Lemma prepare_phases id f p f' :
  phases_ok f -> prepare id f = Some (p, f') ->
  phases_ok f' /\ (forall r, p = Done r -> result_phase_ok r).
Proof.
  intros O. unfold prepare. destruct (fb_requests f !! id) as [rs |];
    [| intros [= <- <-]; split; [done | by intros r [= <-]]].
  destruct (rs_terminal rs); [intros [= <- <-]; split; [done | by intros r [= <-]] |].
  destruct (rs_cancelled rs); [intros [= <- <-]; split; [done | by intros r [= <-]] |].
  assert (D : phases_ok (deadline_passed rs f).2)
    by (unfold deadline_passed; destruct (rq_deadline_ns _); by apply (same_requests_phases f)).
  destruct (deadline_passed rs f) as [[] f1]; cbn [snd] in D.
  { intros [= <- <-]. split; [by apply push_event_phases | by intros r [= <-]]. }
  assert (V : phases_ok (update_request id reset_phase f1))
    by (apply update_request_phases; [exact D |]; intros ? _; apply reset_phase_ok_phase).
  destruct (negb _).
  { intros [= <- <-]. split; [by apply push_event_phases | by intros r [= <-]]. }
  destruct (bp_blocked _).
  { intros [= <- <-]. split; [by apply push_event_phases, update_stats_phases |
      by intros r [= <-]]. }
  destruct (plan_proposal _ _ _ _ _ _) as [[plan rat] |]; [cbn [mbind option_bind] | discriminate].
  match goal with |- context [match cfg_proposer ?c with _ => _ end] =>
    destruct (cfg_proposer c), (cfg_verifier c) end; intros [= <- <-];
    (split; [| by intros r [= <-]]); try exact V.
  apply update_request_phases; [exact V |]. intros rs' _ [C | E]; [by left |].
  right. by apply early_dispatch.
Qed.

Lemma finish_phases id l proposed accepted f r f' :
  phases_ok f -> finish id l proposed accepted f = Some (r, f') ->
  phases_ok f' /\ result_phase_ok r.
Proof.
  intros O. unfold finish. destruct (fb_requests f !! id) as [rs |] eqn:L;
    [| by intros [= <- <-]].
  destruct (rs_terminal rs || rs_cancelled rs) eqn:C.
  { intros [= <- <-]. split; [by apply push_event_phases, update_stats_phases | done]. }
  destruct (proposed !! _) as [win |]; [cbn [mbind option_bind] | discriminate].
  destruct (accepted !! _) as [wa |]; [cbn [mbind option_bind] | discriminate].
  apply orb_false_iff in C as [C1 C2].
  assert (Er : early (phase (rs_cycle rs)))
    by (destruct (O id rs L) as [[K | K] | K]; congruence || exact K).
  intros E. apply settle_inv in E as (cand & rs' & o & cnt & _ & B & -> & ->).
  apply settle_branch_phase in B; [| change (rs_cycle (apply_all verification_events rs))
    with (fold_left (fun m e => apply_ e m) verification_events (rs_cycle rs))].
  - split; [| intros _; exact B]. apply push_event_phases. unfold settled_fabric.
    apply (same_requests_phases (update_request id (fun _ =>
      rs' <| rs_cycle := mkMachine SpeculativePhase.Ready |> <| rs_completed_cycles ::= incr32 |>)
      f)); [done |].
    apply update_request_phases; [exact O |]. intros ? _ _. right. by left.
  - by rewrite early_verification.
Qed.

Lemma thread_step_phases t f t' f' :
  phases_ok f -> thread_phase_ok t -> thread_step t f = (t', f') ->
  phases_ok f' /\ thread_phase_ok t'.
Proof.
  intros O T. destruct t as [id | id l [| n] b pr | id l pr [| br todo] acc | r |];
    cbn [thread_step].
  - destruct (prepare id f) as [[[r | l] f1] |] eqn:E; intros [= <- <-]; try done;
      apply prepare_phases in E as [E R]; try done. split; [exact E | by apply R].
  - by intros [= <- <-].
  - unfold read_proposal_input. pose proof (subscript_phases id f O) as S.
    destruct (subscript id f) as [rs f1]. simpl in S.
    destruct (branch_result _ _ _); by intros [= <- <-].
  - destruct (finish id l pr acc f) as [[r f1] |] eqn:E; intros [= <- <-]; [| done].
    by apply finish_phases in E.
  - unfold read_verification_input. pose proof (subscript_phases id f O) as S.
    destruct (subscript id f) as [rs f1]. simpl in S.
    destruct (pr_candidate _); cbn [mbind option_bind]; [| by intros [= <- <-]].
    destruct (verify _ _); by intros [= <- <-].
  - by intros [= <- <-].
  - by intros [= <- <-].
Qed.

(** An uninterrupted cycle. *)
Lemma run_cycle_phases id f r f' :
  phases_ok f -> run_cycle id f = Some (r, f') -> phases_ok f' /\ result_phase_ok r.
Proof.
  intros O E. pose proof (run_cycle_runs id f) as R. rewrite E in R. destruct R as [n R].
  assert (T : thread_phase_ok (TStart id)) by done. revert O T R.
  generalize (TStart id). clear E. revert f. induction n as [| n IH]; intros f t O T; simpl.
  - by intros [= -> ->].
  - destruct (thread_step t f) as [t1 f1] eqn:S. apply thread_step_phases in S as [O1 T1]; [| done..].
    by apply IH.
Qed.

Lemma sys_step_phases s s' : sys_step s s' -> system_phases_ok s -> system_phases_ok s'.
Proof.
  intros E [O T]. destruct E as [c f ts | id f ts | i t t' f f' ts L S]; simpl in *.
  - split; [by apply call_phases | exact T].
  - split; [exact O |]. simpl. apply Forall_app. split; [exact T | by constructor].
  - pose proof (Forall_lookup_1 _ _ _ _ T L) as Ti.
    apply thread_step_phases in S as [S1 S2]; [| done | done]. split; [exact S1 |]. simpl.
    by apply Forall_insert.
Qed.

(** C38: a cycle never reports the phase of its verdict.  However calls and
    cycles interleave, the machine of a request that is neither terminal nor
    cancelled is [Ready] or [ProposalDispatched] between critical sections,
    and every cycle that reaches a verdict - full, partial or rejection -
    reports the phase [Ready], never [Committed] or [RolledBack]. *)
Theorem reported_phase_stays_ready cfg s :
  reachable cfg s ->
  (forall id rs, fb_requests s.1 !! id = Some rs -> ~ closed rs ->
     phase (rs_cycle rs) = SpeculativePhase.Ready \/
     phase (rs_cycle rs) = SpeculativePhase.ProposalDispatched) /\
  (forall o, TDone (Ok o) ∈ s.2 -> verdict_kind (out_outcome o) = true ->
     out_phase o = SpeculativePhase.Ready).
Proof.
  intros R. assert (O : system_phases_ok s).
  { assert (O0 : system_phases_ok (new_fabric cfg, []))
      by (split; [intros id rs; simpl; by rewrite lookup_empty | constructor]).
    revert O0. unfold reachable, sys_steps in R.
    induction R as [s | s1 s2 s3 E _ IH]; [done |]. intros O. by eapply IH, sys_step_phases. }
  destruct O as [O T]. split.
  - intros id rs L N. destruct (O id rs L) as [C | E]; [contradiction | exact E].
  - intros o I V. rewrite Forall_forall in T. by apply (T _ I).
Qed.
End CycleOps.
