(* ===== verification/Invariants.v ===== *)
(** * The state invariant of the engine

    What holds of every request entry, of the statistics and of the event log
    in every reachable system: any callers, any executors, any interleaving.
    Entries under the null identifier are excluded: [submit] does not
    recognise them as taken. *)

From stdpp Require Import gmap.
From S2P Require Import Prelude Errors Ids Doubles Model Lifecycle Data Policy Scheduler.
From S2P Require Import Fabric Cycle Authority Interleaving.

(** ** The invariant *)

Record entry_ok (rs : RequestState) : Prop := {
  eo_generation :
    get (rs_auth_gen rs) = u64 (zlen (rs_committed rs) - zlen (rq_prefix (rs_req rs)));
  eo_state_generation : get (sr_generation (rs_auth_state rs)) = get (rs_auth_gen rs);
  eo_state_gen : rs_auth_state_gen rs = sr_generation (rs_auth_state rs);
  eo_prefix : rq_prefix (rs_req rs) `prefix_of` rs_committed rs;
  eo_proposal_ids :
    map (fun p => get (prop_id p)) (rs_proposals rs) =
    map (fun k => Z.of_nat k + 1) (seq 0 (length (rs_proposals rs)));
  eo_cycles : rs_completed_cycles rs = u32 (zlen (rs_proposals rs));
  eo_branches : NoDup (map br_id (rs_branches rs));
  eo_retired : rs_cancelled rs = true -> Forall (fun b => br_retired b = true) (rs_branches rs);
  eo_reservations : rs_reservations rs = [];
  eo_attempts : (get (rs_attempt rs) - 1 - rs_retry_count rs) mod 4294967296 = 0;
  eo_retries :
    is_u32 (rs_retry_count rs) /\
    (rq_max_attempts (rs_req rs) <> 0 ->
     0 <= rq_max_attempts (rs_req rs) -> rs_retry_count rs <= rq_max_attempts (rs_req rs));
  eo_events : zlen (rs_events rs) <= 512
}.

(** The counters of the statistics agree with each other. *)
Record stats_ok (s : Stats) : Prop := {
  so_verdicts :
    u64 (st_full_accept_count s + st_partial_accept_count s + st_full_reject_count s) =
    st_speculative_cycles_started s;
  so_produced : st_proposals_produced s = st_speculative_cycles_started s;
  so_verified : st_verifications_run s = st_speculative_cycles_started s;
  so_tokens :
    (st_tokens_accepted s + st_tokens_rejected s - st_tokens_proposed s) mod 4294967296 = 0
}.

Definition entries_ok (f : Fabric) : Prop :=
  forall id rs, is_null id = false -> fb_requests f !! id = Some rs ->
    rq_id (rs_req rs) = id /\ entry_ok rs.

Record fabric_ok (f : Fabric) : Prop := {
  fo_entries : entries_ok f;
  fo_stats : stats_ok (fb_stats f);
  fo_events : zlen (fb_global_events f) <= 2000
}.

(** The request an activation works on is registered. *)
Definition thread_ok (f : Fabric) (t : Thread) : Prop :=
  match t with
  | TPropose id _ _ _ _ | TVerify id _ _ _ _ => is_Some (fb_requests f !! id)
  | _ => True
  end.

Definition system_ok (s : System) : Prop := fabric_ok s.1 /\ Forall (thread_ok s.1) s.2.

(** ** Lemmas: the building blocks *)

Section Blocks.
  Implicit Types rs : RequestState.
  Implicit Types f : Fabric.

Lemma push_capped_length cap e l : 0 <= cap -> zlen l <= cap -> zlen (push_capped cap e l) <= cap.
Proof.
  intros H0 H. unfold push_capped. rewrite zlen_app, zlen_cons, zlen_nil.
  case_ztest; [| rewrite zlen_app, zlen_cons, zlen_nil; lia].
  unfold zlen in *. destruct (l ++ [e]) as [| x k] eqn:E; [simpl; lia |].
  apply (f_equal length) in E. rewrite length_app in E. simpl in *. lia.
Qed.

(** Entries, statistics and log after the state updates. *)
Lemma update_request_ok id upd f :
  fabric_ok f ->
  (forall rs, fb_requests f !! id = Some rs -> is_null id = false ->
     rq_id (rs_req rs) = id -> entry_ok rs -> rq_id (rs_req (upd rs)) = id /\ entry_ok (upd rs)) ->
  fabric_ok (update_request id upd f).
Proof.
  intros [E S G] H. constructor; [| exact S | exact G].
  intros id' rs N. unfold update_request. simpl. destruct (decide (id' = id)) as [-> | D].
  - rewrite lookup_alter_eq. destruct (fb_requests f !! id) as [rs0 |] eqn:L; [| done].
    simpl. intros [= <-]. destruct (E id rs0 N L). auto.
  - rewrite lookup_alter_ne by done. by apply E.
Qed.

Lemma update_stats_ok upd f :
  fabric_ok f -> (stats_ok (fb_stats f) -> stats_ok (upd (fb_stats f))) ->
  fabric_ok (update_stats upd f).
Proof. intros [E S G] H. constructor; [exact E | by apply H | exact G]. Qed.

Lemma entry_ok_events e rs : entry_ok rs -> entry_ok (rs <| rs_events ::= push_capped 512 e |>).
Proof. intros []. constructor; simpl; try done. by apply push_capped_length. Qed.

Lemma push_event_ok id t d j f : fabric_ok f -> fabric_ok (push_event id t d j f).
Proof.
  intros [E S G]. unfold push_event, monotonic_ns. cbn [fst snd].
  apply update_request_ok.
  - constructor; [exact E | exact S |]. simpl. apply push_capped_length; [lia | exact G].
  - intros rs _ _ I O. split; [exact I | by apply entry_ok_events].
Qed.

Lemma fabric_ok_same f g :
  fb_requests g = fb_requests f -> fb_stats g = fb_stats f ->
  fb_global_events g = fb_global_events f -> fabric_ok f -> fabric_ok g.
Proof. intros E1 E2 E3 [E S G]. constructor; [unfold entries_ok; by rewrite E1 | by rewrite E2 | by rewrite E3]. Qed.

Lemma subscript_ok id f : is_Some (fb_requests f !! id) -> (subscript id f).2 = f.
Proof. intros [rs E]. unfold subscript. by rewrite E. Qed.

(** The entry of a freshly admitted request. *)
Lemma admitted_ok epoch req :
  is_null (rq_id req) = false -> entry_ok (admitted epoch req RequestState_default).
Proof.
  intros N. constructor; simpl; try done.
  - by rewrite Z.sub_diag.
  - constructor.
Qed.

(** Retiring the other branches keeps the identities distinct. *)
Lemma retire_first_ids id bs : map br_id (retire_first id bs) = map br_id bs.
Proof. induction bs as [| b bs IH]; [done |]. simpl. destruct (id_eqb _ _); simpl; by rewrite ?IH. Qed.

Lemma has_branch_iff id bs : has_branch id bs = true <-> id ∈ map br_id bs.
Proof.
  unfold has_branch. rewrite existsb_exists, list_elem_of_In, in_map_iff.
  split; intros (b & H1 & H2); exists b; (destruct (id_eqb_spec (br_id b) id); naive_solver).
Qed.

Lemma retire_step_nodup rs keep acc br :
  NoDup (map br_id acc.1) -> NoDup (map br_id (retire_step rs keep acc br).1).
Proof.
  destruct acc as [bs n]. simpl. intros H.
  destruct (has_branch (bres_branch br) bs) eqn:E.
  - destruct (negb _); simpl; [by rewrite retire_first_ids | done].
  - assert (Hn : bres_branch br ∉ map br_id bs) by (rewrite <- has_branch_iff; congruence).
    assert (N : NoDup (map br_id (bs ++ [new_branch rs (bres_branch br)
                  (negb (id_eqb (bres_branch br) keep))]))).
    { rewrite map_app. apply NoDup_app. split; [done |]. split; [| apply NoDup_singleton].
      simpl. intros x Hx ->%list_elem_of_singleton. done. }
    destruct (negb _); simpl; [by rewrite retire_first_ids | done].
Qed.

Lemma retire_fold_nodup rs keep proposed : forall acc,
  NoDup (map br_id acc.1) -> NoDup (map br_id (fold_left (retire_step rs keep) proposed acc).1).
Proof.
  induction proposed as [| br proposed IH]; intros acc H; [done |].
  simpl. by apply IH, retire_step_nodup.
Qed.
End Blocks.

(** ** Lemmas: the API *)

Section ApiOk.
  Implicit Types f : Fabric.

Lemma submit_ok req f : fabric_ok f -> fabric_ok (submit req f).2.
Proof.
  intros O. pose proof O as [E S G]. unfold submit, subscript.
  destruct (fb_requests f !! rq_id req) as [rs |] eqn:L.
  - destruct (negb (is_null (rq_id (rs_req rs)))) eqn:N; [exact O |]. cbn [snd].
    apply push_event_ok, update_stats_ok; [| by intros []].
    apply update_request_ok; [exact O |]. intros rs' L' N' I _. exfalso.
    simplify_eq. by rewrite I, N' in N.
  - cbn [rs_req RequestState_default rq_id SpeculationRequest_default].
    change (negb (is_null null_id)) with false. cbv iota. cbn [snd].
    apply push_event_ok, update_stats_ok; [| by intros []].
    constructor; [| exact S | exact G]. intros id rs N. unfold update_request. simpl.
    destruct (decide (id = rq_id req)) as [-> | D].
    + rewrite lookup_alter_eq, lookup_insert_eq. simpl. intros [= <-].
      split; [done | by apply admitted_ok].
    + rewrite lookup_alter_ne, lookup_insert_ne by done. by apply E.
Qed.

Lemma entry_ok_retired rs c cyc :
  entry_ok rs ->
  entry_ok (rs <| rs_cycle := cyc |>
     <| rs_reservations ::= map (fun r => r <| res_state := ReservationState.Released |>) |>
     <| rs_branches ::= map (fun b => b <| br_retired := true |>) |>
     <| rs_cancelled := c |>).
Proof.
  intros []. constructor; simpl; try done.
  - rewrite map_map. done.
  - intros _. apply Forall_map, Forall_true. done.
  - by rewrite eo_reservations0.
Qed.

Lemma cancel_ok id why f : fabric_ok f -> fabric_ok (cancel id why f).2.
Proof.
  intros O. unfold cancel. destruct (fb_requests f !! id) as [rs |] eqn:L; [| done].
  destruct (rs_cancelled rs); [done |]. destruct (rs_terminal rs); [done |]. cbn [snd].
  apply push_event_ok, update_stats_ok; [| by intros []].
  apply update_request_ok; [exact O |]. intros rs' _ _ I R. split; [exact I |].
  by apply entry_ok_retired.
Qed.

Lemma complete_ok id f : fabric_ok f -> fabric_ok (complete id f).2.
Proof.
  intros O. unfold complete. destruct (fb_requests f !! id) as [rs |] eqn:L; [| done].
  cbn [snd]. apply push_event_ok, update_request_ok; [exact O |]. intros rs' _ _ I [].
  split; [exact I | by constructor].
Qed.

Lemma rollback_ok id why f : fabric_ok f -> fabric_ok (rollback id why f).2.
Proof.
  intros O. unfold rollback. destruct (fb_requests f !! id) as [rs |] eqn:L; [| done].
  cbn [snd]. apply push_event_ok, update_stats_ok; [| by intros []].
  apply update_request_ok; [exact O |]. intros rs' _ _ I []. split; [exact I |].
  constructor; simpl; try done.
  - rewrite map_map. done.
  - intros _. apply Forall_map, Forall_true. done.
  - by rewrite eo_reservations0.
Qed.

Lemma retry_ok id f : fabric_ok f -> fabric_ok (retry id f).2.
Proof.
  intros O. unfold retry. destruct (fb_requests f !! id) as [rs |] eqn:L; [| done].
  set (limit := rq_max_attempts (rs_req rs)).
  destruct (negb (limit =? 0) && (limit <=? rs_retry_count rs)) eqn:B; [done |].
  destruct (rs_terminal rs || rs_cancelled rs); [done |]. cbn [snd].
  apply push_event_ok, update_stats_ok; [| by intros []].
  apply update_request_ok; [exact O |]. intros rs' L' _ I []. split; [exact I |].
  assert (rs' = rs) as -> by congruence.
  destruct eo_retries0 as [U R]. unfold is_u32 in U.
  constructor; simpl; try done; unfold incr32; rewrite ?u32_mod, ?u64_mod.
  - zdm.
  - fold limit. split; [unfold is_u32; zdm |]. intros N P. specialize (R N P). fold limit in R.
    apply andb_false_iff in B as [B | B]; [apply negb_false_iff, Z.eqb_eq in B; contradiction |].
    apply Z.leb_gt in B. zdm.
Qed.

Lemma call_ok c f : fabric_ok f -> fabric_ok (call c f).
Proof.
  destruct c; simpl; intros O.
  - by apply submit_ok.
  - by apply cancel_ok.
  - by apply complete_ok.
  - by apply rollback_ok.
  - by apply retry_ok.
  - by apply push_event_ok.
  - by apply (fabric_ok_same f).
  - by apply (fabric_ok_same f).
Qed.
End ApiOk.

(** ** Lemmas: the critical sections of a cycle *)

Definition full_counters (s : Stats) : Stats := s <| st_full_accept_count ::= incr |>.
Definition partial_counters (s : Stats) : Stats :=
  s <| st_partial_accept_count ::= incr |> <| st_rollback_count ::= incr |>.
Definition reject_counters (s : Stats) : Stats :=
  s <| st_full_reject_count ::= incr |> <| st_rollback_count ::= incr |>.

Section CycleOk.
  Context `{Platform}.
  Implicit Types f : Fabric.

(** What else the three branches do: the branch list and the counters. *)
Lemma settle_branch_extra proposed keep cand p len rej prop rs o rs' o' cnt :
  settle_branch proposed keep cand p len rej prop rs o = Some (rs', o', cnt) ->
  (exists rx, rs_branches rs' = (fold_left (retire_step rx keep) proposed (rs_branches rs, 0)).1) /\
  (cnt = full_counters \/ cnt = partial_counters \/ cnt = reject_counters).
Proof.
  unfold settle_branch, commit_prefix. intros E.
  destruct (p =? len); [| destruct (0 <? p)].
  1,2: destruct (cand_size cand <? p); [discriminate |]; cbn [mbind option_bind] in E.
  all: match type of E with context [apply_verdict ?v ?e ?r ?o] =>
      destruct (apply_verdict v e r o) as [rs1 o1] eqn:V end;
    apply apply_verdict_spec in V as (m & q & -> & -> & _);
    match type of E with context [retire_others ?a ?b ?c ?d ?r] =>
      destruct (retire_others a b c d r) as [rb rs2] eqn:R end;
    apply retire_others_spec in R as (bs & -> & -> & _);
    injection E as <- _ <-; (split; [eexists; reflexivity |]); auto.
Qed.

Lemma stats_ok_settled cnt len p s :
  cnt = full_counters \/ cnt = partial_counters \/ cnt = reject_counters ->
  stats_ok s -> stats_ok (count_cycle len p (u32 (len - p)) (cnt s)).
Proof.
  intros C [V P Q T]. rewrite u64_mod in V.
  destruct C as [-> | [-> | ->]]; constructor; simpl; unfold incr;
    rewrite ?P, ?Q, ?u64_mod, ?u32_mod; try done; try zdm.
Qed.

Lemma settled_ids cand n prop a b :
  settled cand n prop a b -> entry_ok a -> get (prop_id prop) = zlen (rs_proposals a) + 1 ->
  NoDup (map br_id (rs_branches b)) -> rs_cancelled a = false ->
  entry_ok (b <| rs_cycle := mkMachine SpeculativePhase.Ready |> <| rs_completed_cycles ::= incr32 |>).
Proof.
  intros [B C G S SG P R E [T X] [At Rt] Rv Cy Ev] [O1 O2 O3 O4 O5 O6 O7 O8 O9 O10 O11 O12] Id N NC.
  assert (L : zlen (rs_committed b) = zlen (rs_committed a) + n)
    by (rewrite C, zlen_app, zlen_committed_tokens by done; lia).
  constructor; simpl; rewrite ?R, ?L; try done.
  - destruct G as [[-> ->] | ->]; [rewrite O1; f_equal; lia |]. simpl. rewrite O1.
    rewrite u64_add_l. f_equal. lia.
  - destruct G as [[-> G] | ->], S as [[-> S] | ->]; simpl; rewrite ?O2; try done;
      subst n; rewrite Z.add_0_r, O1, ?u64_u64; done.
  - by apply SG.
  - rewrite C. by apply prefix_app_r.
  - rewrite P, map_app, length_app, seq_app, map_app, O5. simpl. unfold zlen in Id. by rewrite Id.
  - rewrite Cy, O6, P, zlen_app, zlen_cons, zlen_nil. unfold incr32.
    rewrite !u32_mod. rewrite Z.add_mod_idemp_l by lia. f_equal; lia.
  - congruence.
  - by rewrite Rv, O9.
  - by rewrite At, Rt.
  - by rewrite Rt.
  - by rewrite Ev.
Qed.

Lemma entry_ok_apply_all es rs : entry_ok rs -> entry_ok (apply_all es rs).
Proof. intros []. by constructor. Qed.

Lemma update_stats_twice g h f :
  update_stats g (update_stats h f) = update_stats (fun s => g (h s)) f.
Proof. reflexivity. Qed.

Lemma scheduler_ok g f : fabric_ok f -> fabric_ok (f <| fb_scheduler ::= g |>).
Proof. by apply fabric_ok_same. Qed.

Lemma settle_ok id l proposed win wa rs f r f' :
  fabric_ok f -> fb_requests f !! id = Some rs -> rs_cancelled rs = false ->
  settle id l proposed win wa rs f = Some (r, f') -> fabric_ok f'.
Proof.
  intros O L NC E. apply settle_inv in E as (cand & rs' & o & cnt & _ & B & _ & ->).
  pose proof (settle_branch_extra _ _ _ _ _ _ _ _ _ _ _ _ B) as [[rx Br] C].
  apply settle_branch_spec in B; [| apply u32_range].
  apply push_event_ok. unfold settled_fabric. rewrite update_stats_twice.
  apply scheduler_ok, update_stats_ok; [| by apply stats_ok_settled].
  apply update_request_ok; [exact O |]. intros rs0 L0 _ I Ok0.
  assert (rs0 = rs) as -> by congruence. split.
  - simpl. rewrite (stl_req _ _ _ _ _ B). exact I.
  - eapply settled_ids; [exact B | by apply entry_ok_apply_all | done | | exact NC].
    rewrite Br. apply retire_fold_nodup. simpl. by destruct Ok0.
Qed.

Lemma finish_ok id l proposed accepted f r f' :
  fabric_ok f -> finish id l proposed accepted f = Some (r, f') -> fabric_ok f'.
Proof.
  intros O. unfold finish. destruct (fb_requests f !! id) as [rs |] eqn:L; [| by intros [= _ <-]].
  destruct (rs_terminal rs || rs_cancelled rs) eqn:C.
  - intros [= _ <-]. apply push_event_ok, update_stats_ok; [exact O | by intros []].
  - destruct (proposed !! _) as [win |]; [cbn [mbind option_bind] | discriminate].
    destruct (accepted !! _) as [wa |]; [cbn [mbind option_bind] | discriminate].
    apply orb_false_iff in C as [_ C]. by apply settle_ok.
Qed.

Lemma reset_phase_ok rs : entry_ok rs -> entry_ok (reset_phase rs).
Proof. intros []. unfold reset_phase. destruct (is_terminal_phase _); by constructor. Qed.

Lemma prepare_ok id f p f' :
  fabric_ok f -> prepare id f = Some (p, f') ->
  fabric_ok f' /\ (forall l, p = Go l -> is_Some (fb_requests f' !! id)).
Proof.
  intros O. unfold prepare. destruct (fb_requests f !! id) as [rs |] eqn:L.
  2: { by intros [= <- <-]. }
  destruct (rs_terminal rs); [by intros [= <- <-] |].
  destruct (rs_cancelled rs); [by intros [= <- <-] |].
  assert (D : fabric_ok (deadline_passed rs f).2 /\
              fb_requests (deadline_passed rs f).2 = fb_requests f)
    by (unfold deadline_passed; destruct (rq_deadline_ns _);
        by split; [apply (fabric_ok_same f) |]).
  destruct (deadline_passed rs f) as [b f1]; cbn [snd] in D.
  destruct D as [D Df]. destruct b.
  { intros [= <- <-]. split; [by apply push_event_ok | done]. }
  assert (V : fabric_ok (update_request id reset_phase f1)).
  { apply update_request_ok; [exact D |]. intros ? _ _ I Ok0. split; [| by apply reset_phase_ok].
    rewrite <- I. f_equal. unfold reset_phase. by destruct (is_terminal_phase _). }
  destruct (negb _).
  { intros [= <- <-]. split; [by apply push_event_ok | done]. }
  destruct (bp_blocked _).
  { intros [= <- <-]. split; [| done].
    apply push_event_ok, update_stats_ok; [exact V | by intros []]. }
  destruct (plan_proposal _ _ _ _ _ _) as [[plan rat] |]; [cbn [mbind option_bind] | discriminate].
  match goal with |- context [match cfg_proposer ?c with _ => _ end] =>
    destruct (cfg_proposer c), (cfg_verifier c) end; intros [= <- <-]; try by split.
  split.
  - apply update_request_ok; [exact V |]. intros ? _ _ I Ok0.
    split; [exact I | by apply entry_ok_apply_all].
  - intros _ _. unfold update_request. simpl. rewrite !lookup_alter_eq, Df, L. by eexists.
Qed.

Lemma thread_ok_evolves f f' t : fabric_evolves f f' -> thread_ok f t -> thread_ok f' t.
Proof.
  intros V. destruct t; simpl; try done; intros [rs L];
    destruct (V _ rs L) as (rs' & L' & _); by eexists.
Qed.

Lemma thread_step_ok t f t' f' :
  fabric_ok f -> thread_ok f t -> thread_step t f = (t', f') -> fabric_ok f' /\ thread_ok f' t'.
Proof.
  intros O T. pose proof (thread_step_evolves t f) as V.
  destruct t as [id | id l [| n] b pr | id l pr [| br todo] acc | r |]; cbn [thread_step] in *.
  - destruct (prepare id f) as [[[r | l] f1] |] eqn:E; intros [= <- <-]; try done;
      apply prepare_ok in E as [E G]; try done. split; [done | by apply (G l)].
  - by intros [= <- <-].
  - unfold read_proposal_input in *. pose proof (subscript_ok id f T) as S.
    destruct (subscript id f) as [rs f1]. simpl in S. subst f1.
    destruct (branch_result _ _ _); by intros [= <- <-].
  - destruct (finish id l pr acc f) as [[r f1] |] eqn:E; intros [= <- <-]; [| done].
    by apply finish_ok in E.
  - unfold read_verification_input in *. pose proof (subscript_ok id f T) as S.
    destruct (subscript id f) as [rs f1]. simpl in S. subst f1.
    destruct (pr_candidate _); cbn [mbind option_bind]; [| by intros [= <- <-]].
    destruct (verify _ _); by intros [= <- <-].
  - by intros [= <- <-].
  - by intros [= <- <-].
Qed.

Lemma sys_step_ok s s' : sys_step s s' -> system_ok s -> system_ok s'.
Proof.
  intros E [O T]. pose proof (sys_step_evolves _ _ E) as V.
  destruct E as [c f ts | id f ts | i t t' f f' ts L S]; simpl in *.
  - split; [by apply call_ok |]. eapply Forall_impl; [exact T |]. intros t.
    by apply thread_ok_evolves.
  - split; [done |]. simpl. apply Forall_app. split; [done | by constructor].
  - pose proof (Forall_lookup_1 _ _ _ _ T L) as Ti.
    apply thread_step_ok in S as [S1 S2]; [| done | done]. split; [done |]. simpl.
    apply Forall_insert; [| done]. eapply Forall_impl; [exact T |]. intros ?.
    by apply thread_ok_evolves.
Qed.

Lemma new_fabric_ok cfg : system_ok (new_fabric cfg, []).
Proof.
  split; [| constructor]. constructor; simpl; [| done | done].
  intros id rs _. simpl. by rewrite lookup_empty.
Qed.

(** C4: the engine invariant.  In every reachable system, for every request
    with a non-null identifier: the entry holds that request; both generations
    are the number of tokens committed beyond the prompt prefix; the committed
    tokens start with that prefix; proposals are numbered from 1 and counted by
    the completed cycles; branch identities are distinct and all retired after
    a cancellation; no reservation is ever held; the attempt counts the retries
    and stays within the limit.  The event logs respect their caps, the three
    verdict counters add up to the cycles, and accepted plus rejected tokens
    balance the proposed ones modulo 2^32. *)
Theorem reachable_system_ok cfg s : reachable cfg s -> system_ok s.
Proof.
  intros R. pose proof (new_fabric_ok cfg) as O. revert O. unfold reachable, sys_steps in R.
  induction R as [s | s1 s2 s3 E _ IH]; [done |]. intros O. by eapply IH, sys_step_ok.
Qed.
End CycleOk.
