(* ===== verification/CycleSpec.v ===== *)
(** * What one cycle does (specification of [run_cycle])

    The functional specification of an uninterrupted [run_cycle]: what it
    returns, what it commits, who wins, and when it cannot fail; against the
    executor contracts of Data.v. *)

From stdpp Require Import gmap.
From S2P Require Import Prelude Errors Ids Doubles Model Lifecycle Data Policy Scheduler.
From S2P Require Import Fabric Cycle Authority.

(** ** The abstract effect *)

(** The entry after a call that settled nothing: only the machine and the log
    may differ. *)
Definition untouched (a b : RequestState) : Prop :=
  exists m es, b = a <| rs_cycle := m |> <| rs_events := es |>.

(** An outcome that reports no settled cycle. *)
Definition not_settled (r : Result CycleOutcome) : Prop :=
  match r with
  | Failed _ => True
  | Ok o =>
      out_commit o = CommitResult_default /\ out_rollback o = RollbackResult_default /\
      out_accepted_tokens o = 0 /\ out_proposed_tokens o = 0 /\
      out_outcome o <> CycleOutcomeKind.VerificationSuccessFullAccept /\
      out_outcome o <> CycleOutcomeKind.VerificationSuccessPartialAccept /\
      out_outcome o <> CycleOutcomeKind.VerificationRejectAll
  end.

(** An outcome that reports [accepted] of [proposed] tokens committed in the
    state [rs]. *)
Definition reports (o : CycleOutcome) (accepted proposed : Z) (rs : RequestState) : Prop :=
  out_proposed_tokens o = proposed /\ out_accepted_tokens o = accepted /\
  out_rejected_tokens o = proposed - accepted /\
  rb_success (out_rollback o) = true /\
  (out_outcome o = CycleOutcomeKind.VerificationSuccessFullAccept <-> accepted = proposed) /\
  (out_outcome o = CycleOutcomeKind.VerificationSuccessPartialAccept <->
   0 < accepted < proposed) /\
  (out_outcome o = CycleOutcomeKind.VerificationRejectAll <->
   accepted = 0 /\ accepted <> proposed) /\
  (cr_success (out_commit o) = true <-> 0 < accepted \/ accepted = proposed) /\
  (cr_success (out_commit o) = true ->
   cr_committed_tokens (out_commit o) = accepted /\
   cr_new_generation (out_commit o) = rs_auth_gen rs /\
   cr_new_state (out_commit o) = rs_auth_state rs).

(** ** The winner *)

(** Branch [i] is at least as good as branch [j]: more tokens accepted, or as
    many on a branch that is not later. *)
Definition beats (proposed : list BranchResult) (accepted : list AcceptanceResult)
    (i j : nat) : Prop :=
  prefix_of accepted j < prefix_of accepted i \/
  prefix_of accepted j = prefix_of accepted i /\
  branch_of proposed i <= branch_of proposed j.

Section Winner.
  Context (proposed : list BranchResult) (accepted : list AcceptanceResult).

Lemma beats_refl i : beats proposed accepted i i.
Proof. right. lia. Qed.

Lemma beats_trans i j k :
  beats proposed accepted i j -> beats proposed accepted j k -> beats proposed accepted i k.
Proof. unfold beats. lia. Qed.

Lemma better_beats w i :
  let b := better proposed accepted w i in
  (b = w \/ b = i) /\ beats proposed accepted b w /\ beats proposed accepted b i.
Proof.
  unfold better, beats. destruct (Z.ltb_spec (prefix_of accepted w) (prefix_of accepted i)).
  - split; [by right | lia].
  - destruct (Z.eqb_spec (prefix_of accepted i) (prefix_of accepted w));
      destruct (Z.ltb_spec (branch_of proposed i) (branch_of proposed w)); simpl;
      (split; [by (left + right) | lia]).
Qed.

Lemma fold_better js : forall w,
  let b := fold_left (better proposed accepted) js w in
  (b = w \/ b ∈ js) /\ beats proposed accepted b w /\
  Forall (fun i => beats proposed accepted b i) js.
Proof.
  induction js as [| i js IH]; intros w; simpl; [split; [by left | split; [apply beats_refl | done]] |].
  destruct (better_beats w i) as (B & Bw & Bi).
  specialize (IH (better proposed accepted w i)). simpl in IH. destruct IH as (I & J & K).
  split; [| split].
  - destruct I as [-> | I]; [| right; by apply list_elem_of_further].
    destruct B as [-> | ->]; [by left | right; apply list_elem_of_here].
  - by eapply beats_trans.
  - constructor; [by eapply beats_trans | done].
Qed.

Lemma select_winner_bounds :
  accepted <> [] ->
  let w := select_winner proposed accepted in
  (w < length accepted)%nat /\
  forall i, (i < length accepted)%nat -> beats proposed accepted w i.
Proof.
  intros N. unfold select_winner. pose proof (fold_better (seq 1 (length accepted - 1)) 0%nat) as F.
  cbv zeta in *. destruct F as (I & J & K).
  assert (0 < length accepted)%nat by (destruct accepted; [done | simpl; lia]). split.
  - destruct I as [-> | I%elem_of_seq]; lia.
  - intros [| i] Hi; [exact J |]. rewrite Forall_forall in K. apply K, elem_of_seq. lia.
Qed.

(** The winner is the best branch.  Among the verified branches the
    selected index is in range, no branch has a longer accepted prefix, and of
    the branches with that prefix it is the one with the lowest identifier. *)
Theorem select_winner_correct :
  accepted <> [] ->
  let w := select_winner proposed accepted in
  (w < length accepted)%nat /\
  forall i, (i < length accepted)%nat -> beats proposed accepted w i.
Proof. exact select_winner_bounds. Qed.
End Winner.

(** ** Lemmas: the loops without interference *)

Section Loops.
  Context `{Platform}.
  Implicit Types f : Fabric.

Lemma propose_loop_spec id l rs n : forall b f res f',
  fb_requests f !! id = Some rs -> propose_loop id l n b f = (res, f') ->
  f' = f /\
  match res with
  | Ok proposed =>
      length proposed = n /\
      forall k br, proposed !! k = Some br ->
        propose (lc_proposer l) (proposal_input id l (b + Z.of_nat k) rs) = Ok (bres_pr br) /\
        bres_branch br = branch_id (b + Z.of_nat k) /\
        bres_proposer_model br = rq_draft_model (rs_req rs)
  | Failed e =>
      exists k, (k < n)%nat /\
        propose (lc_proposer l) (proposal_input id l (b + Z.of_nat k) rs) = Failed e
  end.
Proof.
  induction n as [| n IH]; intros b f res f' L; cbn [propose_loop].
  - intros [= <- <-]. split_and!; [done | done | by intros k br; rewrite lookup_nil].
  - unfold read_proposal_input, subscript. rewrite L. unfold branch_result.
    destruct (propose _ _) as [pr | e] eqn:P; cbn [result_map].
    + destruct (propose_loop id l n (b + 1) f) as [rest f1] eqn:R.
      apply IH in R as [-> R]; [| done]. intros [= <- <-]. split; [done |].
      destruct rest as [rest | e]; cbn [result_map].
      * destruct R as [Ln R]. split; [simpl; lia |]. intros [| k] br; simpl.
        -- intros [= <-]. simpl. rewrite Z.add_0_r. by rewrite P.
        -- intros Hk. apply R in Hk.
           by replace (b + Z.of_nat (S k)) with (b + 1 + Z.of_nat k) by lia.
      * destruct R as (k & Hk & E). exists (S k). split; [lia |].
        by replace (b + Z.of_nat (S k)) with (b + 1 + Z.of_nat k) by lia.
    + intros [= <- <-]. split; [done |]. exists 0%nat. rewrite Z.add_0_r. split; [lia | done].
Qed.

(** The verification of one branch. *)
Definition verified (id : RequestId) (l : Local) (rs : RequestState) (br : BranchResult)
    (a : AcceptanceResult) : Prop :=
  exists cand, pr_candidate (bres_pr br) = Some cand /\
    verify (lc_verifier l) (verification_input id l br cand rs) = Ok a.

Lemma verify_loop_spec id l rs todo : forall f res f',
  fb_requests f !! id = Some rs -> verify_loop id l todo f = Some (res, f') ->
  f' = f /\ match res with
            | Ok accepted => Forall2 (verified id l rs) todo accepted
            | Failed _ => True
            end.
Proof.
  induction todo as [| br todo IH]; intros f res f' L; cbn [verify_loop].
  - intros [= <- <-]. by split.
  - unfold read_verification_input, subscript. rewrite L.
    destruct (pr_candidate _) as [cand |] eqn:C; cbn [mbind option_bind]; [| discriminate].
    destruct (verify _ _) as [a | e] eqn:V; [| by intros [= <- <-]].
    destruct (verify_loop id l todo f) as [[rest f1] |] eqn:R; cbn [mbind option_bind];
      [| discriminate].
    apply IH in R as [-> R]; [| done]. intros [= <- <-]. split; [done |].
    destruct rest as [rest | e]; cbn [result_map]; [| done]. constructor; [| exact R].
    by exists cand.
Qed.

(** When every branch has a candidate and the verifier answers, so does the
    loop. *)
Lemma verify_loop_total id l rs todo f :
  fb_requests f !! id = Some rs ->
  Forall (fun br => exists a, verified id l rs br a) todo ->
  exists accepted, verify_loop id l todo f = Some (Ok accepted, f) /\
    Forall2 (verified id l rs) todo accepted.
Proof.
  intros L. induction 1 as [| br todo (a & cand & C & V) _ (rest & R & F)]; cbn [verify_loop].
  - by exists [].
  - exists (a :: rest). split; [| constructor; [by exists cand | exact F]].
    unfold read_verification_input, subscript. rewrite L, C. cbn [mbind option_bind].
    by rewrite V, R.
Qed.

Lemma propose_loop_total id l rs n : forall b f,
  fb_requests f !! id = Some rs ->
  (forall k, (k < n)%nat ->
     has_value (propose (lc_proposer l) (proposal_input id l (b + Z.of_nat k) rs)) = true) ->
  exists proposed, propose_loop id l n b f = (Ok proposed, f).
Proof.
  induction n as [| n IH]; intros b f L P; cbn [propose_loop]; [by exists [] |].
  unfold read_proposal_input, subscript. rewrite L. unfold branch_result.
  pose proof (P 0%nat ltac:(lia)) as P0. rewrite Z.add_0_r in P0.
  destruct (propose _ _) as [pr | e] eqn:E; [cbn [result_map] | discriminate].
  destruct (IH (b + 1) f L) as [rest R].
  - intros k Hk. replace (b + 1 + Z.of_nat k) with (b + Z.of_nat (S k)) by lia. apply P. lia.
  - rewrite R. by eexists.
Qed.
End Loops.

(** ** Lemmas: preparing and settling *)

Section Parts.
  Context `{Platform}.
  Implicit Types f : Fabric.

Lemma untouched_refl rs : untouched rs rs.
Proof. exists (rs_cycle rs), (rs_events rs). by destruct rs. Qed.

Lemma apply_all_untouched es rs rs' : untouched rs rs' -> untouched rs (apply_all es rs').
Proof.
  intros (m & ev & ->). exists (fold_left (fun m e => apply_ e m) es m), ev. by destruct rs.
Qed.

Lemma lookup_push_event id t d j f rs :
  fb_requests f !! id = Some rs ->
  exists es, fb_requests (push_event id t d j f) !! id = Some (rs <| rs_events := es |>).
Proof.
  intros L. unfold push_event, monotonic_ns, update_request. simpl.
  rewrite lookup_alter_eq, L. simpl. by eexists.
Qed.

Lemma lookup_update_request id upd f rs :
  fb_requests f !! id = Some rs -> fb_requests (update_request id upd f) !! id = Some (upd rs).
Proof. intros L. unfold update_request. simpl. by rewrite lookup_alter_eq, L. Qed.

Lemma reset_phase_untouched rs : exists m, reset_phase rs = rs <| rs_cycle := m |>.
Proof.
  unfold reset_phase. destruct (is_terminal_phase _); [by eexists |].
  exists (rs_cycle rs). by destruct rs.
Qed.

(** What the first critical section leaves behind. *)
Lemma prepare_spec id f p f' rs :
  fb_requests f !! id = Some rs -> prepare id f = Some (p, f') ->
  exists rs', fb_requests f' !! id = Some rs' /\ untouched rs rs' /\
    match p with
    | Done r => not_settled r /\ has_value r = true
    | Go l =>
        ~ closed rs /\
        cfg_proposer (fb_impl_cfg f) = Some (lc_proposer l) /\
        cfg_verifier (fb_impl_cfg f) = Some (lc_verifier l) /\
        1 <= lc_branch_count l /\
        exists plan rat, plan_proposal (fb_scheduler f) (rs_req rs) (rs_auth_gen rs) 0 0
                           (double_of 0) = Some (plan, rat) /\
          lc_depth l = Z.max 1 (pl_depth plan) /\
          lc_branch_count l = Z.max 1 (pl_branch_count plan)
    end.
Proof.
  intros L. unfold prepare. rewrite L.
  destruct (rs_terminal rs) eqn:T.
  { intros [= <- <-]. exists rs. split_and!; [done | apply untouched_refl | by split_and! | done]. }
  destruct (rs_cancelled rs) eqn:C.
  { intros [= <- <-]. exists rs. split_and!; [done | apply untouched_refl | by split_and! | done]. }
  assert (D : let f1 := (deadline_passed rs f).2 in fb_requests f1 = fb_requests f /\
              fb_impl_cfg f1 = fb_impl_cfg f /\ fb_scheduler f1 = fb_scheduler f)
    by (unfold deadline_passed; by destruct (rq_deadline_ns _)).
  destruct (deadline_passed rs f) as [b f1]. cbn [snd] in D. destruct D as (D1 & D2 & D3).
  rewrite <- D1 in L. destruct b.
  { intros [= <- <-]. destruct (lookup_push_event id "cycle.expired" "deadline passed" "{}" f1 rs L)
      as [es Le]. exists (rs <| rs_events := es |>). split_and!; [done | | by split_and! | done].
    exists (rs_cycle rs), es. by destruct rs. }
  destruct (reset_phase_untouched rs) as [m0 R].
  pose proof (lookup_update_request id reset_phase f1 rs L) as L1. rewrite R in L1.
  set (f2 := update_request id reset_phase f1) in *.
  assert (P : forall t d j g, fb_requests g = fb_requests f2 ->
    exists rs', fb_requests (push_event id t d j g) !! id = Some rs' /\ untouched rs rs').
  { intros t d j g Eg. rewrite <- Eg in L1.
    destruct (lookup_push_event id t d j g _ L1) as [es Le].
    eexists. split; [exact Le |]. by exists m0, es. }
  destruct (negb _).
  { intros [= <- <-]. match goal with |- context [push_event _ ?t ?d ?j f2] =>
      destruct (P t d j f2 eq_refl) as (rs' & L' & U') end. exists rs'. by split_and!. }
  destruct (bp_blocked _).
  { intros [= <- <-]. match goal with |- context [push_event _ ?t ?d ?j ?g] =>
      destruct (P t d j g eq_refl) as (rs' & L' & U') end. exists rs'. by split_and!. }
  change (fb_scheduler f2) with (fb_scheduler f1). rewrite D3.
  change (fb_impl_cfg f2) with (fb_impl_cfg f1). rewrite D2.
  destruct (plan_proposal _ _ _ _ _ _) as [[plan rat] |] eqn:Pl;
    [cbn [mbind option_bind] | discriminate].
  assert (U : untouched rs (rs <| rs_cycle := m0 |>)) by (exists m0, (rs_events rs); by destruct rs).
  destruct (cfg_proposer (fb_impl_cfg f)), (cfg_verifier (fb_impl_cfg f)); intros [= <- <-].
  2,3,4: exists (rs <| rs_cycle := m0 |>); split_and!; [done | done | by split_and! | done].
  eexists. split; [by apply lookup_update_request |]. split.
  - by apply apply_all_untouched.
  - split_and!; try done; [intros [K | K]; congruence | simpl; lia | by exists plan, rat].
Qed.

(** The effect of a settled cycle on the entry, whoever won. *)
Record cycle_effect (cand : CandidateSequence) (n : Z) (a b : RequestState) : Prop := {
  ce_bound : 0 <= n <= cand_size cand;
  ce_committed :
    rs_committed b = rs_committed a ++ map tk_id (take (Z.to_nat n) (tokens cand));
  ce_generation : advance (get (rs_auth_gen a)) (get (rs_auth_gen b)) n;
  ce_state_generation :
    advance (get (sr_generation (rs_auth_state a))) (get (sr_generation (rs_auth_state b))) n;
  ce_proposal : exists prop, rs_proposals b = rs_proposals a ++ [prop] /\
    prop_candidate prop = cand /\ prop_finalized prop = true /\
    (prop_committed prop = true <-> 0 < n);
  ce_request : rs_req b = rs_req a /\ rs_attempt b = rs_attempt a;
  ce_status : rs_terminal b = rs_terminal a /\ rs_cancelled b = rs_cancelled a /\
    rs_retry_count b = rs_retry_count a
}.

Lemma settled_effect cand p prop a b :
  0 <= p -> cand_size cand < 4294967296 ->
  settled cand (committed_count p (u32 (cand_size cand))) prop a b ->
  prop_candidate prop = cand -> prop_finalized prop = true -> prop_committed prop = (0 <? p) ->
  cycle_effect cand p a b.
Proof.
  intros Hp Hc S E1 E2 E3. pose proof (cand_size_nonneg cand).
  assert (Ec : committed_count p (u32 (cand_size cand)) = p)
    by (unfold committed_count; case_ztest; lia).
  rewrite Ec in S. destruct S as [B C G St _ P R _ [T X] [At Rt] _ _ _]. constructor; try done.
  - destruct G as [[-> ->] | ->]; [apply advance_0 | apply advance_u64].
  - destruct St as [[-> ->] | ->]; [apply advance_0 | apply advance_u64].
  - exists prop. split_and!; try done. rewrite E3. apply Z.ltb_lt.
Qed.

(** What the three branches report. *)
Lemma settle_branch_reports proposed keep cand p prop rs o rs' o' cnt :
  let len := cand_size cand in
  is_u32 len -> 0 <= p <= len -> out_commit o = CommitResult_default ->
  out_proposed_tokens o = len ->
  settle_branch proposed keep cand p len (u32 (len - p)) prop rs o = Some (rs', o', cnt) ->
  reports o' p len rs'.
Proof.
  intros len Hl Hp Oc Op E. unfold is_u32 in Hl.
  rewrite u32_small in E by (unfold is_u32; lia). unfold settle_branch in E.
  destruct (Z.eqb_spec p len) as [Ep |]; [| destruct (Z.ltb_spec 0 p) as [Hp0 | Hp0]].
  1,2: unfold commit_prefix in E; destruct (Z.ltb_spec (cand_size cand) p); [discriminate |];
    cbn [mbind option_bind] in E.
  all: match type of E with context [apply_verdict ?v ?e ?r ?o] =>
      destruct (apply_verdict v e r o) as [rs1 o1] eqn:V end;
    apply apply_verdict_spec in V as (m & q & -> & -> & _);
    match type of E with context [retire_others ?a ?b ?c ?d ?r] =>
      destruct (retire_others a b c d r) as [rb rs2] eqn:R end;
    unfold retire_others in R; destruct (fold_left _ _ _) as [bs k];
    injection R as <- <-; injection E as <- <- _; unfold reports; simpl;
    rewrite ?Oc, ?Op; simpl; split_and!; (done || lia || naive_solver lia).
Qed.

(** A state update that leaves the reported fields alone. *)
Lemma reports_same o n m a b :
  rs_auth_gen b = rs_auth_gen a -> rs_auth_state b = rs_auth_state a ->
  reports o n m a -> reports o n m b.
Proof. unfold reports. by intros -> ->. Qed.

Lemma finish_spec id l proposed accepted f rs r f' :
  fb_requests f !! id = Some rs -> ~ closed rs ->
  Forall2 (verified id l rs) proposed accepted ->
  Forall (fun br => forall c, pr_candidate (bres_pr br) = Some c -> is_u32 (cand_size c)) proposed ->
  VerifierContract (lc_verifier l) ->
  finish id l proposed accepted f = Some (r, f') ->
  exists o br a cand rs' w,
    r = Ok o /\ w = select_winner proposed accepted /\
    proposed !! w = Some br /\ accepted !! w = Some a /\ pr_candidate (bres_pr br) = Some cand /\
    verify (lc_verifier l) (verification_input id l br cand rs) = Ok a /\
    fb_requests f' !! id = Some rs' /\
    cycle_effect cand (ar_accepted_prefix a) rs rs' /\
    reports o (ar_accepted_prefix a) (cand_size cand) rs'.
Proof.
  intros L NC F2 Fit VC. unfold finish. rewrite L.
  destruct (rs_terminal rs || rs_cancelled rs) eqn:T.
  { exfalso. apply NC. apply orb_true_iff in T. exact T. }
  destruct (proposed !! _) as [br |] eqn:Lp; [cbn [mbind option_bind] | discriminate].
  destruct (accepted !! _) as [a |] eqn:La; [cbn [mbind option_bind] | discriminate].
  intros E. apply settle_inv in E as (cand & rs1 & o & cnt & Cd & B & -> & ->).
  destruct (Forall2_lookup_lr _ _ _ _ _ _ F2 Lp La) as (cand' & Cd' & V).
  assert (cand' = cand) as -> by congruence.
  pose proof (Forall_lookup_1 _ _ _ _ Fit Lp cand Cd) as Hc.
  pose proof (verifier_bound _ _ V) as Hp. cbn [vi_candidate] in Hp.
  change (vi_candidate (verification_input id l br cand rs)) with cand in Hp.
  assert (Eu : u32 (cand_size cand) = cand_size cand) by (by apply u32_small).
  pose proof (settle_branch_spec _ _ _ _ _ _ _ _ _ _ _ _ (proj1 (u32_range _)) B) as S.
  apply settled_effect in S; [| lia | unfold is_u32 in Hc; lia | done | done | done].
  rewrite Eu in B. apply settle_branch_reports in B as Rp; [| done | lia | done | done].
  match goal with |- context [push_event id ?t ?d ?j ?g] =>
    destruct (lookup_push_event id t d j g
      (rs1 <| rs_cycle := mkMachine SpeculativePhase.Ready |> <| rs_completed_cycles ::= incr32 |>))
      as [es Le] end.
  { unfold settled_fabric. simpl. by rewrite lookup_alter_eq, L. }
  eexists o, br, a, cand, _, _. split_and!; try done. destruct S. by constructor.
Qed.

(** The depth a cycle asks for fits the policy. *)
Lemma planned_depth s req gen plan rat :
  1 <= pol_max_depth (sch_policy s) < 2147483648 ->
  plan_proposal s req gen 0 0 (double_of 0) = Some (plan, rat) ->
  1 <= Z.max 1 (pl_depth plan) <= pol_max_depth (sch_policy s).
Proof.
  intros Hm. unfold plan_proposal.
  destruct (plan_depth_bounds s 0 0 (double_of 0) Hm ltac:(lia)) as (d & -> & Hd).
  cbn [mbind option_bind]. intros [= <- _]. simpl. lia.
Qed.
End Parts.

(** What a cycle asks of its executors and its policy. *)
Record executors_ok (f : Fabric) : Prop := {
  xo_proposer : forall p, cfg_proposer (fb_impl_cfg f) = Some p -> ProposerContract p;
  xo_verifier : forall v, cfg_verifier (fb_impl_cfg f) = Some v -> VerifierContract v;
  xo_depth : 1 <= pol_max_depth (sch_policy (fb_scheduler f)) < 2147483648
}.

(** The [i]-th branch of a cycle as its executors saw it: the proposal made for
    the request as it was, and its verification. *)
Definition branch_run (id : RequestId) (l : Local) (rs : RequestState) (b : Z)
    (cand : CandidateSequence) (a : AcceptanceResult) : Prop :=
  exists br,
    propose (lc_proposer l) (proposal_input id l b rs) = Ok (bres_pr br) /\
    bres_branch br = branch_id b /\ bres_proposer_model br = rq_draft_model (rs_req rs) /\
    pr_candidate (bres_pr br) = Some cand /\
    verify (lc_verifier l) (verification_input id l br cand rs) = Ok a.

Section RunSpec.
  Context `{Platform}.
  Implicit Types f : Fabric.

Lemma untouched_same id l b a a' :
  untouched a a' -> proposal_input id l b a' = proposal_input id l b a /\
  (forall br c, verification_input id l br c a' = verification_input id l br c a).
Proof. intros (m & es & ->). by split. Qed.

Lemma untouched_effect cand n a a' b :
  untouched a a' -> cycle_effect cand n a' b -> cycle_effect cand n a b.
Proof. intros (m & es & ->) []. by constructor. Qed.

Lemma untouched_closed a a' : untouched a a' -> closed a' <-> closed a.
Proof. by intros (m & es & ->). Qed.

(** The effect of a cycle on the entry it is called for. *)
Lemma run_cycle_effect id f rs r f' :
  executors_ok f -> fb_requests f !! id = Some rs -> run_cycle id f = Some (r, f') ->
  exists rs', fb_requests f' !! id = Some rs' /\
    ((not_settled r /\ untouched rs rs') \/
     (exists o l b cand a,
        r = Ok o /\ ~ closed rs /\ 0 <= b < lc_branch_count l /\
        branch_run id l rs b cand a /\ cand_size cand = lc_depth l /\
        cycle_effect cand (ar_accepted_prefix a) rs rs' /\
        reports o (ar_accepted_prefix a) (cand_size cand) rs')).
Proof.
  intros [XP XV XD] L. unfold run_cycle.
  destruct (prepare id f) as [[p f1] |] eqn:P; [cbn [mbind option_bind] | discriminate].
  destruct (prepare_spec id f p f1 rs L P) as (rs1 & L1 & U & G).
  destruct p as [r0 | l].
  { intros [= <- <-]. exists rs1. destruct G as [G _]. split; [done | by left]. }
  destruct G as (NC & Cp & Cv & Hb & plan & rat & Pl & Ed & _).
  pose proof (planned_depth _ _ _ _ _ XD Pl) as Hd. rewrite <- Ed in Hd.
  assert (Hd32 : is_u32 (lc_depth l)) by (unfold is_u32; lia).
  destruct (propose_loop _ _ _ _ _) as [res f2] eqn:Q.
  apply (propose_loop_spec _ _ rs1) in Q as [-> Q]; [| done].
  destruct res as [proposed | e]; [| intros [= <- <-]; exists rs1; split; [done | by left]].
  destruct Q as [Ln Q].
  destruct (verify_loop _ _ _ _) as [[res f3] |] eqn:W; [cbn [mbind option_bind] | discriminate].
  apply (verify_loop_spec _ _ rs1) in W as [-> W]; [| done].
  destruct res as [accepted | e]; [| intros [= <- <-]; exists rs1; split; [done | by left]].
  assert (Dp : forall k br c, proposed !! k = Some br -> pr_candidate (bres_pr br) = Some c ->
                 cand_size c = lc_depth l).
  { intros k br c Lk Hc. apply Q in Lk as (Pk & _).
    pose proof (XP _ Cp) as C.
    by destruct (proposer_candidate (proposal_input id l (0 + Z.of_nat k) rs1) _ c Hd32 Pk Hc). }
  intros E. apply (finish_spec _ _ _ _ _ rs1) in E; try done.
  - destruct E as (o & br & a & cand & rs' & w & -> & _ & Lp & La & Hc & V & L' & Ef & Rp).
    exists rs'. split; [done |]. right.
    pose proof (Dp _ _ _ Lp Hc) as Sz. pose proof (lookup_lt_Some _ _ _ Lp) as Hw.
    apply Q in Lp as (Pk & Bk & Mk).
    destruct (untouched_same id l (0 + Z.of_nat w) rs rs1 U) as [EP EV].
    exists o, l, (0 + Z.of_nat w), cand, a. split_and!; try done; [lia | lia | |].
    + exists br. rewrite EP in Pk. rewrite EV in V. destruct U as (m & es & ->). by split_and!.
    + by eapply untouched_effect.
  - by rewrite (untouched_closed _ _ U).
  - apply Forall_lookup. intros k br Lk c Hc. by rewrite (Dp k br c Lk Hc).
  - by apply XV.
Qed.

(** C1: what a cycle commits.  For executors that keep their contracts and a
    policy depth of a positive [int], a call of [run_cycle] on a registered
    request either settles nothing - the entry keeps all but its phase and log,
    and the outcome reports no commit - or it settles one branch of the cycle:
    the request was live, the proposer made that candidate and the verifier
    judged it on the request's own authoritative state; exactly the accepted
    prefix is appended to the committed tokens, both generations advance by its
    length, one proposal is recorded, and the outcome, its kind, its commit
    record and its token counts say exactly that. *)
Theorem run_cycle_correct id f rs r f' :
  executors_ok f -> fb_requests f !! id = Some rs -> run_cycle id f = Some (r, f') ->
  exists rs', fb_requests f' !! id = Some rs' /\
    ((not_settled r /\ untouched rs rs') \/
     (exists o l b cand a,
        r = Ok o /\ ~ closed rs /\ 0 <= b < lc_branch_count l /\
        branch_run id l rs b cand a /\ cand_size cand = lc_depth l /\
        cycle_effect cand (ar_accepted_prefix a) rs rs' /\
        reports o (ar_accepted_prefix a) (cand_size cand) rs')).
Proof. apply run_cycle_effect. Qed.

Lemma prepare_total id f :
  1 <= pol_max_depth (sch_policy (fb_scheduler f)) < 2147483648 ->
  exists p f', prepare id f = Some (p, f').
Proof.
  intros XD. unfold prepare. destruct (fb_requests f !! id) as [rs |]; [| by eexists _, _].
  destruct (rs_terminal rs); [by eexists _, _ |]. destruct (rs_cancelled rs); [by eexists _, _ |].
  assert (D : fb_scheduler (deadline_passed rs f).2 = fb_scheduler f)
    by (unfold deadline_passed; by destruct (rq_deadline_ns _)).
  destruct (deadline_passed rs f) as [[] f1]; [by eexists _, _ |].
  destruct (negb _); [by eexists _, _ |]. destruct (bp_blocked _); [by eexists _, _ |].
  cbn [snd] in D. change (fb_scheduler (update_request id reset_phase f1)) with (fb_scheduler f1).
  rewrite D. unfold plan_proposal.
  destruct (plan_depth_bounds (fb_scheduler f) 0 0 (double_of 0) XD ltac:(lia)) as (d & -> & _).
  cbn [mbind option_bind].
  match goal with |- context [match cfg_proposer ?c with _ => _ end] =>
    destruct (cfg_proposer c), (cfg_verifier c) end; by eexists _, _.
Qed.

Lemma settle_total id l proposed win wa rs f cand :
  pr_candidate (bres_pr win) = Some cand -> 0 <= ar_accepted_prefix wa <= cand_size cand ->
  exists o f', settle id l proposed win wa rs f = Some (Ok o, f').
Proof.
  intros C B. unfold settle. rewrite C. cbn [mbind option_bind].
  assert (T : forall keep len rej prop r o, exists r' o' cnt,
    settle_branch proposed keep cand (ar_accepted_prefix wa) len rej prop r o = Some (r', o', cnt)).
  { intros. unfold settle_branch, commit_prefix. rewrite (proj2 (Z.ltb_ge _ _)) by lia.
    cbn [mbind option_bind].
    destruct (_ =? _); [| destruct (0 <? _)];
      (destruct (apply_verdict _ _ _ _)); (destruct (retire_others _ _ _ _ _));
      by eexists _, _, _. }
  match goal with |- context [settle_branch ?a ?b ?c ?d ?e ?g ?h ?i ?j] =>
    destruct (T b e g h i j) as (r' & o' & cnt & ->) end.
  by eexists _, _.
Qed.

(** Executors that answer, with a proposer that succeeds on every depth the
    policy can ask for. *)
Record executors_answer (f : Fabric) : Prop := {
  xa_proposer : forall p i, cfg_proposer (fb_impl_cfg f) = Some p ->
    1 <= pi_depth i <= pol_max_depth (sch_policy (fb_scheduler f)) -> pi_compute_budget i = 0 ->
    exists r, propose p i = Ok r /\ pr_outcome r = ProposalOutcome.Success;
  xa_verifier : forall v i, cfg_verifier (fb_impl_cfg f) = Some v -> has_value (verify v i) = true
}.

(** Once prepared, the cycle runs to its last critical section. *)
Lemma run_cycle_go id f f1 l rs rs1 :
  executors_ok f -> executors_answer f -> fb_requests f !! id = Some rs ->
  prepare id f = Some (Go l, f1) -> fb_requests f1 !! id = Some rs1 ->
  exists proposed accepted,
    run_cycle id f = finish id l proposed accepted f1 /\
    length proposed = Z.to_nat (lc_branch_count l) /\ proposed <> [] /\
    Forall2 (verified id l rs1) proposed accepted /\
    (forall k br, proposed !! k = Some br ->
       propose (lc_proposer l) (proposal_input id l (0 + Z.of_nat k) rs1) = Ok (bres_pr br) /\
       bres_branch br = branch_id (0 + Z.of_nat k) /\
       bres_proposer_model br = rq_draft_model (rs_req rs1)).
Proof.
  intros [XP XV XD] [PT VT] L P L1. unfold run_cycle. rewrite P. cbn [mbind option_bind].
  destruct (prepare_spec id f _ f1 rs L P) as (rs1' & L1' & U & G).
  assert (rs1' = rs1) as -> by congruence.
  destruct G as (NC & Cp & Cv & Hb & plan & rat & Pl & Ed & _).
  pose proof (planned_depth _ _ _ _ _ XD Pl) as Hd. rewrite <- Ed in Hd.
  assert (Hd32 : is_u32 (lc_depth l)) by (unfold is_u32; lia).
  destruct (propose_loop_total id l rs1 (Z.to_nat (lc_branch_count l)) 0 f1 L1) as [proposed Q].
  { intros k _. destruct (PT _ (proposal_input id l (0 + Z.of_nat k) rs1) Cp Hd eq_refl)
      as (pr & -> & _). done. }
  rewrite Q. apply (propose_loop_spec _ _ rs1) in Q as [_ [Ln Q]]; [| done].
  pose proof (XP _ Cp) as PC.
  destruct (verify_loop_total id l rs1 proposed f1 L1) as (accepted & W & F2).
  { apply Forall_lookup. intros k br Lk. apply Q in Lk as (Pk & _).
    destruct (PT _ (proposal_input id l (0 + Z.of_nat k) rs1) Cp Hd eq_refl) as (pr & Pk' & So).
    rewrite Pk in Pk'. injection Pk' as <-.
    destruct (proposer_success (proposal_input id l (0 + Z.of_nat k) rs1) _ Hd32 Pk So)
      as [cand Hc].
    pose proof (VT _ (verification_input id l br cand rs1) Cv) as Va.
    destruct (verify _ _) as [a |] eqn:V; [| discriminate]. by exists a, cand. }
  exists proposed, accepted. rewrite W. cbn [mbind option_bind].
  split_and!; try done. intros ->. simpl in Ln. lia.
Qed.

(** The last critical section of a complete cycle is defined. *)
Lemma finish_total id l proposed accepted f rs :
  fb_requests f !! id = Some rs -> proposed <> [] ->
  Forall2 (verified id l rs) proposed accepted -> VerifierContract (lc_verifier l) ->
  exists o f', finish id l proposed accepted f = Some (Ok o, f').
Proof.
  intros L N F2 VC. unfold finish. rewrite L.
  destruct (rs_terminal rs || rs_cancelled rs) eqn:T; [by eexists _, _ |].
  pose proof (Forall2_length _ _ _ F2) as Len.
  assert (Na : accepted <> []) by (destruct proposed, accepted; simpl in *; done).
  destruct (select_winner_bounds proposed accepted Na) as [Hw _].
  destruct (lookup_lt_is_Some_2 _ _ Hw) as [a La].
  destruct (lookup_lt_is_Some_2 proposed (select_winner proposed accepted)) as [br Lp]; [lia |].
  rewrite Lp, La. cbn [mbind option_bind].
  destruct (Forall2_lookup_lr _ _ _ _ _ _ F2 Lp La) as (cand & Hc & V).
  destruct (settle_total id l proposed br a rs f cand Hc) as (o & f' & ->);
    [by apply (verifier_bound _ _ V) | by eexists _, _].
Qed.

Lemma run_cycle_returns id f rs :
  executors_ok f -> executors_answer f -> fb_requests f !! id = Some rs ->
  exists r f', run_cycle id f = Some (r, f') /\ has_value r = true.
Proof.
  intros X A L. destruct (prepare_total id f (xo_depth _ X)) as (p & f1 & P).
  destruct (prepare_spec id f p f1 rs L P) as (rs1 & L1 & U & G).
  destruct p as [r | l].
  { exists r, f1. unfold run_cycle. rewrite P. cbn [mbind option_bind]. by destruct G. }
  destruct (run_cycle_go id f f1 l rs rs1 X A L P L1) as (pr & ac & -> & _ & N & F2 & _).
  destruct G as (_ & _ & Cv & _).
  destruct (finish_total id l pr ac f1 rs1 L1 N F2 (xo_verifier _ X _ Cv)) as (o & f' & ->).
  by exists (Ok o), f'.
Qed.

(** C6: a cycle always finishes.  If the executors keep their contracts and
    moreover answer, and the proposer succeeds on every depth the policy can
    ask for, then [run_cycle] is defined in every state - it never runs into
    undefined behaviour - and on a registered request it returns an outcome,
    not an error. *)
Theorem run_cycle_total id f :
  executors_ok f -> executors_answer f ->
  exists r f', run_cycle id f = Some (r, f') /\
    (is_Some (fb_requests f !! id) -> has_value r = true).
Proof.
  intros X A. destruct (fb_requests f !! id) as [rs |] eqn:L.
  - destruct (run_cycle_returns id f rs X A L) as (r & f' & E & V). by exists r, f'.
  - exists unknown_request, f. unfold run_cycle, prepare. rewrite L. cbn [mbind option_bind].
    split; [done |]. by intros [].
Qed.
End RunSpec.


(** ** Getting past the first critical section *)

(** A request that a cycle can work on. *)
Record ready (id : RequestId) (f : Fabric) (rs : RequestState) : Prop := {
  rd_lookup : fb_requests f !! id = Some rs;
  rd_terminal : rs_terminal rs = false;
  rd_cancelled : rs_cancelled rs = false;
  rd_deadline : (deadline_passed rs f).1 = false;
  rd_compatible :
    pair_compatible (mkKey (rq_draft_model (rs_req rs)) (rq_target_model (rs_req rs)) 1);
  rd_pressure :
    backpressure_clear (fb_scheduler f) (u32 (zlen (rs_proposals rs)))
      (if active_reservation_bytes rs =? 0 then 1 else 0) (ratio_of (fb_stats f) (double_of 1));
  rd_proposer : is_Some (cfg_proposer (fb_impl_cfg f));
  rd_verifier : is_Some (cfg_verifier (fb_impl_cfg f))
}.

Section Ready.
  Context `{Platform}.
  Implicit Types f : Fabric.

Lemma prepare_go id f rs :
  ready id f rs -> 1 <= pol_max_depth (sch_policy (fb_scheduler f)) < 2147483648 ->
  exists l f1, prepare id f = Some (Go l, f1).
Proof.
  intros [L T C D K B [p Cp] [v Cv]] XD. unfold prepare. rewrite L, T, C.
  assert (Q : let f1 := (deadline_passed rs f).2 in fb_stats f1 = fb_stats f /\
              fb_impl_cfg f1 = fb_impl_cfg f /\ fb_scheduler f1 = fb_scheduler f)
    by (unfold deadline_passed; by destruct (rq_deadline_ns _)).
  destruct (deadline_passed rs f) as [b f1]. cbn [fst snd] in *. subst b.
  destruct Q as (Q1 & Q2 & Q3).
  apply (evaluate_compatibility_spec _) in K. rewrite K. cbn [negb].
  change (fb_scheduler (update_request id reset_phase f1)) with (fb_scheduler f1).
  change (fb_stats (update_request id reset_phase f1)) with (fb_stats f1).
  change (fb_impl_cfg (update_request id reset_phase f1)) with (fb_impl_cfg f1).
  rewrite Q1, Q2, Q3.
  rewrite (proj2 (check_backpressure_iff _ (rs_req rs) (u32 (zlen (rs_branches rs))) _ _ _) B).
  unfold plan_proposal.
  destruct (plan_depth_bounds (fb_scheduler f) 0 0 (double_of 0) XD ltac:(lia)) as (d & -> & _).
  cbn [mbind option_bind]. rewrite Cp, Cv. by eexists _, _.
Qed.

(** A ready request settles a cycle. *)
Lemma run_cycle_settles id f rs :
  executors_ok f -> executors_answer f -> ready id f rs ->
  exists o f' rs' l b cand a,
    run_cycle id f = Some (Ok o, f') /\ fb_requests f' !! id = Some rs' /\
    cfg_proposer (fb_impl_cfg f) = Some (lc_proposer l) /\
    cfg_verifier (fb_impl_cfg f) = Some (lc_verifier l) /\
    1 <= lc_depth l <= pol_max_depth (sch_policy (fb_scheduler f)) /\
    (fixed_depth (sch_policy (fb_scheduler f)) ->
     lc_depth l = pol_max_depth (sch_policy (fb_scheduler f))) /\
    0 <= b < Z.max 1 (pol_max_branches (sch_policy (fb_scheduler f))) /\
    branch_run id l rs b cand a /\ cand_size cand = lc_depth l /\
    cycle_effect cand (ar_accepted_prefix a) rs rs' /\
    reports o (ar_accepted_prefix a) (cand_size cand) rs'.
Proof.
  intros X A R. pose proof (rd_lookup _ _ _ R) as L. pose proof (xo_depth _ X) as XD.
  destruct (prepare_go id f rs R XD) as (l & f1 & P).
  destruct (prepare_spec id f _ f1 rs L P) as (rs1 & L1 & U & NC & Cp & Cv & _ & plan & rat & Pl &
    Ed & Eb).
  pose proof (planned_depth _ _ _ _ _ XD Pl) as Hd. rewrite <- Ed in Hd.
  destruct (run_cycle_go id f f1 l rs rs1 X A L P L1) as (pr & ac & E & Ln & N & F2 & Q).
  destruct (finish_total id l pr ac f1 rs1 L1 N F2 (xo_verifier _ X _ Cv)) as (o & f' & F).
  assert (Dp : forall k br c, pr !! k = Some br -> pr_candidate (bres_pr br) = Some c ->
                 cand_size c = lc_depth l).
  { intros k br c Lk Hc. apply Q in Lk as (Pk & _). pose proof (xo_proposer _ X _ Cp) as C.
    assert (Hd32 : is_u32 (lc_depth l)) by (unfold is_u32; lia).
    by destruct (proposer_candidate (proposal_input id l (0 + Z.of_nat k) rs1) _ c Hd32 Pk Hc). }
  rewrite F in E. apply (finish_spec _ _ _ _ _ rs1) in F as
    (o' & br & a & cand & rs' & w & Eo & _ & Lp & La & Hc & V & L' & Ef & Rp); try done.
  - injection Eo as <-. pose proof (Dp _ _ _ Lp Hc) as Sz.
    pose proof (lookup_lt_Some _ _ _ Lp) as Hw. apply Q in Lp as (Pk & Bk & Mk).
    destruct (untouched_same id l (0 + Z.of_nat w) rs rs1 U) as [EP EV].
    assert (Hbc : lc_branch_count l = Z.max 1 (pol_max_branches (sch_policy (fb_scheduler f)))).
    { rewrite Eb. revert Pl. unfold plan_proposal.
      destruct (plan_depth _ _ _ _); cbn [mbind option_bind]; [| discriminate].
      intros [= <- _]. simpl. lia. }
    assert (Hfix : fixed_depth (sch_policy (fb_scheduler f)) ->
                   lc_depth l = pol_max_depth (sch_policy (fb_scheduler f))).
    { intros Fx. rewrite Ed. revert Pl. unfold plan_proposal. rewrite plan_depth_fixed by done.
      cbn [mbind option_bind]. intros [= <- _]. simpl. lia. }
    exists o, f', rs', l, (0 + Z.of_nat w), cand, a.
    split_and!; try done; [lia | lia | lia | lia | |].
    + exists br. rewrite EP in Pk. rewrite EV in V. destruct U as (m & es & ->). by split_and!.
    + by eapply untouched_effect.
  - by rewrite (untouched_closed _ _ U).
  - apply Forall_lookup. intros k br Lk c Hc. rewrite (Dp k br c Lk Hc). unfold is_u32. lia.
  - exact (xo_verifier _ X _ Cv).
Qed.

(** A cycle whose proposals hold no candidate. *)
Lemma run_cycle_no_candidate id f rs plan rat :
  ready id f rs -> 1 <= pol_max_depth (sch_policy (fb_scheduler f)) < 2147483648 ->
  plan_proposal (fb_scheduler f) (rs_req rs) (rs_auth_gen rs) 0 0 (double_of 0) =
    Some (plan, rat) ->
  (forall p i, cfg_proposer (fb_impl_cfg f) = Some p -> pi_depth i = Z.max 1 (pl_depth plan) ->
     exists r, propose p i = Ok r /\ pr_candidate r = None) ->
  run_cycle id f = None.
Proof.
  intros R XD Pl NoC. destruct (prepare_go id f rs R XD) as (l & f1 & P).
  destruct (prepare_spec id f _ f1 rs (rd_lookup _ _ _ R) P)
    as (rs1 & L1 & _ & _ & Cp & _ & Hb & plan' & rat' & Pl' & Ed & _).
  rewrite Pl in Pl'. injection Pl' as <- <-. unfold run_cycle. rewrite P. cbn [mbind option_bind].
  destruct (propose_loop_total id l rs1 (Z.to_nat (lc_branch_count l)) 0 f1 L1) as [proposed Q].
  { intros k _. by destruct (NoC _ (proposal_input id l (0 + Z.of_nat k) rs1) Cp Ed)
      as (r & -> & _). }
  rewrite Q. apply (propose_loop_spec _ _ rs1) in Q as [_ [Ln Q]]; [| exact L1].
  destruct proposed as [| br proposed]; [simpl in Ln; lia |].
  destruct (Q 0%nat br eq_refl) as (Pk & _).
  destruct (NoC _ (proposal_input id l (0 + Z.of_nat 0) rs1) Cp Ed) as (r & Er & Nr).
  rewrite Pk in Er. injection Er as Er. cbn [verify_loop].
  unfold read_verification_input, subscript. rewrite L1, Er, Nr. done.
Qed.

(** C39: a proposer that fails is undefined behaviour.  [run_cycle] takes the
    candidate of every proposal without looking at its outcome.  On a request
    that is ready, when the proposer answers inputs of the planned depth with a
    result that holds no candidate - the shape of every documented failure, a
    retryable one included - the cycle dereferences an empty optional. *)
Theorem failed_proposal_is_undefined id f rs plan rat :
  ready id f rs -> 1 <= pol_max_depth (sch_policy (fb_scheduler f)) < 2147483648 ->
  plan_proposal (fb_scheduler f) (rs_req rs) (rs_auth_gen rs) 0 0 (double_of 0) =
    Some (plan, rat) ->
  (forall p i, cfg_proposer (fb_impl_cfg f) = Some p -> pi_depth i = Z.max 1 (pl_depth plan) ->
     exists r, propose p i = Ok r /\ pr_candidate r = None) ->
  run_cycle id f = None.
Proof. apply run_cycle_no_candidate. Qed.

(** C40: the outstanding-work limit is a lifetime limit.  The backpressure test
    counts every proposal the request ever produced.  Once that count has
    reached the policy's limit, no call of [run_cycle] settles anything for
    the request again, whatever the executors: with the default limit of 8 a
    request gets at most eight cycles. *)
Theorem outstanding_limit_is_permanent id f rs r f' :
  let limit := pol_max_outstanding_speculative_work (sch_policy (fb_scheduler f)) in
  limit <> 0 -> limit <= zlen (rs_proposals rs) < 4294967296 ->
  fb_requests f !! id = Some rs -> run_cycle id f = Some (r, f') ->
  not_settled r /\ exists rs', fb_requests f' !! id = Some rs' /\ untouched rs rs'.
Proof.
  intros limit N B L. unfold run_cycle.
  destruct (prepare id f) as [[p f1] |] eqn:P; [cbn [mbind option_bind] | discriminate].
  destruct (prepare_spec id f p f1 rs L P) as (rs1 & L1 & U & G).
  destruct p as [r0 | l]; [intros [= <- <-]; destruct G as [G _]; split; [done | by exists rs1] |].
  exfalso. revert P. unfold prepare. rewrite L. destruct G as (NC & _).
  destruct (rs_terminal rs); [discriminate |]. destruct (rs_cancelled rs); [discriminate |].
  assert (Q : fb_scheduler (deadline_passed rs f).2 = fb_scheduler f)
    by (unfold deadline_passed; by destruct (rq_deadline_ns _)).
  destruct (deadline_passed rs f) as [[] f2]; [discriminate |]. cbn [snd] in Q.
  destruct (negb _); [discriminate |].
  change (fb_scheduler (update_request id reset_phase f2)) with (fb_scheduler f2). rewrite Q.
  destruct (bp_blocked _) eqn:Bp; [discriminate |]. exfalso.
  apply check_backpressure_iff in Bp. destruct Bp as (_ & [Bp | Bp] & _); fold limit in Bp; [lia |].
  rewrite u32_small in Bp by (pose proof (zlen_nonneg (rs_proposals rs)); unfold is_u32; lia). lia.
Qed.
End Ready.

(** ** The losing branches *)

Section Losers.
  Context (rs : RequestState) (keep : BranchId).
  Implicit Types bs : list Branch.

(** The branches the first cycle records. *)
Definition recorded (proposed : list BranchResult) : list Branch :=
  map (fun br => new_branch rs (bres_branch br) (negb (id_eqb (bres_branch br) keep))) proposed.

Definition losers (proposed : list BranchResult) : Z :=
  zlen (filter (fun br => bres_branch br <> keep) proposed).

Lemma retire_first_retired id bs :
  (forall b, b ∈ bs -> br_id b = id -> br_retired b = true) -> retire_first id bs = bs.
Proof.
  induction bs as [| b bs IH]; intros R; [done |]. simpl. destruct (id_eqb_spec (br_id b) id).
  - f_equal. specialize (R b (list_elem_of_here _ _) e). destruct b. simpl in *. by subst.
  - f_equal. apply IH. intros b' Hb. apply R. by apply list_elem_of_further.
Qed.

Lemma retire_fold_first proposed : forall done_ n,
  NoDup (map bres_branch (done_ ++ proposed)) -> 0 <= n -> n + 2 * zlen proposed < 18446744073709551616 ->
  fold_left (retire_step rs keep) proposed (recorded done_, n) =
  (recorded (done_ ++ proposed), n + 2 * losers proposed).
Proof.
  induction proposed as [| br proposed IH]; intros done_ n N H0 Hn.
  - rewrite app_nil_r. unfold losers, zlen. simpl. f_equal. lia.
  - rewrite zlen_cons in Hn. pose proof (zlen_nonneg proposed).
    replace (done_ ++ br :: proposed) with ((done_ ++ [br]) ++ proposed) in * by
      (by rewrite <- app_assoc).
    assert (Hb : has_branch (bres_branch br) (recorded done_) = false).
    { apply not_true_iff_false. unfold has_branch. rewrite existsb_exists.
      intros (b & Hb & E). destruct (id_eqb_spec (br_id b) (bres_branch br)) as [Eb |]; [| done].
      unfold recorded in Hb. apply in_map_iff in Hb as (br' & <- & Hi). simpl in Eb.
      rewrite !map_app, <- app_assoc in N. apply NoDup_app in N as (_ & N & _).
      apply (N (bres_branch br)); [| simpl; apply list_elem_of_here].
      rewrite <- Eb. apply list_elem_of_In, in_map, Hi. }
    assert (Hx : recorded done_ ++ [new_branch rs (bres_branch br)
                   (negb (id_eqb (bres_branch br) keep))] = recorded (done_ ++ [br]))
      by (unfold recorded; by rewrite map_app).
    cbn [fold_left]. unfold retire_step at 2. rewrite Hb, Hx. unfold losers. cbn [filter].
    destruct (id_eqb_spec (bres_branch br) keep) as [E | E]; cbn [negb].
    + rewrite IH by (done || lia). rewrite (filter_cons_False _ br) by (by intros ?). done.
    + assert (Hh : has_branch (bres_branch br) (recorded (done_ ++ [br])) = true).
      { rewrite <- Hx. unfold has_branch. rewrite existsb_app. simpl.
        by rewrite id_eqb_refl, !orb_true_r. }
      rewrite Hh, retire_first_retired.
      * unfold incr. rewrite !u64_small by (rewrite ?u64_small; unfold is_u64; lia).
        rewrite IH by (done || lia). rewrite filter_cons_True by done.
        rewrite zlen_cons. unfold losers. f_equal. lia.
      * intros b Hi Eb. unfold recorded in Hi. apply list_elem_of_In, in_map_iff in Hi
          as (br' & <- & _). simpl in *. rewrite Eb. by destruct (id_eqb_spec (bres_branch br) keep).
Qed.

(** The branches of a first cycle.  When the request has no branches yet,
    settling records every proposed branch once, in order, with the winner
    active and every other branch retired; but the reported number of retired
    branches counts every loser twice. *)
Theorem first_cycle_branches proposed p r rb rs' :
  rs_branches rs = [] -> NoDup (map bres_branch proposed) -> zlen proposed < 4294967296 ->
  retire_others proposed keep p r rs = (rb, rs') ->
  map br_id (rs_branches rs') = map bres_branch proposed /\
  Forall (fun b => br_retired b = true <-> br_id b <> keep) (rs_branches rs') /\
  rb_retired_branches rb = u32 (2 * losers proposed).
Proof.
  intros E N L R. apply retire_others_spec in R as (bs & -> & -> & ->). rewrite E. simpl.
  change (@nil Branch) with (recorded []).
  rewrite (retire_fold_first proposed [] 0) by (done || lia). cbn [fst snd app].
  split; [| split; [| done]].
  - unfold recorded. by rewrite map_map.
  - unfold recorded. apply Forall_map, Forall_true. intros br. simpl.
    destruct (id_eqb_spec (bres_branch br) keep); simpl; naive_solver.
Qed.
End Losers.
