(* ===== verification/SyntheticCycle.v ===== *)
(** * Cycles over the synthetic model

    The interface by which an executor pair promises to draft from, and judge
    against, the program's synthetic model, and what a cycle commits over any
    such pair.  The CPU executors and the CUDA executors on a device that works
    keep the promise, so one may draft and the other verify. *)

From stdpp Require Import gmap.
From S2P Require Import Prelude Errors Ids Doubles Model Lifecycle Data Policy Scheduler Synthetic.
From S2P Require Import Cpu CudaKernels Cuda Fabric Cycle Authority CycleSpec.

(** A proposer that drafts as the CPU proposer of an alignment does, for the
    branch index it makes of the input's. *)
Class SyntheticProposer (p : ProposalExecutor) (aligned : Z) (branch : Z -> Z) : Prop := {
  sp_contract :: ProposerContract p;
  sp_draft : forall i, 1 <= pi_depth i <= 256 -> pi_compute_budget i = 0 ->
    exists r c, propose p i = Ok r /\
      CpuProposer.propose (CpuProposer.Config_aligned aligned)
        (i <| pi_branch_index := branch (pi_branch_index i) |>) = Ok c /\
      pr_outcome c = ProposalOutcome.Success /\
      pr_outcome r = pr_outcome c /\ pr_candidate r = pr_candidate c
}.

(** A verifier that always answers, and counts the matches with the target on
    every candidate the CPU verifier judges. *)
Class SyntheticVerifier (v : VerificationExecutor) : Prop := {
  sv_contract :: VerifierContract v;
  sv_answers : forall i, has_value (verify v i) = true;
  sv_prefix : forall i a, judged i -> verify v i = Ok a ->
    ar_accepted_prefix a = match_count (expected_tokens i) (ids (tokens (vi_candidate i)))
}.

(** ** The implementations *)

(** The CPU proposer within its bounds. *)
Lemma cpu_drafts cfg i : 1 <= pi_depth i <= 256 -> pi_compute_budget i = 0 ->
  exists c, CpuProposer.propose cfg i = Ok c /\ pr_outcome c = ProposalOutcome.Success /\
    pr_candidate c = Some (mkCandidate
      (draft_tokens (make_model kTargetModelSeed) (CpuProposer.aligned_tokens cfg)
         (pi_branch_index i) (Z.to_nat (pi_depth i)) 0 (seed_state (CpuProposer.seed_of i)) 0)).
Proof.
  intros Hd Hb. pose proof (propose_cases cfg i ltac:(lia)) as C.
  rewrite Hb, !(proj2 (Z.leb_le _ _)) in C by lia. cbn [andb orb Z.eqb] in C.
  destruct C as (r & E & O & K & _). by exists r.
Qed.

#[export] Instance cpu_synthetic_proposer cfg :
  SyntheticProposer (CpuProposer.executor cfg) (CpuProposer.aligned_tokens cfg) (fun b => b).
Proof.
  constructor; [apply _ |]. intros i Hd Hb.
  replace (i <| pi_branch_index := pi_branch_index i |>) with i by (by destruct i).
  cbn [propose CpuProposer.executor].
  destruct (cpu_drafts cfg i Hd Hb) as (r & E & O & K).
  destruct (cpu_drafts (CpuProposer.Config_aligned (CpuProposer.aligned_tokens cfg)) i Hd Hb)
    as (c & E' & O' & K').
  exists r, c. split_and!; [exact E | exact E' | exact O' | by rewrite O, O' | by rewrite K, K'].
Qed.

#[export] Instance cpu_synthetic_verifier : SyntheticVerifier CpuVerifier.executor.
Proof.
  constructor; [apply _ | |].
  - intros i. cbn [verify CpuVerifier.executor]. unfold CpuVerifier.verify. cbv zeta.
    destruct (cand_empty _); [done |]. destruct (is_null _); [done |]. by destruct (negb _).
  - intros i a J E. by apply verify_judged_prefix.
Qed.

Lemma pi_branch_set i b :
  pi_depth (i <| pi_branch_index := b |>) = pi_depth i /\
  pi_compute_budget (i <| pi_branch_index := b |>) = pi_compute_budget i /\
  CpuProposer.seed_of (i <| pi_branch_index := b |>) = CpuProposer.seed_of i.
Proof. split; [reflexivity |]. split; [reflexivity |]. unfold CpuProposer.seed_of. reflexivity. Qed.

Lemma cuda_seed_shared i : CudaProposer.seed_of i = CpuProposer.seed_of i.
Proof. unfold CudaProposer.seed_of, CpuProposer.seed_of. by rewrite mix64_device_shared. Qed.

Lemma cuda_success_candidate i toks : map token_of (ids toks) = toks ->
  pr_candidate (CudaProposer.success i (ids toks)) = Some (mkCandidate toks).
Proof. intros E. unfold CudaProposer.success. simpl. by rewrite E. Qed.

(** A device whose runtime calls all succeed. *)
Lemma cuda_synthetic_proposer al bi rt `{!forall i, RuntimeOk (rt i)} :
  (forall i, CudaProposer.device_ok (rt i) (Z.to_nat (pi_depth i))) ->
  SyntheticProposer (CudaProposer.executor al bi rt) al (fun _ => bi).
Proof.
  intros Dv. constructor; [apply _ |]. intros i Hd Hb. cbn [propose CudaProposer.executor].
  destruct (cuda_propose_cases al bi (rt i) i) as [(code & d & _ & _ & F) | [_ E]]; [done | lia | |].
  { destruct F as [(F & _) | [(F & _) | (_ & F)]]; [lia | lia | by destruct F]. }
  destruct (pi_branch_set i bi) as (E1 & E2 & E3).
  destruct (cpu_drafts (CpuProposer.Config_aligned al) (i <| pi_branch_index := bi |>))
    as (c & E' & O & K); [by rewrite E1 | by rewrite E2 |].
  do 2 eexists. split_and!; [exact E | exact E' | exact O | by rewrite O |].
  rewrite K, E1, E3, cuda_success_candidate by apply token_of_draft.
  rewrite cuda_seed_shared. reflexivity.
Qed.

Lemma cuda_synthetic_verifier rt `{!forall i, RuntimeOk (rt i)} :
  (forall i, CudaVerifier.device_ok (rt i) (Z.to_nat (u32 (cand_size (vi_candidate i))))) ->
  SyntheticVerifier (CudaVerifier.executor rt).
Proof.
  intros Dv. constructor; [apply _ | |]; intros i.
  - cbn [verify CudaVerifier.executor].
    by destruct (cuda_verify_cases (rt i) i) as [(b & note & -> & _) | [_ ->]].
  - intros a (Hn & _) E. cbn [verify CudaVerifier.executor] in E.
    destruct (cuda_verify_cases (rt i) i) as [(b & note & _ & [F | F]) | [_ Ep]];
      [done | lia | by destruct (F (Dv i)) |].
    rewrite Ep, device_verdict in E by (unfold is_u32; lia). by injection E as <-.
Qed.

(** ** A cycle *)

(** A runtime over such a pair, with a policy depth the proposer supports and
    branch indices that do perturb a draft past its alignment. *)
Record synthetic_runtime (p : ProposalExecutor) (v : VerificationExecutor) (aligned : Z)
    (branch : Z -> Z) (f : Fabric) : Prop := {
  sr_proposer : cfg_proposer (fb_impl_cfg f) = Some p;
  sr_verifier : cfg_verifier (fb_impl_cfg f) = Some v;
  sr_depth : 1 <= pol_max_depth (sch_policy (fb_scheduler f)) <= 256;
  sr_branches : forall b, 0 <= b < Z.max 1 (pol_max_branches (sch_policy (fb_scheduler f))) ->
    (1 + branch b) mod kSyntheticVocab <> 0
}.

(** What a settled cycle of a depth commits, against the target of a seed. *)
Record commits_draft (aligned depth seed : Z) (rs rs' : RequestState) (o : CycleOutcome)
  : Prop := {
  cd_committed : exists new, rs_committed rs' = rs_committed rs ++ new /\
    Z.min aligned depth <= zlen new <= depth /\ zlen new = out_accepted_tokens o /\
    take (Z.to_nat (Z.min aligned depth)) new =
      take (Z.to_nat (Z.min aligned depth)) (target_of seed (Z.to_nat depth)) /\
    (depth <= aligned ->
     new = target_of seed (Z.to_nat depth) /\
     out_outcome o = CycleOutcomeKind.VerificationSuccessFullAccept);
  cd_generation : advance (get (rs_auth_gen rs)) (get (rs_auth_gen rs')) (out_accepted_tokens o);
  cd_reports : reports o (out_accepted_tokens o) depth rs'
}.

Section Runtime.
  Context `{Platform} (p : ProposalExecutor) (v : VerificationExecutor).
  Context (aligned : Z) (branch : Z -> Z).
  Context `{SP : !SyntheticProposer p aligned branch} `{SV : !SyntheticVerifier v}.
  Implicit Types f : Fabric.

Lemma synthetic_executors_ok f : synthetic_runtime p v aligned branch f -> executors_ok f.
Proof using SP SV.
  intros [Cp Cv Hd _]. constructor; [intros p' E | intros v' E | lia].
  - rewrite Cp in E. injection E as <-. exact sp_contract.
  - rewrite Cv in E. injection E as <-. exact sv_contract.
Qed.

Lemma synthetic_executors_answer f : synthetic_runtime p v aligned branch f -> executors_answer f.
Proof using SP SV.
  intros [Cp Cv Hd _]. constructor.
  - intros p' i E Hi B. rewrite Cp in E. injection E as <-.
    destruct (sp_draft i ltac:(lia) B) as (r & c & E & _ & S & O & _).
    exists r. split; [exact E | by rewrite O].
  - intros v' i E. rewrite Cv in E. injection E as <-. apply sv_answers.
Qed.

(** The verification input of a branch carries the proposer's envelope. *)
Lemma branch_envelope id l br cand rs b :
  bres_proposer_model br = rq_draft_model (rs_req rs) ->
  tok_id (mdl_tokenizer (rq_draft_model (rs_req rs))) <> null_id ->
  same_envelope (proposal_input id l b rs) (verification_input id l br cand rs).
Proof. intros M N. unfold same_envelope. simpl. by rewrite M. Qed.

(** A branch of a cycle: draft and verdict from one seed. *)
Lemma branch_run_synthetic id l rs b cand a :
  lc_proposer l = p -> lc_verifier l = v -> 1 <= lc_depth l <= 256 ->
  tok_id (mdl_tokenizer (rq_draft_model (rs_req rs))) <> null_id ->
  branch_run id l rs b cand a ->
  exists seed,
    ar_accepted_prefix a =
      match_count (target_of seed (Z.to_nat (lc_depth l))) (ids (tokens cand)) /\
    tokens cand =
      draft_tokens (make_model kTargetModelSeed) aligned (branch b)
        (Z.to_nat (lc_depth l)) 0 (seed_state seed) 0.
Proof.
  intros Cp Cv Hd N (br & P & _ & M & Hc & V). rewrite Cp in P. rewrite Cv in V.
  set (pin := proposal_input id l b rs) in *.
  destruct (sp_draft pin Hd eq_refl) as (r & c & E & E' & _ & _ & K). rewrite E in P. injection P as P.
  rewrite <- P, K in Hc.
  set (pin' := pin <| pi_branch_index := branch (pi_branch_index pin) |>) in *.
  assert (Hd' : is_u32 (pi_depth pin'))
    by (unfold is_u32; change (pi_depth pin') with (lc_depth l); lia).
  destruct (draft_seen_by_verifier _ pin' c (verification_input id l br cand rs) Hd' E' Hc
    (branch_envelope id l br cand rs b M N)) as (J & _ & seed & Ex & Tk).
  exists seed. apply (sv_prefix _ _ J) in V. rewrite Ex in V. by split.
Qed.

(** The cycle of a ready request, for any executors of the interface. *)
Lemma synthetic_cycle_settles id f rs :
  synthetic_runtime p v aligned branch f -> ready id f rs -> 0 <= aligned ->
  exists o f' rs' depth seed,
    run_cycle id f = Some (Ok o, f') /\ fb_requests f' !! id = Some rs' /\
    1 <= depth <= pol_max_depth (sch_policy (fb_scheduler f)) /\
    (fixed_depth (sch_policy (fb_scheduler f)) ->
     depth = pol_max_depth (sch_policy (fb_scheduler f))) /\
    commits_draft aligned depth seed rs rs' o.
Proof.
  intros C R Ha. pose proof (rd_compatible _ _ _ R) as K.
  destruct (run_cycle_settles id f rs (synthetic_executors_ok f C) (synthetic_executors_answer f C) R)
    as (o & f' & rs' & l & b & cand & a & E & L' & Cp & Cv & Hd & Hfix & Hb & B & Sz & Ef & Rp).
  destruct C as [Cp' Cv' Hdp Hbr]. rewrite Cp' in Cp. rewrite Cv' in Cv.
  injection Cp as Cp. injection Cv as Cv.
  destruct (branch_run_synthetic id l rs b cand a) as (seed & V & Tk);
    [done | done | lia | exact (pc_tokenizer_set _ K) | exact B |].
  set (target := target_of seed (Z.to_nat (lc_depth l))) in *.
  assert (Lt : zlen target = lc_depth l) by (unfold target; rewrite zlen_target_of; lia).
  pose proof (match_count_range target (ids (tokens cand))) as Mr. rewrite <- V, Lt in Mr.
  assert (Hl : lcp target (ids (tokens cand)) = Z.min aligned (lc_depth l)).
  { rewrite Tk. unfold target. rewrite lcp_target_of, draft_reach_perturbed by (done || by apply Hbr).
    lia. }
  destruct Ef as [Bd Cm Gn _ _ _ _].
  assert (Ln : @zlen Z (map tk_id (take (Z.to_nat (ar_accepted_prefix a)) (tokens cand))) =
               ar_accepted_prefix a) by (apply zlen_committed_tokens; lia).
  pose proof Rp as (_ & Ro & _ & _ & Rf & _). rewrite Sz in *.
  exists o, f', rs', (lc_depth l), seed. split_and!; try done; try lia.
  constructor; rewrite Ro; [| exact Gn | exact Rp]. fold target.
  exists (map tk_id (take (Z.to_nat (ar_accepted_prefix a)) (tokens cand))).
  split; [exact Cm |]. rewrite Ln. rewrite Hl in Mr. split_and!; try lia.
  - rewrite <- firstn_map. change (map tk_id (tokens cand)) with (ids (tokens cand)).
    rewrite take_take, Nat.min_l by lia. rewrite <- Hl. symmetry. apply lcp_take.
  - intros Hal. assert (Ea : ar_accepted_prefix a = lc_depth l) by lia. split; [| by apply Rf].
    rewrite Ea, take_ge by (unfold cand_size, zlen in Sz; lia).
    change (map tk_id (tokens cand)) with (ids (tokens cand)). rewrite Tk.
    unfold target. apply draft_target_of, draft_reach_aligned. lia.
Qed.

(** C21: a cycle makes progress, whichever executors keep the promise of the
    interface - CPU, CUDA, or one of each.  On a request that is ready the
    cycle is settled: for some depth between 1 and the policy's and some target
    sequence of that length - the one the verifier recomputes from the
    request's authoritative state - the committed tokens grow by at least the
    aligned part of the draft, that part is the target's own, and the
    generation advances with them.  When the proposer is aligned over the whole
    depth the outcome is a full accept and the committed tokens are exactly the
    target sequence. *)
Theorem cycle_makes_progress id f rs :
  synthetic_runtime p v aligned branch f -> ready id f rs -> 0 <= aligned ->
  exists o f' rs' depth seed,
    run_cycle id f = Some (Ok o, f') /\ fb_requests f' !! id = Some rs' /\
    1 <= depth <= pol_max_depth (sch_policy (fb_scheduler f)) /\
    let target := target_of seed (Z.to_nat depth) in
    let common := Z.min aligned depth in
    (exists new, rs_committed rs' = rs_committed rs ++ new /\
       common <= zlen new <= depth /\ zlen new = out_accepted_tokens o /\
       take (Z.to_nat common) new = take (Z.to_nat common) target /\
       (depth <= aligned ->
        new = target /\ out_outcome o = CycleOutcomeKind.VerificationSuccessFullAccept)) /\
    advance (get (rs_auth_gen rs)) (get (rs_auth_gen rs')) (out_accepted_tokens o).
Proof using SP SV.
  intros C R Ha.
  destruct (synthetic_cycle_settles id f rs C R Ha)
    as (o & f' & rs' & depth & seed & E & L & D & _ & [P G _]).
  by exists o, f', rs', depth, seed.
Qed.
End Runtime.
