(* ===== verification/CpuCycle.v ===== *)
(** * Cycles with the CPU executors

    The runtime with the deterministic CPU proposer and verifier: what a cycle
    commits, and where that departs from the target sequence. *)

From stdpp Require Import gmap.
From S2P Require Import Prelude Errors Ids Doubles Model Lifecycle Data Policy Scheduler Synthetic.
From S2P Require Import Cpu CudaKernels Cuda Fabric Cycle Authority CycleSpec SyntheticCycle.

(** A runtime over the CPU executors, with a policy depth they support. *)
Record cpu_runtime (cfg : CpuProposer.Config) (f : Fabric) : Prop := {
  cr_proposer : cfg_proposer (fb_impl_cfg f) = Some (CpuProposer.executor cfg);
  cr_verifier : cfg_verifier (fb_impl_cfg f) = Some CpuVerifier.executor;
  cr_depth : 1 <= pol_max_depth (sch_policy (fb_scheduler f)) <= 256;
  cr_branches : pol_max_branches (sch_policy (fb_scheduler f)) < kSyntheticVocab
}.

Section CpuRuntime.
  Context `{Platform}.
  Implicit Types f : Fabric.

Lemma cpu_runtime_synthetic cfg f : cpu_runtime cfg f ->
  synthetic_runtime (CpuProposer.executor cfg) CpuVerifier.executor (CpuProposer.aligned_tokens cfg)
    (fun b => b) f.
Proof.
  intros [Cp Cv Hd Hb]. constructor; [done.. |]. intros b B. unfold kSyntheticVocab in *.
  rewrite Z.mod_small; lia.
Qed.

Lemma cpu_executors_ok cfg f : cpu_runtime cfg f -> executors_ok f.
Proof. intros C. eapply synthetic_executors_ok, cpu_runtime_synthetic, C. Unshelve. all: apply _. Qed.

Lemma cpu_executors_answer cfg f : cpu_runtime cfg f -> executors_answer f.
Proof. intros C. eapply synthetic_executors_answer, cpu_runtime_synthetic, C. Unshelve. all: apply _. Qed.

(** A CPU cycle makes progress: [cycle_makes_progress] for the CPU executors. *)
Theorem cpu_cycle_progress cfg id f rs :
  cpu_runtime cfg f -> ready id f rs -> 0 <= CpuProposer.aligned_tokens cfg ->
  exists o f' rs' depth seed,
    run_cycle id f = Some (Ok o, f') /\ fb_requests f' !! id = Some rs' /\
    1 <= depth <= pol_max_depth (sch_policy (fb_scheduler f)) /\
    let target := target_of seed (Z.to_nat depth) in
    let aligned := Z.min (CpuProposer.aligned_tokens cfg) depth in
    (exists new, rs_committed rs' = rs_committed rs ++ new /\
       aligned <= zlen new <= depth /\ zlen new = out_accepted_tokens o /\
       take (Z.to_nat aligned) new = take (Z.to_nat aligned) target /\
       (depth <= CpuProposer.aligned_tokens cfg ->
        new = target /\ out_outcome o = CycleOutcomeKind.VerificationSuccessFullAccept)) /\
    advance (get (rs_auth_gen rs)) (get (rs_auth_gen rs')) (out_accepted_tokens o).
Proof.
  intros C R Ha.
  destruct (synthetic_cycle_settles _ _ _ _ id f rs (cpu_runtime_synthetic cfg f C) R Ha)
    as (o & f' & rs' & depth & seed & E & L & D & _ & [P G _]).
  by exists o, f', rs', depth, seed.
Qed.
End CpuRuntime.

(** ** A concrete runtime *)

(** A model with a usable tokenizer, drafting for itself. *)
Definition demo_model : ModelIdentity :=
  ModelIdentity_default
    <| mdl_tokenizer := mkTokenizerIdentity (mkId 1) "synthetic" 4096 "h" |>.

Definition demo_policy (depth branches : Z) : ProposalPolicy :=
  ProposalPolicy_default <| pol_max_depth := depth |> <| pol_max_branches := branches |>.

(** A runtime over the CPU executors, the proposer aligned for [aligned]
    tokens. *)
Definition demo_config (aligned depth branches : Z) : Config :=
  Config_default
    <| cfg_proposer := Some (CpuProposer.executor (CpuProposer.Config_aligned aligned)) |>
    <| cfg_verifier := Some CpuVerifier.executor |>
    <| cfg_policy := demo_policy depth branches |>.

Definition demo_request (id sequence : Z) : SpeculationRequest :=
  SpeculationRequest_default
    <| rq_id := mkId id |> <| rq_sequence := mkId sequence |>
    <| rq_draft_model := demo_model |> <| rq_target_model := demo_model |>.

(** The runtime with one request admitted. *)
Definition demo_fabric (aligned depth branches sequence : Z) : Fabric :=
  (submit (demo_request 42 sequence) (new_fabric (demo_config aligned depth branches))).2.

Definition demo_entry (f : Fabric) : RequestState :=
  default RequestState_default (fb_requests f !! (mkId 42 : RequestId)).

Lemma demo_ready aligned depth branches sequence :
  ready (mkId 42) (demo_fabric aligned depth branches sequence)
    (demo_entry (demo_fabric aligned depth branches sequence)).
Proof.
  constructor; try done.
  - constructor; try done; [by left | by left].
  - split_and!; try done; [by right | by left].
Qed.

Lemma demo_runtime aligned depth branches sequence :
  1 <= depth <= 256 -> branches < kSyntheticVocab ->
  cpu_runtime (CpuProposer.Config_aligned aligned) (demo_fabric aligned depth branches sequence).
Proof. by constructor. Qed.

Lemma cpu_cycle_progress_witness :
  exists o f' rs',
    @run_cycle x64_platform (mkId 42) (demo_fabric 9 4 1 5) = Some (Ok o, f') /\
    fb_requests f' !! (mkId 42 : RequestId) = Some rs' /\
    advance (get (rs_auth_gen (demo_entry (demo_fabric 9 4 1 5)))) (get (rs_auth_gen rs'))
      (out_accepted_tokens o).
Proof.
  destruct (@cpu_cycle_progress x64_platform (CpuProposer.Config_aligned 9) (mkId 42)
    (demo_fabric 9 4 1 5) (demo_entry (demo_fabric 9 4 1 5)))
    as (o & f' & rs' & depth & seed & E & L & _ & _ & A).
  - apply demo_runtime; [lia | by vm_compute].
  - apply demo_ready.
  - simpl. lia.
  - exists o, f', rs'. by split_and!.
Defined.

(** The tokens the target expects for a request's current state and depth. *)
Definition demo_target (f : Fabric) (depth : nat) : list Z :=
  let rs := demo_entry f in
  target_of (mix64 (state_base (rs_auth_state rs)) (get (rs_auth_gen rs)) 0
               (u64 (Z.of_nat depth * 0x100000001B3))) depth.

(** A test of a defined outcome, for evaluation. *)
Definition settled_and (test : CycleOutcome -> Fabric -> bool)
    (r : option (Result CycleOutcome * Fabric)) : bool :=
  match r with Some (Ok o, f) => test o f | _ => false end.

Lemma settled_and_true test r :
  settled_and test r = true -> exists o f, r = Some (Ok o, f) /\ test o f = true.
Proof. destruct r as [[[o | e] f] |]; try discriminate. by exists o, f. Qed.

(** A cycle can commit a token its verifier rejected.  For sequence 1399 at
    depth 8, a draft aligned for one token leaves the target at the second and
    meets it again at the last; the verifier rejects index 1 but reports an
    accepted prefix of 2, and [run_cycle] commits the rejected token 58 where
    the target says 57. *)
Theorem cycle_commits_rejected_token :
  exists o f',
    @run_cycle x64_platform (mkId 42) (demo_fabric 1 8 1 1399) = Some (Ok o, f') /\
    rs_committed (demo_entry f') = [3795; 58] /\
    take 2 (demo_target (demo_fabric 1 8 1 1399) 8) = [3795; 57] /\
    out_accepted_tokens o = 2 /\
    out_outcome o = CycleOutcomeKind.VerificationSuccessPartialAccept.
Proof.
  assert (T : settled_and (fun o f' =>
      bool_decide (rs_committed (demo_entry f') = [3795; 58]) &&
      bool_decide (out_accepted_tokens o = 2) &&
      bool_decide (out_outcome o = CycleOutcomeKind.VerificationSuccessPartialAccept))
    (@run_cycle x64_platform (mkId 42) (demo_fabric 1 8 1 1399)) = true) by (by vm_compute).
  apply settled_and_true in T as (o & f' & E & T).
  rewrite !andb_true_iff, !bool_decide_eq_true in T. destruct T as ((T1 & T2) & T3).
  exists o, f'. by split_and!.
Qed.
