(* ===== verification/Scenarios.v ===== *)
(** * Runs of the engine

    Schedules as lists of actions, the runs of the demo engine that show each
    hypothesis of the cycle theorems can hold, and the interleavings in which
    the engine does less than docs/architecture.md promises. *)

From stdpp Require Import gmap.
From S2P Require Import Prelude Errors Ids Doubles Model Lifecycle Data Policy Scheduler Synthetic.
From S2P Require Import Cpu Fabric Cycle Authority Interleaving Invariants CycleSpec CpuCycle Phases.

(** ** Schedules *)

(** One action of the environment or of a thread. *)
Inductive Action : Set :=
| ACall (c : Call)
| ASpawn (id : RequestId)
| AStep (i : nat).

Section Schedules.
  Context `{Platform}.

(** The system after one action; a step of no thread changes nothing. *)
Definition act (s : System) (a : Action) : System :=
  match a with
  | ACall c => (call c s.1, s.2)
  | ASpawn id => (s.1, s.2 ++ [TStart id])
  | AStep i =>
      match s.2 !! i with
      | None => s
      | Some t => let '(t', f') := thread_step t s.1 in (f', <[i := t']> s.2)
      end
  end.

Definition run_schedule (actions : list Action) (s : System) : System :=
  fold_left act actions s.

Lemma act_steps s a : sys_steps s (act s a).
Proof.
  destruct s as [f ts], a as [c | id | i]; cbn [act fst snd].
  - apply rtc_once, step_call.
  - apply rtc_once, step_spawn.
  - destruct (ts !! i) as [t |] eqn:L; [| apply rtc_refl].
    destruct (thread_step t f) as [t' f'] eqn:E. by eapply rtc_once, step_thread.
Qed.

Lemma run_schedule_steps actions : forall s, sys_steps s (run_schedule actions s).
Proof.
  induction actions as [| a actions IH]; intros s; [apply rtc_refl |].
  etrans; [apply act_steps | apply IH].
Qed.
End Schedules.

(** ** Witnesses of the cycle theorems *)

(** The engine with the demo request admitted, after a schedule. *)
Definition demo_system (aligned depth branches sequence : Z) (actions : list Action) : System :=
  @run_schedule x64_platform actions (demo_fabric aligned depth branches sequence, []).

(** A thread that runs a cycle on its own, in [n] critical sections. *)
Definition cycle_alone (n : nat) : list Action := ASpawn (mkId 42) :: repeat (AStep 0) n.

Lemma demo_fabric_reachable aligned depth branches sequence :
  @reachable x64_platform (demo_config aligned depth branches)
    (demo_fabric aligned depth branches sequence, []).
Proof.
  unfold reachable, demo_fabric. apply rtc_once.
  exact (step_call (CSubmit (demo_request 42 sequence)) _ _).
Qed.

Lemma demo_system_reachable aligned depth branches sequence actions :
  @reachable x64_platform (demo_config aligned depth branches)
    (demo_system aligned depth branches sequence actions).
Proof.
  unfold reachable. etrans; [apply demo_fabric_reachable | apply run_schedule_steps].
Qed.

Lemma demo_lookup aligned depth branches sequence :
  fb_requests (demo_fabric aligned depth branches sequence) !! (mkId 42 : RequestId) =
  Some (demo_entry (demo_fabric aligned depth branches sequence)).
Proof. apply (rd_lookup _ _ _ (demo_ready aligned depth branches sequence)). Qed.

Lemma demo_submitted aligned depth branches sequence :
  submitted (demo_entry (demo_fabric aligned depth branches sequence)).
Proof. done. Qed.

Lemma authority_monotonic_witness :
  exists rs',
    fb_requests (demo_system 3 4 1 5 (cycle_alone 5)).1 !! (mkId 42 : RequestId) = Some rs' /\
    rs_committed (demo_entry (demo_fabric 3 4 1 5)) `prefix_of` rs_committed rs'.
Proof.
  destruct (@authority_monotonic x64_platform (demo_fabric 3 4 1 5, [])
    (demo_system 3 4 1 5 (cycle_alone 5)) (mkId 42) (demo_entry (demo_fabric 3 4 1 5))
    (run_schedule_steps _ _) (demo_lookup 3 4 1 5) (demo_submitted 3 4 1 5))
    as (rs' & L & _ & _ & P & _).
  exists rs'. by split.
Defined.

Lemma reachable_system_ok_witness : system_ok (demo_system 3 4 2 5 (cycle_alone 7)).
Proof.
  apply (@reachable_system_ok x64_platform (demo_config 3 4 2)). apply demo_system_reachable.
Defined.

Lemma reported_phase_stays_ready_witness :
  exists o, TDone (Ok o) ∈ (demo_system 3 4 2 5 (cycle_alone 7)).2 /\
    verdict_kind (out_outcome o) = true /\ out_phase o = SpeculativePhase.Ready.
Proof.
  assert (T : match (demo_system 3 4 2 5 (cycle_alone 7)).2 with
              | [TDone (Ok o)] => verdict_kind (out_outcome o)
              | _ => false
              end = true) by (by vm_compute).
  destruct (@reported_phase_stays_ready x64_platform (demo_config 3 4 2) _
              (demo_system_reachable 3 4 2 5 (cycle_alone 7))) as [_ W].
  revert T W. generalize (demo_system 3 4 2 5 (cycle_alone 7)).2.
  intros [| [| | | [o |] |] [|]] T W; try discriminate.
  exists o. split_and!; [left | done | by apply W; [left |]].
Defined.

Lemma demo_cpu aligned :
  cpu_runtime (CpuProposer.Config_aligned aligned) (demo_fabric aligned 4 1 5).
Proof. apply demo_runtime; [lia | by vm_compute]. Qed.

Lemma run_cycle_total_witness :
  exists r f', @run_cycle x64_platform (mkId 42) (demo_fabric 3 4 1 5) = Some (r, f') /\
    (is_Some (fb_requests (demo_fabric 3 4 1 5) !! (mkId 42 : RequestId)) -> has_value r = true).
Proof.
  apply (@run_cycle_total x64_platform); [eapply cpu_executors_ok | eapply cpu_executors_answer];
    apply demo_cpu.
Defined.

(** What the demo cycle returns. *)
Lemma demo_cycle :
  exists o f', @run_cycle x64_platform (mkId 42) (demo_fabric 3 4 1 5) = Some (Ok o, f').
Proof.
  assert (T : settled_and (fun _ _ => true) (@run_cycle x64_platform (mkId 42)
                (demo_fabric 3 4 1 5)) = true) by (by vm_compute).
  apply settled_and_true in T as (o & f' & E & _). by exists o, f'.
Qed.

Lemma run_cycle_correct_witness :
  exists f' rs', fb_requests f' !! (mkId 42 : RequestId) = Some rs' /\
    rs_committed (demo_entry (demo_fabric 3 4 1 5)) `prefix_of` rs_committed rs'.
Proof.
  destruct demo_cycle as (o & f' & E).
  destruct (@run_cycle_correct x64_platform (mkId 42) (demo_fabric 3 4 1 5)
    (demo_entry (demo_fabric 3 4 1 5)) (Ok o) f' (cpu_executors_ok _ _ (demo_cpu 3))
    (demo_lookup 3 4 1 5) E) as (rs' & L & [(_ & m & es & ->) | (o' & l & b & c & a & S)]);
    exists f'; eexists; (split; [exact L |]).
  - done.
  - destruct S as (_ & _ & _ & _ & _ & [_ -> _ _ _ _ _] & _). by eexists.
Defined.

Lemma select_winner_correct_witness :
  let w := select_winner [] [AcceptanceResult_default] in
  (w < 1)%nat.
Proof. apply (select_winner_correct [] [AcceptanceResult_default]). done. Defined.

(** A policy depth past the CPU proposer's bound of 256. *)
Lemma failed_proposal_is_undefined_witness :
  @run_cycle x64_platform (mkId 42) (demo_fabric 3 300 1 5) = None.
Proof.
  assert (T : (match @plan_proposal x64_platform (fb_scheduler (demo_fabric 3 300 1 5))
      (demo_request 42 5) (mkId 0) 0 0 (double_of 0) with
    | Some (plan, _) => pl_depth plan =? 300 | None => false end) = true) by (by vm_compute).
  destruct (plan_proposal _ _ _ _ _ _) as [[plan rat] |] eqn:Pl; [| discriminate].
  apply Z.eqb_eq in T.
  apply (@failed_proposal_is_undefined x64_platform (mkId 42) (demo_fabric 3 300 1 5)
    (demo_entry (demo_fabric 3 300 1 5)) plan rat).
  - apply demo_ready.
  - split; by vm_compute.
  - exact Pl.
  - intros p i [= <-] Hd. rewrite T in Hd.
    change (exists r, CpuProposer.propose (CpuProposer.Config_aligned 3) i = Ok r /\
                      pr_candidate r = None).
    unfold CpuProposer.propose. rewrite Hd. by eexists.
Defined.

(** The engine after eight cycles. *)
Definition worn_fabric : Fabric :=
  Nat.iter 8 (fun f => match @run_cycle x64_platform (mkId 42) f with
                       | Some (_, f') => f' | None => f end) (demo_fabric 3 4 1 5).

Lemma worn_cycle :
  exists f rs r f', fb_requests f !! (mkId 42 : RequestId) = Some rs /\
    zlen (rs_proposals rs) = 8 /\
    pol_max_outstanding_speculative_work (sch_policy (fb_scheduler f)) = 8 /\
    @run_cycle x64_platform (mkId 42) f = Some (r, f').
Proof.
  assert (T : (fun f => match fb_requests f !! (mkId 42 : RequestId),
                              @run_cycle x64_platform (mkId 42) f with
               | Some rs, Some _ => (zlen (rs_proposals rs) =? 8) &&
                   (pol_max_outstanding_speculative_work (sch_policy (fb_scheduler f)) =? 8)
               | _, _ => false end) worn_fabric = true) by (by vm_compute).
  revert T. generalize worn_fabric. intros f T. exists f.
  destruct (fb_requests f !! (mkId 42 : RequestId)) as [rs |]; [| discriminate].
  destruct (@run_cycle x64_platform (mkId 42) f) as [[r f'] |]; [| discriminate].
  rewrite andb_true_iff, !Z.eqb_eq in T. destruct T. by exists rs, r, f'.
Qed.

Lemma outstanding_limit_is_permanent_witness :
  exists f r f', @run_cycle x64_platform (mkId 42) f = Some (r, f') /\ not_settled r.
Proof.
  destruct worn_cycle as (f & rs & r & f' & L & N & P & E). exists f, r, f'. split; [exact E |].
  apply (@outstanding_limit_is_permanent x64_platform (mkId 42) f rs r f');
    [rewrite P; lia | rewrite P, N; lia | exact L | exact E].
Defined.

Lemma first_cycle_branches_witness :
  let br n := mkBranchResult ProposalResult_default (mkId n) ModelIdentity_default in
  rb_retired_branches
    (retire_others [br 1; br 2; br 3] (mkId 2) 0 0 RequestState_default).1 = 4.
Proof.
  intros br.
  destruct (retire_others [br 1; br 2; br 3] (mkId 2) 0 0 RequestState_default)
    as [rb rs'] eqn:E.
  destruct (first_cycle_branches RequestState_default (mkId 2) [br 1; br 2; br 3] 0 0 rb rs'
    eq_refl ltac:(in_range) ltac:(in_range) E) as (_ & _ & R).
  cbn [fst]. rewrite R. by vm_compute.
Defined.

(** ** What the engine does not rule out *)

(** The outcome of a finished thread. *)
Definition thread_outcome (t : Thread) : option CycleOutcomeKind :=
  match t with TDone (Ok o) => Some (out_outcome o) | _ => None end.

(** Two activations on the same request, each past its verification before the
    other settles. *)
Definition overlapping : list Action :=
  [ASpawn (mkId 42); ASpawn (mkId 42)] ++ repeat (AStep 0) 4 ++ repeat (AStep 1) 5 ++ [AStep 0].

(** One base can be committed twice.  Two overlapping cycles of the same
    request draft and verify against the same authoritative state; the last
    critical section re-reads only the terminal and cancelled flags, not the
    generation, so both commit: the four target tokens of the base state appear
    twice, although the verifier of the second cycle had accepted them for a
    state that is no longer authoritative, where the target expects others. *)
Theorem overlapping_cycles_commit_twice :
  exists f ts rs,
    @reachable x64_platform (demo_config 4 4 1) (f, ts) /\
    map thread_outcome ts =
      [Some CycleOutcomeKind.VerificationSuccessFullAccept;
       Some CycleOutcomeKind.VerificationSuccessFullAccept] /\
    fb_requests f !! (mkId 42 : RequestId) = Some rs /\
    let base := demo_target (demo_fabric 4 4 1 5) 4 in
    rs_committed rs = base ++ base /\ get (rs_auth_gen rs) = 8 /\
    demo_target (demo_system 4 4 1 5 (firstn 11 overlapping)).1 4 <> base.
Proof.
  pose proof (demo_system_reachable 4 4 1 5 overlapping) as R.
  assert (D : bool_decide (demo_target (demo_system 4 4 1 5 (firstn 11 overlapping)).1 4 =
                           demo_target (demo_fabric 4 4 1 5) 4) = false) by (by vm_compute).
  apply bool_decide_eq_false in D.
  assert (T : (fun s : System => match fb_requests s.1 !! (mkId 42 : RequestId) with
      | Some rs =>
          bool_decide (map thread_outcome s.2 =
            [Some CycleOutcomeKind.VerificationSuccessFullAccept;
             Some CycleOutcomeKind.VerificationSuccessFullAccept]) &&
          bool_decide (rs_committed rs = demo_target (demo_fabric 4 4 1 5) 4 ++
                                         demo_target (demo_fabric 4 4 1 5) 4) &&
          (get (rs_auth_gen rs) =? 8)
      | None => false end) (demo_system 4 4 1 5 overlapping) = true) by (by vm_compute).
  revert R T. generalize (demo_system 4 4 1 5 overlapping). intros [f ts] R T.
  cbn [fst snd] in T. destruct (fb_requests f !! _) as [rs |] eqn:L; [| discriminate].
  rewrite !andb_true_iff, !bool_decide_eq_true, Z.eqb_eq in T. destruct T as ((T1 & T2) & T3).
  exists f, ts, rs. cbv zeta. by split_and!.
Qed.

(** A retry while the cycle of the first attempt is in flight. *)
Definition retried_in_flight : list Action :=
  ASpawn (mkId 42) :: repeat (AStep 0) 4 ++ [ACall (CRetry (mkId 42)); AStep 0].

(** A cycle survives the retry of its request.  A cycle prepared, drafted
    and verified under attempt 1 is still in flight when [retry] makes attempt
    2 current.  [check_authority] would reject its envelope as stale, but
    [run_cycle] does not consult it: the cycle commits its tokens and its
    proposal is recorded as one of attempt 2. *)
Theorem retry_does_not_fence_cycles :
  exists f ts rs p,
    @reachable x64_platform (demo_config 4 4 1) (f, ts) /\
    map thread_outcome ts = [Some CycleOutcomeKind.VerificationSuccessFullAccept] /\
    fb_requests f !! (mkId 42 : RequestId) = Some rs /\
    rs_attempt rs = mkId 2 /\ rs_committed rs = demo_target (demo_fabric 4 4 1 5) 4 /\
    rs_proposals rs = [p] /\ pv_attempt (prop_provenance p) = mkId 2 /\
    error_code (check_authority rs (rs_epoch rs) (mkId 1) (mkId 0) 0 f).1 =
      ErrorCode.stale_attempt.
Proof.
  pose proof (demo_system_reachable 4 4 1 5 retried_in_flight) as R.
  assert (T : (fun s : System => match fb_requests s.1 !! (mkId 42 : RequestId) with
      | Some rs =>
          bool_decide (map thread_outcome s.2 =
            [Some CycleOutcomeKind.VerificationSuccessFullAccept]) &&
          bool_decide (rs_attempt rs = mkId 2) &&
          bool_decide (rs_committed rs = demo_target (demo_fabric 4 4 1 5) 4) &&
          bool_decide (error_code (check_authority rs (rs_epoch rs) (mkId 1) (mkId 0) 0 s.1).1 =
                       ErrorCode.stale_attempt) &&
          match rs_proposals rs with
          | [p] => bool_decide (pv_attempt (prop_provenance p) = mkId 2)
          | _ => false
          end
      | None => false end) (demo_system 4 4 1 5 retried_in_flight) = true) by (by vm_compute).
  revert R T. generalize (demo_system 4 4 1 5 retried_in_flight). intros [f ts] R T.
  cbn [fst snd] in T. destruct (fb_requests f !! _) as [rs |] eqn:L; [| discriminate].
  rewrite !andb_true_iff, !bool_decide_eq_true in T. destruct T as ((((T1 & T2) & T3) & T4) & T5).
  destruct (rs_proposals rs) as [| p [|]] eqn:Ep; try discriminate.
  apply bool_decide_eq_true in T5. exists f, ts, rs, p. by split_and!.
Qed.
