(* ===== verification/Isolation.v ===== *)
(** * Requests are isolated from each other

    What an operation on one request leaves alone: the entries of all other
    requests, the configuration the engine runs on, and the scheduler's policy.
    Only the statistics, the acceptance history and the global log are shared
    between requests. *)

From stdpp Require Import gmap.
From S2P Require Import Prelude Errors Ids Doubles Model Lifecycle Data Policy Scheduler Synthetic.
From S2P Require Import Cpu Fabric Cycle Authority Interleaving CycleSpec CpuCycle Scenarios.

(** At most the entry of [target] may differ. *)
Record isolated (target : option RequestId) (f f' : Fabric) : Prop := {
  iso_impl_cfg : fb_impl_cfg f' = fb_impl_cfg f;
  iso_policy : sch_policy (fb_scheduler f') = sch_policy (fb_scheduler f);
  iso_requests : forall id, target <> Some id -> fb_requests f' !! id = fb_requests f !! id;
  iso_reads : (fb_clock_reads f <= fb_clock_reads f')%nat
}.

(** The request a call, an activation, an action of a schedule is about. *)
Definition call_target (c : Call) : option RequestId :=
  match c with
  | CSubmit req => Some (rq_id req)
  | CCancel id _ | CComplete id | CRollback id _ | CRetry id | CEmit id _ _ _ => Some id
  | CSnapshot | CRollEpoch => None
  end.

Definition thread_target (t : Thread) : option RequestId :=
  match t with
  | TStart id | TPropose id _ _ _ _ | TVerify id _ _ _ _ => Some id
  | TDone _ | TUndefined => None
  end.

Definition action_target (a : Action) : option RequestId :=
  match a with
  | ACall c => call_target c
  | ASpawn id => Some id
  | AStep _ => None
  end.

(** ** Lemmas: the state updates *)

Section Updates.
  Context (o : option RequestId).
  Implicit Types f : Fabric.

#[export] Instance isolated_preorder : PreOrder (isolated o).
Proof.
  split; [by constructor |]. intros f g h [A1 A2 A3 A4] [B1 B2 B3 B4].
  constructor; [congruence | congruence | | lia]. intros id N. by rewrite B3, A3.
Qed.

Lemma isolated_same f g :
  fb_impl_cfg g = fb_impl_cfg f -> sch_policy (fb_scheduler g) = sch_policy (fb_scheduler f) ->
  fb_requests g = fb_requests f -> (fb_clock_reads f <= fb_clock_reads g)%nat -> isolated o f g.
Proof. intros E1 E2 E3 E4. constructor; [done | done | | done]. intros id _. by rewrite E3. Qed.

Lemma update_stats_isolated upd f : isolated o f (update_stats upd f).
Proof. by apply isolated_same. Qed.

Lemma record_ratio_isolated ratio f :
  isolated o f (f <| fb_scheduler ::= fun s => s <| sch_adaptive ::= record_ratio ratio |> |>).
Proof. by apply isolated_same. Qed.

Lemma deadline_passed_isolated rs f : isolated o f (deadline_passed rs f).2.
Proof. unfold deadline_passed. destruct (rq_deadline_ns _); apply isolated_same; try done. simpl. lia. Qed.
End Updates.

Section Entry.
  Context (id : RequestId).
  Implicit Types f : Fabric.

Lemma update_request_isolated upd f : isolated (Some id) f (update_request id upd f).
Proof.
  constructor; [done | done | | done]. intros id' N. unfold update_request. simpl.
  apply lookup_alter_ne. congruence.
Qed.

Lemma push_event_isolated t d j f : isolated (Some id) f (push_event id t d j f).
Proof.
  unfold push_event, monotonic_ns. etrans; [| apply update_request_isolated].
  apply isolated_same; try done. simpl. lia.
Qed.

Lemma subscript_isolated f : isolated (Some id) f (subscript id f).2.
Proof.
  unfold subscript. destruct (fb_requests f !! id); [done |]. constructor; [done | done | | done].
  intros id' N. simpl. apply lookup_insert_ne. congruence.
Qed.
End Entry.

#[export] Hint Resolve update_stats_isolated update_request_isolated push_event_isolated
  subscript_isolated deadline_passed_isolated : fabric.

(** Chains isolation through the state updates of an operation. *)
Ltac isolate :=
  repeat first
    [ reflexivity | eassumption
    | (etrans; [| apply push_event_isolated])
    | (etrans; [| apply update_stats_isolated])
    | (etrans; [| apply update_request_isolated]) ].

(** ** Lemmas: the operations *)

Section Operations.
  Context `{Platform}.
  Implicit Types f : Fabric.

Lemma call_isolated c f : isolated (call_target c) f (call c f).
Proof.
  destruct c as [req | id why | id | id why | id | id t d j | |]; cbn [call call_target].
  - unfold submit. pose proof (subscript_isolated (rq_id req) f) as S.
    destruct (subscript (rq_id req) f) as [rs f1]. cbn [snd] in S.
    destruct (negb _); cbn [snd]; isolate.
  - unfold cancel. destruct (fb_requests f !! id) as [rs |]; cbn [snd]; [| isolate].
    destruct (rs_cancelled rs); cbn [snd]; [isolate |].
    destruct (rs_terminal rs); cbn [snd]; isolate.
  - unfold complete. destruct (fb_requests f !! id); cbn [snd]; isolate.
  - unfold rollback. destruct (fb_requests f !! id); cbn [snd]; isolate.
  - unfold retry. destruct (fb_requests f !! id) as [rs |]; cbn [snd]; [| isolate].
    destruct (_ && _); cbn [snd]; [isolate |]. destruct (_ || _); cbn [snd]; isolate.
  - apply push_event_isolated.
  - apply isolated_same; try done. simpl. lia.
  - by apply isolated_same.
Qed.

Lemma prepare_isolated id f p f' : prepare id f = Some (p, f') -> isolated (Some id) f f'.
Proof.
  unfold prepare. destruct (fb_requests f !! id) as [rs |]; [| by intros [= _ <-]].
  destruct (rs_terminal rs); [by intros [= _ <-] |].
  destruct (rs_cancelled rs); [by intros [= _ <-] |].
  pose proof (deadline_passed_isolated (Some id) rs f) as D.
  destruct (deadline_passed rs f) as [[] f1]; cbn [snd] in D; [intros [= _ <-]; isolate |].
  destruct (negb _); [intros [= _ <-]; isolate |].
  destruct (bp_blocked _); [intros [= _ <-]; isolate |].
  destruct (plan_proposal _ _ _ _ _ _) as [[plan rat] |]; [cbn [mbind option_bind] | discriminate].
  match goal with |- context [match cfg_proposer ?c with _ => _ end] =>
    destruct (cfg_proposer c), (cfg_verifier c) end; intros [= _ <-]; isolate.
Qed.

Lemma finish_isolated id l proposed accepted f r f' :
  finish id l proposed accepted f = Some (r, f') -> isolated (Some id) f f'.
Proof.
  unfold finish. destruct (fb_requests f !! id) as [rs |]; [| by intros [= _ <-]].
  destruct (rs_terminal rs || rs_cancelled rs); [intros [= _ <-]; isolate |].
  destruct (proposed !! _) as [win |]; [cbn [mbind option_bind] | discriminate].
  destruct (accepted !! _) as [wa |]; [cbn [mbind option_bind] | discriminate].
  intros E. apply settle_inv in E as (cand & rs' & o & cnt & _ & _ & _ & ->).
  etrans; [| apply push_event_isolated]. unfold settled_fabric.
  etrans; [| by apply record_ratio_isolated]. isolate.
Qed.

Lemma propose_loop_isolated id l n : forall b f r f',
  propose_loop id l n b f = (r, f') -> isolated (Some id) f f'.
Proof.
  induction n as [| n IH]; intros b f r f'; cbn [propose_loop]; [by intros [= _ <-] |].
  unfold read_proposal_input. pose proof (subscript_isolated id f) as S.
  destruct (subscript id f) as [rs f1]. cbn [snd] in S.
  destruct (branch_result _ _ _); [| by intros [= _ <-]].
  destruct (propose_loop id l n (b + 1) f1) as [rest f2] eqn:E. intros [= _ <-].
  etrans; [exact S | by eapply IH].
Qed.

Lemma verify_loop_isolated id l todo : forall f r f',
  verify_loop id l todo f = Some (r, f') -> isolated (Some id) f f'.
Proof.
  induction todo as [| br todo IH]; intros f r f'; cbn [verify_loop]; [by intros [= _ <-] |].
  unfold read_verification_input. pose proof (subscript_isolated id f) as S.
  destruct (subscript id f) as [rs f1]. cbn [snd] in S.
  destruct (pr_candidate _); cbn [mbind option_bind]; [| discriminate].
  destruct (verify _ _); [| by intros [= _ <-]].
  destruct (verify_loop id l todo f1) as [[rest f2] |] eqn:E; cbn [mbind option_bind];
    [| discriminate].
  intros [= _ <-]. etrans; [exact S | by eapply IH].
Qed.

(** A cycle on one request. *)
Lemma run_cycle_isolated id f r f' : run_cycle id f = Some (r, f') -> isolated (Some id) f f'.
Proof.
  unfold run_cycle. destruct (prepare id f) as [[p f1] |] eqn:P; cbn [mbind option_bind];
    [| discriminate]. apply prepare_isolated in P.
  destruct p as [r0 | l]; [by intros [= _ <-] |].
  destruct (propose_loop _ _ _ _ _) as [proposed f2] eqn:Q. apply propose_loop_isolated in Q.
  destruct proposed as [proposed | e]; [| intros [= _ <-]; etrans; eassumption].
  destruct (verify_loop _ _ _ _) as [[accepted f3] |] eqn:V; cbn [mbind option_bind];
    [| discriminate]. apply verify_loop_isolated in V.
  destruct accepted as [accepted | e]; [intros F; apply finish_isolated in F | intros [= _ <-]].
  - etrans; [exact P | etrans; [exact Q |]]. by etrans.
  - etrans; [exact P |]. by etrans.
Qed.

Lemma thread_step_isolated t f t' f' : thread_step t f = (t', f') ->
  isolated (thread_target t) f f' /\ (thread_target t' = thread_target t \/ thread_target t' = None).
Proof.
  destruct t as [id | id l [| n] b pr | id l pr [| br todo] acc | r |];
    cbn [thread_step thread_target].
  - destruct (prepare id f) as [[[r | l] f1] |] eqn:E; intros [= <- <-];
      [apply prepare_isolated in E | apply prepare_isolated in E |];
      (split; [done |]); [by right | by left | by right].
  - intros [= <- <-]. split; [done | by left].
  - unfold read_proposal_input. pose proof (subscript_isolated id f) as S.
    destruct (subscript id f) as [rs f1]. cbn [snd] in S.
    destruct (branch_result _ _ _); intros [= <- <-]; (split; [done |]); [by left | by right].
  - destruct (finish id l pr acc f) as [[r f1] |] eqn:E; intros [= <- <-]; [| split; [done | by right]].
    apply finish_isolated in E. split; [done | by right].
  - unfold read_verification_input. pose proof (subscript_isolated id f) as S.
    destruct (subscript id f) as [rs f1]. cbn [snd] in S.
    destruct (pr_candidate _); cbn [mbind option_bind];
      [| intros [= <- <-]; split; [reflexivity | by right]].
    destruct (verify _ _); intros [= <- <-]; (split; [done |]); [by left | by right].
  - intros [= <- <-]. split; [done | by left].
  - intros [= <- <-]. split; [done | by left].
Qed.

(** No activation of the system is about a request. *)
Definition idle (id : RequestId) (s : System) : Prop :=
  Forall (fun t => thread_target t <> Some id) s.2.

Lemma act_isolated id a s : action_target a <> Some id -> idle id s ->
  idle id (act s a) /\ fb_requests (act s a).1 !! id = fb_requests s.1 !! id /\
  fb_impl_cfg (act s a).1 = fb_impl_cfg s.1 /\
  sch_policy (fb_scheduler (act s a).1) = sch_policy (fb_scheduler s.1).
Proof.
  destruct s as [f ts]. unfold idle. destruct a as [c | id' | i]; cbn [act action_target fst snd];
    intros N I.
  - destruct (call_isolated c f) as [E1 E2 E3 _]. split_and!; auto.
  - split_and!; auto. apply Forall_app. split; [done |]. by constructor.
  - destruct (ts !! i) as [t |] eqn:L; [| by split_and!].
    destruct (thread_step t f) as [t' f'] eqn:E.
    apply thread_step_isolated in E as [[E1 E2 E3 _] T]. cbn [fst snd].
    pose proof (Forall_lookup_1 _ _ _ _ I L) as Nt. split_and!; auto.
    apply Forall_insert; [done |]. destruct T as [-> | ->]; [done | discriminate].
Qed.

(** C9: requests are isolated.  In any schedule of API calls and cycles of any
    number of threads in which no call, no new activation and no running
    activation is about a request, the entry of that request stays exactly as
    it was - absent if it was absent - whatever the others do, fail at, or
    leave undefined; so do the executors and the clock the engine runs on, and
    the scheduler's policy. *)
Theorem requests_isolated id actions : forall s,
  Forall (fun a => action_target a <> Some id) actions -> idle id s ->
  let s' := run_schedule actions s in
  fb_requests s'.1 !! id = fb_requests s.1 !! id /\ idle id s' /\
  fb_impl_cfg s'.1 = fb_impl_cfg s.1 /\
  sch_policy (fb_scheduler s'.1) = sch_policy (fb_scheduler s.1).
Proof.
  unfold run_schedule. induction actions as [| a actions IH]; intros s N I; [by split_and! |].
  apply Forall_cons in N as [Na N]. cbn [fold_left].
  destruct (act_isolated id a s Na I) as (I' & E1 & E2 & E3).
  destruct (IH (act s a) N I') as (J & F1 & F2 & F3). rewrite E1 in J. rewrite E2 in F2.
  rewrite E3 in F3. by split_and!.
Qed.
End Operations.

(** A request beside the demo request, whose cycle runs and which is then
    cancelled. *)
Definition beside : list Action :=
  [ACall (CSubmit (demo_request 7 3)); ASpawn (mkId 7); AStep 0; AStep 0; AStep 0; AStep 0; AStep 0;
   ACall (CCancel (mkId 7) "done")].

Lemma requests_isolated_witness :
  demo_entry (demo_system 3 4 1 5 beside).1 = demo_entry (demo_fabric 3 4 1 5) /\
  is_Some (fb_requests (demo_system 3 4 1 5 beside).1 !! (mkId 7 : RequestId)).
Proof.
  destruct (@requests_isolated x64_platform (mkId 42) beside (demo_fabric 3 4 1 5, []))
    as (E & _).
  - repeat constructor; discriminate.
  - constructor.
  - split; [unfold demo_entry, demo_system; by rewrite E |].
    assert (T : match fb_requests (demo_system 3 4 1 5 beside).1 !! (mkId 7 : RequestId) with
                | Some _ => true | None => false end = true) by (by vm_compute).
    revert T. generalize (fb_requests (demo_system 3 4 1 5 beside).1 !! (mkId 7 : RequestId)).
    intros [rs |] T; [by exists rs | discriminate].
Defined.
