(* ===== verification/Deadlines.v ===== *)
(** * Deadlines

    A request may carry a deadline, which every cycle compares with the clock
    before it starts.  With a clock that never goes back - [SteadyClock] is one
    (Clock.v) - a deadline that has passed stays passed, whatever other threads
    do in between. *)

From stdpp Require Import gmap.
From S2P Require Import Prelude Errors Ids Clock Doubles Model Lifecycle Data Policy Scheduler Fabric.
From S2P Require Import Cycle Authority Interleaving CycleSpec CpuCycle Scenarios Isolation.

(** The readings of a clock never decrease. *)
Definition steady (clock : nat -> Z) : Prop := forall i j, (i <= j)%nat -> clock i <= clock j.

(** The next reading of the clock is past the deadline. *)
Definition overdue (rs : RequestState) (f : Fabric) : Prop :=
  exists deadline, rq_deadline_ns (rs_req rs) = Some deadline /\
    deadline < cfg_clock (fb_impl_cfg f) (fb_clock_reads f).

(** What a cycle that does not start reports. *)
Definition refusal (rs : RequestState) : CycleOutcome :=
  if rs_terminal rs then
    (make_outcome CycleOutcomeKind.Superseded) <| out_phase := SpeculativePhase.Superseded |>
  else if rs_cancelled rs then
    (make_outcome CycleOutcomeKind.Cancelled) <| out_phase := SpeculativePhase.Cancelled |>
  else (make_outcome CycleOutcomeKind.Expired) <| out_phase := SpeculativePhase.Expired |>.

(** ** Lemmas *)

Lemma SteadyClock_steady num den ticks wnum wden system :
  0 < num -> 0 < den -> (forall i j, (i <= j)%nat -> 0 <= ticks i <= ticks j) ->
  (forall i, duration_cast_ns num den (ticks i) < 18446744073709551616) ->
  steady (ck_monotonic_ns (SteadyClock num den ticks wnum wden system)).
Proof. intros Hn Hd T B i j L. by apply SteadyClock_monotone; auto. Qed.

Section Deadlines.
  Context `{Platform}.
  Implicit Types f : Fabric.

Lemma sys_step_clock s s' : sys_step s s' ->
  fb_impl_cfg s'.1 = fb_impl_cfg s.1 /\ (fb_clock_reads s.1 <= fb_clock_reads s'.1)%nat.
Proof.
  intros [c f ts | id f ts | i t t' f f' ts _ E]; cbn [fst].
  - by destruct (call_isolated c f) as [E1 _ _ E4].
  - done.
  - by apply thread_step_isolated in E as [[E1 _ _ E4] _].
Qed.

Lemma sys_steps_clock s s' : sys_steps s s' ->
  fb_impl_cfg s'.1 = fb_impl_cfg s.1 /\ (fb_clock_reads s.1 <= fb_clock_reads s'.1)%nat.
Proof.
  induction 1 as [s | s1 s2 s3 E _ [IH1 IH2]]; [done |].
  destruct (sys_step_clock _ _ E) as [E1 E2]. split; [congruence | lia].
Qed.

(** Overdue requests stay overdue. *)
Lemma overdue_later s s' rs rs' : steady (cfg_clock (fb_impl_cfg s.1)) -> sys_steps s s' ->
  rs_req rs' = rs_req rs -> overdue rs s.1 -> overdue rs' s'.1.
Proof.
  intros St R E (d & D & L). destruct (sys_steps_clock s s' R) as [C N].
  exists d. rewrite E, C. split; [done |]. specialize (St _ _ N). lia.
Qed.

(** A cycle on an overdue request does not start. *)
Lemma overdue_refused id f rs : fb_requests f !! id = Some rs -> overdue rs f ->
  exists f', run_cycle id f = Some (Ok (refusal rs), f') /\
    isolated (Some id) f f' /\
    exists rs', fb_requests f' !! id = Some rs' /\ rs_committed rs' = rs_committed rs /\
      rs_proposals rs' = rs_proposals rs.
Proof.
  intros L (d & D & P).
  destruct (run_cycle id f) as [[r f'] |] eqn:E.
  - pose proof (run_cycle_isolated _ _ _ _ E) as I. revert E. unfold run_cycle, prepare, refusal. rewrite L.
    destruct (rs_terminal rs); [intros [= <- <-]; exists f; split_and!; [done | done | by exists rs] |].
    destruct (rs_cancelled rs); [intros [= <- <-]; exists f; split_and!; [done | done | by exists rs] |].
    unfold deadline_passed. rewrite D. unfold monotonic_ns.
    rewrite (proj2 (Z.ltb_lt _ _) P). cbn [mbind option_bind]. intros [= <- <-].
    eexists. split; [done |]. split; [exact I |].
    match goal with |- context [push_event ?i ?t ?d ?j ?g] =>
      destruct (lookup_push_event i t d j g rs L) as [es Es] end.
    rewrite Es. eexists. split_and!; done.
  - revert E. unfold run_cycle, prepare. rewrite L. destruct (rs_terminal rs); [done |].
    destruct (rs_cancelled rs); [done |]. unfold deadline_passed. rewrite D. unfold monotonic_ns.
    by rewrite (proj2 (Z.ltb_lt _ _) P).
Qed.

(** C10: Deadlines are final.  With a clock that never goes back, once the
    deadline of a submitted request has passed no later cycle works on it,
    whatever calls and cycles of other threads come in between: [run_cycle]
    returns at once, says that the request is superseded when it is terminal,
    cancelled when it is cancelled and expired otherwise, and leaves its
    committed tokens and proposals and every other request as they are. *)
Theorem deadlines_are_final s s' id rs :
  steady (cfg_clock (fb_impl_cfg s.1)) -> sys_steps s s' ->
  fb_requests s.1 !! id = Some rs -> submitted rs -> overdue rs s.1 ->
  exists rs' f' rs'', fb_requests s'.1 !! id = Some rs' /\
    run_cycle id s'.1 = Some (Ok (refusal rs'), f') /\
    (forall other, other <> id -> fb_requests f' !! other = fb_requests s'.1 !! other) /\
    fb_requests f' !! id = Some rs'' /\ rs_committed rs'' = rs_committed rs' /\
    rs_proposals rs'' = rs_proposals rs'.
Proof.
  intros St R L Sub O. destruct (sys_steps_evolves s s' R id rs L) as (rs' & L' & V).
  pose proof (ev_req _ _ (V Sub)) as Rq.
  pose proof (overdue_later _ _ _ _ St R Rq O) as O'.
  destruct (overdue_refused id s'.1 rs' L' O') as (f' & E & I & rs'' & L2 & Cm & Pr).
  exists rs', f', rs''. split_and!; try done. intros other N. apply (iso_requests _ _ _ I). congruence.
Qed.
End Deadlines.

(** A deadline that passes while the engine works on another request. *)
Definition demo_ticks (i : nat) : Z := Z.min (Z.of_nat i) 1000.

Definition demo_clock : Clock := SteadyClock 1 1000000000 demo_ticks 1 10000000 demo_ticks.

Definition timed_fabric : Fabric :=
  call (CSubmit ((demo_request 42 5) <| rq_deadline_ns := Some 0 |>))
    (new_fabric ((demo_config 3 4 1) <| cfg_clock := ck_monotonic_ns demo_clock |>)).

Definition meanwhile : list Action :=
  [ACall (CSubmit (demo_request 7 3)); ASpawn (mkId 7); AStep 0; AStep 0; AStep 0; AStep 0;
   ACall (CRetry (mkId 42))].

Lemma deadlines_are_final_witness :
  exists rs f', @run_cycle x64_platform (mkId 42)
      (@run_schedule x64_platform meanwhile (timed_fabric, [])).1 =
    Some (Ok (refusal rs), f').
Proof.
  set (rs := default RequestState_default (fb_requests timed_fabric !! (mkId 42 : RequestId))).
  destruct (@deadlines_are_final x64_platform (timed_fabric, [])
    (@run_schedule x64_platform meanwhile (timed_fabric, [])) (mkId 42) rs)
    as (rs' & f' & _ & _ & E & _).
  - apply (SteadyClock_steady 1 1000000000 demo_ticks 1 10000000 demo_ticks); try done.
    + unfold demo_ticks. lia.
    + intros i. unfold duration_cast_ns, demo_ticks. rewrite Z.quot_div_nonneg by lia.
      apply Z.div_lt_upper_bound; lia.
  - apply run_schedule_steps.
  - reflexivity.
  - reflexivity.
  - exists 0. split; [reflexivity | vm_compute; reflexivity].
  - exists rs', f'. exact E.
Defined.
