(* ===== verification/Registry.v ===== *)
(** * The engine as a registry of requests

    An abstract specification of the engine: a map from identifiers to what a
    client can rely on - the request, its attempt and retries, whether it was
    cancelled or completed, and its committed tokens - with one transition per
    operation.  The engine refines it: every operation, a cycle included,
    replies and changes the registry as a transition says. *)

From stdpp Require Import gmap.
From S2P Require Import Prelude Errors Ids Doubles Model Lifecycle Data Policy Scheduler Synthetic.
From S2P Require Import Cpu Fabric Cycle Authority Interleaving CycleSpec CpuCycle Scenarios Isolation.

(** ** The specification *)

Record Registered : Set := mkRegistered {
  reg_request : SpeculationRequest;
  reg_attempt : Z;
  reg_retries : Z;
  reg_cancelled : bool;
  reg_completed : bool;
  reg_committed : list Z
}.

#[export] Instance eta_Registered : Etable Registered := fun r =>
  mkRegistered (reg_request r) (reg_attempt r) (reg_retries r) (reg_cancelled r) (reg_completed r)
    (reg_committed r).

Abbreviation Registry := (gmap RequestId Registered).

(** What a client does, and what it is told: an error code and a number. *)
Inductive Op : Set :=
| OSubmit (req : SpeculationRequest)
| OCancel (id : RequestId) (why : string)
| OComplete (id : RequestId)
| ORollback (id : RequestId) (why : string)
| ORetry (id : RequestId)
| OLength (id : RequestId)
| OCycle (id : RequestId).

Record Reply : Set := mkReply { rp_code : ErrorCode; rp_value : Z }.

Definition fine (n : Z) : Reply := mkReply ErrorCode.ok n.
Definition refused (c : ErrorCode) : Reply := mkReply c 0.

(** A request that was cancelled or completed. *)
Definition reg_closed (e : Registered) : bool := reg_cancelled e || reg_completed e.

(** Changes of one registered request. *)
Definition with_entry (m : Registry) (id : RequestId)
    (k : Registered -> Reply * (Registered -> Registered)) : Reply * Registry :=
  match m !! id with
  | None => (refused ErrorCode.not_found, m)
  | Some e => let '(r, upd) := k e in (r, alter upd id m)
  end.

(** The transitions of the operations that are one call. *)
Definition spec_call (op : Op) (m : Registry) : Reply * Registry :=
  match op with
  | OSubmit req =>
      match m !! rq_id req with
      | Some e => (refused ErrorCode.already_exists, m)
      | None => (fine 0, <[rq_id req := mkRegistered req 1 0 false false (rq_prefix req)]> m)
      end
  | OCancel id _ =>
      with_entry m id (fun e =>
        if negb (reg_cancelled e) && reg_completed e
        then (refused ErrorCode.already_terminal, fun e => e)
        else (fine 0, fun e => e <| reg_cancelled := true |>))
  | OComplete id => with_entry m id (fun _ => (fine 0, fun e => e <| reg_completed := true |>))
  | ORollback id _ =>
      with_entry m id (fun e => (fine (u32 (zlen (reg_committed e))), fun e => e))
  | ORetry id =>
      with_entry m id (fun e =>
        let limit := rq_max_attempts (reg_request e) in
        if negb (limit =? 0) && (limit <=? reg_retries e)
        then (refused ErrorCode.retryable_failure, fun e => e)
        else if reg_closed e then (refused ErrorCode.invalid_state, fun e => e)
        else (fine (u64 (reg_attempt e + 1)),
              fun e => e <| reg_attempt := u64 (reg_attempt e + 1) |>
                         <| reg_retries := u32 (reg_retries e + 1) |>))
  | OLength id => with_entry m id (fun e => (fine (zlen (reg_committed e)), fun e => e))
  | OCycle _ => (fine 0, m)
  end.

(** The transitions: a cycle on an open request may commit tokens at the end
    of its sequence, and then says how many; otherwise it changes nothing. *)
Inductive spec_step (m : Registry) : Op -> Reply -> Registry -> Prop :=
| spec_calls op : (forall id, op <> OCycle id) ->
    spec_step m op (spec_call op m).1 (spec_call op m).2
| spec_unknown id : m !! id = None ->
    spec_step m (OCycle id) (refused ErrorCode.not_found) m
| spec_idle id e code : m !! id = Some e ->
    (reg_closed e = true -> code = ErrorCode.ok) ->
    spec_step m (OCycle id) (mkReply code 0) m
| spec_commit id e new : m !! id = Some e -> reg_closed e = false ->
    spec_step m (OCycle id) (fine (zlen new))
      (<[id := e <| reg_committed ::= fun c => c ++ new |>]> m).

(** A client's run: its operations, the replies, the registry at the end. *)
Inductive spec_run (m : Registry) : list Op -> list Reply -> Registry -> Prop :=
| spec_done : spec_run m [] [] m
| spec_more op ops r rs m' m'' :
    spec_step m op r m' -> spec_run m' ops rs m'' -> spec_run m (op :: ops) (r :: rs) m''.

(** ** The engine *)

Definition reply_of {T} (number : T -> Z) (r : Result T) : Reply :=
  mkReply (error_code r) (match r with Ok v => number v | Failed _ => 0 end).

Section Engine.
  Context `{Platform}.

(** One operation of a client on the engine. *)
Definition exec (op : Op) (f : Fabric) : option (Reply * Fabric) :=
  match op with
  | OSubmit req => let '(r, f) := submit req f in Some (reply_of (fun _ => 0) r, f)
  | OCancel id why => let '(r, f) := cancel id why f in Some (reply_of (fun _ => 0) r, f)
  | OComplete id => let '(r, f) := complete id f in Some (reply_of (fun _ => 0) r, f)
  | ORollback id why => let '(r, f) := rollback id why f in Some (reply_of rb_accepted_prefix r, f)
  | ORetry id => let '(r, f) := retry id f in Some (reply_of (fun a => get a) r, f)
  | OLength id => Some (reply_of (fun n => n) (authoritative_length id f), f)
  | OCycle id => '(r, f) ← run_cycle id f; Some (reply_of out_accepted_tokens r, f)
  end.

Fixpoint exec_all (ops : list Op) (f : Fabric) : option (list Reply * Fabric) :=
  match ops with
  | [] => Some ([], f)
  | op :: ops =>
      '(r, f) ← exec op f;
      '(rs, f) ← exec_all ops f;
      Some (r :: rs, f)
  end.
End Engine.

(** What a client sees of an entry, and of the engine. *)
Definition registered (rs : RequestState) : Registered :=
  mkRegistered (rs_req rs) (get (rs_attempt rs)) (rs_retry_count rs) (rs_cancelled rs)
    (rs_terminal rs) (rs_committed rs).

Definition registry (f : Fabric) : Registry := registered <$> fb_requests f.

(** Every entry is filed under its own identifier, which is not null. *)
Definition keyed (f : Fabric) : Prop :=
  forall id rs, fb_requests f !! id = Some rs -> rq_id (rs_req rs) = id /\ is_null id = false.

(** ** Lemmas *)

Section Refinement.
  Context `{Platform}.
  Implicit Types f : Fabric.

Lemma registry_lookup f id : registry f !! id = registered <$> fb_requests f !! id.
Proof. apply lookup_fmap. Qed.

Lemma registry_same f g : fb_requests g = fb_requests f -> registry g = registry f.
Proof. unfold registry. by intros ->. Qed.

Lemma registry_update_request id upd (g : Registered -> Registered) f :
  (forall rs, fb_requests f !! id = Some rs -> registered (upd rs) = g (registered rs)) ->
  registry (update_request id upd f) = alter g id (registry f).
Proof.
  intros E. apply map_eq. intros i. rewrite registry_lookup. unfold update_request. simpl.
  destruct (decide (i = id)) as [-> | N].
  - rewrite !lookup_alter_eq, registry_lookup. destruct (fb_requests f !! id) as [rs |]; [| done].
    simpl. by rewrite E.
  - by rewrite !lookup_alter_ne, registry_lookup.
Qed.

Lemma registry_push_event id t d j f : registry (push_event id t d j f) = registry f.
Proof.
  unfold push_event, monotonic_ns.
  rewrite (registry_update_request id _ (fun e => e)) by done. by apply alter_id.
Qed.

Lemma registry_update_stats g f : registry (update_stats g f) = registry f.
Proof. by apply registry_same. Qed.

Lemma registry_known f id rs :
  fb_requests f !! id = Some rs -> registry f !! id = Some (registered rs).
Proof. intros L. by rewrite registry_lookup, L. Qed.

Lemma registry_unknown f id : fb_requests f !! id = None -> registry f !! id = None.
Proof. intros L. by rewrite registry_lookup, L. Qed.

(** An operation keeps the keys when it keeps the requests. *)
Lemma keyed_registry f f' :
  keyed f -> (forall id e, registry f' !! id = Some e ->
    (exists e', registry f !! id = Some e' /\ reg_request e = reg_request e') \/
    rq_id (reg_request e) = id /\ is_null id = false) -> keyed f'.
Proof.
  intros K E id rs L. destruct (E id _ (registry_known _ _ _ L)) as [(e & L' & R) | R]; [| done].
  rewrite registry_lookup in L'. destruct (fb_requests f !! id) as [rs0 |] eqn:L0; [| discriminate].
  simpl in L'. injection L' as <-. simpl in R. rewrite R. by apply K.
Qed.

Definition legal (op : Op) : Prop :=
  match op with OSubmit req => is_null (rq_id req) = false | _ => True end.

(** Submitting registers a request, once. *)
Lemma submit_registers req f : keyed f -> legal (OSubmit req) ->
  exists f', exec (OSubmit req) f = Some ((spec_call (OSubmit req) (registry f)).1, f') /\
    registry f' = (spec_call (OSubmit req) (registry f)).2.
Proof.
  intros K Lg. cbn [exec spec_call]. unfold submit, subscript.
  destruct (fb_requests f !! rq_id req) as [rs |] eqn:L.
  - rewrite (registry_known _ _ _ L). destruct (K _ _ L) as [-> ->]. cbn [negb].
    by exists f.
  - rewrite (registry_unknown _ _ L). change (is_null (rq_id (rs_req RequestState_default))) with true.
    cbn [negb]. eexists. split; [reflexivity |].
    rewrite registry_push_event, registry_update_stats. apply map_eq. intros i.
    rewrite registry_lookup. unfold update_request. simpl.
    destruct (decide (i = rq_id req)) as [-> | N].
    + by rewrite lookup_alter_eq, !lookup_insert_eq.
    + by rewrite lookup_alter_ne, !lookup_insert_ne, registry_lookup by done.
Qed.

(** The calls compute their transition. *)
Lemma exec_call op f : keyed f -> legal op -> (forall id, op <> OCycle id) ->
  exists f', exec op f = Some ((spec_call op (registry f)).1, f') /\
    registry f' = (spec_call op (registry f)).2.
Proof.
  intros K Lg NC. destruct op as [req | id why | id | id why | id | id | id];
    cbn [exec spec_call]; unfold with_entry.
  - by apply submit_registers.
  - unfold cancel. destruct (fb_requests f !! id) as [rs |] eqn:L;
      [rewrite (registry_known _ _ _ L) | by rewrite (registry_unknown _ _ L); exists f].
    cbn [reg_cancelled reg_completed registered].
    destruct (rs_cancelled rs) eqn:Rc; cbn [negb andb].
    + exists f. split; [done |]. symmetry. apply alter_id.
      rewrite (registry_known _ _ _ L). intros e [= <-]. unfold registered. by rewrite Rc.
    + destruct (rs_terminal rs); [exists f; split; [done |]; symmetry; by apply alter_id |].
      eexists. split; [reflexivity |]. rewrite registry_push_event, registry_update_stats.
      by apply registry_update_request.
  - unfold complete. destruct (fb_requests f !! id) as [rs |] eqn:L;
      [rewrite (registry_known _ _ _ L) | by rewrite (registry_unknown _ _ L); exists f].
    eexists. split; [reflexivity |]. rewrite registry_push_event. by apply registry_update_request.
  - unfold rollback. destruct (fb_requests f !! id) as [rs |] eqn:L;
      [rewrite (registry_known _ _ _ L) | by rewrite (registry_unknown _ _ L); exists f].
    eexists. split; [reflexivity |]. rewrite registry_push_event, registry_update_stats.
    by apply registry_update_request.
  - unfold retry. destruct (fb_requests f !! id) as [rs |] eqn:L;
      [rewrite (registry_known _ _ _ L) | by rewrite (registry_unknown _ _ L); exists f].
    unfold reg_closed. cbn [reg_request reg_retries reg_cancelled reg_completed reg_attempt registered].
    rewrite (orb_comm (rs_cancelled rs)).
    destruct (_ && _); [exists f; split; [done |]; symmetry; by apply alter_id |].
    destruct (_ || _); [exists f; split; [done |]; symmetry; by apply alter_id |].
    eexists. split; [reflexivity |]. rewrite registry_push_event, registry_update_stats.
    apply registry_update_request. intros rs' L'. assert (rs' = rs) as -> by congruence. done.
  - unfold authoritative_length. exists f. destruct (fb_requests f !! id) as [rs |] eqn:L;
      [rewrite (registry_known _ _ _ L) | by rewrite (registry_unknown _ _ L)].
    split; [done |]. symmetry. by apply alter_id.
  - by destruct (NC id).
Qed.
(** A transition keeps the requests. *)
Definition keeps_requests (m m' : Registry) : Prop :=
  forall id e, m' !! id = Some e ->
    (exists e', m !! id = Some e' /\ reg_request e = reg_request e') \/
    rq_id (reg_request e) = id /\ is_null id = false.

Lemma keeps_requests_refl m : keeps_requests m m.
Proof. intros id e L. left. by exists e. Qed.

Lemma with_entry_keeps m id k :
  (forall e e', reg_request ((k e).2 e') = reg_request e') ->
  keeps_requests m (with_entry m id k).2.
Proof.
  intros E. unfold with_entry. destruct (m !! id) as [e0 |]; [| apply keeps_requests_refl].
  pose proof (E e0) as E0. destruct (k e0) as [r upd]. simpl in *. intros i e L.
  apply lookup_alter_Some in L as [(-> & e' & L & ->) | [_ L]]; left; by eexists.
Qed.

Lemma spec_call_keeps op m : legal op -> keeps_requests m (spec_call op m).2.
Proof.
  intros Lg. destruct op; cbn [spec_call]; try (apply with_entry_keeps; intros e e');
    try apply keeps_requests_refl; try done.
  - destruct (m !! rq_id req); [apply keeps_requests_refl |]. intros i e L. simpl in L.
    apply lookup_insert_Some in L as [[<- <-] | [_ L]]; [by right | left; by exists e].
  - by destruct (_ && _).
  - destruct (_ && _); [done |]. by destruct (reg_closed e).
Qed.

Lemma keyed_keeps f f' : keyed f -> keeps_requests (registry f) (registry f') -> keyed f'.
Proof. intros K R. by apply (keyed_registry f). Qed.

(** A closed request is not worked on. *)
Lemma closed_cycle id f rs : fb_requests f !! id = Some rs -> closed rs ->
  exists o, run_cycle id f = Some (Ok o, f) /\ out_accepted_tokens o = 0.
Proof.
  intros L C. unfold run_cycle, prepare. rewrite L.
  destruct (rs_terminal rs) eqn:T; [by eexists |].
  destruct C as [C | C]; [congruence |]. rewrite C. by eexists.
Qed.

Lemma registry_isolated id f f' rs' : isolated (Some id) f f' ->
  fb_requests f' !! id = Some rs' -> registry f' = <[id := registered rs']> (registry f).
Proof.
  intros I L. apply map_eq. intros i. rewrite registry_lookup.
  destruct (decide (i = id)) as [-> | N]; [by rewrite L, lookup_insert_eq |].
  rewrite lookup_insert_ne, registry_lookup by done. by rewrite (iso_requests _ _ _ I) by congruence.
Qed.

(** A cycle makes one of its transitions. *)
Lemma exec_cycle id f r f' : executors_ok f -> run_cycle id f = Some (r, f') ->
  spec_step (registry f) (OCycle id) (reply_of out_accepted_tokens r) (registry f') /\
  keeps_requests (registry f) (registry f').
Proof.
  intros X E. destruct (fb_requests f !! id) as [rs |] eqn:L.
  2: { unfold run_cycle, prepare in E. rewrite L in E. injection E as <- <-.
       split; [apply spec_unknown, registry_unknown, L | apply keeps_requests_refl]. }
  pose proof (run_cycle_isolated _ _ _ _ E) as I.
  destruct (run_cycle_effect id f rs r f' X L E) as (rs' & L' & S).
  rewrite (registry_isolated _ _ _ _ I L'). pose proof (registry_known _ _ _ L) as R.
  destruct S as [(NS & m & es & ->) | (o & l & b & cand & a & -> & NC & _ & _ & _ & Ef & Rp)].
  - change (registered (rs <| rs_cycle := m |> <| rs_events := es |>)) with (registered rs).
    rewrite insert_id by done. split; [| apply keeps_requests_refl].
    replace (reply_of out_accepted_tokens r) with (mkReply (error_code r) 0).
    + apply (spec_idle _ id _ _ R). intros C. destruct (closed_cycle id f rs L) as (o & Ec & _).
      { unfold reg_closed in C. apply orb_true_iff in C as [C | C]; [by right | by left]. }
      rewrite E in Ec. by injection Ec as -> _.
    + destruct r as [o | e]; [| done]. destruct NS as (_ & _ & A & _). unfold reply_of. by rewrite A.
  - destruct Ef as [Bd Cm _ _ _ [Rq At] (T & X' & Rt)].
    destruct Rp as (_ & A & _). set (new := map tk_id _) in Cm.
    assert (Ln : zlen new = ar_accepted_prefix a) by (by apply zlen_committed_tokens).
    replace (registered rs') with ((registered rs) <| reg_committed ::= fun c => c ++ (new : list Z) |>)
      by (unfold registered; simpl; by rewrite Rq, At, T, X', Rt, Cm).
    replace (reply_of out_accepted_tokens (Ok o)) with (fine (zlen new))
      by (unfold reply_of; by rewrite A, Ln).
    split; [apply (spec_commit _ _ _ _ R) |].
    + unfold reg_closed. simpl. destruct (rs_cancelled rs) eqn:Cc, (rs_terminal rs) eqn:Ct; try done;
        exfalso; apply NC; by (left + right).
    + intros i e Le. apply lookup_insert_Some in Le as [[<- <-] | [_ Le]]; left; by eexists.
Qed.

(** ** Whole runs *)

Lemma executors_isolated o f f' : isolated o f f' ->
  (executors_ok f -> executors_ok f') /\ (executors_answer f -> executors_answer f').
Proof.
  intros [C P _]. split; intros []; constructor; rewrite ?C, ?P; done.
Qed.

Definition op_call (op : Op) : option Call :=
  match op with
  | OSubmit req => Some (CSubmit req)
  | OCancel id why => Some (CCancel id why)
  | OComplete id => Some (CComplete id)
  | ORollback id why => Some (CRollback id why)
  | ORetry id => Some (CRetry id)
  | OLength _ | OCycle _ => None
  end.

Lemma exec_isolated op f r f' : exec op f = Some (r, f') -> exists o, isolated o f f'.
Proof.
  pose proof (fun c => call_isolated c f) as I.
  destruct op as [req | id why | id | id why | id | id | id]; cbn [exec].
  - specialize (I (CSubmit req)). cbn [call] in I. destruct (submit _ _). intros [= _ <-]. eauto.
  - specialize (I (CCancel id why)). cbn [call] in I. destruct (cancel _ _ _). intros [= _ <-]. eauto.
  - specialize (I (CComplete id)). cbn [call] in I. destruct (complete _ _). intros [= _ <-]. eauto.
  - specialize (I (CRollback id why)). cbn [call] in I. destruct (rollback _ _ _). intros [= _ <-]. eauto.
  - specialize (I (CRetry id)). cbn [call] in I. destruct (retry _ _). intros [= _ <-]. eauto.
  - intros [= _ <-]. by exists None.
  - destruct (run_cycle id f) as [[r0 f0] |] eqn:E; cbn [mbind option_bind]; [| discriminate].
    intros [= _ <-]. exists (Some id). by eapply run_cycle_isolated.
Qed.

Lemma is_cycle op : {id | op = OCycle id} + {forall id, op <> OCycle id}.
Proof. destruct op; (by left; eexists) || by right. Qed.

(** One operation refines one transition. *)
Lemma exec_refines op f r f' : keyed f -> executors_ok f -> legal op ->
  exec op f = Some (r, f') -> spec_step (registry f) op r (registry f') /\ keyed f'.
Proof.
  intros K X Lg E. destruct (is_cycle op) as [[id ->] | NC].
  - cbn [exec] in E. destruct (run_cycle id f) as [[r0 f0] |] eqn:Er; cbn [mbind option_bind] in E;
      [| discriminate]. injection E as <- <-.
    destruct (exec_cycle _ _ _ _ X Er) as [S R]. split; [exact S | by eapply keyed_keeps].
  - destruct (exec_call op f K Lg NC) as (f1 & E1 & R). rewrite E in E1. injection E1 as -> <-.
    pose proof (spec_call_keeps op (registry f) Lg) as P. rewrite <- R in P.
    split; [rewrite R; by apply spec_calls | by eapply keyed_keeps].
Qed.

Lemma exec_total op f : keyed f -> executors_ok f -> executors_answer f -> legal op ->
  exists r f', exec op f = Some (r, f').
Proof.
  intros K X A Lg. destruct (is_cycle op) as [[id ->] | NC].
  - cbn [exec]. destruct (fb_requests f !! id) as [rs |] eqn:L.
    + destruct (run_cycle_returns id f rs X A L) as (r & f' & -> & _). by do 2 eexists.
    + unfold run_cycle, prepare. rewrite L. by do 2 eexists.
  - destruct (exec_call op f K Lg NC) as (f1 & E1 & _). by do 2 eexists.
Qed.

Lemma new_fabric_keyed cfg : keyed (new_fabric cfg).
Proof. intros id rs L. simpl in L. by rewrite lookup_empty in L. Qed.

(** C3: the engine refines the registry.  Take any executors that keep their
    contracts and any client that submits requests with non-null identifiers,
    cancels, completes, rolls back, retries, cycles and asks for lengths in any
    order, starting from a new engine.  Whenever its run is defined, the
    replies - every error code, attempt number, length and count of accepted
    tokens - and the requests the engine holds at the end are those of a run of
    the specification; and when the executors answer, every run is defined.
    The null identifier is left out because a second submission with it
    overwrites the first instead of being refused. *)
Theorem engine_refines_registry cfg ops :
  executors_ok (new_fabric cfg) -> Forall legal ops ->
  (forall rs f', exec_all ops (new_fabric cfg) = Some (rs, f') -> spec_run empty ops rs (registry f')) /\
  (executors_answer (new_fabric cfg) ->
   exists rs f', exec_all ops (new_fabric cfg) = Some (rs, f')).
Proof.
  intros X Lg. pose proof (new_fabric_keyed cfg) as K.
  replace (empty : Registry) with (registry (new_fabric cfg)) by apply fmap_empty.
  generalize dependent (new_fabric cfg). induction Lg as [| op ops Lo _ IH]; intros f X K;
    cbn [exec_all].
  - split; [intros rs f' [= <- <-]; constructor | by do 2 eexists].
  - split.
    + intros rs f'. destruct (exec op f) as [[r f1] |] eqn:E; cbn [mbind option_bind]; [| discriminate].
      destruct (exec_refines _ _ _ _ K X Lo E) as [S K1].
      destruct (exec_isolated _ _ _ _ E) as [o I].
      destruct (IH f1 (proj1 (executors_isolated _ _ _ I) X) K1) as [IH1 _].
      destruct (exec_all ops f1) as [[rs1 f2] |]; cbn [mbind option_bind]; [| discriminate].
      intros [= <- <-]. by apply (spec_more _ _ _ _ _ _ _ S), IH1.
    + intros A. destruct (exec_total op f K X A Lo) as (r & f1 & E). rewrite E.
      destruct (exec_refines _ _ _ _ K X Lo E) as [_ K1].
      destruct (exec_isolated _ _ _ _ E) as [o I].
      destruct (executors_isolated _ _ _ I) as [X1 A1].
      destruct (IH f1 (X1 X) K1) as [_ IH2]. destruct (IH2 (A1 A)) as (rs & f2 & E2).
      cbn [mbind option_bind]. rewrite E2. by do 2 eexists.
Qed.
End Refinement.

(** ** A client *)

(** Submits twice, cycles, retries, cancels and asks again. *)
Definition sample_client : list Op :=
  [OSubmit (demo_request 42 5); OSubmit (demo_request 42 6); OCycle (mkId 42); ORetry (mkId 42);
   OLength (mkId 42); OCancel (mkId 42) "enough"; ORetry (mkId 42); OCycle (mkId 42);
   OComplete (mkId 42); OLength (mkId 9)].

Example sample_replies :
  (fst <$> @exec_all x64_platform sample_client (new_fabric (demo_config 9 4 1))) =
  Some [fine 0; refused ErrorCode.already_exists; fine 4; fine 2; fine 4; fine 0;
        refused ErrorCode.invalid_state; fine 0; fine 0; refused ErrorCode.not_found].
Proof. vm_compute. reflexivity. Qed.

Lemma demo_engine_ok aligned depth branches : 1 <= depth <= 256 -> branches < 4096 ->
  cpu_runtime (CpuProposer.Config_aligned aligned) (new_fabric (demo_config aligned depth branches)).
Proof. by constructor. Qed.

Lemma engine_refines_registry_witness :
  exists rs f', @exec_all x64_platform sample_client (new_fabric (demo_config 9 4 1)) = Some (rs, f') /\
    spec_run empty sample_client rs (registry f').
Proof.
  destruct (@engine_refines_registry x64_platform (demo_config 9 4 1) sample_client) as [R T].
  - eapply cpu_executors_ok, demo_engine_ok; lia.
  - repeat constructor.
  - destruct T as (rs & f' & E); [eapply cpu_executors_answer, demo_engine_ok; lia |].
    exists rs, f'. split; [exact E | by apply R].
Defined.
