(* ===== verification/WaitFree.v ===== *)
(** * Cycles under interleaving: defined, answered and wait-free

    CycleSpec.v shows that an uninterrupted [run_cycle] is total.  Here the
    same is shown of every activation in every system that calls and cycles of
    any number of threads can build: with executors that keep their contracts
    and answer, no activation runs into undefined behaviour, and each one
    finishes within a number of its own critical sections that the policy
    bounds, whatever the others do in between. *)

From stdpp Require Import gmap.
From S2P Require Import Prelude Errors Ids Doubles Model Lifecycle Data Policy Scheduler Synthetic.
From S2P Require Import Cpu Fabric Cycle Authority Interleaving Invariants CycleSpec CpuCycle.
From S2P Require Import Scenarios Isolation Registry.

(** ** What an activation carries *)

(** A proposal with a candidate of the cycle's depth. *)
Definition drafted (l : Local) (br : BranchResult) : Prop :=
  exists c, pr_candidate (bres_pr br) = Some c /\ cand_size c = lc_depth l.

(** A verdict within the candidate it is about. *)
Definition judged (br : BranchResult) (a : AcceptanceResult) : Prop :=
  exists c, pr_candidate (bres_pr br) = Some c /\ 0 <= ar_accepted_prefix a <= cand_size c.

(** The branches a cycle proposes. *)
Definition cycle_branches (p : ProposalPolicy) : Z := Z.max 1 (pol_max_branches p).

(** The locals agree with the executors and the policy of the engine. *)
Record local_ok (f : Fabric) (l : Local) : Prop := {
  lo_proposer : cfg_proposer (fb_impl_cfg f) = Some (lc_proposer l);
  lo_verifier : cfg_verifier (fb_impl_cfg f) = Some (lc_verifier l);
  lo_depth : 1 <= lc_depth l <= pol_max_depth (sch_policy (fb_scheduler f));
  lo_branches : lc_branch_count l = cycle_branches (sch_policy (fb_scheduler f))
}.

(** The activation can only go on to an answer. *)
Definition sound (f : Fabric) (t : Thread) : Prop :=
  match t with
  | TStart _ | TDone _ => True
  | TPropose id l n _ pr =>
      local_ok f l /\ Z.of_nat (length pr + n) = lc_branch_count l /\ Forall (drafted l) pr
  | TVerify id l pr todo acc =>
      local_ok f l /\ Z.of_nat (length pr) = lc_branch_count l /\ Forall (drafted l) pr /\
      exists judged_, pr = judged_ ++ todo /\ Forall2 judged judged_ acc
  | TUndefined => False
  end.

Definition system_sound (s : System) : Prop :=
  executors_ok s.1 /\ executors_answer s.1 /\ Forall (thread_ok s.1) s.2 /\ Forall (sound s.1) s.2.

(** ** Counting critical sections *)

(** The critical sections of a whole cycle. *)
Definition cycle_steps (p : ProposalPolicy) : nat := (3 + 2 * Z.to_nat (cycle_branches p))%nat.

(** How many of its own an activation still has to take, at most. *)
Definition steps_left (p : ProposalPolicy) (t : Thread) : nat :=
  match t with
  | TStart _ => cycle_steps p
  | TPropose _ _ n _ pr => (n + (length pr + n) + 2)%nat
  | TVerify _ _ _ todo _ => (length todo + 1)%nat
  | TDone _ | TUndefined => 0%nat
  end.

(** How many steps of thread [i] a schedule holds. *)
Fixpoint own_steps (i : nat) (actions : list Action) : nat :=
  match actions with
  | [] => 0%nat
  | AStep j :: actions => if (i =? j)%nat then S (own_steps i actions) else own_steps i actions
  | _ :: actions => own_steps i actions
  end.

(** A thread that was started for a registered request has its answer. *)
Definition answered (known : Prop) (f : Fabric) (t : Thread) : Prop :=
  match t with
  | TDone r => known -> has_value r = true
  | TUndefined => False
  | TStart id | TPropose id _ _ _ _ | TVerify id _ _ _ _ => known -> is_Some (fb_requests f !! id)
  end.

(** ** Lemmas *)

Section Sound.
  Context `{Platform}.
  Implicit Types f : Fabric.

Lemma local_ok_isolated o f f' l : isolated o f f' -> local_ok f l -> local_ok f' l.
Proof. intros [C P _] []. constructor; by rewrite ?C, ?P. Qed.

Lemma sound_isolated o f f' t : isolated o f f' -> sound f t -> sound f' t.
Proof.
  intros I. destruct t; simpl; try done; intros (L & R);
    (split; [by eapply local_ok_isolated | exact R]).
Qed.

(** The first critical section leaves sound locals. *)
Lemma prepare_sound id f p f' rs :
  executors_ok f -> fb_requests f !! id = Some rs -> prepare id f = Some (p, f') ->
  match p with
  | Done r => has_value r = true
  | Go l => local_ok f' l
  end.
Proof.
  intros X L P. pose proof (prepare_isolated id f p f' P) as I.
  destruct (prepare_spec id f p f' rs L P) as (rs' & _ & _ & G). destruct p as [r | l];
    [by destruct G |].
  destruct G as (_ & Cp & Cv & _ & plan & rat & Pl & Ed & Eb).
  apply (local_ok_isolated _ _ _ _ I). constructor; try done.
  - rewrite Ed. by apply (planned_depth _ _ _ _ _ (xo_depth _ X) Pl).
  - rewrite Eb. revert Pl. unfold plan_proposal.
    destruct (plan_depth _ _ _ _); cbn [mbind option_bind]; [| discriminate].
    intros [= <- _]. unfold cycle_branches. simpl. lia.
Qed.

(** A proposal of the cycle's depth is drafted. *)
Lemma propose_drafted f l id b rs :
  executors_ok f -> executors_answer f -> local_ok f l ->
  exists pr, branch_result l b (proposal_input id l b rs) = Ok pr /\ drafted l pr.
Proof.
  intros X A [Cp _ D _].
  destruct (xa_proposer _ A _ (proposal_input id l b rs) Cp D eq_refl) as (r & E & S).
  assert (D32 : is_u32 (pi_depth (proposal_input id l b rs)))
    by (pose proof (xo_depth _ X); unfold is_u32; simpl; lia).
  pose proof (xo_proposer _ X _ Cp) as C.
  destruct (proposer_success _ _ D32 E S) as [c Hc].
  destruct (proposer_candidate _ _ c D32 E Hc) as [_ Sz].
  unfold branch_result. rewrite E. eexists. split; [reflexivity |]. by exists c.
Qed.

(** Its verdict is judged. *)
Lemma judged_verifies f l br vin f' rs id :
  executors_ok f -> executors_answer f -> local_ok f l -> drafted l br ->
  fb_requests f !! id = Some rs -> read_verification_input id l br f = Some (vin, f') ->
  f' = f /\ exists a, verify (lc_verifier l) vin = Ok a /\ judged br a.
Proof.
  intros X A [_ Cv _ _] (c & Hc & _) L. unfold read_verification_input, subscript.
  rewrite L, Hc. cbn [mbind option_bind]. intros [= <- <-]. split; [done |].
  pose proof (xa_verifier _ A _ (verification_input id l br c rs) Cv) as V.
  destruct (verify _ _) as [a |] eqn:E; [| discriminate]. exists a. split; [done |].
  pose proof (xo_verifier _ X _ Cv) as C. exists c. split; [done |]. by apply (verifier_bound _ _ E).
Qed.

(** The last critical section of a sound activation answers. *)
Lemma finish_defined id l proposed accepted f rs :
  fb_requests f !! id = Some rs -> proposed <> [] -> Forall2 judged proposed accepted ->
  exists o f', finish id l proposed accepted f = Some (Ok o, f').
Proof.
  intros L N F2. unfold finish. rewrite L. destruct (_ || _); [by eexists _, _ |].
  pose proof (Forall2_length _ _ _ F2) as Len.
  assert (Na : accepted <> []) by (destruct proposed, accepted; simpl in *; done).
  destruct (select_winner_bounds proposed accepted Na) as [Hw _].
  destruct (lookup_lt_is_Some_2 _ _ Hw) as [a La].
  destruct (lookup_lt_is_Some_2 proposed (select_winner proposed accepted)) as [br Lp]; [lia |].
  rewrite Lp, La. cbn [mbind option_bind].
  destruct (Forall2_lookup_lr _ _ _ _ _ _ F2 Lp La) as (cand & Hc & B).
  destruct (settle_total id l proposed br a rs f cand Hc B) as (o & f' & ->). by eexists _, _.
Qed.

(** An activation that works on a registered request goes on doing so. *)
Lemma thread_step_target t f t' f' :
  thread_ok f t -> thread_step t f = (t', f') -> thread_ok f' t'.
Proof.
  intros K E. pose proof (thread_step_evolves t f) as V. rewrite E in V. cbn [snd] in V.
  apply (thread_ok_evolves f f') in K; [| exact V].
  destruct t as [id | id l [| n] b pr | id l pr [| br todo] acc | r |]; cbn [thread_step] in E.
  - destruct (prepare id f) as [[[r | l] f1] |] eqn:P; injection E as <- <-; try done.
    destruct (fb_requests f !! id) as [rs |] eqn:L.
    + destruct (V id rs L) as (rs' & L' & _). by exists rs'.
    + unfold prepare in P. by rewrite L in P.
  - by injection E as <- <-.
  - destruct (read_proposal_input id l b f). destruct (branch_result _ _ _); by injection E as <- <-.
  - destruct (finish id l pr acc f) as [[r f1] |]; by injection E as <- <-.
  - destruct (read_verification_input id l br f) as [[vin f1] |]; [| by injection E as <- <-].
    destruct (verify _ _); by injection E as <- <-.
  - by injection E as <- <-.
  - by injection E as <- <-.
Qed.

(** One critical section of a sound activation: it stays sound and has fewer
    steps left. *)
Definition advances (p : ProposalPolicy) (f f' : Fabric) (t t' : Thread) : Prop :=
  sound f' t' /\ (steps_left p t' <= Nat.pred (steps_left p t))%nat /\
  forall known, answered known f t -> answered known f' t'.

Lemma start_advances id f : executors_ok f ->
  let '(t', f') := thread_step (TStart id) f in
  advances (sch_policy (fb_scheduler f)) f f' (TStart id) t'.
Proof.
  intros X. unfold advances. cbn [thread_step]. destruct (prepare_total id f (xo_depth _ X)) as (q & f1 & P).
  rewrite P. destruct (fb_requests f !! id) as [rs |] eqn:L.
  2: { unfold prepare in P. rewrite L in P. injection P as <- <-. split_and!; [done | simpl; lia |].
       simpl. intros known Hk Kn. rewrite L in Hk. by destruct (Hk Kn). }
  pose proof (prepare_sound id f q f1 rs X L P) as G.
  destruct (prepare_spec id f q f1 rs L P) as (rs1 & L1 & _).
  destruct q as [r | l]; [split_and!; [done | simpl; lia | by intros known _ _] |].
  pose proof (lo_branches _ _ G) as B. destruct (prepare_isolated _ _ _ _ P) as [_ E _ _].
  rewrite E in B. cbn [sound steps_left answered length]. split_and!; try done.
  - rewrite B. unfold cycle_branches. lia.
  - unfold cycle_steps. rewrite B. lia.
Qed.

Lemma propose_advances id l n b pr f :
  executors_ok f -> executors_answer f -> is_Some (fb_requests f !! id) ->
  sound f (TPropose id l n b pr) ->
  let '(t', f') := thread_step (TPropose id l n b pr) f in
  advances (sch_policy (fb_scheduler f)) f f' (TPropose id l n b pr) t'.
Proof.
  intros X A [rs L] (Lo & Ln & Dr). unfold advances. destruct n as [| n]; cbn [thread_step].
  - cbn [sound steps_left answered]. split_and!; try done; [lia | | lia].
    exists []. by split.
  - unfold read_proposal_input, subscript. rewrite L.
    destruct (propose_drafted f l id b rs X A Lo) as (br & -> & D).
    cbn [sound steps_left answered]. rewrite length_app. simpl.
    split_and!; try done; [lia | | lia]. apply Forall_app. by split; [| constructor].
Qed.

Lemma verify_advances id l pr todo acc f :
  executors_ok f -> executors_answer f -> is_Some (fb_requests f !! id) ->
  sound f (TVerify id l pr todo acc) ->
  let '(t', f') := thread_step (TVerify id l pr todo acc) f in
  advances (sch_policy (fb_scheduler f)) f f' (TVerify id l pr todo acc) t'.
Proof.
  intros X A [rs L] (Lo & Ln & Dr & jd & -> & F2). unfold advances.
  destruct todo as [| br todo]; cbn [thread_step].
  - rewrite app_nil_r in *. assert (N : jd <> []).
    { intros ->. pose proof (lo_branches _ _ Lo) as B. unfold cycle_branches in B.
      simpl in Ln. lia. }
    destruct (finish_defined id l jd acc f rs L N F2) as (o & f' & ->).
    split_and!; [done | simpl; lia | done].
  - assert (D : drafted l br) by (apply Forall_app in Dr as [_ Dr]; by inversion Dr).
    destruct (read_verification_input id l br f) as [[vin f1] |] eqn:R.
    + destruct (judged_verifies f l br vin f1 rs id X A Lo D L R) as (-> & a & -> & J).
      cbn [sound steps_left answered length]. split_and!; try done; try (simpl; lia).
      exists (jd ++ [br]). rewrite <- app_assoc. split; [done |]. apply Forall2_app; auto.
    + exfalso. revert R. unfold read_verification_input, subscript. rewrite L.
      by destruct D as (c & -> & _).
Qed.

Lemma thread_step_advances t f :
  executors_ok f -> executors_answer f -> thread_ok f t -> sound f t ->
  let '(t', f') := thread_step t f in advances (sch_policy (fb_scheduler f)) f f' t t'.
Proof.
  intros X A K S. destruct t.
  - by apply start_advances.
  - by apply propose_advances.
  - by apply verify_advances.
  - by split_and!.
  - done.
Qed.

(** *** Systems *)

(** The others, when the engine takes one step. *)
Lemma others_sound o f f' ts : isolated o f f' -> fabric_evolves f f' ->
  system_sound (f, ts) -> system_sound (f', ts).
Proof.
  intros I V (X & A & K & S). destruct (executors_isolated _ _ _ I) as [X' A'].
  split_and!; [by apply X' | by apply A' | |]; cbn [fst snd] in *.
  - eapply Forall_impl; [exact K |]. intros t. by apply thread_ok_evolves.
  - eapply Forall_impl; [exact S |]. intros t. by eapply sound_isolated.
Qed.

Lemma act_sound s a : system_sound s -> system_sound (act s a).
Proof.
  destruct s as [f ts]. intros O. destruct a as [c | id | i]; cbn [act fst snd].
  - eapply others_sound; [apply call_isolated | apply call_evolves | exact O].
  - destruct O as (X & A & K & S). split_and!; cbn [fst snd] in *; try done;
      apply Forall_app; by split; [| constructor].
  - destruct (ts !! i) as [t |] eqn:L; [| exact O].
    pose proof (others_sound _ _ _ ts (proj1 (thread_step_isolated t f _ _ (surjective_pairing _)))
      (thread_step_evolves t f) O) as (X' & A' & K' & S').
    destruct O as (X & A & K & S). cbn [fst snd] in *.
    pose proof (Forall_lookup_1 _ _ _ _ K L) as Kt. pose proof (Forall_lookup_1 _ _ _ _ S L) as St.
    pose proof (thread_step_advances t f X A Kt St) as V.
    destruct (thread_step t f) as [t' f'] eqn:E. cbn [fst snd] in *. destruct V as (V & _ & _).
    split_and!; cbn [fst snd]; try done; apply Forall_insert; try done.
    eapply thread_step_target; eassumption.
Qed.

Lemma run_schedule_sound actions : forall s, system_sound s -> system_sound (run_schedule actions s).
Proof. induction actions as [| a actions IH]; intros s O; [done |]. by apply IH, act_sound. Qed.

(** Every run is a schedule. *)
Lemma sys_steps_schedule s s' : sys_steps s s' -> exists actions, s' = run_schedule actions s.
Proof.
  induction 1 as [s | s1 s2 s3 E _ [actions ->]]; [by exists [] |].
  destruct E as [c f ts | id f ts | i t t' f f' ts L S].
  - by exists (ACall c :: actions).
  - by exists (ASpawn id :: actions).
  - exists (AStep i :: actions). unfold run_schedule. cbn [fold_left act fst snd]. by rewrite L, S.
Qed.

Lemma new_system_sound cfg : executors_ok (new_fabric cfg) -> executors_answer (new_fabric cfg) ->
  system_sound (new_fabric cfg, []).
Proof. intros X A. split_and!; [done | done | constructor | constructor]. Qed.

Lemma reachable_sound cfg s : executors_ok (new_fabric cfg) -> executors_answer (new_fabric cfg) ->
  reachable cfg s -> system_sound s.
Proof.
  intros X A R. apply sys_steps_schedule in R as [actions ->].
  by apply run_schedule_sound, new_system_sound.
Qed.

Lemma act_policy s a :
  sch_policy (fb_scheduler (act s a).1) = sch_policy (fb_scheduler s.1).
Proof.
  destruct s as [f ts], a as [c | id | i]; cbn [act fst snd]; [| done |].
  - by destruct (call_isolated c f).
  - destruct (ts !! i) as [t |]; [| done]. destruct (thread_step t f) as [t' f'] eqn:E.
    by apply thread_step_isolated in E as [[_ E _] _].
Qed.

Lemma answered_evolves known f f' t :
  fabric_evolves f f' -> answered known f t -> answered known f' t.
Proof.
  intros V. destruct t; simpl; try done; intros K Kn; destruct (K Kn) as [rs L];
    destruct (V _ rs L) as (rs' & -> & _); by eexists.
Qed.

(** One action, seen by one activation. *)
Lemma act_thread s a i t known : system_sound s -> s.2 !! i = Some t -> answered known s.1 t ->
  exists t', (act s a).2 !! i = Some t' /\ answered known (act s a).1 t' /\
    (steps_left (sch_policy (fb_scheduler s.1)) t' <=
     steps_left (sch_policy (fb_scheduler s.1)) t - own_steps i [a])%nat.
Proof.
  destruct s as [f ts]. intros (X & A & K & S) L W. cbn [fst snd] in *.
  destruct a as [c | id | j]; cbn [act own_steps fst snd].
  - exists t. split_and!; [done | | lia]. by apply (answered_evolves _ f); [apply call_evolves |].
  - exists t. split_and!; [by apply lookup_app_l_Some | done | lia].
  - destruct (ts !! j) as [u |] eqn:Lj; cbn [fst snd].
    2: { exists t. split_and!; try done. destruct (Nat.eqb_spec i j); [congruence | lia]. }
    pose proof (Forall_lookup_1 _ _ _ _ K Lj) as Ku. pose proof (Forall_lookup_1 _ _ _ _ S Lj) as Su.
    pose proof (thread_step_advances u f X A Ku Su) as V. pose proof (thread_step_evolves u f) as Ev.
    destruct (thread_step u f) as [u' f'] eqn:E. cbn [fst snd] in *. destruct V as (_ & V & Wu).
    destruct (Nat.eqb_spec i j) as [-> | N].
    + assert (u = t) as -> by congruence. exists u'. split_and!; [| by apply Wu | lia].
      apply list_lookup_insert_eq. by eapply lookup_lt_Some.
    + exists t. split_and!; [by rewrite list_lookup_insert_ne | | lia].
      by apply (answered_evolves _ f).
Qed.

(** A schedule, seen by one activation. *)
Lemma run_schedule_thread actions : forall s i t known,
  system_sound s -> s.2 !! i = Some t -> answered known s.1 t ->
  exists t', (run_schedule actions s).2 !! i = Some t' /\
    answered known (run_schedule actions s).1 t' /\
    (steps_left (sch_policy (fb_scheduler s.1)) t' <=
     steps_left (sch_policy (fb_scheduler s.1)) t - own_steps i actions)%nat.
Proof.
  induction actions as [| a actions IH]; intros s i t known O L W.
  - exists t. split_and!; [done | done | simpl; lia].
  - destruct (act_thread s a i t known O L W) as (t1 & L1 & W1 & B1).
    destruct (IH (act s a) i t1 known (act_sound s a O) L1 W1) as (t2 & L2 & W2 & B2).
    rewrite act_policy in B2. exists t2. split_and!; [done | done |].
    assert (E : own_steps i (a :: actions) = (own_steps i [a] + own_steps i actions)%nat)
      by (destruct a; simpl; try done; by destruct (i =? i0)%nat).
    lia.
Qed.

Lemma steps_left_bound f t :
  sound f t -> (steps_left (sch_policy (fb_scheduler f)) t <= cycle_steps (sch_policy (fb_scheduler f)))%nat.
Proof.
  destruct t; simpl; intros S; try (unfold cycle_steps; lia); revert S; unfold cycle_steps.
  - intros (Lo & Ln & _). rewrite (lo_branches _ _ Lo) in Ln. lia.
  - intros (Lo & Ln & _ & jd & -> & _). rewrite (lo_branches _ _ Lo), length_app in Ln. lia.
Qed.

(** C7: Cycles are defined and wait-free.  In every system that calls and
    cycles of any number of threads can build from a new engine whose
    executors keep their contracts and answer, no activation ever runs into
    undefined behaviour; and however the schedule goes on, an activation that
    gets [3 + 2 * branches] more of its own critical sections has finished -
    no other thread can hold it up - with an outcome, not an error, if its
    request was registered. *)
Theorem cycles_wait_free cfg s actions i t :
  executors_ok (new_fabric cfg) -> executors_answer (new_fabric cfg) -> reachable cfg s ->
  s.2 !! i = Some t ->
  exists t', (run_schedule actions s).2 !! i = Some t' /\ t' <> TUndefined /\
    ((cycle_steps (sch_policy (fb_scheduler s.1)) <= own_steps i actions)%nat ->
     exists r, t' = TDone r /\
       forall id, thread_target t = Some id -> is_Some (fb_requests s.1 !! id) ->
         has_value r = true).
Proof.
  intros X A R L. pose proof (reachable_sound cfg s X A R) as O.
  pose proof O as (_ & _ & _ & S). pose proof (Forall_lookup_1 _ _ _ _ S L) as St.
  destruct (run_schedule_thread actions s i t
    (exists id, thread_target t = Some id /\ is_Some (fb_requests s.1 !! id)) O L)
    as (t' & L' & W & B).
  { destruct t; simpl; try (intros (? & E & ?); by simplify_eq); done. }
  exists t'. pose proof (run_schedule_sound actions s O) as (_ & _ & _ & S').
  pose proof (Forall_lookup_1 _ _ _ _ S' L') as St'.
  split_and!; [done | by intros -> |]. intros N. pose proof (steps_left_bound _ _ St).
  destruct t'; simpl in B, St'; try (unfold cycle_steps in *; lia); try done.
  exists r. split; [done |]. intros id T K. apply W. by exists id.
Qed.
End Sound.

(** ** Two threads on one request *)

(** Two cycles of the demo request, their steps alternating, and a retry and
    a foreign submission in between. *)
Definition contended : list Action :=
  [ASpawn (mkId 42); ASpawn (mkId 42); AStep 0; AStep 1; ACall (CRetry (mkId 42)); AStep 1; AStep 0;
   ACall (CSubmit (demo_request 7 3))].

Definition alternate (n : nat) : list Action := concat (repeat [AStep 0; AStep 1] n).

Lemma demo_contended_ok : executors_ok (new_fabric (demo_config 3 4 2)) /\
  executors_answer (new_fabric (demo_config 3 4 2)).
Proof.
  split; [eapply cpu_executors_ok | eapply cpu_executors_answer]; apply demo_engine_ok; lia.
Qed.

Lemma demo_system_app aligned depth branches sequence xs ys :
  demo_system aligned depth branches sequence (xs ++ ys) =
  @run_schedule x64_platform ys (demo_system aligned depth branches sequence xs).
Proof. apply fold_left_app. Qed.

(** The second thread, with its steps left and the ones it gets. *)
Lemma contended_thread :
  (exists t, (demo_system 3 4 2 5 contended).2 !! 1%nat = Some t) /\
  (cycle_steps (sch_policy (fb_scheduler (demo_system 3 4 2 5 contended).1)) <=
   own_steps 1 (alternate 7))%nat.
Proof.
  assert (T : (length (demo_system 3 4 2 5 contended).2 =? 2)%nat &&
    (cycle_steps (sch_policy (fb_scheduler (demo_system 3 4 2 5 contended).1)) <=?
     own_steps 1 (alternate 7))%nat = true) by (by vm_compute).
  apply andb_true_iff in T as [T1 T2]. apply Nat.eqb_eq in T1. apply Nat.leb_le in T2.
  split; [| exact T2]. apply lookup_lt_is_Some_2. rewrite T1. apply le_n.
Qed.

Lemma cycles_wait_free_witness :
  exists r, (demo_system 3 4 2 5 (contended ++ alternate 7)).2 !! 1%nat = Some (TDone r).
Proof.
  destruct demo_contended_ok as [X A]. destruct contended_thread as [[t L] B].
  destruct (@cycles_wait_free x64_platform (demo_config 3 4 2) (demo_system 3 4 2 5 contended)
    (alternate 7) 1%nat t X A (demo_system_reachable _ _ _ _ _) L) as (t' & L' & _ & D).
  destruct (D B) as (r & -> & _). exists r. rewrite demo_system_app. exact L'.
Defined.
