(* ===== verification/Accounting.v ===== *)
(** * The engine's books

    The counters of [Stats] are kept beside the requests they count, in separate
    updates.  Here: in every system of legal submissions and cycles of any
    number of threads, each counter is the sum over the requests of what it
    counts - admissions, cancellations, retries, proposals, drafted and
    committed tokens - and so agrees with what [snapshot] reports. *)

From stdpp Require Import gmap sorting.
From S2P Require Import Prelude Errors Ids Doubles Model Lifecycle Data Policy Scheduler Synthetic.
From S2P Require Import Cpu Fabric Cycle Authority Interleaving Invariants CycleSpec CpuCycle.
From S2P Require Import Scenarios Isolation Registry WaitFree.

(** ** The counters and what they count *)

Inductive Counter : Set := Admissions | Cancels | Retries | Proposals | Drafted | Committed.

Definition counter (k : Counter) (s : Stats) : Z :=
  match k with
  | Admissions => st_requests_eligible_for_speculation s
  | Cancels => st_cancel_count s
  | Retries => st_retry_count s
  | Proposals => st_proposals_produced s
  | Drafted => st_tokens_proposed s
  | Committed => st_tokens_accepted s
  end.

(** The tokens drafted by the proposals of a request. *)
Definition drafted_tokens (ps : list Proposal) : Z :=
  foldr (fun p n => u32 (cand_size (prop_candidate p)) + n) 0 ps.

(** One request's share. *)
Definition share (k : Counter) (rs : RequestState) : Z :=
  match k with
  | Admissions => 1
  | Cancels => if rs_cancelled rs then 1 else 0
  | Retries => rs_retry_count rs
  | Proposals => zlen (rs_proposals rs)
  | Drafted => drafted_tokens (rs_proposals rs)
  | Committed => zlen (rs_committed rs) - zlen (rq_prefix (rs_req rs))
  end.

(** The retries of a request are counted in 32 bits, the rest in 64. *)
Definition modulus (k : Counter) : Z :=
  match k with Retries => 4294967296 | _ => 18446744073709551616 end.

(** Equal up to the wrap-around of the counter. *)
Definition agrees (k : Counter) (x y : Z) : Prop := (x - y) mod modulus k = 0.

Definition balanced (f : Fabric) : Prop :=
  forall k, agrees k (counter k (fb_stats f)) (sum_requests (share k) f).

Definition books_ok (f : Fabric) : Prop := keyed f /\ balanced f.

(** The verdicts of an activation are of its engine's verifier. *)
Definition counts (f : Fabric) (t : Thread) : Prop :=
  match t with
  | TPropose id l _ _ _ =>
      is_Some (fb_requests f !! id) /\ cfg_verifier (fb_impl_cfg f) = Some (lc_verifier l)
  | TVerify id l _ _ acc =>
      is_Some (fb_requests f !! id) /\ cfg_verifier (fb_impl_cfg f) = Some (lc_verifier l) /\
      Forall (fun a => 0 <= ar_accepted_prefix a) acc
  | _ => True
  end.

(** A call that submits nothing under the null identifier. *)
Definition legal_action (a : Action) : Prop :=
  match a with ACall (CSubmit req) => is_null (rq_id req) = false | _ => True end.

(** The verifiers report a prefix that is not negative, as its type says. *)
Definition unsigned_verdicts (f : Fabric) : Prop :=
  forall v i a, cfg_verifier (fb_impl_cfg f) = Some v -> verify v i = Ok a ->
    0 <= ar_accepted_prefix a.

(** ** Lemmas: sums over the requests *)

Section Sums.
  Implicit Types f : Fabric.
  Implicit Types m : gmap RequestId RequestState.

(** The sum, whatever the order. *)
Definition total (g : RequestState -> Z) m : Z := map_fold (fun _ rs n => g rs + n) 0 m.

Lemma total_insert g m id rs : m !! id = None -> total g (<[id := rs]> m) = g rs + total g m.
Proof.
  intros N. unfold total. rewrite map_fold_insert_L; [done | | done]. intros. lia.
Qed.

Lemma total_replace g m id rs rs' : m !! id = Some rs ->
  total g (<[id := rs']> m) = total g m - g rs + g rs'.
Proof.
  intros L. rewrite <- (insert_delete_id m id rs L) at 2. rewrite <- insert_delete_eq.
  rewrite !total_insert by apply lookup_delete_eq. lia.
Qed.

Lemma fold_sum {A} (g : A -> Z) l : forall n,
  fold_left (fun n x => n + g x) l n = n + foldr (fun x n => g x + n) 0 l.
Proof. induction l as [| x l IH]; intros n; simpl; [lia |]. rewrite IH. lia. Qed.

Lemma sum_permutation {A} (g : A -> Z) l l' : l ≡ₚ l' ->
  foldr (fun x n => g x + n) 0 l = foldr (fun x n => g x + n) 0 l'.
Proof. induction 1; simpl; lia. Qed.

Lemma sum_requests_total g f : sum_requests g f = total g (fb_requests f).
Proof.
  unfold sum_requests, request_list, total. rewrite (fold_sum (fun kv => g kv.2)), map_fold_foldr.
  rewrite (sum_permutation _ _ _ (merge_sort_Permutation request_before _)), Z.add_0_l.
  induction (map_to_list (fb_requests f)) as [| [k rs] l IH]; simpl; [done |]. by rewrite IH.
Qed.
End Sums.

(** ** Lemmas: the books through the state updates *)

(** The books up to what the requests have that is not counted yet. *)
Definition owing (d : Counter -> Z) (f : Fabric) : Prop :=
  keyed f /\ forall k, agrees k (counter k (fb_stats f) + d k) (total (share k) (fb_requests f)).

Section Updates.
  Implicit Types f : Fabric.
  Implicit Types d : Counter -> Z.

Lemma books_owing f : books_ok f <-> owing (fun _ => 0) f.
Proof.
  unfold books_ok, balanced, owing. split; intros [K B]; (split; [exact K |]); intros k;
    specialize (B k); rewrite sum_requests_total, ?Z.add_0_r in *; exact B.
Qed.

Lemma agrees_trans k x y z : agrees k x y -> agrees k y z -> agrees k x z.
Proof. unfold agrees. destruct k; simpl; zdm. Qed.

Lemma same_owing d f g : fb_requests g = fb_requests f -> fb_stats g = fb_stats f ->
  owing d f -> owing d g.
Proof. unfold owing, keyed. by intros -> ->. Qed.

Lemma update_stats_owing d d' upd f :
  (forall k s, agrees k (counter k (upd s) + d' k) (counter k s + d k)) ->
  owing d f -> owing d' (update_stats upd f).
Proof. intros A [K B]. split; [exact K |]. intros k. eapply agrees_trans; [apply A | apply B]. Qed.

Lemma update_request_owing d d' id upd rs f :
  fb_requests f !! id = Some rs -> rs_req (upd rs) = rs_req rs ->
  (forall k, d' k = d k + (share k (upd rs) - share k rs)) ->
  owing d f -> owing d' (update_request id upd f).
Proof.
  intros L R D [K B].
  assert (E : fb_requests (update_request id upd f) = <[id := upd rs]> (fb_requests f)).
  { unfold update_request. simpl. apply map_eq. intros i. destruct (decide (i = id)) as [-> | N].
    - by rewrite lookup_alter_eq, L, lookup_insert_eq.
    - by rewrite lookup_alter_ne, lookup_insert_ne. }
  split.
  - intros i x. rewrite E, lookup_insert_Some. intros [[<- <-] | [_ Lx]]; [| by apply K].
    rewrite R. by apply K.
  - intros k. specialize (B k). rewrite E, (total_replace _ _ _ rs), D by done.
    revert B. unfold agrees. simpl. destruct k; simpl; zdm.
Qed.

(** An update of an entry that no counter counts. *)
Lemma update_request_quiet d id upd f :
  (forall rs, fb_requests f !! id = Some rs ->
     rs_req (upd rs) = rs_req rs /\ forall k, share k (upd rs) = share k rs) ->
  owing d f -> owing d (update_request id upd f).
Proof.
  intros Q O. destruct (fb_requests f !! id) as [rs |] eqn:L.
  - destruct (Q rs eq_refl) as [R S]. apply (update_request_owing d d id upd rs f L R); [| exact O].
    intros k. rewrite S. lia.
  - apply (same_owing d f); [| done | exact O]. unfold update_request. simpl. apply map_eq.
    intros i. destruct (decide (i = id)) as [-> | N]; [by rewrite lookup_alter_eq, L |].
    by rewrite lookup_alter_ne.
Qed.

Lemma push_event_owing d id t e j f : owing d f -> owing d (push_event id t e j f).
Proof.
  intros O. unfold push_event, monotonic_ns. apply update_request_quiet.
  - intros rs _. split; [done |]. by intros [].
  - by apply (same_owing d f).
Qed.
End Updates.

(** Closes a change of the counters. *)
Ltac count := intros k s; unfold agrees; destruct k; simpl; unfold incr;
  rewrite ?u64_mod, ?u32_mod; zdm.

(** ** Lemmas: the books through the operations *)

Section Operations.
  Context `{Platform}.
  Implicit Types f : Fabric.

Lemma admitted_share k e req :
  share k (admitted e req RequestState_default) = match k with Admissions => 1 | _ => 0 end.
Proof. destruct k; try reflexivity. simpl. lia. Qed.

Lemma submit_books req f : is_null (rq_id req) = false ->
  owing (fun _ => 0) f -> owing (fun _ => 0) (submit req f).2.
Proof.
  intros N [K B]. unfold submit, subscript. destruct (fb_requests f !! rq_id req) as [rs |] eqn:L.
  - destruct (K _ _ L) as [-> ->]. by split.
  - change (is_null (rq_id (rs_req RequestState_default))) with true. cbn [negb snd].
    apply push_event_owing.
    apply (update_stats_owing (fun k => match k with Admissions => 1 | _ => 0 end)); [count |].
    match goal with |- owing _ ?g => set (f1 := g) end.
    set (rs1 := admitted (cfg_epoch (fb_cfg f)) req RequestState_default).
    assert (E : fb_requests f1 = <[rq_id req := rs1]> (fb_requests f)).
    { unfold f1, update_request. simpl. apply map_eq. intros i. destruct (decide (i = rq_id req)) as [-> | D].
      - by rewrite lookup_alter_eq, !lookup_insert_eq.
      - by rewrite lookup_alter_ne, !lookup_insert_ne. }
    split.
    + intros i x. rewrite E, lookup_insert_Some. intros [[<- <-] | [_ Lx]]; [done | by apply K].
    + intros k. specialize (B k). rewrite E, total_insert by done. revert B.
      change (fb_stats f1) with (fb_stats f). unfold agrees. subst rs1. rewrite admitted_share.
      destruct k; simpl; zdm.
Qed.

Lemma call_books c f : legal_action (ACall c) ->
  owing (fun _ => 0) f -> owing (fun _ => 0) (call c f).
Proof.
  destruct c as [req | id why | id | id why | id | id t e j | |]; simpl; intros Lg O.
  - by apply submit_books.
  - unfold cancel. destruct (fb_requests f !! id) as [rs |] eqn:L; [| done].
    destruct (rs_cancelled rs) eqn:Rc; [done |]. destruct (rs_terminal rs); [done |]. cbn [snd].
    apply push_event_owing.
    apply (update_stats_owing (fun k => match k with Cancels => 1 | _ => 0 end)); [count |].
    eapply update_request_owing; [exact L | done | | exact O].
    intros []; simpl; rewrite ?Rc; lia.
  - unfold complete. destruct (fb_requests f !! id) as [rs |]; [| done]. cbn [snd].
    apply push_event_owing, update_request_quiet; [| done]. intros ? _. split; [done | by intros []].
  - unfold rollback. destruct (fb_requests f !! id) as [rs |]; [| done]. cbn [snd].
    apply push_event_owing. apply (update_stats_owing (fun _ => 0)); [count |].
    apply update_request_quiet; [| done]. intros ? _. split; [done | by intros []].
  - unfold retry. destruct (fb_requests f !! id) as [rs |] eqn:L; [| done].
    destruct (_ && _); [done |]. destruct (_ || _); [done |]. cbn [snd]. apply push_event_owing.
    apply (update_stats_owing (fun k =>
      match k with Retries => incr32 (rs_retry_count rs) - rs_retry_count rs | _ => 0 end));
      [unfold incr32; count |].
    eapply update_request_owing; [exact L | done | | exact O]. intros []; simpl; lia.
  - by apply push_event_owing.
  - by apply (same_owing _ f).
  - by apply (same_owing _ f).
Qed.

Lemma prepare_books id f p f' : owing (fun _ => 0) f -> prepare id f = Some (p, f') ->
  owing (fun _ => 0) f'.
Proof.
  intros O. unfold prepare. destruct (fb_requests f !! id) as [rs |]; [| by intros [= _ <-]].
  destruct (rs_terminal rs); [by intros [= _ <-] |]. destruct (rs_cancelled rs); [by intros [= _ <-] |].
  assert (D : owing (fun _ => 0) (deadline_passed rs f).2)
    by (unfold deadline_passed; destruct (rq_deadline_ns _); by apply (same_owing _ f)).
  destruct (deadline_passed rs f) as [[] f1]; cbn [snd] in D;
    [intros [= _ <-]; by apply push_event_owing |].
  assert (R : owing (fun _ => 0) (update_request id reset_phase f1)).
  { apply update_request_quiet; [| exact D]. intros x _.
    destruct (reset_phase_untouched x) as [m ->]. split; [done | by intros []]. }
  destruct (negb _); [intros [= _ <-]; by apply push_event_owing |].
  destruct (bp_blocked _).
  { intros [= _ <-]. apply push_event_owing. apply (update_stats_owing (fun _ => 0)); [count | done]. }
  destruct (plan_proposal _ _ _ _ _ _) as [[plan rat] |]; [cbn [mbind option_bind] | discriminate].
  match goal with |- context [match cfg_proposer ?c with _ => _ end] =>
    destruct (cfg_proposer c), (cfg_verifier c) end; intros [= _ <-]; try done.
  apply update_request_quiet; [| done]. intros ? _. split; [done | by intros []].
Qed.

Lemma drafted_tokens_app ps p :
  drafted_tokens (ps ++ [p]) = drafted_tokens ps + u32 (cand_size (prop_candidate p)).
Proof. induction ps as [| x ps IH]; simpl; [lia |]. unfold drafted_tokens in *. simpl. lia. Qed.

(** What a settled cycle adds to the shares of its request. *)
Definition settled_share (len p : Z) (k : Counter) : Z :=
  match k with Proposals => 1 | Drafted => len | Committed => p | _ => 0 end.

Lemma settled_shares cand p prop a b k :
  0 <= p -> settled cand (committed_count p (u32 (cand_size cand))) prop a b ->
  prop_candidate prop = cand ->
  share k b - share k a = settled_share (u32 (cand_size cand)) p k.
Proof.
  intros Hp [B C _ _ _ P R _ [_ X] [_ At] _ _ _] E.
  assert (N : committed_count p (u32 (cand_size cand)) = p)
    by (unfold committed_count; case_ztest; lia).
  rewrite N in *. destruct k; simpl; rewrite ?X, ?At, ?P, ?R; try lia.
  - rewrite zlen_app, zlen_cons, zlen_nil. lia.
  - rewrite drafted_tokens_app, E. lia.
  - rewrite C, zlen_app, zlen_committed_tokens by done. lia.
Qed.

Lemma settle_books id l proposed win wa rs f r f' :
  owing (fun _ => 0) f -> fb_requests f !! id = Some rs -> 0 <= ar_accepted_prefix wa ->
  settle id l proposed win wa rs f = Some (r, f') -> owing (fun _ => 0) f'.
Proof.
  intros O L Hp E. apply settle_inv in E as (cand & rs' & o & cnt & _ & B & _ & ->).
  pose proof (settle_branch_extra _ _ _ _ _ _ _ _ _ _ _ _ B) as [_ C].
  apply settle_branch_spec in B; [| apply u32_range]. apply push_event_owing.
  set (p := ar_accepted_prefix wa) in *. set (len := u32 (cand_size cand)) in *.
  unfold settled_fabric. eapply (same_owing _ (update_stats _ _)); [reflexivity | reflexivity |].
  apply (update_stats_owing (settled_share len p)); [unfold count_cycle; count |].
  apply (update_stats_owing (settled_share len p)).
  - destruct C as [-> | [-> | ->]]; unfold full_counters, partial_counters, reject_counters; count.
  - eapply update_request_owing; [exact L | | | exact O].
    + simpl. by rewrite (stl_req _ _ _ _ _ B).
    + intros k. pose proof (settled_shares _ _ _ _ _ k Hp B eq_refl) as S. destruct k; simpl in *; lia.
Qed.

Lemma finish_books id l proposed accepted f r f' :
  owing (fun _ => 0) f -> Forall (fun a => 0 <= ar_accepted_prefix a) accepted ->
  finish id l proposed accepted f = Some (r, f') -> owing (fun _ => 0) f'.
Proof.
  intros O U. unfold finish. destruct (fb_requests f !! id) as [rs |] eqn:L; [| by intros [= _ <-]].
  destruct (rs_terminal rs || rs_cancelled rs).
  - intros [= _ <-]. apply push_event_owing. by apply (update_stats_owing (fun _ => 0)); [count |].
  - destruct (proposed !! _) as [win |]; [cbn [mbind option_bind] | discriminate].
    destruct (accepted !! _) as [wa |] eqn:La; [cbn [mbind option_bind] | discriminate].
    eapply settle_books; [exact O | exact L | exact (Forall_lookup_1 _ _ _ _ U La)].
Qed.

(** *** Systems *)

Lemma counts_other o f f' t : isolated o f f' -> fabric_evolves f f' -> counts f t -> counts f' t.
Proof.
  intros [C _ _] V. assert (L : forall id, is_Some (fb_requests f !! id) -> is_Some (fb_requests f' !! id))
    by (intros id [rs L]; destruct (V id rs L) as (rs' & -> & _); by eexists).
  destruct t; simpl; rewrite ?C; try done; intros (K & R); auto.
Qed.

Lemma unsigned_isolated o f f' : isolated o f f' -> unsigned_verdicts f -> unsigned_verdicts f'.
Proof. intros [C _ _]. unfold unsigned_verdicts. by rewrite C. Qed.

Lemma thread_step_books t f : unsigned_verdicts f -> owing (fun _ => 0) f -> counts f t ->
  owing (fun _ => 0) (thread_step t f).2 /\ counts (thread_step t f).2 (thread_step t f).1.
Proof.
  intros U O K. pose proof (thread_step_evolves t f) as V.
  pose proof (thread_step_isolated t f _ _ (surjective_pairing _)) as [I _].
  assert (Kf : counts (thread_step t f).2 t) by (by eapply counts_other).
  destruct t as [id | id l [| n] b pr | id l pr [| br todo] acc | r |]; cbn [thread_step] in *.
  - destruct (prepare id f) as [[[r | l] f1] |] eqn:P; cbn [fst snd] in *; try done.
    + split; [by eapply prepare_books | done].
    + split; [by eapply prepare_books |].
      destruct (fb_requests f !! id) as [rs |] eqn:L; [| unfold prepare in P; by rewrite L in P].
      destruct (prepare_spec id f _ f1 rs L P) as (rs1 & L1 & _ & _ & _ & Cv & _).
      cbn [counts]. rewrite L1, (iso_impl_cfg _ _ _ I). by split.
  - destruct K as [K C]. cbn [fst snd counts]. by split_and!.
  - unfold read_proposal_input, subscript in *. destruct K as [[rs L] C]. rewrite L in *.
    destruct (branch_result _ _ _); cbn [fst snd] in *; split; try done.
  - destruct (finish id l pr acc f) as [[r f1] |] eqn:E; cbn [fst snd] in *; [| by split].
    split; [| done]. eapply finish_books; [exact O | apply K | exact E].
  - destruct K as ([rs L] & C & F). unfold read_verification_input, subscript in *. rewrite L in *.
    destruct (pr_candidate _) as [cand |]; cbn [mbind option_bind] in *; [| by split].
    destruct (verify _ _) as [a |] eqn:E; cbn [fst snd] in *; [| by split]. split; [done |].
    cbn [counts]. rewrite L. split_and!; [done | done |]. apply Forall_app. split; [done |].
    constructor; [| constructor]. by eapply U.
  - by split.
  - by split.
Qed.

Definition system_books (s : System) : Prop :=
  unsigned_verdicts s.1 /\ owing (fun _ => 0) s.1 /\ Forall (counts s.1) s.2.

Lemma act_books s a : legal_action a -> system_books s -> system_books (act s a).
Proof.
  destruct s as [f ts]. intros Lg (U & O & K). unfold system_books.
  destruct a as [c | id | i]; cbn [act fst snd] in *.
  - pose proof (call_isolated c f) as I. split_and!.
    + by eapply unsigned_isolated.
    + by apply call_books.
    + eapply Forall_impl; [exact K |]. intros t. eapply counts_other; [exact I | apply call_evolves].
  - split_and!; [done | done |]. apply Forall_app. by split; [| constructor].
  - destruct (ts !! i) as [t |] eqn:L; [| done]. pose proof (Forall_lookup_1 _ _ _ _ K L) as Kt.
    destruct (thread_step_books t f U O Kt) as [O' K'].
    pose proof (thread_step_isolated t f _ _ (surjective_pairing _)) as [I _].
    pose proof (thread_step_evolves t f) as V. destruct (thread_step t f) as [t' f'].
    cbn [fst snd] in *. split_and!; [by eapply unsigned_isolated | done |].
    apply Forall_insert; [| done]. eapply Forall_impl; [exact K |]. intros u. by eapply counts_other.
Qed.

Lemma run_schedule_books actions : forall s, Forall legal_action actions -> system_books s ->
  system_books (run_schedule actions s).
Proof.
  induction actions as [| a actions IH]; intros s Lg O; [done |].
  apply Forall_cons in Lg as [La Lg]. apply IH; [done | by apply act_books].
Qed.

Lemma new_fabric_books cfg : owing (fun _ => 0) (new_fabric cfg).
Proof.
  split; [intros id rs; simpl; by rewrite lookup_empty |]. intros k. unfold total. simpl.
  rewrite map_fold_empty. by destruct k.
Qed.

(** The number of requests, as the sum of their shares. *)
Lemma requests_counted f : sum_requests (share Admissions) f = zlen (request_list f).
Proof.
  unfold sum_requests, zlen. rewrite (fold_sum (fun kv => share Admissions kv.2)).
  induction (request_list f) as [| kv l IH]; simpl in *; [done | lia].
Qed.

(** C5: The books balance.  In every system that legal submissions, the other
    calls and cycles of any number of threads build from a new engine, however
    they interleave and whatever the executors answer: the admissions counter
    is the number of requests and the proposals counter the number of proposals
    [snapshot] reports; the cancellation counter is the number of cancelled
    requests, the token counters are the tokens of all recorded proposals and
    the tokens committed beyond the prompt prefixes - modulo 2^64 - and the
    retry counter is the sum of the retries of the requests modulo 2^32. *)
Theorem books_balance cfg actions :
  unsigned_verdicts (new_fabric cfg) -> Forall legal_action actions ->
  let f := (run_schedule actions (new_fabric cfg, [])).1 in
  agrees Admissions (st_requests_eligible_for_speculation (stats f))
    (sn_active_requests (snapshot f).1) /\
  agrees Proposals (st_proposals_produced (stats f)) (sn_active_proposals (snapshot f).1) /\
  forall k, agrees k (counter k (stats f)) (sum_requests (share k) f).
Proof.
  intros U Lg f. destruct (run_schedule_books actions (new_fabric cfg, []) Lg) as (_ & O & _).
  { split_and!; [exact U | apply new_fabric_books | constructor]. }
  fold f in O. apply books_owing in O as [_ B].
  assert (S : forall k, counter k (stats f) = counter k (fb_stats f)) by (by intros []).
  split_and!.
  - specialize (B Admissions). rewrite requests_counted in B. exact B.
  - exact (B Proposals).
  - intros k. rewrite S. apply B.
Qed.
End Operations.

(** ** A run *)

(** Two requests, cycles that overlap, a retry and a cancellation. *)
Definition bookkeeping : list Action :=
  ACall (CSubmit (demo_request 42 5)) :: contended ++ alternate 5 ++
  [ACall (CCancel (mkId 7) "enough"); ASpawn (mkId 7); AStep 2].

Definition bookkept : Fabric :=
  (@run_schedule x64_platform bookkeeping (new_fabric (demo_config 3 4 2), [])).1.

(** Both cycles committed, so the books are not empty. *)
Example bookkept_counters :
  map (fun k => counter k (fb_stats bookkept)) [Admissions; Cancels; Retries; Proposals; Drafted] =
  [2; 1; 1; 2; 8].
Proof. vm_compute. reflexivity. Qed.

Lemma books_balance_witness :
  agrees Committed (counter Committed (stats bookkept)) (sum_requests (share Committed) bookkept).
Proof.
  destruct (@books_balance x64_platform (demo_config 3 4 2) bookkeeping) as (_ & _ & B).
  - intros v i a C V. destruct demo_contended_ok as [X _].
    pose proof (xo_verifier _ X v C) as K. apply (verifier_bound _ _ V).
  - by repeat constructor.
  - exact (B Committed).
Defined.
