(* ===== verification/Cli.v ===== *)
(** * The command-line tool (tools/sf.cpp)

    Every command builds an engine over the CPU executors, drives it through
    the engine's own operations and prints what it reports.  A command is a
    function from its options to the text it prints and its exit code; [None]
    is undefined behaviour, a cycle's or the reading of [value()] of an error.
    The monotonic clock is a parameter, because no command prints a time. *)

From stdpp Require Import gmap.
From Stdlib Require Import SpecFloat Ascii.
From S2P Require Import Prelude Errors Ids Doubles Model Lifecycle Data Policy Scheduler Synthetic.
From S2P Require Import Cpu Bytes Persistence Fabric Cycle Authority Interleaving Phases CycleSpec.
From S2P Require Import SyntheticCycle CpuCycle Scenarios Isolation.

(** What a run of the program shows: its output and its exit code. *)
Definition Printed : Set := string * Z.

Definition newline : string := String (Ascii.ascii_of_nat 10) EmptyString.

(** ** Formats *)

(** A finite value [m * 2^e] in units of [10^-k], rounded half to even. *)
Definition scaled (k : nat) (m e : Z) : Z :=
  let m := 10 ^ Z.of_nat k * m in
  if 0 <=? e then Z.shiftl m e
  else
    let q := Z.shiftr m (- e) in
    let r := m - Z.shiftl q (- e) in
    let half := Z.shiftl 1 (- e - 1) in
    if (half <? r) || ((half =? r) && Z.odd q) then q + 1 else q.

(** The last [k] digits, with leading zeros. *)
Fixpoint digits (k : nat) (n : Z) : string :=
  match k with
  | O => EmptyString
  | S k => digits k (n / 10) +:+ pretty (n mod 10)
  end.

(** [%.kf]. *)
Definition format_fixed (k : nat) (x : double) : string :=
  match x with
  | S754_nan => "nan"
  | S754_infinity s => if s then "-inf" else "inf"
  | S754_zero s => (if s then "-" else EmptyString) +:+ "0." +:+ digits k 0
  | S754_finite s m e =>
      let t := scaled k (Zpos m) e in
      (if s then "-" else EmptyString) +:+ pretty (t / 10 ^ Z.of_nat k) +:+ "." +:+ digits k t
  end.

(** [(int)outcome]. *)
Definition outcome_value (k : CycleOutcomeKind) : Z :=
  match k with
  | CycleOutcomeKind.ProposalSuccess => 0
  | CycleOutcomeKind.ProposalRetryableFailure => 1
  | CycleOutcomeKind.ProposalNonRetryableFailure => 2
  | CycleOutcomeKind.VerificationSuccessFullAccept => 3
  | CycleOutcomeKind.VerificationSuccessPartialAccept => 4
  | CycleOutcomeKind.VerificationRejectAll => 5
  | CycleOutcomeKind.VerificationRetryableFailure => 6
  | CycleOutcomeKind.VerificationNonRetryableFailure => 7
  | CycleOutcomeKind.Cancelled => 8
  | CycleOutcomeKind.Expired => 9
  | CycleOutcomeKind.StaleAuthorityRejected => 10
  | CycleOutcomeKind.Superseded => 11
  end.

(** [(int)flag]. *)
Definition bool_value (b : bool) : Z := if b then 1 else 0.

(** ** The engine and the request of a command *)

(** [make_model(tok)]. *)
Definition make_model (tok : TokenizerId) : ModelIdentity :=
  ModelIdentity_default
    <| mdl_model := mkId 101 |>
    <| mdl_revision := mkId 1 |>
    <| mdl_tokenizer := mkTokenizerIdentity tok "cli-tok" 4096 EmptyString |>
    <| mdl_executor := mkExecutorIdentity null_id EmptyString ExecutorKind.CPU 1 |>
    <| mdl_name := "cli-model" |>.

Definition cli_policy (depth branches : Z) : ProposalPolicy :=
  ProposalPolicy_default
    <| pol_max_depth := depth |>
    <| pol_max_branches := branches |>
    <| pol_adaptive_depth_enabled := false |>.

(** The configuration [make_engine] fills in. *)
Definition engine_config (clock : nat -> Z) (depth branches aligned : Z) : Config :=
  Config_default
    <| cfg_proposer := Some (CpuProposer.executor (CpuProposer.Config_aligned aligned)) |>
    <| cfg_verifier := Some CpuVerifier.executor |>
    <| cfg_clock := clock |>
    <| cfg_policy := cli_policy depth branches |>.

(** [make_engine(depth, branches, aligned)]. *)
Definition make_engine (clock : nat -> Z) (depth branches aligned : Z) : Fabric :=
  new_fabric (engine_config clock depth branches aligned).

(** The request of a command; the commands that leave [max_branches] alone
    have the policy's default of 1. *)
Definition make_request (id sequence depth branches : Z) : SpeculationRequest :=
  let model := make_model (mkId 9) in
  SpeculationRequest_default
    <| rq_id := mkId id |>
    <| rq_sequence := mkId sequence |>
    <| rq_tenant := mkId 1 |>
    <| rq_draft_model := model |>
    <| rq_target_model := model |>
    <| rq_pair_key := mkKey model model 1 |>
    <| rq_policy := cli_policy depth branches |>.

Section Commands.
  Context `{Platform} (clock : nat -> Z).

(** [for (int i = 0; i < n; ++i) (void)f.run_cycle(id);] *)
Fixpoint run_cycles (n : nat) (id : RequestId) (f : Fabric) : option Fabric :=
  match n with
  | O => Some f
  | S n => '(_, f) ← run_cycle id f; run_cycles n id f
  end.

Definition cmd_submit (depth branches aligned id : Z) : option Printed :=
  let f := make_engine clock depth branches aligned in
  let r := make_request id (u64 (id + 1)) depth branches in
  match submit r f with
  | (Failed e, _) =>
      Some ("submit failed: " +:+ pretty (ErrorCode.value (err_code e)) +:+ newline, 1)
  | (Ok _, f) =>
      '(c, f) ← run_cycle (rq_id r) f;
      match c with
      | Failed e =>
          Some ("run_cycle failed: " +:+ pretty (ErrorCode.value (err_code e)) +:+ newline, 1)
      | Ok o =>
          len ← result_value (authoritative_length (rq_id r) f);
          Some ("request=" +:+ pretty id +:+ " outcome=" +:+ pretty (outcome_value (out_outcome o))
                +:+ " proposed=" +:+ pretty (out_proposed_tokens o)
                +:+ " accepted=" +:+ pretty (out_accepted_tokens o)
                +:+ " rejected=" +:+ pretty (out_rejected_tokens o)
                +:+ " committed=" +:+ pretty len
                +:+ " phase=" +:+ phase_to_string (out_phase o) +:+ newline, 0)
      end
  end.

Definition cmd_status (depth branches aligned : Z) : option Printed :=
  let f := make_engine clock depth branches aligned in
  let r := make_request 1 2 depth branches in
  let f := (submit r f).2 in
  f ← run_cycles 3 (rq_id r) f;
  let '(snap, f) := snapshot f in
  let st := stats f in
  len ← result_value (authoritative_length (rq_id r) f);
  Some ("epoch=" +:+ pretty (get (sn_epoch snap))
        +:+ " active_requests=" +:+ pretty (sn_active_requests snap)
        +:+ " branches=" +:+ pretty (sn_active_branches snap)
        +:+ " reservations=" +:+ pretty (sn_active_reservations snap)
        +:+ " cycles=" +:+ pretty (st_speculative_cycles_started st)
        +:+ " tokens_accepted=" +:+ pretty (st_tokens_accepted st)
        +:+ " tokens_proposed=" +:+ pretty (st_tokens_proposed st)
        +:+ " acceptance_ratio=" +:+ format_fixed 3 (st_acceptance_ratio st) +:+ newline
        +:+ "auth_len=" +:+ pretty len +:+ newline, 0).

Definition cmd_explain (depth : Z) : option Printed :=
  let f := make_engine clock depth 1 depth in
  let r := make_request 1 2 depth 1 in
  let f := (submit r f).2 in
  '(_, f) ← run_cycle (rq_id r) f;
  let ex := explain (rq_id r) "why did this sequence speculate?" f in
  Some (ex_answer_text ex +:+ newline, 0).

(** The loop of [cmd_bench] from [i], with [n] more requests; its result is
    [committed] and [cycles]. *)
Fixpoint bench_loop (depth : Z) (n : nat) (i committed cycles : Z) (f : Fabric)
  : option (Z * Z) :=
  match n with
  | O => Some (committed, cycles)
  | S n =>
      let r := make_request (u64 (i + 1)) (u64 (i + 2)) depth 1 in
      let f := (submit r f).2 in
      '(c, f) ← run_cycle (rq_id r) f;
      match c with
      | Ok o => bench_loop depth n (u64 (i + 1)) (u64 (committed + out_accepted_tokens o))
                  (u64 (cycles + 1)) f
      | Failed _ => bench_loop depth n (u64 (i + 1)) committed cycles f
      end
  end.

Definition cmd_bench (depth requests : Z) : option Printed :=
  let f := make_engine clock depth 1 depth in
  '(committed, cycles) ← bench_loop depth (Z.to_nat requests) 0 0 0 f;
  Some ("bench: depth=" +:+ pretty depth +:+ " requests=" +:+ pretty requests
        +:+ " cycles=" +:+ pretty cycles +:+ " accepted=" +:+ pretty committed +:+ newline, 0).

Definition cmd_inspect (depth branches aligned id : Z) : option Printed :=
  let f := make_engine clock depth branches aligned in
  let r := make_request id (u64 (id + 1)) depth branches in
  let f := (submit r f).2 in
  f ← run_cycles 2 (rq_id r) f;
  let ex := explain (rq_id r) "inspect" f in
  pr ← result_value (proposals (rq_id r) f);
  br ← result_value (Fabric.branches (rq_id r) f);
  Some ("inspect request=" +:+ pretty id +:+ newline
        +:+ "  gen=" +:+ ex_answer_json ex +:+ newline
        +:+ "  proposals=" +:+ pretty (zlen pr) +:+ " branches=" +:+ pretty (zlen br) +:+ newline
        +:+ "  " +:+ ex_answer_text ex +:+ newline, 0).

Definition cmd_cancel (depth branches aligned id : Z) : option Printed :=
  let f := make_engine clock depth branches aligned in
  let r := make_request id (u64 (id + 1)) depth branches in
  let f := (submit r f).2 in
  let '(c, f) := cancel (rq_id r) "cli cancel" f in
  '(o, f) ← run_cycle (rq_id r) f;
  o ← result_value o;
  Some ("cancel " +:+ (if has_value c then "ok" else "fail") +:+ ": outcome="
        +:+ pretty (outcome_value (out_outcome o)) +:+ newline,
        if has_value c && bool_decide (out_outcome o = CycleOutcomeKind.Cancelled) then 0 else 1).

(** The archive [cmd_recover] writes for [len] committed tokens. *)
Definition recovery_archive (depth len : Z) : StateArchive :=
  mkArchive 1 (mkId 1)
    [mkPersistedRequest (mkId 1) (mkId 2) (mkId 1) (mkId 1) (mkId depth)
       (mkStateRef (mkId 77) (mkId depth)) (repeat 1 (Z.to_nat len))].

Definition cmd_recover (depth : Z) : option Printed :=
  let f := make_engine clock depth 1 depth in
  let r := make_request 1 2 depth 1 in
  let f := (submit r f).2 in
  '(_, f) ← run_cycle (rq_id r) f;
  len ← result_value (authoritative_length (rq_id r) f);
  blob ← result_value (serialize_archive (recovery_archive depth len));
  let b := deserialize_archive blob in
  archive ← result_value b;
  pr ← requests archive !! 0%nat;
  Some ("recover: ok=" +:+ pretty (bool_value (has_value b))
        +:+ " tokens=" +:+ pretty (zlen (pq_committed pr)) +:+ newline,
        if has_value b then 0 else 1).

Definition cmd_snapshot (depth : Z) : option Printed :=
  let f := make_engine clock depth 1 depth in
  let r := make_request 1 2 depth 1 in
  let f := (submit r f).2 in
  '(_, f) ← run_cycle (rq_id r) f;
  let '(s, f) := snapshot f in
  Some ("snapshot: epoch=" +:+ pretty (get (sn_epoch s))
        +:+ " active_requests=" +:+ pretty (sn_active_requests s)
        +:+ " branches=" +:+ pretty (sn_active_branches s)
        +:+ " proposals=" +:+ pretty (sn_active_proposals s)
        +:+ " reservations=" +:+ pretty (sn_active_reservations s) +:+ newline, 0).

Definition print_proposal (p : Proposal) : string :=
  "  p" +:+ pretty (get (prop_id p)) +:+ " depth=" +:+ pretty (prop_depth p)
  +:+ " committed=" +:+ pretty (bool_value (prop_committed p)) +:+ newline.

Definition cmd_proposals (depth id : Z) : option Printed :=
  let f := make_engine clock depth 1 depth in
  let r := make_request id (u64 (id + 1)) depth 1 in
  let f := (submit r f).2 in
  '(_, f) ← run_cycle (rq_id r) f;
  pr ← result_value (proposals (rq_id r) f);
  Some ("proposals: count=" +:+ pretty (zlen pr) +:+ newline
        +:+ String.concat EmptyString (map print_proposal pr), 0).

Definition print_branch (b : Branch) : string :=
  "  b" +:+ pretty (get (br_id b)) +:+ " retired=" +:+ pretty (bool_value (br_retired b))
  +:+ newline.

Definition cmd_branches (depth id : Z) : option Printed :=
  let f := make_engine clock depth 2 2 in
  let r := make_request id (u64 (id + 1)) depth 2 in
  let f := (submit r f).2 in
  '(_, f) ← run_cycle (rq_id r) f;
  br ← result_value (branches (rq_id r) f);
  Some ("branches: count=" +:+ pretty (zlen br) +:+ newline
        +:+ String.concat EmptyString (map print_branch br), 0).

End Commands.

(** ** Arguments *)

(** [isspace] and [isdigit] in the C locale. *)
Definition is_space (c : Ascii.ascii) : bool :=
  let n := Z.of_nat (Ascii.nat_of_ascii c) in (n =? 32) || (9 <=? n) && (n <=? 13).

Definition digit_value (c : Ascii.ascii) : option Z :=
  let n := Z.of_nat (Ascii.nat_of_ascii c) - 48 in
  if (0 <=? n) && (n <=? 9) then Some n else None.

Fixpoint skip_space (s : string) : string :=
  match s with
  | String c rest => if is_space c then skip_space rest else s
  | EmptyString => s
  end.

(** The value of the digits at the head of a string, after [acc]. *)
Fixpoint decimal (acc : Z) (s : string) : Z :=
  match s with
  | String c rest =>
      match digit_value c with Some d => decimal (acc * 10 + d) rest | None => acc end
  | EmptyString => acc
  end.

(** What [strtol] and [strtoull] read: the sign and the magnitude. *)
Definition read_number (s : string) : bool * Z :=
  match skip_space s with
  | String "-"%char rest => (true, decimal 0 rest)
  | String "+"%char rest => (false, decimal 0 rest)
  | s => (false, decimal 0 s)
  end.

(** [atoi]; undefined when the value is not an [int]. *)
Definition atoi (s : string) : option Z :=
  let '(negative, n) := read_number s in
  let v := if negative : bool then - n else n in
  if (-2147483648 <=? v) && (v <? 2147483648) then Some v else None.

(** [strtoull(s, nullptr, 10)]. *)
Definition strtoull (s : string) : Z :=
  let '(negative, n) := read_number s in
  if 18446744073709551616 <=? n then 18446744073709551615
  else if negative : bool then u64 (- n) else n.

Record Options : Set := mkOptions {
  opt_depth : Z;
  opt_branches : Z;
  opt_aligned : Z;
  opt_id : Z
}.

#[export] Instance eta_Options : Etable Options := fun r =>
  mkOptions (opt_depth r) (opt_branches r) (opt_aligned r) (opt_id r).

Definition Options_default : Options := mkOptions 4 1 4 1.

(** The loop over [argv[2 ..]]. *)
Fixpoint parse_options (args : list string) (o : Options) : option Options :=
  match args with
  | [] | [_] => Some o
  | flag :: (v :: rest') as rest =>
      if bool_decide (flag = "--depth") then
        n ← atoi v; parse_options rest' (o <| opt_depth := u32 n |>)
      else if bool_decide (flag = "--branches") then
        n ← atoi v; parse_options rest' (o <| opt_branches := u32 n |>)
      else if bool_decide (flag = "--aligned") then
        n ← atoi v; parse_options rest' (o <| opt_aligned := u32 n |>)
      else if bool_decide (flag = "--id") || bool_decide (flag = "--requests") then
        parse_options rest' (o <| opt_id := strtoull v |>)
      else parse_options rest o
  end.

(** [main]. *)
Definition main `{Platform} (clock : nat -> Z) (argv : list string) : option Printed :=
  match argv with
  | _ :: cmd :: args =>
      '(mkOptions depth branches aligned id) ← parse_options args Options_default;
      if bool_decide (cmd = "submit") then cmd_submit clock depth branches aligned id
      else if bool_decide (cmd = "status") then cmd_status clock depth branches aligned
      else if bool_decide (cmd = "explain") then cmd_explain clock depth
      else if bool_decide (cmd = "bench") then cmd_bench clock depth (u32 id)
      else if bool_decide (cmd = "inspect") then cmd_inspect clock depth branches aligned id
      else if bool_decide (cmd = "cancel") then cmd_cancel clock depth branches aligned id
      else if bool_decide (cmd = "recover") then cmd_recover clock depth
      else if bool_decide (cmd = "snapshot") then cmd_snapshot clock depth
      else if bool_decide (cmd = "proposals") then cmd_proposals clock depth id
      else if bool_decide (cmd = "branches") then cmd_branches clock depth id
      else Some ("unknown command: " +:+ cmd +:+ newline, 1)
  | _ =>
      Some ("Speculation Fabric CLI" +:+ newline +:+ "usage: sf <command> [options]" +:+ newline +:+
            "commands: submit, status, explain, bench" +:+ newline, 0)
  end.

(** ** Lemmas: one request through the engine *)

(** An engine [make_engine] built, as its commands leave it. *)
Record cli_engine (depth branches aligned : Z) (f : Fabric) : Prop := {
  ce_config : exists clock, fb_impl_cfg f = engine_config clock depth branches aligned;
  ce_policy : sch_policy (fb_scheduler f) = cli_policy depth branches
}.

(** A request as the tools make it: without a deadline or a prefix, for a
    compatible pair of models. *)
Record tool_request (req : SpeculationRequest) : Prop := {
  tq_deadline : rq_deadline_ns req = None;
  tq_prefix : rq_prefix req = [];
  tq_compatible : pair_compatible (mkKey (rq_draft_model req) (rq_target_model req) 1)
}.

(** The identifiers from [i] on are not registered. *)
Definition unused_from (i : Z) (f : Fabric) : Prop :=
  forall k, i <= k -> fb_requests f !! (mkId k : RequestId) = None.

Section Engine.
  Context `{Platform}.
  Implicit Types f : Fabric.

Lemma make_engine_ok clock depth branches aligned :
  cli_engine depth branches aligned (make_engine clock depth branches aligned).
Proof. constructor; [by exists clock | done]. Qed.

Lemma cli_engine_isolated o depth branches aligned f f' :
  isolated o f f' -> cli_engine depth branches aligned f -> cli_engine depth branches aligned f'.
Proof. intros [E1 E2 _ _] [C P]. constructor; [by rewrite E1 | by rewrite E2]. Qed.

(** What [submit] makes of an identifier that is not registered. *)
Lemma submit_absent req f :
  fb_requests f !! rq_id req = None ->
  exists es f', submit req f = (Ok tt, f') /\ isolated (Some (rq_id req)) f f' /\
    fb_requests f' !! rq_id req =
      Some (admitted (cfg_epoch (fb_cfg f)) req RequestState_default <| rs_events := es |>).
Proof.
  intros L. pose proof (call_isolated (CSubmit req) f) as I. revert I. cbn [call call_target].
  unfold submit, subscript. rewrite L. cbn [rq_id rs_req RequestState_default is_null negb].
  change (is_null (rq_id SpeculationRequest_default)) with true. cbn [negb snd]. intros I.
  match type of I with isolated _ _ (push_event ?i ?t ?d ?j ?g) =>
    destruct (lookup_push_event i t d j g
      (admitted (cfg_epoch (fb_cfg f)) req RequestState_default)) as [es E] end.
  - simpl. by rewrite lookup_alter_eq, lookup_insert_eq.
  - by exists es, (push_event (rq_id req) "request.submit" "request admitted" "{}"
      (update_stats (fun s => s <| st_requests_eligible_for_speculation ::= incr |>)
        (update_request (rq_id req) (admitted (cfg_epoch (fb_cfg f)) req)
          (f <| fb_requests ::= insert (rq_id req) RequestState_default |>)))).
Qed.

Lemma make_request_tool id seq depth branches : tool_request (make_request id seq depth branches).
Proof. constructor; try done. constructor; try done; [by left | by right; right]. Qed.

Lemma tool_request_ready req depth branches aligned f es e :
  tool_request req -> cli_engine depth branches aligned f ->
  fb_requests f !! rq_id req = Some (admitted e req RequestState_default <| rs_events := es |>) ->
  ready (rq_id req) f (admitted e req RequestState_default <| rs_events := es |>).
Proof.
  intros [D _ K] [[clock C] P] L. constructor; try done.
  - unfold deadline_passed. simpl. by rewrite D.
  - unfold backpressure_clear. rewrite P. split_and!; try done; [by right | by left].
  - rewrite C. by eexists.
  - rewrite C. by eexists.
Qed.

(** A fully aligned cycle on a new request: everything is accepted. *)
Lemma tool_cycle req depth branches aligned f :
  tool_request req -> 1 <= depth <= 256 -> branches < kSyntheticVocab -> depth <= aligned ->
  cli_engine depth branches aligned f -> fb_requests f !! rq_id req = None ->
  exists f1 o f2 rs,
    submit req f = (Ok tt, f1) /\
    run_cycle (rq_id req) f1 = Some (Ok o, f2) /\
    isolated (Some (rq_id req)) f f2 /\
    fb_requests f2 !! rq_id req = Some rs /\
    zlen (rs_committed rs) = depth /\ out_accepted_tokens o = depth /\
    out_proposed_tokens o = depth /\ out_rejected_tokens o = 0 /\
    out_outcome o = CycleOutcomeKind.VerificationSuccessFullAccept /\
    (phases_ok f -> out_phase o = SpeculativePhase.Ready).
Proof.
  intros T Hd Hb Ha CE L.
  destruct (submit_absent req f L) as (es & f1 & S & I & L1).
  set (rs := admitted _ _ _ <| rs_events := es |>) in L1.
  pose proof (cli_engine_isolated _ _ _ _ _ _ I CE) as CE1.
  assert (R : ready (rq_id req) f1 rs) by (by eapply tool_request_ready).
  assert (C : cpu_runtime (CpuProposer.Config_aligned aligned) f1).
  { destruct CE1 as [[clock C] P]. constructor; rewrite ?C, ?P; done. }
  destruct (synthetic_cycle_settles _ _ _ _ _ _ _ (cpu_runtime_synthetic _ _ C) R ltac:(simpl; lia))
    as (o & f2 & rs' & d & seed & E & L2 & _ & Fx & [(new & Cm & B & Ln & _ & Al) _ Rp]).
  rewrite (ce_policy _ _ _ _ CE1) in Fx. cbn in Fx. rewrite Fx in * by done. clear Fx.
  destruct (Al ltac:(simpl; lia)) as [-> Ok'].
  assert (Hl : out_accepted_tokens o = depth) by (rewrite <- Ln, zlen_target_of; lia).
  destruct Rp as (Rp1 & _ & Rp3 & _).
  exists f1, o, f2, rs'. split_and!; try done; try lia.
  - etrans; [exact I | by eapply run_cycle_isolated].
  - rewrite Cm. unfold rs. simpl. rewrite (tq_prefix _ T). simpl. rewrite zlen_target_of. lia.
  - intros O. apply (call_phases (CSubmit req)) in O.
    cbn [call] in O. rewrite S in O. cbn [snd] in O.
    destruct (run_cycle_phases _ _ _ _ O E) as [_ Ph]. apply Ph. by rewrite Ok'.
Qed.

Lemma cli_cycle id seq depth branches aligned f :
  1 <= depth <= 256 -> branches < kSyntheticVocab -> depth <= aligned ->
  cli_engine depth branches aligned f -> fb_requests f !! (mkId id : RequestId) = None ->
  exists f1 o f2 rs,
    submit (make_request id seq depth branches) f = (Ok tt, f1) /\
    run_cycle (mkId id) f1 = Some (Ok o, f2) /\
    isolated (Some (mkId id)) f f2 /\
    fb_requests f2 !! (mkId id : RequestId) = Some rs /\
    zlen (rs_committed rs) = depth /\ out_accepted_tokens o = depth /\
    out_proposed_tokens o = depth /\ out_rejected_tokens o = 0 /\
    out_outcome o = CycleOutcomeKind.VerificationSuccessFullAccept /\
    (phases_ok f -> out_phase o = SpeculativePhase.Ready).
Proof.
  intros Hd Hb Ha. apply (tool_cycle (make_request id seq depth branches)); try done.
  apply make_request_tool.
Qed.

(** The bench loop: every request is accepted whole. *)
Lemma bench_loop_spec depth n : forall i committed cycles f,
  1 <= depth <= 256 -> cli_engine depth 1 depth f -> unused_from (i + 1) f ->
  0 <= i -> 0 <= committed -> 0 <= cycles -> i + Z.of_nat n < 4294967296 ->
  committed + depth * Z.of_nat n < 18446744073709551616 ->
  cycles + Z.of_nat n < 18446744073709551616 ->
  bench_loop depth n i committed cycles f =
    Some (committed + depth * Z.of_nat n, cycles + Z.of_nat n).
Proof.
  induction n as [| n IH]; intros i committed cycles f Hd CE U Hi Hc Hy Hin Hcn Hyn;
    cbn [bench_loop]; [do 2 f_equal; lia |].
  rewrite (u64_small (i + 1)) by (unfold is_u64; lia).
  destruct (cli_cycle (i + 1) (u64 (i + 2)) depth 1 depth f Hd ltac:(by vm_compute) ltac:(lia) CE
    (U (i + 1) (Z.le_refl _))) as (f1 & o & f2 & rs & S & E & I & _ & _ & A & _).
  rewrite S. cbn [snd]. change (rq_id (make_request (i + 1) _ _ _)) with (mkId (i + 1) : RequestId).
  rewrite E. cbn [mbind option_bind]. rewrite A, !u64_small by (unfold is_u64; nia).
  rewrite IH; try lia.
  - do 2 f_equal; lia.
  - by eapply cli_engine_isolated.
  - intros k Hk. rewrite (iso_requests _ _ _ I); [apply U; lia |]. intros [= Ek]. lia.
Qed.
(** A cancelled request: the cycle does nothing and says so. *)
Lemma cli_cancelled id seq depth branches f why :
  fb_requests f !! (mkId id : RequestId) = None ->
  exists f1 f2, submit (make_request id seq depth branches) f = (Ok tt, f1) /\
    cancel (mkId id) why f1 = (Ok tt, f2) /\
    run_cycle (mkId id) f2 = Some (Ok ((make_outcome CycleOutcomeKind.Cancelled)
                                      <| out_phase := SpeculativePhase.Cancelled |>), f2).
Proof.
  intros L.
  destruct (submit_absent (make_request id seq depth branches) f L) as (es & f1 & S & _ & L1).
  change (rq_id (make_request id seq depth branches)) with (mkId id : RequestId) in L1.
  set (rs := admitted _ _ _ <| rs_events := es |>) in L1.
  assert (Rc : rs_cancelled rs = false) by done. assert (Rt : rs_terminal rs = false) by done.
  exists f1. unfold cancel. rewrite L1, Rc, Rt. eexists. split_and!; [exact S | reflexivity |].
  unfold run_cycle, prepare.
  match goal with |- context [push_event ?i ?t ?d ?j (update_stats ?u (update_request ?i ?g f1))] =>
    destruct (lookup_push_event i t d j (update_stats u (update_request i g f1)) _
      (lookup_update_request i g f1 _ L1)) as [es2 E] end.
  rewrite E. done.
Qed.

Lemma recovery_archive_wf depth len :
  is_u32 depth -> 0 <= len <= 1000000 -> wf_archive (recovery_archive depth len).
Proof.
  unfold is_u32. intros Hd Hl. constructor; [done | by split | | by vm_compute].
  repeat constructor; cbn; unfold is_u64; try lia.
  - apply Forall_forall. intros x Hx. apply list_elem_of_In, repeat_spec in Hx as ->. by split.
  - unfold zlen, kMaxTokensPerRequest. rewrite repeat_length. lia.
Qed.

(** A proposal deeper than the proposer's bound has no candidate. *)
Lemma tool_deep_cycle req depth branches aligned f :
  tool_request req -> 256 < depth < 2147483648 ->
  cli_engine depth branches aligned f -> fb_requests f !! rq_id req = None ->
  exists f1, submit req f = (Ok tt, f1) /\ run_cycle (rq_id req) f1 = None.
Proof.
  intros T Hd CE L. destruct (submit_absent req f L) as (es & f1 & S & I & L1).
  pose proof (cli_engine_isolated _ _ _ _ _ _ I CE) as CE1. exists f1. split; [exact S |].
  pose proof (ce_policy _ _ _ _ CE1) as P. pose proof (ce_config _ _ _ _ CE1) as [clock C].
  assert (Fx : plan_depth (fb_scheduler f1) 0 0 (double_of 0) = Some depth)
    by (rewrite plan_depth_fixed; rewrite P; done).
  eapply run_cycle_no_candidate.
  - by eapply tool_request_ready.
  - rewrite P. simpl. lia.
  - unfold plan_proposal. rewrite Fx. cbn [mbind option_bind]. reflexivity.
  - intros p i. rewrite C. intros [= <-]. cbn [pl_depth]. simpl. intros Ei.
    pose proof (propose_cases (CpuProposer.Config_aligned aligned) i ltac:(lia)) as Q.
    rewrite (proj2 (Z.leb_gt (pi_depth i) 256)), andb_false_r in Q by lia. cbn [andb] in Q.
    destruct Q as (o & c & d & E & _). eexists. by split; [exact E |].
Qed.

Lemma deep_cycle_undefined id seq depth branches aligned f :
  256 < depth < 2147483648 ->
  cli_engine depth branches aligned f -> fb_requests f !! (mkId id : RequestId) = None ->
  exists f1, submit (make_request id seq depth branches) f = (Ok tt, f1) /\
    run_cycle (mkId id) f1 = None.
Proof.
  intros Hd. apply (tool_deep_cycle (make_request id seq depth branches)); [| done].
  apply make_request_tool.
Qed.
End Engine.

(** ** Lemmas: numbers on the command line *)

Lemma digit_cases d : (d < 10)%N -> d ∈ [0; 1; 2; 3; 4; 5; 6; 7; 8; 9]%N.
Proof. intros Hd. rewrite !elem_of_cons. lia. Qed.

Lemma digit_value_char d : (d < 10)%N -> digit_value (pretty_N_char d) = Some (Z.of_N d).
Proof. intros Hd. apply digit_cases in Hd.
  by repeat (apply elem_of_cons in Hd as [-> | Hd]; [done |]); apply elem_of_nil in Hd. Qed.

(** What printing a number puts in front of a string. *)
Lemma decimal_pretty_go x : exists k, forall a s,
  decimal a (pretty_N_go x s) = decimal (a * k + Z.of_N x) s.
Proof.
  induction (N.lt_wf_0 x) as [x _ IH]. destruct (decide (x = 0%N)) as [-> | N].
  - exists 1. intros a s. rewrite pretty_N_go_0. f_equal. lia.
  - destruct (IH (x / 10)%N ltac:(apply N.div_lt; lia)) as [k E]. exists (k * 10). intros a s.
    rewrite pretty_N_go_step, E by lia. cbn [decimal].
    rewrite digit_value_char by (apply N.mod_lt; lia). f_equal.
    rewrite N2Z.inj_div, N2Z.inj_mod. pose proof (Z.div_mod (Z.of_N x) 10 ltac:(lia)). lia.
Qed.

(** A printed number starts with a digit. *)
Lemma pretty_N_go_head x : forall s, (0 < x)%N ->
  exists d rest, (d < 10)%N /\ pretty_N_go x s = String (pretty_N_char d) rest.
Proof.
  induction (N.lt_wf_0 x) as [x _ IH]. intros s Hx. rewrite pretty_N_go_step by done.
  destruct (decide (x < 10)%N) as [L | L].
  - exists x, s. rewrite (N.div_small x 10), pretty_N_go_0, N.mod_small by done. done.
  - apply IH; [apply N.div_lt; lia | apply N.div_str_pos; lia].
Qed.

Lemma read_number_digits d rest : (d < 10)%N ->
  read_number (String (pretty_N_char d) rest) =
  (false, decimal 0 (String (pretty_N_char d) rest)).
Proof. intros Hd. apply digit_cases in Hd.
  by repeat (apply elem_of_cons in Hd as [-> | Hd]; [done |]); apply elem_of_nil in Hd. Qed.

Lemma read_number_pretty n : 0 <= n -> read_number (pretty n) = (false, n).
Proof.
  intros Hn. destruct n as [| p | p]; [done | | lia].
  change (pretty (Zpos p)) with (pretty (Npos p)). unfold pretty, pretty_N.
  rewrite decide_False by done.
  destruct (pretty_N_go_head (Npos p) EmptyString ltac:(done)) as (d & rest & Hd & E).
  rewrite E, read_number_digits, <- E by done. destruct (decimal_pretty_go (Npos p)) as [k D].
  rewrite D. done.
Qed.

(** Both parsers read back what the program prints. *)
Lemma atoi_pretty n : 0 <= n < 2147483648 -> atoi (pretty n) = Some n.
Proof.
  intros Hn. unfold atoi. rewrite read_number_pretty by lia.
  by rewrite (proj2 (Z.leb_le _ _)), (proj2 (Z.ltb_lt _ _)) by lia.
Qed.

Lemma strtoull_pretty n : is_u64 n -> strtoull (pretty n) = n.
Proof.
  unfold is_u64, strtoull. intros Hn. rewrite read_number_pretty by lia.
  by rewrite (proj2 (Z.leb_gt _ _)) by lia.
Qed.

Lemma parse_depth n rest o : 0 <= n < 2147483648 ->
  parse_options ("--depth" :: pretty n :: rest) o = parse_options rest (o <| opt_depth := n |>).
Proof.
  intros Hn. cbn [parse_options]. rewrite bool_decide_true, atoi_pretty by done.
  cbn [mbind option_bind]. by rewrite u32_small by (unfold is_u32; lia).
Qed.

Lemma parse_requests n rest o : is_u32 n ->
  parse_options ("--requests" :: pretty n :: rest) o = parse_options rest (o <| opt_id := n |>).
Proof.
  unfold is_u32. intros Hn. cbn [parse_options].
  rewrite !bool_decide_false, bool_decide_true by done. cbn [orb].
  by rewrite strtoull_pretty by (unfold is_u64; lia).
Qed.

(** ** Properties *)

Section Properties.
  Context `{Platform} (clock : nat -> Z).

Lemma make_engine_empty depth branches aligned id :
  fb_requests (make_engine clock depth branches aligned) !! (mkId id : RequestId) = None.
Proof. apply lookup_empty. Qed.

(** The benchmark counts real work, from its arguments to its output.  For
    a supported depth and any 32-bit number of requests given in decimal, the
    program parses its options, admits every request, runs one cycle of each
    that accepts its whole draft, and exits with 0 after a line that reports as
    many cycles as requests and exactly [depth] tokens for each, without
    wrap-around. *)
Theorem bench_counts_real_work name depth requests :
  1 <= depth <= 256 -> is_u32 requests ->
  main clock [name; "bench"; "--depth"; pretty depth; "--requests"; pretty requests] =
    Some ("bench: depth=" +:+ pretty depth +:+ " requests=" +:+ pretty requests
          +:+ " cycles=" +:+ pretty requests +:+ " accepted=" +:+ pretty (depth * requests)
          +:+ newline, 0).
Proof.
  intros Hd Hr. assert (Ho : parse_options ["--depth"; pretty depth; "--requests"; pretty requests]
    Options_default = Some (mkOptions depth 1 4 requests)).
  { rewrite parse_depth by lia. by rewrite parse_requests by done. }
  unfold main. rewrite Ho. cbn [mbind option_bind].
  change (cmd_bench clock depth (u32 requests) = Some ("bench: depth=" +:+ pretty depth
    +:+ " requests=" +:+ pretty requests +:+ " cycles=" +:+ pretty requests +:+ " accepted="
    +:+ pretty (depth * requests) +:+ newline, 0)).
  rewrite u32_small by done. unfold is_u32 in Hr. unfold cmd_bench.
  rewrite bench_loop_spec; try lia; [| apply make_engine_ok | intros k _; apply make_engine_empty
    | nia].
  cbn [mbind option_bind]. rewrite Z2Nat.id by lia. done.
Qed.

(** C31: the commands report what the engine did.  With a supported depth (1 to
    256), branches below the vocabulary and an alignment that covers the depth, [submit] admits the request, runs its cycle
    and prints a full accept of [depth] tokens, all committed; [recover], with a
    supported depth, prints that the archive it wrote was read back with as
    many tokens as the cycle committed - it archives a placeholder for each, not
    the tokens themselves -; and [cancel], for any options, prints the cancelled
    outcome.  All three exit with 0.  For a depth over 256 [submit] is undefined: the failed proposal
    has no candidate to verify. *)
Theorem commands_correct depth branches aligned id :
  (1 <= depth <= 256 -> branches < kSyntheticVocab -> depth <= aligned ->
   cmd_submit clock depth branches aligned id =
     Some ("request=" +:+ pretty id +:+ " outcome=3 proposed=" +:+ pretty depth +:+ " accepted="
           +:+ pretty depth +:+ " rejected=0 committed=" +:+ pretty depth +:+ " phase=Ready"
           +:+ newline, 0)) /\
  (1 <= depth <= 256 ->
   cmd_recover clock depth =
     Some ("recover: ok=1 tokens=" +:+ pretty depth +:+ newline, 0)) /\
  cmd_cancel clock depth branches aligned id = Some ("cancel ok: outcome=8" +:+ newline, 0) /\
  (256 < depth < 2147483648 -> cmd_submit clock depth branches aligned id = None).
Proof.
  split_and!.
  - intros Hd Hb Ha. unfold cmd_submit.
    destruct (cli_cycle id (u64 (id + 1)) depth branches aligned
      (make_engine clock depth branches aligned) Hd Hb Ha (make_engine_ok _ _ _ _)
      (make_engine_empty _ _ _ _)) as (f1 & o & f2 & rs & S & E & _ & L & Cm & A & P & R & K & Ph).
    rewrite S. change (rq_id _) with (mkId id : RequestId). rewrite E. cbn [mbind option_bind].
    unfold authoritative_length. rewrite L. cbn [result_value mbind option_bind].
    rewrite Cm, A, P, R, K, Ph; [done |]. intros [k] rs'. by rewrite make_engine_empty.
  - intros Hd. unfold cmd_recover.
    destruct (cli_cycle 1 2 depth 1 depth (make_engine clock depth 1 depth) Hd ltac:(by vm_compute)
      ltac:(lia) (make_engine_ok _ _ _ _) (make_engine_empty _ _ _ _))
      as (f1 & o & f2 & rs & S & E & _ & L & Cm & _).
    rewrite S. cbn [snd]. change (rq_id _) with (mkId 1 : RequestId). rewrite E.
    cbn [mbind option_bind]. unfold authoritative_length. rewrite L.
    cbn [result_value mbind option_bind serialize_archive]. rewrite Cm.
    rewrite <- (app_nil_r (archive_payload _)), deserialize_payload; [| | constructor];
      [| apply recovery_archive_wf; unfold is_u32; lia].
    cbn. unfold zlen. rewrite repeat_length, Z2Nat.id by lia. done.
  - unfold cmd_cancel.
    destruct (cli_cancelled id (u64 (id + 1)) depth branches
      (make_engine clock depth branches aligned) "cli cancel" (make_engine_empty _ _ _ _))
      as (f1 & f2 & S & C & E).
    rewrite S. cbn [snd]. change (rq_id _) with (mkId id : RequestId). rewrite C, E. done.
  - intros Hd. unfold cmd_submit.
    destruct (deep_cycle_undefined id (u64 (id + 1)) depth branches aligned
      (make_engine clock depth branches aligned) Hd (make_engine_ok _ _ _ _)
      (make_engine_empty _ _ _ _)) as (f1 & S & E).
    rewrite S. change (rq_id _) with (mkId id : RequestId). by rewrite E.
Qed.
End Properties.

Lemma bench_counts_real_work_witness :
  @main x64_platform (fun n => Z.of_nat n)
    ["sf"; "bench"; "--depth"; pretty 256; "--requests"; pretty 4294967295] =
  Some ("bench: depth=" +:+ pretty 256 +:+ " requests=" +:+ pretty 4294967295 +:+ " cycles="
        +:+ pretty 4294967295 +:+ " accepted=" +:+ pretty (256 * 4294967295) +:+ newline, 0).
Proof. apply (@bench_counts_real_work x64_platform); in_range. Defined.

(** A concrete run of every command. *)
Example run_status :
  @main x64_platform (fun n => Z.of_nat n)
    ["sf"; "status"; "--depth"; "8"; "--aligned"; "3"; "--branches"; "2"] =
  Some ("epoch=0 active_requests=1 branches=2 reservations=0 cycles=3 tokens_accepted=9 " +:+
        "tokens_proposed=24 acceptance_ratio=0.375" +:+ newline +:+ "auth_len=9" +:+ newline, 0).
Proof. vm_compute. reflexivity. Qed.

Lemma commands_correct_witness :
  @cmd_submit x64_platform (fun n => Z.of_nat n) 4 2 9 7 =
    Some ("request=" +:+ pretty 7 +:+ " outcome=3 proposed=" +:+ pretty 4 +:+ " accepted="
          +:+ pretty 4 +:+ " rejected=0 committed=" +:+ pretty 4 +:+ " phase=Ready"
          +:+ newline, 0) /\
  @cmd_submit x64_platform (fun n => Z.of_nat n) 300 2 9 7 = None.
Proof.
  destruct (@commands_correct x64_platform (fun n => Z.of_nat n) 4 2 9 7) as (S & _).
  destruct (@commands_correct x64_platform (fun n => Z.of_nat n) 300 2 9 7) as (_ & _ & _ & U).
  split; [apply S; [lia | by vm_compute | lia] | apply U; lia].
Defined.
