(* ===== verification/Bench.v ===== *)
(** * The benchmark (benchmarks/bench.cpp)

    The program as the text it prints and its exit code: its options, the
    loop that submits requests and cycles each once, and the rates over the
    elapsed time.  What the steady clock reads before and after the loop is a
    parameter. *)

From stdpp Require Import gmap.
From S2P Require Import Prelude Errors Ids Doubles Model Data Policy Scheduler Synthetic Cpu Fabric Cycle.
From S2P Require Import Isolation Cli.

(** [mk()]. *)
Definition mk : ModelIdentity :=
  ModelIdentity_default
    <| mdl_model := mkId 101 |>
    <| mdl_revision := mkId 1 |>
    <| mdl_tokenizer := mkTokenizerIdentity (mkId 9) "bench-tok" 4096 EmptyString |>
    <| mdl_executor := mkExecutorIdentity null_id EmptyString ExecutorKind.CPU 1 |>
    <| mdl_name := "bench-model" |>.

(** [Wl], and what [main] starts from. *)
Record Wl : Set := mkWl {
  wl_requests : Z;
  wl_depth : Z;
  wl_branches : Z;
  wl_aligned : Z
}.

#[export] Instance eta_Wl : Etable Wl := fun w =>
  mkWl (wl_requests w) (wl_depth w) (wl_branches w) (wl_aligned w).

Definition Wl_default : Wl := mkWl 5000 4 1 4.

(** The loop over the arguments; a last flag without a value is ignored. *)
Fixpoint workload (args : list string) (wl : Wl) : option Wl :=
  match args with
  | [] | [_] => Some wl
  | flag :: (v :: rest') as rest =>
      if bool_decide (flag = "--requests") then
        workload rest' (wl <| wl_requests := strtoull v |>)
      else if bool_decide (flag = "--depth") then
        n ← atoi v; workload rest' (wl <| wl_depth := u32 n |>)
      else if bool_decide (flag = "--branches") then
        n ← atoi v; workload rest' (wl <| wl_branches := u32 n |>)
      else if bool_decide (flag = "--aligned") then
        n ← atoi v; workload rest' (wl <| wl_aligned := u32 n |>)
      else workload rest wl
  end.

Definition workload_line (wl : Wl) : string :=
  "workload: requests=" +:+ pretty (wl_requests wl) +:+ " depth=" +:+ pretty (wl_depth wl) +:+
  " branches=" +:+ pretty (wl_branches wl) +:+ " aligned=" +:+ pretty (wl_aligned wl) +:+ newline.

(** The request of round [i]. *)
Definition bench_request (wl : Wl) (i : Z) : SpeculationRequest :=
  SpeculationRequest_default
    <| rq_id := mkId (u64 (i + 1)) |>
    <| rq_sequence := mkId (u64 (i + 2)) |>
    <| rq_tenant := mkId 1 |>
    <| rq_draft_model := mk |>
    <| rq_target_model := mk |>
    <| rq_pair_key := mkKey mk mk 1 |>
    <| rq_policy := cli_policy (wl_depth wl) (wl_branches wl) |>.

(** The counters. *)
Record Totals : Set := mkTotals {
  tt_accepted : Z;
  tt_rejected : Z;
  tt_proposed : Z;
  tt_cycles : Z
}.

Definition add_outcome (o : CycleOutcome) (t : Totals) : Totals :=
  mkTotals (u64 (tt_accepted t + out_accepted_tokens o)) (u64 (tt_rejected t + out_rejected_tokens o))
    (u64 (tt_proposed t + out_proposed_tokens o)) (u64 (tt_cycles t + 1)).

(** The measured loop from [i], with [n] more requests. *)
Fixpoint measure `{Platform} (wl : Wl) (n : nat) (i : Z) (t : Totals) (f : Fabric) : option Totals :=
  match n with
  | O => Some t
  | S n =>
      let r := bench_request wl i in
      let f := (submit r f).2 in
      '(c, f) ← run_cycle (rq_id r) f;
      measure wl n (u64 (i + 1)) (match c with Ok o => add_outcome o t | Failed _ => t end) f
  end.

(** [std::chrono::duration<double>(t1 - t0).count()], the ticks nanoseconds. *)
Definition seconds (t0 t1 : Z) : double := ddiv (double_of (t1 - t0)) (double_of 1000000000).

Definition rate (n : Z) (secs : double) : string := format_fixed 2 (ddiv (double_of n) secs).

Definition report (secs : double) (t : Totals) : string :=
  "measured:" +:+ newline +:+
  "  elapsed=" +:+ format_fixed 6 secs +:+ "s" +:+ newline +:+
  "  cycles=" +:+ pretty (tt_cycles t) +:+ newline +:+
  "  cycles/s=" +:+ rate (tt_cycles t) secs +:+ newline +:+
  "  proposals/s=" +:+ rate (tt_proposed t) secs +:+ newline +:+
  "  verifications/s=" +:+ rate (tt_cycles t) secs +:+ newline +:+
  "  accepted_tokens/s=" +:+ rate (tt_accepted t) secs +:+ newline +:+
  "  rejected_tokens/s=" +:+ rate (tt_rejected t) secs +:+ newline +:+
  "  end_to_end_accepted_tokens/s=" +:+ rate (tt_accepted t) secs +:+ newline +:+
  "load_origin: measured" +:+ newline.

(** [main], the clock of the engine and the two readings of the steady clock
    given; the configuration is the one [Cli.make_engine] builds too. *)
Definition main `{Platform} (clock : nat -> Z) (t0 t1 : Z) (argv : list string) : option Printed :=
  wl ← workload (tail argv) Wl_default;
  let f := make_engine clock (wl_depth wl) (wl_branches wl) (wl_aligned wl) in
  t ← measure wl (Z.to_nat (wl_requests wl)) 0 (mkTotals 0 0 0 0) f;
  Some (workload_line wl +:+ report (seconds t0 t1) t, 0).

(** ** Lemmas *)

Section Measure.
  Context `{Platform}.
  Implicit Types f : Fabric.

Lemma bench_request_tool wl i : tool_request (bench_request wl i).
Proof. constructor; try done. constructor; try done; [by left | by right; right]. Qed.

(** The loop, every draft accepted whole: the counters wrap around. *)
Lemma measure_spec wl n : forall i t f,
  1 <= wl_depth wl <= 256 -> wl_branches wl < kSyntheticVocab -> wl_depth wl <= wl_aligned wl ->
  cli_engine (wl_depth wl) (wl_branches wl) (wl_aligned wl) f -> unused_from (i + 1) f ->
  0 <= i -> i + Z.of_nat n < 18446744073709551616 ->
  measure wl n i t f =
    Some (match n with
          | O => t
          | S _ => mkTotals (u64 (tt_accepted t + wl_depth wl * Z.of_nat n)) (u64 (tt_rejected t))
                     (u64 (tt_proposed t + wl_depth wl * Z.of_nat n)) (u64 (tt_cycles t + Z.of_nat n))
          end).
Proof.
  induction n as [| n IH]; intros i t f Hd Hb Ha CE U Hi Hin; [done |]. cbn [measure].
  set (r := bench_request wl i).
  assert (Ei : rq_id r = mkId (i + 1)) by (unfold r; simpl; by rewrite u64_small by (unfold is_u64; lia)).
  destruct (tool_cycle r _ _ _ f (bench_request_tool wl i) Hd Hb Ha CE)
    as (f1 & o & f2 & rs & S & E & I & _ & _ & A & P & R & _);
    [rewrite Ei; apply U; lia |].
  rewrite S. cbn [snd]. rewrite E. cbn [mbind option_bind].
  rewrite (u64_small (i + 1)) by (unfold is_u64; lia). rewrite IH; try lia; [| by eapply cli_engine_isolated |].
  - f_equal. unfold add_outcome. rewrite A, P, R. destruct n as [| n]; cbn [tt_accepted tt_rejected tt_proposed tt_cycles].
    + f_equal; f_equal; lia.
    + autorewrite with fabric. rewrite Z.add_0_r. f_equal; f_equal; lia.
  - intros k Hk. rewrite (iso_requests _ _ _ I); [apply U; lia |]. rewrite Ei. intros [= Ek]. lia.
Qed.

(** The first cycle of a deep draft is undefined. *)
Lemma measure_deep wl n i t f :
  256 < wl_depth wl < 2147483648 ->
  cli_engine (wl_depth wl) (wl_branches wl) (wl_aligned wl) f -> unused_from 1 f -> 0 <= i ->
  i + 1 < 18446744073709551616 -> measure wl (S n) i t f = None.
Proof.
  intros Hd CE U Hi Hin. cbn [measure]. set (r := bench_request wl i).
  destruct (tool_deep_cycle r _ _ _ f (bench_request_tool wl i) Hd CE) as (f1 & S & E);
    [| by rewrite S; cbn [snd]; rewrite E].
  unfold r. simpl. rewrite u64_small by (unfold is_u64; lia). apply U. lia.
Qed.
End Measure.

(** ** Properties *)

Section Properties.
  Context `{Platform} (clock : nat -> Z) (t0 t1 : Z) (name : string).

(** The command line of a workload. *)
Definition command_line (wl : Wl) : list string :=
  [name; "--requests"; pretty (wl_requests wl); "--depth"; pretty (wl_depth wl);
   "--branches"; pretty (wl_branches wl); "--aligned"; pretty (wl_aligned wl)].

Lemma workload_command_line wl :
  is_u64 (wl_requests wl) -> 0 <= wl_depth wl < 2147483648 -> 0 <= wl_branches wl < 2147483648 ->
  0 <= wl_aligned wl < 2147483648 -> workload (tail (command_line wl)) Wl_default = Some wl.
Proof.
  destruct wl as [n d b a]. intros Hn Hd Hb Ha. cbn [wl_requests wl_depth wl_branches wl_aligned] in *.
  unfold command_line. cbn [tail workload wl_requests wl_depth wl_branches wl_aligned].
  repeat first [rewrite bool_decide_true by done | rewrite bool_decide_false by done].
  rewrite strtoull_pretty, !atoi_pretty by done. cbn [mbind option_bind].
  by rewrite !u32_small by (unfold is_u32; lia).
Qed.

(** C32: The benchmark reports the work it did.  For any workload in decimal on
    its command line with a supported depth, branches below the vocabulary, an
    alignment that covers the depth and any 64-bit number of requests, the
    program submits every request, cycles it once, and prints the workload and
    a report whose counters are the work: as many cycles as requests, [depth]
    tokens proposed and accepted for each (modulo [2^64], as the counters
    are) and none rejected, with every rate that count divided by the elapsed
    time.  For a depth over 256 and at least one request it is undefined. *)
Theorem benchmark_reports_work wl :
  is_u64 (wl_requests wl) -> 0 <= wl_branches wl < kSyntheticVocab ->
  0 <= wl_aligned wl < 2147483648 ->
  let tokens := u64 (wl_depth wl * wl_requests wl) in
  (1 <= wl_depth wl <= 256 -> wl_depth wl <= wl_aligned wl ->
   main clock t0 t1 (command_line wl) =
     Some (workload_line wl +:+
           report (seconds t0 t1) (mkTotals tokens 0 tokens (wl_requests wl)), 0)) /\
  (256 < wl_depth wl < 2147483648 -> 1 <= wl_requests wl ->
   main clock t0 t1 (command_line wl) = None).
Proof.
  intros Hn [Hb0 Hb] Ha tokens. unfold kSyntheticVocab in Hb. pose proof Hn as [Hn0 Hn1].
  assert (U : unused_from 1 (make_engine clock (wl_depth wl) (wl_branches wl) (wl_aligned wl)))
    by (intros k _; apply make_engine_empty).
  split.
  - intros Hd Hc. unfold main. rewrite workload_command_line by (done || lia). cbn [mbind option_bind].
    rewrite measure_spec; try done; try apply make_engine_ok; [| lia].
    cbn [mbind option_bind]. do 5 f_equal.
    destruct (Z.to_nat (wl_requests wl)) as [| k] eqn:E.
    + unfold tokens. replace (wl_requests wl) with 0 by lia. by rewrite Z.mul_0_r.
    + cbn [tt_accepted tt_rejected tt_proposed tt_cycles].
      rewrite <- E, Z2Nat.id, !Z.add_0_l, (u64_small (wl_requests wl)) by done. done.
  - intros Hd Hr. unfold main. rewrite workload_command_line by (done || lia). cbn [mbind option_bind].
    destruct (Z.to_nat (wl_requests wl)) as [| k] eqn:E; [lia |].
    by rewrite measure_deep; try done; try apply make_engine_ok; try lia.
Qed.
End Properties.

Lemma benchmark_reports_work_witness :
  @main x64_platform (fun n => Z.of_nat n) 1000 3001000
    (command_line "bench" (mkWl 18446744073709551615 200 3 200)) =
    Some (workload_line (mkWl 18446744073709551615 200 3 200) +:+
          report (seconds 1000 3001000)
            (mkTotals 18446744073709551416 0 18446744073709551416 18446744073709551615), 0) /\
  @main x64_platform (fun n => Z.of_nat n) 1000 3001000 (command_line "bench" (mkWl 1 300 1 300)) = None.
Proof.
  assert (R1 : is_u64 18446744073709551615) by in_range.
  assert (R2 : is_u64 1) by in_range.
  assert (B1 : 0 <= 3 < kSyntheticVocab) by (by vm_compute).
  assert (B2 : 0 <= 1 < kSyntheticVocab) by (by vm_compute).
  split.
  - refine (proj1 (@benchmark_reports_work x64_platform (fun n => Z.of_nat n) 1000 3001000 "bench"
      (mkWl 18446744073709551615 200 3 200) R1 B1 _) _ _); simpl; lia.
  - refine (proj2 (@benchmark_reports_work x64_platform (fun n => Z.of_nat n) 1000 3001000 "bench"
      (mkWl 1 300 1 300) R2 B2 _) _ _); simpl; lia.
Defined.

(** A whole run. *)
Example run_bench :
  @main x64_platform (fun n => Z.of_nat n) 0 2000000
    ["bench"; "--requests"; "3"; "--aligned"; "2"; "--depth"] =
  Some ("workload: requests=3 depth=4 branches=1 aligned=2" +:+ newline +:+
        "measured:" +:+ newline +:+ "  elapsed=0.002000s" +:+ newline +:+
        "  cycles=3" +:+ newline +:+ "  cycles/s=1500.00" +:+ newline +:+
        "  proposals/s=6000.00" +:+ newline +:+ "  verifications/s=1500.00" +:+ newline +:+
        "  accepted_tokens/s=3000.00" +:+ newline +:+ "  rejected_tokens/s=3000.00" +:+ newline +:+
        "  end_to_end_accepted_tokens/s=3000.00" +:+ newline +:+ "load_origin: measured" +:+ newline, 0).
Proof. vm_compute. reflexivity. Qed.
