(* ===== verification/Examples.v ===== *)
(** * The example programs (examples/)

    The engine and request every example shares (examples_support.hpp), the
    twelve programs as the text they print and their exit code, and that each
    exits with 0: example 11, on CUDA executors, whatever the device does as
    long as its calls succeed. *)

From stdpp Require Import gmap.
From S2P Require Import Prelude Errors Ids Doubles Model Lifecycle Data Policy Scheduler Synthetic.
From S2P Require Import Cpu CudaKernels Cuda Bytes Persistence Fabric Cycle Authority CycleSpec.
From S2P Require Import Interleaving SyntheticCycle CpuCycle Scenarios Isolation Cli.

(** ** examples_support.hpp *)

(** [sfex::model(tok)]. *)
Definition model (tok : TokenizerId) : ModelIdentity :=
  ModelIdentity_default
    <| mdl_model := mkId 101 |>
    <| mdl_revision := mkId 1 |>
    <| mdl_tokenizer := mkTokenizerIdentity tok "ex-tok" 4096 EmptyString |>
    <| mdl_executor := mkExecutorIdentity null_id EmptyString ExecutorKind.CPU 1 |>
    <| mdl_name := "ex-model" |>.

(** The policy the examples fill in, for engines and requests. *)
Definition example_policy (depth branches : Z) : ProposalPolicy :=
  ProposalPolicy_default
    <| pol_max_depth := depth |>
    <| pol_max_branches := branches |>
    <| pol_adaptive_depth_enabled := false |>.

Definition cpu_config (clock : nat -> Z) (aligned : Z) (policy : ProposalPolicy) : Config :=
  Config_default
    <| cfg_proposer := Some (CpuProposer.executor (CpuProposer.Config_aligned aligned)) |>
    <| cfg_verifier := Some CpuVerifier.executor |>
    <| cfg_clock := clock |>
    <| cfg_policy := policy |>.

(** [sfex::engine(depth, branches, aligned)]. *)
Definition engine (clock : nat -> Z) (depth branches aligned : Z) : Fabric :=
  new_fabric (cpu_config clock aligned (example_policy depth branches)).

(** [sfex::request(id, depth, branches)]. *)
Definition request (id depth branches : Z) : SpeculationRequest :=
  SpeculationRequest_default
    <| rq_id := mkId id |>
    <| rq_sequence := mkId (u64 (id + 1)) |>
    <| rq_tenant := mkId 1 |>
    <| rq_draft_model := model (mkId 9) |>
    <| rq_target_model := model (mkId 9) |>
    <| rq_pair_key := mkKey (model (mkId 9)) (model (mkId 9)) 1 |>
    <| rq_policy := example_policy depth branches |>.

(** [cond ? 0 : 1]. *)
Definition exit_code (success : bool) : Z := if success then 0 else 1.

(** The field every example prints of an outcome. *)
Definition outcome_text (o : CycleOutcome) : string :=
  "outcome=" +:+ pretty (outcome_value (out_outcome o)).

Section Programs.
  Context `{Platform} (clock : nat -> Z).

Definition example1 : option Printed :=
  let r := request 1 5 1 in
  let f := (submit r (engine clock 5 1 5)).2 in
  '(c, f) ← run_cycle (rq_id r) f;
  o ← result_value c;
  len ← result_value (authoritative_length (rq_id r) f);
  Some ("example1: " +:+ outcome_text o +:+ " accepted=" +:+ pretty (out_accepted_tokens o)
        +:+ " committed=" +:+ pretty len +:+ newline,
        exit_code (out_accepted_tokens o =? 5)).

Definition example2 : option Printed :=
  let r := request 2 5 2 in
  let f := (submit r (engine clock 5 2 2)).2 in
  '(c, f) ← run_cycle (rq_id r) f;
  o ← result_value c;
  brs ← result_value (branches (rq_id r) f);
  Some ("example2: " +:+ outcome_text o +:+ " accepted=" +:+ pretty (out_accepted_tokens o)
        +:+ " branches=" +:+ pretty (zlen brs) +:+ newline,
        exit_code ((2 <=? zlen brs) && (out_accepted_tokens o =? 2))).

Definition example3 : option Printed :=
  let r := request 3 6 1 in
  let f := (submit r (engine clock 6 1 3)).2 in
  '(c, f) ← run_cycle (rq_id r) f;
  o ← result_value c;
  len ← result_value (authoritative_length (rq_id r) f);
  Some ("example3: accepted=" +:+ pretty (out_accepted_tokens o)
        +:+ " rejected=" +:+ pretty (out_rejected_tokens o)
        +:+ " committed=" +:+ pretty len
        +:+ " rolled_back=" +:+ pretty (bool_value (rb_success (out_rollback o))) +:+ newline,
        exit_code ((out_accepted_tokens o =? 3) && (out_rejected_tokens o =? 3))).

Definition example4 : option Printed :=
  let r := request 4 5 1 in
  let f := (submit r (engine clock 5 1 5)).2 in
  let f := (cancel (rq_id r) "operator cancel" f).2 in
  '(c, f) ← run_cycle (rq_id r) f;
  o ← result_value c;
  len ← result_value (authoritative_length (rq_id r) f);
  Some ("example4: " +:+ outcome_text o +:+ " committed=" +:+ pretty len +:+ newline,
        exit_code (bool_decide (out_outcome o = CycleOutcomeKind.Cancelled))).

Definition example5 : option Printed :=
  let r := (request 5 5 1) <| rq_target_model := model (mkId 10) |> in
  let f := (submit r (engine clock 5 1 5)).2 in
  '(c, f) ← run_cycle (rq_id r) f;
  o ← result_value c;
  len ← result_value (authoritative_length (rq_id r) f);
  Some ("example5: " +:+ outcome_text o +:+ " committed=" +:+ pretty len +:+ newline,
        exit_code (bool_decide (out_outcome o = CycleOutcomeKind.ProposalNonRetryableFailure))).

Definition example6 : option Printed :=
  let r := request 6 5 1 in
  let f := (submit r (engine clock 5 1 5)).2 in
  '(_, f) ← run_cycle (rq_id r) f;
  len ← result_value (authoritative_length (rq_id r) f);
  let a := mkArchive 1 (mkId 1)
    [mkPersistedRequest (rq_id r) (rq_sequence r) (mkId 1) (mkId 1) (mkId 5)
       (mkStateRef (mkId 100) (mkId 5)) (repeat 0 (Z.to_nat len))] in
  blob ← result_value (serialize_archive a);
  let b := deserialize_archive blob in
  archive ← result_value b;
  pr ← requests archive !! 0%nat;
  Some ("example6: roundtrip=" +:+ pretty (bool_value (has_value b))
        +:+ " tokens=" +:+ pretty (zlen (pq_committed pr)) +:+ newline,
        exit_code (has_value b && (zlen (pq_committed pr) =? 5))).

Definition example7 : option Printed :=
  let policy := ProposalPolicy_default
    <| pol_max_depth := 8 |> <| pol_max_branches := 1 |>
    <| pol_adaptive_depth_enabled := true |> <| pol_adaptive_window := 8 |> in
  let r := request 7 5 1 in
  let f := (submit r (new_fabric (cpu_config clock 5 policy))).2 in
  f ← run_cycles 5 (rq_id r) f;
  let st := stats f in
  Some ("example7: cycles=" +:+ pretty (st_speculative_cycles_started st)
        +:+ " tokens_proposed=" +:+ pretty (st_tokens_proposed st)
        +:+ " tokens_accepted=" +:+ pretty (st_tokens_accepted st)
        +:+ " ratio=" +:+ format_fixed 3 (st_acceptance_ratio st) +:+ newline,
        exit_code (dgtb (st_acceptance_ratio st) (double_of 0))).

Definition example8 : option Printed :=
  let r := (request 8 5 1) <| rq_tenant := mkId 42 |>
    <| rq_policy ::= fun p => p <| pol_tenant_max_concurrent_branches := 1 |>
                                <| pol_max_branches := 2 |> |> in
  let f := (submit r (engine clock 5 1 5)).2 in
  '(c, f) ← run_cycle (rq_id r) f;
  o ← result_value c;
  Some ("example8: " +:+ outcome_text o +:+ " accepted=" +:+ pretty (out_accepted_tokens o)
        +:+ " tenant=" +:+ pretty (get (rq_tenant r)) +:+ newline,
        exit_code (out_accepted_tokens o =? 5)).

Definition example9 : option Printed :=
  let r := (request 9 5 1) <| rq_max_attempts := 2 |> in
  let f := (submit r (engine clock 5 1 0)).2 in
  '(c1, f) ← run_cycle (rq_id r) f;
  let '(tr, f) := retry (rq_id r) f in
  o ← result_value c1;
  Some ("example9: first=" +:+ pretty (outcome_value (out_outcome o))
        +:+ " retry_attempt=" +:+ pretty (match tr with Ok a => get a | Failed _ => 0 end)
        +:+ newline,
        exit_code (match tr with Ok a => get a =? 2 | Failed _ => false end)).

Definition example10 : option Printed :=
  let r := request 10 5 1 in
  let f := (submit r (engine clock 5 1 5)).2 in
  '(_, f) ← run_cycle (rq_id r) f;
  let '(snap, f) := snapshot f in
  let ev := events (rq_id r) f in
  let ex := explain (rq_id r) "why did this commit?" f in
  Some ("example10: active_requests=" +:+ pretty (sn_active_requests snap)
        +:+ " events=" +:+ pretty (zlen ev) +:+ newline +:+ "expl=" +:+ ex_answer_text ex
        +:+ newline,
        exit_code ((0 <? zlen ev) && (1 <=? sn_active_requests snap))).

(** Example 11 on a given pair of CUDA executors. *)
Definition example11 (prt : ProposalInput -> Runtime) (vrt : VerificationInput -> Runtime)
  : option Printed :=
  let cfg := Config_default
    <| cfg_proposer := Some (CudaProposer.executor 5 0 prt) |>
    <| cfg_verifier := Some (CudaVerifier.executor vrt) |>
    <| cfg_clock := clock |>
    <| cfg_policy := example_policy 5 1 |> in
  let r := request 11 5 1 in
  let f := (submit r (new_fabric cfg)).2 in
  '(c, f) ← run_cycle (rq_id r) f;
  o ← result_value c;
  len ← result_value (authoritative_length (rq_id r) f);
  Some ("example11: " +:+ outcome_text o +:+ " accepted=" +:+ pretty (out_accepted_tokens o)
        +:+ " committed=" +:+ pretty len +:+ newline,
        exit_code (out_accepted_tokens o =? 5)).

Definition example12 : option Printed :=
  let r := request 12 6 1 in
  let f := (submit r (engine clock 6 1 3)).2 in
  '(c, f) ← run_cycle (rq_id r) f;
  let '(rb, f) := rollback (rq_id r) "operator rollback" f in
  len ← result_value (authoritative_length (rq_id r) f);
  let ok := match rb with Ok b => rb_success b | Failed _ => false end in
  Some ("example12: committed=" +:+ pretty len +:+ " rollback_ok=" +:+ pretty (bool_value ok)
        +:+ " released=" +:+
        pretty (match rb with Ok b => rb_released_reservations b | Failed _ => 0 end) +:+ newline,
        exit_code ok).

End Programs.

(** ** Lemmas: an engine over CUDA executors *)

(** Runtimes that keep the contract and whose calls succeed. *)
Record devices_work (prt : ProposalInput -> Runtime) (vrt : VerificationInput -> Runtime)
  : Prop := {
  dw_proposer_runtime : forall i, RuntimeOk (prt i);
  dw_verifier_runtime : forall i, RuntimeOk (vrt i);
  dw_proposer : forall i, CudaProposer.device_ok (prt i) (Z.to_nat (pi_depth i));
  dw_verifier : forall i,
    CudaVerifier.device_ok (vrt i) (Z.to_nat (u32 (cand_size (vi_candidate i))))
}.

(** A configuration of the examples, with any executors. *)
Definition example_config (clock : nat -> Z) (p : ProposalExecutor) (v : VerificationExecutor)
    (depth branches : Z) : Config :=
  Config_default
    <| cfg_proposer := Some p |>
    <| cfg_verifier := Some v |>
    <| cfg_clock := clock |>
    <| cfg_policy := example_policy depth branches |>.

Section Lemmas.
  Context `{Platform} (clock : nat -> Z) (p : ProposalExecutor) (v : VerificationExecutor).

(** A request of the examples in a new engine is ready. *)
Lemma request_ready id depth branches b depth' :
  exists f1 rs,
    submit (request id depth branches) (new_fabric (example_config clock p v depth' b)) =
      (Ok tt, f1) /\
    ready (mkId id) f1 rs /\ rs_committed rs = [] /\
    fb_impl_cfg f1 = example_config clock p v depth' b /\
    sch_policy (fb_scheduler f1) = example_policy depth' b.
Proof.
  destruct (submit_absent (request id depth branches)
    (new_fabric (example_config clock p v depth' b)) (lookup_empty _))
    as (es & f1 & S & [C P _] & L).
  match type of L with _ = Some ?r => exists f1, r end. split_and!; try done.
  constructor; try done.
  - constructor; try done; [by left | by right; right].
  - unfold backpressure_clear. rewrite P. split_and!; try done; [by right | by left].
  - rewrite C. by eexists.
  - rewrite C. by eexists.
Qed.
End Lemmas.

Lemma example11_runs `{Platform} clock prt vrt : devices_work prt vrt ->
  example11 clock prt vrt =
    Some ("example11: outcome=3 accepted=5 committed=5" +:+ newline, 0).
Proof.
  intros [W1 W2 W3 W4]. unfold example11.
  pose proof (cuda_synthetic_proposer 5 0 prt W3) as SP.
  pose proof (cuda_synthetic_verifier vrt W4) as SV.
  destruct (request_ready clock (CudaProposer.executor 5 0 prt) (CudaVerifier.executor vrt) 11 5 1 1 5)
    as (f1 & rs & S & R & Cm & C & P).
  unfold example_config in S, C. cbv zeta. rewrite S. cbn [snd].
  change (rq_id (request 11 5 1)) with (mkId 11 : RequestId).
  assert (SR : synthetic_runtime (CudaProposer.executor 5 0 prt) (CudaVerifier.executor vrt) 5
                 (fun _ => 0) f1)
    by (constructor; rewrite ?C, ?P; done).
  destruct (synthetic_cycle_settles _ _ _ _ _ _ _ SR R ltac:(lia))
    as (o & f2 & rs' & d & seed & E & L & _ & Fx & [(new & Cn & B & Ln & _ & Al) _ _]).
  rewrite P in Fx. rewrite Fx in * by done. cbn in Al, Ln. destruct (Al ltac:(lia)) as [-> Ok'].
  assert (A : out_accepted_tokens o = 5) by (rewrite <- Ln, zlen_target_of; lia).
  rewrite E. cbn [mbind option_bind result_value]. unfold authoritative_length. rewrite L.
  cbn [mbind option_bind result_value]. unfold outcome_text.
  rewrite Cn, Cm, Ok', A, app_nil_l, zlen_target_of. done.
Qed.

(** ** Properties *)

(** C33: the example programs pass.  Whatever the clock says and however the
    platform rounds what it may, the eleven CPU examples are defined, print
    exactly the lines below - accepted, rejected and committed tokens, branches,
    attempts, statistics and explanation - and exit with 0; and so does example
    11, on CUDA executors whose runtime calls succeed, under every schedule of
    the device's threads.  Example 8 prints a full accept like example 1: no
    code reads the tenant cap it sets.  The reported phase of a committed cycle
    is Ready, as in example 10. *)
Theorem examples_pass `{Platform} clock prt vrt :
  devices_work prt vrt ->
  [example1 clock; example2 clock; example3 clock; example4 clock; example5 clock] =
    [Some ("example1: outcome=3 accepted=5 committed=5" +:+ newline, 0);
     Some ("example2: outcome=4 accepted=2 branches=2" +:+ newline, 0);
     Some ("example3: accepted=3 rejected=3 committed=3 rolled_back=1" +:+ newline, 0);
     Some ("example4: outcome=8 committed=0" +:+ newline, 0);
     Some ("example5: outcome=2 committed=0" +:+ newline, 0)] /\
  [example6 clock; example7 clock; example8 clock; example9 clock; example12 clock] =
    [Some ("example6: roundtrip=1 tokens=5" +:+ newline, 0);
     Some ("example7: cycles=5 tokens_proposed=35 tokens_accepted=25 ratio=0.714" +:+ newline, 0);
     Some ("example8: outcome=3 accepted=5 tenant=42" +:+ newline, 0);
     Some ("example9: first=5 retry_attempt=2" +:+ newline, 0);
     Some ("example12: committed=3 rollback_ok=1 released=0" +:+ newline, 0)] /\
  example10 clock =
    Some ("example10: active_requests=1 events=2" +:+ newline +:+
          "expl=sequence 11 (request 10): authoritative generation 5, committed 5 tokens, " +:+
          "attempt 1, epoch 0, cycle phase Ready, branches 1, proposals 1, " +:+
          "active reservations 0" +:+ newline, 0) /\
  example11 clock prt vrt =
    Some ("example11: outcome=3 accepted=5 committed=5" +:+ newline, 0).
Proof.
  intros W. split; [by vm_compute |]. split; [by vm_compute |]. split; [by vm_compute |].
  by apply example11_runs.
Qed.

(** ** Witnesses *)

Lemma sample_devices_work : devices_work (fun _ => sample_runtime) (fun _ => sample_runtime).
Proof.
  constructor; intros; [apply sample_runtime_ok | apply sample_runtime_ok | |];
    split_and!; try done; by eexists.
Qed.

Lemma examples_pass_witness :
  @example11 x64_platform (fun n => Z.of_nat n) (fun _ => sample_runtime) (fun _ => sample_runtime) =
    Some ("example11: outcome=3 accepted=5 committed=5" +:+ newline, 0).
Proof.
  apply (@examples_pass x64_platform (fun n => Z.of_nat n) _ _ sample_devices_work).
Defined.

(** CUDA drafts and the CPU verifies. *)
Lemma cycle_makes_progress_witness :
  exists f1 o f',
    (submit (request 11 5 1) (new_fabric (example_config (fun n => Z.of_nat n)
       (CudaProposer.executor 3 0 (fun _ => sample_runtime)) CpuVerifier.executor 5 1))).2 = f1 /\
    @run_cycle x64_platform (mkId 11) f1 = Some (Ok o, f') /\ 1 <= out_accepted_tokens o.
Proof.
  destruct (request_ready (fun n => Z.of_nat n)
    (CudaProposer.executor 3 0 (fun _ => sample_runtime)) CpuVerifier.executor 11 5 1 1 5)
    as (f1 & rs & S & R & _ & C & P).
  pose proof sample_devices_work as [W1 _ W3 _].
  pose proof (cuda_synthetic_proposer 3 0 _ W3) as SP.
  destruct (@cycle_makes_progress x64_platform (CudaProposer.executor 3 0 (fun _ => sample_runtime))
    CpuVerifier.executor 3 (fun _ => 0) SP cpu_synthetic_verifier (mkId 11) f1 rs)
    as (o & f' & rs' & depth & seed & E & L & D & (new & _ & B & Ln & _) & _).
  - constructor; rewrite ?C, ?P; done.
  - exact R.
  - lia.
  - exists f1, o, f'. rewrite S. split_and!; [done | exact E |]. cbv zeta in *. lia.
Defined.
