(* ===== verification/Sockets.v ===== *)
(** * Frames over a socket (tools/sockutil.h)

    The socket itself is the operating system's.  What the helpers rely on is
    written out: a call of [send] takes a count of the bytes offered, and a
    call of [recv] returns some of the bytes that arrived, in order, or nothing:
    at the end of the connection, or when the call fails - a timeout, a reset -
    with more still to come.  The loops around them are the code's. *)

From S2P Require Import Prelude Errors Bytes Wire.

(** ** Sending *)

(** [send_all]: [counts] are the results of the successive [send] calls.  The
    bytes the peer was sent, and whether the loop reached the end; every [send]
    after the last listed one fails. *)
Fixpoint send_all (counts : list Z) (data : bytes) : bytes * bool :=
  match data with
  | [] => ([], true)
  | _ =>
      match counts with
      | [] => ([], false)
      | k :: counts =>
          if k <=? 0 then ([], false)
          else
            let '(sent, ok) := send_all counts (drop (Z.to_nat k) data) in
            (take (Z.to_nat k) data ++ sent, ok)
      end
  end.

(** [send_frame]. *)
Definition send_frame (counts : list Z) (payload : bytes) : bytes * bool :=
  match add_frame_prefix payload with
  | Failed _ => ([], false)
  | Ok framed => send_all counts framed
  end.

(** ** Receiving *)

(** What is still to arrive, in the segments it arrives in; an empty segment is
    a call that fails although more is to come. *)
Definition Incoming : Set := list bytes.

(** One [recv] of at most [n] bytes: from the first segment only; an empty
    answer stands for a result that is not positive, the end of the connection
    or an error. *)
Definition recv (n : nat) (s : Incoming) : bytes * Incoming :=
  match s with
  | [] => ([], [])
  | c :: s => (take n c, if decide (length c <= n)%nat then s else drop n c :: s)
  end.

(** [recv_exact] with [n] bytes to go.  Every call that does not fail takes a
    byte at least, so [n] rounds are enough. *)
Fixpoint recv_loop (fuel n : nat) (s : Incoming) : option bytes * Incoming :=
  match n with
  | O => (Some [], s)
  | _ =>
      match fuel with
      | O => (None, s)
      | S fuel =>
          let '(got, s) := recv n s in
          match got with
          | [] => (None, s)
          | _ =>
              let '(rest, s) := recv_loop fuel (n - length got) s in
              (match rest with Some r => Some (got ++ r) | None => None end, s)
          end
      end
  end.

Definition recv_exact (n : nat) (s : Incoming) : option bytes * Incoming := recv_loop n n s.

(** [recv_frame]. *)
Definition recv_frame (s : Incoming) : option bytes * Incoming :=
  match recv_exact 4 s with
  | (None, s) => (None, s)
  | (Some lenb, s) =>
      let len := le_value lenb in
      if (len =? 0) || (kMaxFrameSize <? len) then (None, s)
      else recv_exact (Z.to_nat len) s
  end.

(** ** Lemmas *)

(** Bytes that arrive in non-empty segments. *)
Definition segmented (s : Incoming) : Prop := Forall (fun c => c <> []) s.

Lemma recv_spec n s : segmented s -> (0 < n)%nat ->
  segmented (recv n s).2 /\ concat s = (recv n s).1 ++ concat (recv n s).2 /\
  (length (recv n s).1 <= n)%nat /\ (concat s <> [] -> (recv n s).1 <> []).
Proof.
  intros [| c s' Hc Hs] Hn; simpl.
  { split_and!; [constructor | done | lia | by intros []]. }
  case_decide; simpl.
  - rewrite take_ge by done. by split_and!.
  - rewrite app_assoc, take_drop. split_and!; try done.
    + constructor; [| done]. intros E. apply (f_equal length) in E.
      rewrite length_drop in E. simpl in E. lia.
    + rewrite length_take. lia.
    + intros _ E. apply (f_equal length) in E. rewrite length_take in E. simpl in E. lia.
Qed.

Lemma recv_loop_spec fuel : forall n s, segmented s -> (n <= fuel)%nat ->
  let '(r, s') := recv_loop fuel n s in
  segmented s' /\
  match r with
  | Some b => length b = n /\ concat s = b ++ concat s'
  | None => (length (concat s) < n)%nat
  end.
Proof.
  induction fuel as [| fuel IH]; intros [| n] s Hs Hf; cbn [recv_loop]; try by split; [| lia].
  - by split.
  - by split.
  - destruct (recv (S n) s) as [got s1] eqn:R.
    destruct (recv_spec (S n) s Hs ltac:(lia)) as (S1 & C & L & N). rewrite R in *.
    cbn [fst snd] in *. destruct got as [| g got].
    + split; [done |]. destruct (concat s) as [| x l] eqn:E; [simpl; lia |].
      by destruct (N ltac:(discriminate)).
    + specialize (IH (S n - length (g :: got))%nat s1 S1 ltac:(simpl in *; lia)).
      destruct (recv_loop fuel (S n - length (g :: got)) s1) as [[r |] s2];
        destruct IH as [S2 IH]; (split; [done |]).
      * destruct IH as [L2 C2]. rewrite length_app, L2. split; [lia |].
        by rewrite C, C2, app_assoc.
      * rewrite C, length_app. lia.
Qed.

Lemma recv_exact_some n s b more :
  segmented s -> concat s = b ++ more -> length b = n ->
  exists s', recv_exact n s = (Some b, s') /\ segmented s' /\ concat s' = more.
Proof.
  intros Hs C L. unfold recv_exact. pose proof (recv_loop_spec n n s Hs ltac:(lia)) as R.
  destruct (recv_loop n n s) as [[b' |] s']; destruct R as [S' R].
  - destruct R as [L' C']. rewrite C in C'. apply app_inj_1 in C' as [-> ->]; [| congruence].
    by exists s'.
  - rewrite C, length_app in R. lia.
Qed.

Lemma recv_takes n s : concat s = (recv n s).1 ++ concat (recv n s).2 /\ (length (recv n s).1 <= n)%nat.
Proof.
  destruct s as [| c s]; simpl; [split; [done | lia] |]. rewrite length_take. case_decide; simpl.
  - rewrite take_ge by done. split; [done | lia].
  - rewrite app_assoc, take_drop. split; [done | lia].
Qed.

(** What the loop returns was at the head of the stream, whatever failed. *)
Lemma recv_loop_got fuel : forall n s b s', (n <= fuel)%nat -> recv_loop fuel n s = (Some b, s') ->
  length b = n /\ concat s = b ++ concat s'.
Proof.
  induction fuel as [| fuel IH]; intros [| n] s b s' Hf; cbn [recv_loop]; try discriminate;
    try by (intros [= <- <-]; split).
  destruct (recv_takes (S n) s) as [C L]. destruct (recv (S n) s) as [got s1].
  cbn [fst snd] in *. destruct got as [| g got]; [discriminate |].
  destruct (recv_loop fuel (S n - length (g :: got)) s1) as [[r |] s2] eqn:E; [| discriminate].
  intros [= <- <-]. apply IH in E as [L2 C2]; [| simpl in *; lia]. split.
  - simpl in *. rewrite length_app. lia.
  - rewrite C, C2. simpl. by rewrite app_assoc.
Qed.

Lemma recv_exact_inv n s b s' : recv_exact n s = (Some b, s') ->
  length b = n /\ concat s = b ++ concat s'.
Proof. by apply recv_loop_got. Qed.

Lemma send_all_spec counts : forall data,
  let '(sent, ok) := send_all counts data in
  sent `prefix_of` data /\ (ok = true -> sent = data).
Proof.
  induction counts as [| k counts IH]; intros [| x data]; cbn [send_all].
  - by split.
  - split; [apply prefix_nil | done].
  - by split.
  - destruct (Z.leb_spec k 0); [split; [apply prefix_nil | done] |].
    specialize (IH (drop (Z.to_nat k) (x :: data))).
    destruct (send_all counts _) as [sent ok]. destruct IH as [P O]. split.
    + rewrite <- (take_drop (Z.to_nat k) (x :: data)) at 2. by apply prefix_app.
    + intros E. rewrite (O E). apply take_drop.
Qed.

(** C34: frames survive any segmentation.  Whatever counts [send] returns, the
    bytes sent are a prefix of the frame, and all of it when [send_frame]
    succeeds; and whatever non-empty segments those bytes arrive in, with
    whatever behind them, [recv_frame] returns the payload and leaves exactly
    the bytes behind it.  What it returns, even when calls fail in between, is
    always a payload that was framed at the head of the stream. *)
Theorem frames_survive_segmentation payload frame :
  1 <= zlen payload -> add_frame_prefix payload = Ok frame ->
  (forall counts, let '(sent, ok) := send_frame counts payload in
     sent `prefix_of` frame /\ (ok = true -> sent = frame)) /\
  (forall s more, segmented s -> concat s = frame ++ more ->
     exists s', recv_frame s = (Some payload, s') /\ segmented s' /\ concat s' = more) /\
  (forall s p s', Forall is_u8 (concat s) -> recv_frame s = (Some p, s') ->
     exists f, add_frame_prefix p = Ok f /\ concat s = f ++ concat s').
Proof.
  intros H1 F. split_and!.
  - intros counts. unfold send_frame. rewrite F. apply send_all_spec.
  - intros s more Hs C. unfold add_frame_prefix in F.
    destruct (Z.ltb_spec kMaxFrameSize (zlen payload)) as [| Hl]; [discriminate |].
    assert (Hu : is_u32 (zlen payload)) by (unfold is_u32, kMaxFrameSize in *; lia).
    rewrite u32_small in F by exact Hu. apply (inj Ok) in F. subst frame. rewrite <- app_assoc in C.
    destruct (recv_exact_some 4 s _ _ Hs C (length_le_bytes 4 _)) as (s1 & E1 & S1 & C1).
    unfold recv_frame. rewrite E1. rewrite le_value_le_bytes by (unfold is_u32 in Hu; simpl; lia).
    rewrite (proj2 (Z.eqb_neq _ _)), (proj2 (Z.ltb_ge _ _)) by lia. cbn [orb].
    by apply (recv_exact_some _ s1 payload more S1 C1); unfold zlen; lia.
  - intros s p s' H8 E. unfold recv_frame in E.
    destruct (recv_exact 4 s) as [[lenb |] s1] eqn:E1; [| discriminate].
    apply recv_exact_inv in E1 as (L1 & C1).
    destruct ((le_value lenb =? 0) || (kMaxFrameSize <? le_value lenb)) eqn:G; [discriminate |].
    apply orb_false_iff in G as [G1 G2]. apply Z.eqb_neq in G1. apply Z.ltb_ge in G2.
    apply recv_exact_inv in E as (L & C).
    rewrite C1, Forall_app in H8. destruct H8 as [H8 _].
    pose proof (le_value_range _ H8) as R.
    assert (Lp : zlen p = le_value lenb) by (unfold zlen; lia).
    exists (le_bytes 4 (zlen p) ++ p). split; [apply add_frame_ok; lia |].
    by rewrite C1, C, Lp, <- L1, (le_bytes_le_value _ H8), <- app_assoc.
Qed.

Lemma frames_survive_segmentation_witness :
  exists s', recv_frame [[2; 0]; [0]; [0; 7]; [9; 5]] = (Some [7; 9], s') /\ concat s' = [5].
Proof.
  destruct (frames_survive_segmentation [7; 9] [2; 0; 0; 0; 7; 9] ltac:(in_range) eq_refl)
    as (_ & R & _).
  destruct (R [[2; 0]; [0]; [0; 7]; [9; 5]] [5]) as (s' & E & _ & C); [| done |].
  - by repeat constructor.
  - by exists s'.
Defined.
