(* ===== verification/Worker.v ===== *)
(** * The worker process (tools/distmsg.h, tools/sf_worker.cpp)

    A proposer or verifier worker: the field layout of the distributed
    messages and what a worker answers to each.  A field read past the end of
    its vector and [value()] of an error are undefined behaviour: [None]. *)

From stdpp Require Import list.
From S2P Require Import Prelude Errors Ids Model Data Synthetic Cpu Bytes Wire.

(** Worker roles. *)
Definition kRoleProposer : Z := 1.
Definition kRoleVerifier : Z := 2.
Definition kRoleDriver : Z := 3.

(** Sub-codes of a [Reject] body. *)
Definition kReasonStaleEpoch : string := "stale_epoch".
Definition kReasonStaleBoot : string := "stale_worker_boot".
Definition kReasonStaleAttempt : string := "stale_attempt".
Definition kReasonStaleGeneration : string := "stale_generation".
Definition kReasonWrongBase : string := "wrong_base_generation".

(** Outcome codes of a proposal and of a verification. *)
Definition kOutcomeSuccess : Z := 0.
Definition kOutcomeRetryable : Z := 1.
Definition kOutcomeNonRetryable : Z := 2.
Definition kAccFull : Z := 0.
Definition kAccPartial : Z := 1.
Definition kAccReject : Z := 2.
Definition kAccFailure : Z := 3.

(** Field indices, by message. *)
Definition PD_REQUEST : nat := 0.
Definition PD_SEQUENCE : nat := 1.
Definition PD_ATTEMPT : nat := 2.
Definition PD_EPOCH : nat := 3.
Definition PD_BASE_STATE_ID : nat := 4.
Definition PD_BASE_STATE_GEN : nat := 5.
Definition PD_BASE_GEN : nat := 6.
Definition PD_PROPOSER_REV : nat := 7.
Definition PD_DISPATCH : nat := 8.
Definition PD_BRANCH : nat := 9.
Definition PD_PROPOSER_BOOT : nat := 10.
Definition PD_PROPOGEN : nat := 11.
Definition PD_DEPTH : nat := 0.
Definition PD_ALIGNED : nat := 1.
Definition PD_BRANCHCOUNT : nat := 2.

Definition PR_ATTEMPT : nat := 2.
Definition PR_EPOCH : nat := 3.
Definition PR_BASE_GEN : nat := 6.
Definition PR_PROPOSER_BOOT : nat := 7.
Definition PR_PROPOGEN : nat := 9.
Definition PR_OUTCOME : nat := 0.
Definition PR_TOKENS : nat := 2.

Definition VD_REQUEST : nat := 0.
Definition VD_SEQUENCE : nat := 1.
Definition VD_ATTEMPT : nat := 2.
Definition VD_EPOCH : nat := 3.
Definition VD_STATE_ID : nat := 4.
Definition VD_STATE_GEN : nat := 5.
Definition VD_BASE_GEN : nat := 6.
Definition VD_PROPOSER_REV : nat := 7.
Definition VD_DISPATCH : nat := 8.
Definition VD_PROPOSER_BOOT : nat := 9.
Definition VD_TOKENIZER : nat := 0.
Definition VD_VOCAB : nat := 1.
Definition VD_LEN : nat := 2.
Definition VD_TOKENS : nat := 3.

Definition VR_ATTEMPT : nat := 2.
Definition VR_EPOCH : nat := 3.
Definition VR_BASE_GEN : nat := 4.
Definition VR_OUTCOME : nat := 0.
Definition VR_ACCEPTED : nat := 1.
Definition VR_FIRST_REJ : nat := 3.

(** [for (i = 0; i < n; ++i) out.push_back(fields[at + i])]. *)
Definition slice (at_ : nat) (n : Z) (fields : list Z) : option (list Z) :=
  if zlen (drop at_ fields) <? n then None else Some (take (Z.to_nat n) (drop at_ fields)).

(** ** Proposing *)

(** The input a proposal dispatch describes. *)
Definition dispatch_input (m : Message) : option ProposalInput :=
  let q := u64_fields m in
  base_id ← q !! PD_BASE_STATE_ID;
  base_gen ← q !! PD_BASE_STATE_GEN;
  gen ← q !! PD_BASE_GEN;
  depth ← u32_fields m !! PD_DEPTH;
  branch ← q !! PD_BRANCH;
  count ← u32_fields m !! PD_BRANCHCOUNT;
  dispatch ← q !! PD_DISPATCH;
  attempt ← q !! PD_ATTEMPT;
  epoch ← q !! PD_EPOCH;
  request ← q !! PD_REQUEST;
  sequence ← q !! PD_SEQUENCE;
  rev ← q !! PD_PROPOSER_REV;
  boot ← q !! PD_PROPOSER_BOOT;
  Some (ProposalInput_default
    <| pi_base_state := mkStateRef (mkId base_id) (mkId base_gen) |>
    <| pi_base_generation := mkId gen |>
    <| pi_depth := depth |>
    <| pi_branch_index := u32 branch |>
    <| pi_branch_count := count |>
    <| pi_deterministic_seed := Z.lxor dispatch attempt |>
    <| pi_provenance := ProposalProvenance_default
         <| pv_epoch := mkId epoch |>
         <| pv_request := mkId request |>
         <| pv_sequence := mkId sequence |>
         <| pv_attempt := mkId attempt |>
         <| pv_branch := mkId (u64 (branch + 1)) |>
         <| pv_proposer_model := ModelIdentity_default <| mdl_revision := mkId rev |> |>
         <| pv_proposer_boot := mkId boot |>
         <| pv_base_generation := mkId gen |>
         <| pv_dispatch := mkId dispatch |>
         <| pv_proposer_worker := null_id |> |>).

(** The outcome code of a proposal. *)
Definition proposal_code (r : ProposalResult) : Z :=
  match pr_outcome r with
  | ProposalOutcome.Success => kOutcomeSuccess
  | _ => if pr_retryable r then kOutcomeRetryable else kOutcomeNonRetryable
  end.

(** The candidate's tokens, or zeros. *)
Definition proposal_tokens (depth : Z) (r : ProposalResult) : list Z :=
  match pr_candidate r with
  | Some c => map tk_id (tokens c)
  | None => repeat 0 (Z.to_nat depth)
  end.

(** The answer to a proposal dispatch. *)
Definition answer_proposal (m : Message) : option Message :=
  aligned ← u32_fields m !! PD_ALIGNED;
  input ← dispatch_input m;
  r ← result_value (CpuProposer.propose (CpuProposer.Config_aligned aligned) input);
  let q := u64_fields m in
  request ← q !! PD_REQUEST;
  sequence ← q !! PD_SEQUENCE;
  attempt ← q !! PD_ATTEMPT;
  epoch ← q !! PD_EPOCH;
  dispatch ← q !! PD_DISPATCH;
  branch ← q !! PD_BRANCH;
  gen ← q !! PD_BASE_GEN;
  boot ← q !! PD_PROPOSER_BOOT;
  rev ← q !! PD_PROPOSER_REV;
  prop_gen ← q !! PD_PROPOGEN;
  Some (message Msg.ProposalResult
    [request; sequence; attempt; epoch; dispatch; branch; gen; boot; rev; prop_gen;
     pr_execution_measured_ns r]
    (proposal_code r :: pi_depth input :: proposal_tokens (pi_depth input) r) []).

(** ** Verifying *)

(** The input a verification dispatch describes. *)
Definition dispatch_candidate (m : Message) : option VerificationInput :=
  let q := u64_fields m in
  state_id ← q !! VD_STATE_ID;
  state_gen ← q !! VD_STATE_GEN;
  gen ← q !! VD_BASE_GEN;
  epoch ← q !! VD_EPOCH;
  request ← q !! VD_REQUEST;
  sequence ← q !! VD_SEQUENCE;
  attempt ← q !! VD_ATTEMPT;
  dispatch ← q !! VD_DISPATCH;
  boot ← q !! VD_PROPOSER_BOOT;
  rev ← q !! VD_PROPOSER_REV;
  tokenizer ← u32_fields m !! VD_TOKENIZER;
  vocab ← u32_fields m !! VD_VOCAB;
  len ← u32_fields m !! VD_LEN;
  toks ← slice VD_TOKENS len (u32_fields m);
  Some (VerificationInput_default
    <| vi_authoritative_state := mkStateRef (mkId state_id) (mkId state_gen) |>
    <| vi_authoritative_generation := mkId gen |>
    <| vi_epoch := mkId epoch |>
    <| vi_request := mkId request |>
    <| vi_sequence := mkId sequence |>
    <| vi_attempt := mkId attempt |>
    <| vi_dispatch := mkId dispatch |>
    <| vi_verifier_worker := null_id |>
    <| vi_verifier_boot := mkId boot |>
    <| vi_authoritative_state_generation := mkId state_gen |>
    <| vi_proposer := ModelIdentity_default <| mdl_revision := mkId rev |> |>
    <| vi_candidate_identity := CandidateTokenIdentity_default
         <| cti_tokenizer := mkId tokenizer |> <| cti_vocab_size := vocab |> |>
    <| vi_candidate := mkCandidate (map token_of toks) |>).

(** The code of an acceptance outcome. *)
Definition acceptance_code (r : Result AcceptanceResult) : Z :=
  match r with
  | Ok a =>
      match ar_outcome a with
      | AcceptanceOutcome.FullAccept => kAccFull
      | AcceptanceOutcome.PartialAccept => kAccPartial
      | AcceptanceOutcome.RejectAll => kAccReject
      | AcceptanceOutcome.VerifierFailure => kAccFailure
      end
  | Failed _ => kAccFailure
  end.

(** The answer to a verification dispatch. *)
Definition answer_verification (m : Message) : option Message :=
  input ← dispatch_candidate m;
  len ← u32_fields m !! VD_LEN;
  let r := CpuVerifier.verify input in
  let q := u64_fields m in
  request ← q !! VD_REQUEST;
  sequence ← q !! VD_SEQUENCE;
  attempt ← q !! VD_ATTEMPT;
  epoch ← q !! VD_EPOCH;
  gen ← q !! VD_BASE_GEN;
  dispatch ← q !! VD_DISPATCH;
  state_id ← q !! VD_STATE_ID;
  state_gen ← q !! VD_STATE_GEN;
  Some (message Msg.VerificationResult
    [request; sequence; attempt; epoch; gen; dispatch; state_id; state_gen]
    [acceptance_code r;
     match r with Ok a => ar_accepted_prefix a | Failed _ => 0 end;
     len;
     match r with Ok a => ar_first_rejection_index a | Failed _ => len end] []).

(** ** The loop *)

(** The announcement on connecting. *)
Definition worker_hello (role : string) (boot : Z) : Message :=
  message Msg.Hello [boot] [if decide (role = "proposer") then kRoleProposer else kRoleVerifier] [].

(** The payload a worker sends for a decoded message, if any. *)
Definition worker_reply (m : Message) : option (option bytes) :=
  if type m =? Msg.ProposalDispatch then
    out ← answer_proposal m; payload ← result_value (encode out); Some (Some payload)
  else if type m =? Msg.VerificationDispatch then
    out ← answer_verification m; payload ← result_value (encode out); Some (Some payload)
  else Some None.

(** The session over the payloads received: what the worker sends back. *)
Fixpoint worker_loop (received : list bytes) : option (list bytes) :=
  match received with
  | [] => Some []
  | p :: received =>
      match decode p with
      | Failed _ => worker_loop received
      | Ok m =>
          if type m =? Msg.Shutdown then Some []
          else
            reply ← worker_reply m;
            rest ← worker_loop received;
            Some (option_list reply ++ rest)
      end
  end.
