(* ===== verification/Coordinator.v ===== *)
(** * The coordinator process (tools/sf_coordinator.cpp)

    The distributed authority: the requests it holds, the validation of worker
    results, the cycle it drives over the worker connections, and its answers
    to the driver.  [None] is undefined behaviour: a field, a token or a branch
    read past the end, or [value()] of a message that does not encode. *)

From stdpp Require Import gmap sorting.
From S2P Require Import Prelude Errors Ids Data Bytes Wire Worker.

(** [struct CReq]. *)
Record CReq : Set := mkCReq {
  cr_id : RequestId;
  cr_seq : SequenceId;
  cr_tenant : TenantId;
  cr_attempt : AttemptId;
  cr_epoch : CoordinatorEpoch;
  cr_authGen : AuthGeneration;
  cr_authState : StateRef;
  cr_stateGen : StateGeneration;
  cr_committed : list Z;
  cr_depth : Z;
  cr_branches : Z;
  cr_aligned : Z;
  cr_propGen : Z
}.

Definition CReq_default : CReq :=
  mkCReq null_id null_id null_id null_id null_id null_id StateRef_default null_id [] 0 1 0 0.

#[export] Instance eta_CReq : Etable CReq := fun r =>
  mkCReq (cr_id r) (cr_seq r) (cr_tenant r) (cr_attempt r) (cr_epoch r) (cr_authGen r)
    (cr_authState r) (cr_stateGen r) (cr_committed r) (cr_depth r) (cr_branches r)
    (cr_aligned r) (cr_propGen r).

(** [validate_authority]: the reason to reject, or the empty string. *)
Definition validate_authority (r : CReq) (msg_epoch msg_boot msg_attempt msg_basegen msg_propgen
    current_boot : Z) : string :=
  if negb (msg_epoch =? get (cr_epoch r)) then kReasonStaleEpoch
  else if negb (msg_boot =? current_boot) then kReasonStaleBoot
  else if negb (msg_attempt =? get (cr_attempt r)) then kReasonStaleAttempt
  else if negb (msg_basegen =? get (cr_authGen r)) then kReasonWrongBase
  else if negb (msg_propgen =? cr_propGen r) then kReasonStaleGeneration
  else EmptyString.

(** The coordinator's variables; a connection that is not there is -1. *)
Record Coordinator : Set := mkCoordinator {
  co_proposerFd : Z;
  co_verifierFd : Z;
  co_driverFd : Z;
  co_proposerBoot : Z;
  co_verifierBoot : Z;
  co_prevProposerBoot : Z;
  co_epoch : CoordinatorEpoch;
  co_requests : gmap Z CReq
}.

#[export] Instance eta_Coordinator : Etable Coordinator := fun r =>
  mkCoordinator (co_proposerFd r) (co_verifierFd r) (co_driverFd r) (co_proposerBoot r)
    (co_verifierBoot r) (co_prevProposerBoot r) (co_epoch r) (co_requests r).

Definition new_coordinator : Coordinator := mkCoordinator (-1) (-1) (-1) 0 0 0 (mkId 1) empty.

(** [h.u32_fields.empty() ? 0 : h.u32_fields[0]]. *)
Definition first_or_zero (l : list Z) : Z := match l with [] => 0 | x :: _ => x end.

(** ** Connections *)

(** A first frame on connection [c] while not all roles are there.  A frame
    that is no [Hello] has its connection closed. *)
Definition startup_hello (c : Z) (msg : Result Message) (co : Coordinator) : Coordinator :=
  match msg with
  | Failed _ => co
  | Ok h =>
      if negb (type h =? Msg.Hello) then co
      else
        let role := first_or_zero (u32_fields h) in
        let boot := first_or_zero (u64_fields h) in
        if role =? kRoleProposer then co <| co_proposerFd := c |> <| co_proposerBoot := boot |>
        else if role =? kRoleVerifier then co <| co_verifierFd := c |> <| co_verifierBoot := boot |>
        else if role =? kRoleDriver then co <| co_driverFd := c |>
        else co
  end.

(** All roles are there. *)
Definition all_connected (co : Coordinator) : bool :=
  negb ((co_proposerFd co <? 0) || (co_verifierFd co <? 0) || (co_driverFd co <? 0)).

(** [std::uint64_t prevProposerBoot = proposerBoot], on becoming ready. *)
Definition start_work (co : Coordinator) : Coordinator :=
  co <| co_prevProposerBoot := co_proposerBoot co |>.

(** A first frame on a connection accepted later ([drain_accepts]): the
    coordinator after, and the connections closed. *)
Definition drain_hello (c : Z) (msg : Result Message) (co : Coordinator)
  : Coordinator * list Z :=
  match msg with
  | Failed _ => (co, [c])
  | Ok h =>
      if negb (type h =? Msg.Hello) then (co, [c])
      else
        let role := first_or_zero (u32_fields h) in
        let boot := first_or_zero (u64_fields h) in
        if role =? kRoleProposer then
          let old := co_proposerFd co in
          (co <| co_prevProposerBoot := co_proposerBoot co |> <| co_proposerFd := c |>
              <| co_proposerBoot := boot |>,
           if (0 <=? old) && negb (old =? c) then [old] else [])
        else if role =? kRoleVerifier then
          let old := co_verifierFd co in
          (co <| co_verifierFd := c |> <| co_verifierBoot := boot |>,
           if (0 <=? old) && negb (old =? c) then [old] else [])
        else if (role =? kRoleDriver) && (co_driverFd co <? 0) then
          (co <| co_driverFd := c |>, [])
        else (co, [c])
  end.

(** A driver connection that ends. *)
Definition driver_gone (co : Coordinator) : Coordinator := co <| co_driverFd := -1 |>.

(** ** The cycle *)

(** What a worker connection does with one dispatch. *)
Inductive Exchange : Set :=
| SendFailed
| RecvFailed
| Replied (payload : bytes).

(** A worker as the coordinator sees it; the dispatches of a cycle are all
    different, so an answer may depend on everything that went before. *)
Definition Peer : Set := bytes -> Exchange.

(** The dispatch to the proposer for branch [b]. *)
Definition proposal_dispatch (reqid b boot : Z) (r : CReq) : Message :=
  message Msg.ProposalDispatch
    [reqid; get (cr_seq r); get (cr_attempt r); get (cr_epoch r); get (sr_id (cr_authState r));
     get (sr_generation (cr_authState r)); get (cr_authGen r); 1; u64 (1000 + reqid + b); b;
     boot; cr_propGen r]
    [cr_depth r; cr_aligned r; cr_branches r] [].

(** The dispatch of a candidate to the verifier. *)
Definition verification_dispatch (reqid b boot : Z) (toks : list Z) (r : CReq) : Message :=
  message Msg.VerificationDispatch
    [reqid; get (cr_seq r); get (cr_attempt r); get (cr_epoch r); get (sr_id (cr_authState r));
     get (sr_generation (cr_authState r)); get (cr_authGen r); 1; u64 (2000 + reqid + b); boot]
    ([9; 4096; cr_depth r] ++ toks) [].

(** [struct Br]. *)
Record Br : Set := mkBr {
  b_branch : Z;
  b_toks : list Z;
  b_depth : Z;
  b_accepted : Z;
  b_firstrej : Z;
  b_outcome : Z
}.

(** The proposer's part of a branch: its tokens or the reason to stop. *)
Definition propose_branch (proposer : Peer) (reqid b boot : Z) (r : CReq)
  : option (string + list Z) :=
  payload ← result_value (encode (proposal_dispatch reqid b boot r));
  match proposer payload with
  | SendFailed => Some (inl "proposer send failed")
  | RecvFailed => Some (inl "proposer recv failed")
  | Replied fr =>
      match decode fr with
      | Failed _ => Some (inl "proposer decode failed")
      | Ok pr =>
          e ← u64_fields pr !! PR_EPOCH;
          w ← u64_fields pr !! PR_PROPOSER_BOOT;
          a ← u64_fields pr !! PR_ATTEMPT;
          g ← u64_fields pr !! PR_BASE_GEN;
          p ← u64_fields pr !! PR_PROPOGEN;
          let rej := validate_authority r e w a g p boot in
          if negb (bool_decide (rej = EmptyString)) then Some (inl ("stale:" +:+ rej))
          else
            outcome ← u32_fields pr !! PR_OUTCOME;
            if negb (outcome =? kOutcomeSuccess) then Some (inl "proposal non-success")
            else
              toks ← slice PR_TOKENS (cr_depth r) (u32_fields pr);
              Some (inr toks)
      end
  end.

(** The verifier's part of a branch. *)
Definition verify_branch (verifier : Peer) (reqid b boot : Z) (toks : list Z) (r : CReq)
  : option (string + Br) :=
  payload ← result_value (encode (verification_dispatch reqid b boot toks r));
  match verifier payload with
  | SendFailed => Some (inl "verifier send failed")
  | RecvFailed => Some (inl "verifier recv failed")
  | Replied fr =>
      match decode fr with
      | Failed _ => Some (inl "verifier decode failed")
      | Ok vr =>
          e ← u64_fields vr !! VR_EPOCH;
          a ← u64_fields vr !! VR_ATTEMPT;
          g ← u64_fields vr !! VR_BASE_GEN;
          let rej := validate_authority r e boot a g (cr_propGen r) boot in
          if negb (bool_decide (rej = EmptyString)) then Some (inl ("stale:" +:+ rej))
          else
            accepted ← u32_fields vr !! VR_ACCEPTED;
            firstrej ← u32_fields vr !! VR_FIRST_REJ;
            outcome ← u32_fields vr !! VR_OUTCOME;
            Some (inr (mkBr (u64 (b + 1)) toks (cr_depth r) accepted firstrej outcome))
      end
  end.

Section Peers.
  Context (proposer verifier : Peer) (reqid pboot vboot : Z).

(** The loop over the branches from [b], [n] more of them: the reason to stop
    or the branches, and the request. *)
Fixpoint branch_loop (n : nat) (b : Z) (r : CReq) : option ((string + list Br) * CReq) :=
  match n with
  | O => Some (inr [], r)
  | S n =>
      let r := r <| cr_propGen ::= fun g => u64 (g + 1) |> in
      drafted ← propose_branch proposer reqid b pboot r;
      match drafted with
      | inl why => Some (inl why, r)
      | inr toks =>
          verified ← verify_branch verifier reqid b vboot toks r;
          match verified with
          | inl why => Some (inl why, r)
          | inr br =>
              '(rest, r) ← branch_loop n (b + 1) r;
              Some (match rest with inl why => inl why | inr brs => inr (br :: brs) end, r)
          end
      end
  end.

(** The body of the winner loop. *)
Definition better_br (w i : Br) : Br :=
  if (b_accepted w <? b_accepted i)
     || ((b_accepted i =? b_accepted w) && (b_branch i <? b_branch w)) then i else w.

(** The winner; no branch at all is undefined. *)
Definition winner (brs : list Br) : option Br :=
  match brs with [] => None | br :: brs => Some (fold_left better_br brs br) end.

(** The commit of the winner. *)
Definition commit_winner (win : Br) (r : CReq) : option CReq :=
  toks ← slice 0 (b_accepted win) (b_toks win);
  let generation : StateGeneration :=
    mkId (u64 (get (sr_generation (cr_authState r)) + b_accepted win)) in
  Some (r <| cr_committed ::= fun c => c ++ toks |>
          <| cr_authGen := mkId (u64 (get (cr_authGen r) + b_accepted win)) |>
          <| cr_authState := mkStateRef (sr_id (cr_authState r)) generation |>
          <| cr_stateGen := generation |>).

(** [drive_cycle], on the entry of the request. *)
Definition drive_cycle (epoch : CoordinatorEpoch) (depth branches aligned : Z) (r : CReq)
  : option (string * CReq) :=
  let r := r <| cr_depth := depth |> <| cr_branches := branches |> <| cr_aligned := aligned |>
             <| cr_epoch := epoch |> in
  '(res, r) ← branch_loop (Z.to_nat branches) 0 r;
  match res with
  | inl why => Some (why, r)
  | inr brs =>
      win ← winner brs;
      r ← commit_winner win r;
      Some ("ok:" +:+ pretty (b_accepted win) +:+ ":" +:+ pretty (b_branch win) +:+ ":" +:+
            pretty (b_firstrej win), r)
  end.
End Peers.

(** ** The driver's messages *)

Definition bytes_of_string (s : string) : bytes :=
  map (fun c => Z.of_nat (Ascii.nat_of_ascii c)) (String.list_ascii_of_string s).

Definition text (ty : Msg.t) (s : string) : Message := message ty [] [] (bytes_of_string s).

(** The requests in key order, and [requests.begin()]. *)
Definition key_before (a b : Z * CReq) : Prop := a.1 <= b.1.

#[export] Instance key_before_dec a b : Decision (key_before a b).
Proof. unfold key_before. apply _. Defined.

Definition requests_in_order (co : Coordinator) : list (Z * CReq) :=
  merge_sort key_before (map_to_list (co_requests co)).

Definition first_request (co : Coordinator) : option CReq :=
  match requests_in_order co with [] => None | (_, r) :: _ => Some r end.

(** A verdict of [validate_authority] as a reply. *)
Definition verdict_reply (rej : string) : Message :=
  if bool_decide (rej = EmptyString) then text Msg.Info "no_rejection" else text Msg.Reject rej.

(** The fields a submission assigns. *)
Definition submitted_request (reqid : Z) (epoch : CoordinatorEpoch) (r : CReq) : CReq :=
  r <| cr_id := mkId reqid |>
    <| cr_seq := mkId (u64 (reqid + 1)) |>
    <| cr_tenant := mkId 1 |>
    <| cr_attempt := mkId 1 |>
    <| cr_epoch := epoch |>
    <| cr_authGen := mkId 0 |>
    <| cr_authState := mkStateRef (mkId (u64 (reqid * 0x9E3779B97F4A7C15))) (mkId 0) |>
    <| cr_stateGen := mkId 0 |>
    <| cr_committed := [] |>
    <| cr_propGen := 0 |>.

(** A replayed proposal result from the driver. *)
Definition on_replay (m : Message) (co : Coordinator) : option Message :=
  match first_request co with
  | None => Some (text Msg.Info "no_request")
  | Some r =>
      e ← u64_fields m !! PR_EPOCH;
      w ← u64_fields m !! PR_PROPOSER_BOOT;
      a ← u64_fields m !! PR_ATTEMPT;
      g ← u64_fields m !! PR_BASE_GEN;
      p ← u64_fields m !! PR_PROPOGEN;
      Some (verdict_reply (validate_authority r e w a g p (co_proposerBoot co)))
  end.

(** A submission. *)
Definition on_submit (proposer verifier : Peer) (m : Message) (co : Coordinator)
  : option (Message * Coordinator) :=
  reqid ← u64_fields m !! 0%nat;
  depth ← u32_fields m !! 0%nat;
  branches ← u32_fields m !! 1%nat;
  aligned ← u32_fields m !! 2%nat;
  let r := submitted_request reqid (co_epoch co)
             (default CReq_default (co_requests co !! reqid)) in
  '(res, r) ← drive_cycle proposer verifier reqid (co_proposerBoot co) (co_verifierBoot co)
                (co_epoch co) depth branches aligned r;
  let co := co <| co_requests ::= insert reqid r |> in
  Some (if String.prefix "ok:" res then
          message Msg.Commit [reqid; get (cr_authGen r); zlen (cr_committed r)] [] []
        else text Msg.Reject res, co).

(** The probe [stale:kind]. *)
Definition on_stale_probe (kind : string) (r : CReq) (co : Coordinator) : Message :=
  let '(epoch, boot, attempt, base, prop) :=
    (get (cr_epoch r), co_proposerBoot co, get (cr_attempt r), get (cr_authGen r), cr_propGen r) in
  verdict_reply
    (if bool_decide (kind = "epoch") then
       validate_authority r (u64 (epoch - 1)) boot attempt base prop (co_proposerBoot co)
     else if bool_decide (kind = "boot") then
       validate_authority r epoch (u64 (boot + 9999)) attempt base prop (co_proposerBoot co)
     else if bool_decide (kind = "prevBoot") then
       validate_authority r epoch (co_prevProposerBoot co) attempt base prop (co_proposerBoot co)
     else if bool_decide (kind = "attempt") then
       validate_authority r epoch boot (u64 (attempt + 7)) base prop (co_proposerBoot co)
     else if bool_decide (kind = "generation") then
       validate_authority r epoch boot attempt base (u64 (prop + 1)) (co_proposerBoot co)
     else if bool_decide (kind = "base") then
       validate_authority r epoch boot attempt (u64 (base + 5)) prop (co_proposerBoot co)
     else validate_authority r epoch boot attempt base prop (co_proposerBoot co)).

(** The status line. *)
Definition status_line (co : Coordinator) : string :=
  fold_left (fun s kv => s +:+ " req" +:+ pretty kv.1 +:+ " committed=" +:+
               pretty (zlen (cr_committed kv.2)) +:+ " gen=" +:+ pretty (get (cr_authGen kv.2)))
    (requests_in_order co)
    ("epoch=" +:+ pretty (get (co_epoch co)) +:+ " boot=" +:+ pretty (co_proposerBoot co) +:+
     " requests=" +:+ pretty (zlen (requests_in_order co))).

(** A command: the reply, if any, and the coordinator after. *)
Definition on_command (body : bytes) (co : Coordinator) : option Message * Coordinator :=
  if bool_decide (body = bytes_of_string "rollEpoch") then
    let co := co <| co_epoch ::= fun e => mkId (u64 (get e + 1)) |> in
    (Some (text Msg.Info ("ok epoch=" +:+ pretty (get (co_epoch co)))), co)
  else if bool_decide (take 6 body = bytes_of_string "stale:") then
    (match first_request co with
     | None => None
     | Some r => Some (on_stale_probe (String.string_of_list_ascii
         (map (fun z => Ascii.ascii_of_nat (Z.to_nat z)) (drop 6 body))) r co)
     end, co)
  else if bool_decide (body = bytes_of_string "status") then
    (Some (text Msg.Info (status_line co)), co)
  else (None, co).

(** A payload from the driver: the payloads sent back, the coordinator after,
    and whether it goes on.  A reply that does not encode is undefined. *)
Definition on_driver (proposer verifier : Peer) (payload : bytes) (co : Coordinator)
  : option (list bytes * Coordinator * bool) :=
  let send (m : Message) (co : Coordinator) :=
    p ← result_value (encode m); Some ([p], co, true) in
  match decode payload with
  | Failed _ => Some ([], co, true)
  | Ok m =>
      if type m =? Msg.Shutdown then Some ([], co, false)
      else if type m =? Msg.ProposalResult then
        out ← on_replay m co; send out co
      else if type m =? Msg.SubmitRequest then
        '(out, co) ← on_submit proposer verifier m co; send out co
      else if type m =? Msg.Info then
        match on_command (body m) co with
        | (None, co) => Some ([], co, true)
        | (Some out, co) => send out co
        end
      else Some ([], co, true)
  end.
