(* ===== verification/Cluster.v ===== *)
(** * The distributed control plane

    What the coordinator's validation lets through, what its cycle commits
    whatever its peers answer, and what it commits when the peers are CPU
    workers. *)

From stdpp Require Import gmap.
From S2P Require Import Prelude Errors Ids Model Data Synthetic Cpu Bytes Wire Worker Coordinator.

(** ** Validation *)

Section Authority.
  Implicit Types r : CReq.

(** The five identities agree. *)
Definition current (r : CReq) (e w a g p boot : Z) : Prop :=
  e = get (cr_epoch r) /\ w = boot /\ a = get (cr_attempt r) /\ g = get (cr_authGen r) /\
  p = cr_propGen r.

Lemma validate_current r e w a g p boot :
  validate_authority r e w a g p boot = EmptyString <-> current r e w a g p boot.
Proof.
  unfold validate_authority, current. repeat (case_ztest; simpl negb; cbv iota);
    (split; [by intros E; try discriminate E | intros; naive_solver]).
Qed.

(** The coordinator names the first stale identity.  A worker result is
    accepted exactly when its coordinator epoch, worker boot, attempt, base
    generation and proposal generation are all the current ones; otherwise the
    reason is that of the first one, in this order, that is not. *)
Theorem validate_authority_correct r e w a g p boot :
  let v := validate_authority r e w a g p boot in
  (v = EmptyString <-> current r e w a g p boot) /\
  (v = kReasonStaleEpoch <-> e <> get (cr_epoch r)) /\
  (v = kReasonStaleBoot <-> e = get (cr_epoch r) /\ w <> boot) /\
  (v = kReasonStaleAttempt <->
   e = get (cr_epoch r) /\ w = boot /\ a <> get (cr_attempt r)) /\
  (v = kReasonWrongBase <->
   e = get (cr_epoch r) /\ w = boot /\ a = get (cr_attempt r) /\ g <> get (cr_authGen r)) /\
  (v = kReasonStaleGeneration <->
   e = get (cr_epoch r) /\ w = boot /\ a = get (cr_attempt r) /\ g = get (cr_authGen r) /\
   p <> cr_propGen r).
Proof.
  split; [apply validate_current |]. unfold validate_authority.
  repeat (case_ztest; simpl negb; cbv iota); split_and!;
    (split; [by intros E; try discriminate E | intros; naive_solver]).
Qed.
End Authority.

(** ** The cycle, for any peers *)

(** An answer of the proposer that passed validation. *)
Definition fresh_proposal (proposer : Peer) (reqid b boot : Z) (r : CReq) (toks : list Z) : Prop :=
  exists payload fr pr,
    encode (proposal_dispatch reqid b boot r) = Ok payload /\ proposer payload = Replied fr /\
    decode fr = Ok pr /\
    u64_fields pr !! PR_EPOCH = Some (get (cr_epoch r)) /\
    u64_fields pr !! PR_PROPOSER_BOOT = Some boot /\
    u64_fields pr !! PR_ATTEMPT = Some (get (cr_attempt r)) /\
    u64_fields pr !! PR_BASE_GEN = Some (get (cr_authGen r)) /\
    u64_fields pr !! PR_PROPOGEN = Some (cr_propGen r) /\
    u32_fields pr !! PR_OUTCOME = Some kOutcomeSuccess /\
    slice PR_TOKENS (cr_depth r) (u32_fields pr) = Some toks.

(** An answer of the verifier that passed validation. *)
Definition fresh_verification (verifier : Peer) (reqid b boot : Z) (toks : list Z) (r : CReq)
    (br : Br) : Prop :=
  exists payload fr vr,
    encode (verification_dispatch reqid b boot toks r) = Ok payload /\
    verifier payload = Replied fr /\ decode fr = Ok vr /\
    u64_fields vr !! VR_EPOCH = Some (get (cr_epoch r)) /\
    u64_fields vr !! VR_ATTEMPT = Some (get (cr_attempt r)) /\
    u64_fields vr !! VR_BASE_GEN = Some (get (cr_authGen r)) /\
    u32_fields vr !! VR_ACCEPTED = Some (b_accepted br) /\
    b_branch br = u64 (b + 1) /\ b_toks br = toks.

(** The request as the [k]-th dispatch of a cycle sees it. *)
Definition at_dispatch (k : nat) (r : CReq) : CReq :=
  r <| cr_propGen := u64 (cr_propGen r + Z.of_nat (S k)) |>.

(** All but the proposal generation. *)
Definition same_but_propGen (a b : CReq) : Prop := exists g, b = a <| cr_propGen := g |>.

Section DriveCycle.
  Context (proposer verifier : Peer) (reqid pboot vboot : Z).

Lemma propose_branch_inv b r res :
  propose_branch proposer reqid b pboot r = Some res ->
  match res with
  | inl why => String.prefix "ok:" why = false
  | inr toks => fresh_proposal proposer reqid b pboot r toks
  end.
Proof.
  unfold propose_branch. destruct (encode _) as [payload |] eqn:E; [| discriminate].
  cbn [result_value mbind option_bind].
  destruct (proposer payload) as [| | fr] eqn:P; [by intros [= <-] | by intros [= <-] |].
  destruct (decode fr) as [pr |] eqn:D; [| by intros [= <-]].
  destruct (_ !! PR_EPOCH) as [e |] eqn:Le; [| discriminate].
  destruct (_ !! PR_PROPOSER_BOOT) as [w |] eqn:Lw; [| discriminate].
  destruct (_ !! PR_ATTEMPT) as [a |] eqn:La; [| discriminate].
  destruct (_ !! PR_BASE_GEN) as [g |] eqn:Lg; [| discriminate].
  destruct (_ !! PR_PROPOGEN) as [p |] eqn:Lp; [| discriminate]. cbn [mbind option_bind].
  case_bool_decide as V; cbn [negb]; [| by intros [= <-]].
  apply validate_current in V as (-> & -> & -> & -> & ->).
  destruct (_ !! PR_OUTCOME) as [o |] eqn:Lo; [| discriminate]. cbn [mbind option_bind].
  destruct (Z.eqb_spec o kOutcomeSuccess) as [-> |]; cbn [negb]; [| by intros [= <-]].
  destruct (slice _ _ _) as [toks |] eqn:S; [| discriminate]. cbn [mbind option_bind].
  intros [= <-]. by exists payload, fr, pr.
Qed.

Lemma verify_branch_inv b toks r res :
  verify_branch verifier reqid b vboot toks r = Some res ->
  match res with
  | inl why => String.prefix "ok:" why = false
  | inr br => fresh_verification verifier reqid b vboot toks r br
  end.
Proof.
  unfold verify_branch. destruct (encode _) as [payload |] eqn:E; [| discriminate].
  cbn [result_value mbind option_bind].
  destruct (verifier payload) as [| | fr] eqn:P; [by intros [= <-] | by intros [= <-] |].
  destruct (decode fr) as [vr |] eqn:D; [| by intros [= <-]].
  destruct (_ !! VR_EPOCH) as [e |] eqn:Le; [| discriminate].
  destruct (_ !! VR_ATTEMPT) as [a |] eqn:La; [| discriminate].
  destruct (_ !! VR_BASE_GEN) as [g |] eqn:Lg; [| discriminate]. cbn [mbind option_bind].
  case_bool_decide as V; cbn [negb]; [| by intros [= <-]].
  apply validate_current in V as (-> & _ & -> & -> & _).
  destruct (_ !! VR_ACCEPTED) as [n |] eqn:Ln; [| discriminate].
  destruct (_ !! VR_FIRST_REJ) as [fr' |]; [| discriminate].
  destruct (_ !! VR_OUTCOME) as [o |]; [| discriminate]. cbn [mbind option_bind].
  intros [= <-]. by exists payload, fr, vr.
Qed.

Lemma at_dispatch_S k r :
  at_dispatch k (r <| cr_propGen ::= fun g => u64 (g + 1) |>) = at_dispatch (S k) r.
Proof.
  unfold at_dispatch. destruct r. simpl. f_equal. rewrite u64_add_l. f_equal. lia.
Qed.

Lemma branch_loop_spec n : forall b r res r',
  branch_loop proposer verifier reqid pboot vboot n b r = Some (res, r') ->
  same_but_propGen r r' /\
  match res with
  | inl why => String.prefix "ok:" why = false
  | inr brs =>
      length brs = n /\
      forall k br, brs !! k = Some br ->
        let r := at_dispatch k r in
        fresh_proposal proposer reqid (b + Z.of_nat k) pboot r (b_toks br) /\
        fresh_verification verifier reqid (b + Z.of_nat k) vboot (b_toks br) r br
  end.
Proof.
  induction n as [| n IH]; intros b r res r'; cbn [branch_loop].
  { intros [= <- <-]. split; [exists (cr_propGen r); by destruct r |].
    split; [done |]. intros k br. by rewrite lookup_nil. }
  set (r1 := r <| cr_propGen ::= fun g => u64 (g + 1) |>).
  assert (S1 : same_but_propGen r r1) by (by eexists).
  assert (R1 : at_dispatch 0 r = r1) by reflexivity.
  destruct (propose_branch _ _ _ _ _) as [[why | toks] |] eqn:P;
    cbn [mbind option_bind]; [| | discriminate].
  { intros [= <- <-]. split; [exact S1 |]. by apply propose_branch_inv in P. }
  apply propose_branch_inv in P.
  destruct (verify_branch _ _ _ _ _ _) as [[why | br] |] eqn:V;
    cbn [mbind option_bind]; [| | discriminate].
  { intros [= <- <-]. split; [exact S1 |]. by apply verify_branch_inv in V. }
  apply verify_branch_inv in V.
  destruct (branch_loop _ _ _ _ _ n _ _) as [[rest r2] |] eqn:L;
    cbn [mbind option_bind]; [| discriminate].
  apply IH in L as [(g & ->) L]. intros [= <- <-]. split; [by exists g |].
  destruct rest as [why | brs]; [done |]. destruct L as [Ln L]. split; [simpl; lia |].
  intros [| k] br'; cbn [lookup list_lookup].
  - intros [= <-]. cbv zeta. rewrite R1, Z.add_0_r.
    assert (Et : b_toks br = toks) by (destruct V as (? & ? & ? & V); by decompose [and] V).
    by rewrite Et.
  - intros Lk. apply L in Lk. cbv zeta in *. unfold r1 in Lk. rewrite at_dispatch_S in Lk.
    by replace (b + Z.of_nat (S k)) with (b + 1 + Z.of_nat k) by lia.
Qed.

(** The winner is one of the branches, and none is better. *)
Definition br_beats (x y : Br) : Prop :=
  b_accepted y < b_accepted x \/ b_accepted y = b_accepted x /\ b_branch x <= b_branch y.

Lemma better_br_beats w i :
  (better_br w i = w \/ better_br w i = i) /\
  br_beats (better_br w i) w /\ br_beats (better_br w i) i.
Proof.
  unfold better_br, br_beats.
  destruct (Z.ltb_spec (b_accepted w) (b_accepted i)); simpl; [split; [by right | lia] |].
  destruct (Z.eqb_spec (b_accepted i) (b_accepted w)); simpl; [| split; [by left | lia]].
  destruct (Z.ltb_spec (b_branch i) (b_branch w)); (split; [by (left + right) | lia]).
Qed.

Lemma winner_spec brs win :
  winner brs = Some win -> win ∈ brs /\ Forall (br_beats win) brs.
Proof.
  destruct brs as [| br brs]; [discriminate |]. cbn [winner]. intros [= <-].
  assert (F : forall l w, (fold_left better_br l w = w \/ fold_left better_br l w ∈ l) /\
                br_beats (fold_left better_br l w) w /\
                Forall (br_beats (fold_left better_br l w)) l).
  { induction l as [| i l IH]; intros w; simpl.
    - split; [by left |]. split; [right; lia | constructor].
    - destruct (better_br_beats w i) as (B & Bw & Bi).
      destruct (IH (better_br w i)) as (I & J & K). unfold br_beats in *. split.
      + destruct I as [-> | I]; [| right; by apply list_elem_of_further].
        destruct B as [-> | ->]; [by left | right; apply list_elem_of_here].
      + split; [lia |]. constructor; [lia | exact K]. }
  destruct (F brs br) as (I & J & K). split; [| by constructor].
  destruct I as [-> | I]; [apply list_elem_of_here | by apply list_elem_of_further].
Qed.

Lemma slice_spec at_ n l k : slice at_ n l = Some k -> k = take (Z.to_nat n) (drop at_ l) /\
  n <= zlen (drop at_ l) /\ (0 <= n -> zlen k = n).
Proof.
  unfold slice. destruct (Z.ltb_spec (zlen (drop at_ l)) n); [discriminate |].
  intros [= <-]. split_and!; [done | lia |]. rewrite zlen_take. lia.
Qed.

Lemma prefix_ok s : String.prefix "ok:" ("ok:" +:+ s) = true.
Proof. by destruct s. Qed.

(** C11: a distributed cycle commits only fresh, verified tokens.  Whatever the
    two peers answer, a cycle that is defined - a cycle without branches, a
    verification of a depth over 61, a reply with too few fields and a winner
    with more tokens accepted than drafted are not - first overwrites the
    request's depth, branches, alignment and epoch with its own and then
    either fails and changes nothing else but the proposal generation, so that
    committed tokens and generations stay as they were, or commits the accepted
    leading tokens of one branch: one that was drafted in answer to this very
    dispatch - same epoch, proposer boot, attempt, base generation and proposal
    generation - and verified under the same epoch, attempt and base
    generation.  The generations advance by the number of tokens committed, and
    no branch of the cycle had more tokens accepted, nor as many on an earlier
    branch. *)
Theorem drive_cycle_correct epoch depth branches aligned r res r' :
  drive_cycle proposer verifier reqid pboot vboot epoch depth branches aligned r =
    Some (res, r') ->
  let start := r <| cr_depth := depth |> <| cr_branches := branches |>
                 <| cr_aligned := aligned |> <| cr_epoch := epoch |> in
  cr_id r' = cr_id r /\ cr_seq r' = cr_seq r /\ cr_attempt r' = cr_attempt r /\
  cr_epoch r' = epoch /\
  (String.prefix "ok:" res = false /\ same_but_propGen start r' /\
   cr_committed r' = cr_committed r /\ cr_authGen r' = cr_authGen r /\
   cr_authState r' = cr_authState r /\ cr_stateGen r' = cr_stateGen r \/
   String.prefix "ok:" res = true /\
   exists brs k win,
     length brs = Z.to_nat branches /\ brs !! k = Some win /\ Forall (br_beats win) brs /\
     fresh_proposal proposer reqid (Z.of_nat k) pboot (at_dispatch k start) (b_toks win) /\
     fresh_verification verifier reqid (Z.of_nat k) vboot (b_toks win) (at_dispatch k start) win /\
     b_accepted win <= zlen (b_toks win) /\
     cr_committed r' = cr_committed r ++ take (Z.to_nat (b_accepted win)) (b_toks win) /\
     cr_authGen r' = mkId (u64 (get (cr_authGen r) + b_accepted win)) /\
     sr_id (cr_authState r') = sr_id (cr_authState r) /\
     sr_generation (cr_authState r') =
       mkId (u64 (get (sr_generation (cr_authState r)) + b_accepted win)) /\
     cr_stateGen r' = sr_generation (cr_authState r')).
Proof.
  intros E start. unfold drive_cycle in E. fold start in E.
  destruct (branch_loop _ _ _ _ _ _ _ _) as [[l r1] |] eqn:L;
    cbn [mbind option_bind] in E; [| discriminate].
  apply branch_loop_spec in L as [(g & ->) L]. destruct l as [why | brs].
  { injection E as <- <-. split_and!; try done. left. split_and!; try done. by exists g. }
  destruct L as [Ln L]. destruct (winner brs) as [win |] eqn:W;
    cbn [mbind option_bind] in E; [| discriminate].
  apply winner_spec in W as [I B]. apply list_elem_of_lookup in I as [k Lk].
  unfold commit_winner in E.
  destruct (slice _ _ _) as [toks |] eqn:S; cbn [mbind option_bind] in E; [| discriminate].
  apply slice_spec in S as (-> & Hn & _). rewrite drop_0 in *. injection E as <- <-.
  apply L in Lk as F. rewrite Z.add_0_l in F. destruct F as [F1 F2].
  split_and!; try done. right. split; [apply prefix_ok |]. exists brs, k, win. by split_and!.
Qed.
End DriveCycle.

(** ** CPU workers *)

(** A worker process as a peer; a worker that does not answer a dispatch
    leaves the coordinator without a frame. *)
Definition worker_peer : Peer := fun payload =>
  match decode payload with
  | Failed _ => RecvFailed
  | Ok m => match worker_reply m with Some (Some p) => Replied p | _ => RecvFailed end
  end.

(** A request whose dispatches fit the wire. *)
Record wire_ok (r : CReq) : Prop := {
  wo_seq : is_u64 (get (cr_seq r));
  wo_attempt : is_u64 (get (cr_attempt r));
  wo_epoch : is_u64 (get (cr_epoch r));
  wo_state : is_u64 (get (sr_id (cr_authState r)));
  wo_state_gen : is_u64 (get (sr_generation (cr_authState r)));
  wo_gen : is_u64 (get (cr_authGen r));
  wo_depth : 1 <= cr_depth r <= 61;
  wo_branches : 1 <= cr_branches r < 4096;
  wo_aligned : is_u32 (cr_aligned r);
  wo_propGen : is_u64 (cr_propGen r)
}.

(** The seed both workers derive from a dispatch. *)
Definition cluster_seed (r : CReq) : Z :=
  mix64 (state_base (cr_authState r)) (get (cr_authGen r)) 1 (u64 (cr_depth r * 0x100000001B3)).

Definition cluster_target (r : CReq) : list Z :=
  target_of (cluster_seed r) (Z.to_nat (cr_depth r)).

(** The draft of branch [b]. *)
Definition cluster_draft (r : CReq) (b : Z) : list Z :=
  ids (draft_tokens (make_model kTargetModelSeed) (cr_aligned r) b (Z.to_nat (cr_depth r)) 0
         (seed_state (cluster_seed r)) 0).

(** The reply to the proposal dispatch of branch [b]. *)
Definition draft_reply (reqid b boot : Z) (r : CReq) : Message :=
  message Msg.ProposalResult
    [reqid; get (cr_seq r); get (cr_attempt r); get (cr_epoch r); u64 (1000 + reqid + b); b;
     get (cr_authGen r); boot; 1; cr_propGen r; cr_depth r]
    (kOutcomeSuccess :: cr_depth r :: cluster_draft r b) [].

(** The verdict on a candidate, and the reply that carries it. *)
Definition verdict_code (n matched : Z) : Z :=
  match CpuVerifier.outcome_of n matched with
  | AcceptanceOutcome.FullAccept => kAccFull
  | AcceptanceOutcome.PartialAccept => kAccPartial
  | AcceptanceOutcome.RejectAll => kAccReject
  | AcceptanceOutcome.VerifierFailure => kAccFailure
  end.

Definition judged_reply (reqid b : Z) (toks : list Z) (r : CReq) : Message :=
  message Msg.VerificationResult
    [reqid; get (cr_seq r); get (cr_attempt r); get (cr_epoch r); get (cr_authGen r);
     u64 (2000 + reqid + b); get (sr_id (cr_authState r)); get (sr_generation (cr_authState r))]
    [verdict_code (cr_depth r) (match_count (cluster_target r) toks);
     match_count (cluster_target r) toks; cr_depth r; lcp (cluster_target r) toks] [].

(** Fields in range, one by one. *)
Ltac fields_in_range :=
  repeat (apply Forall_cons_2; [by auto with fabric |]); try apply Forall_nil_2.

Section Workers.
  Implicit Types r : CReq.

Lemma wire_ok_propGen r g : wire_ok r -> is_u64 g -> wire_ok (r <| cr_propGen := g |>).
Proof. intros [] H. by constructor. Qed.

(** A message of the current version with fields in range is well formed. *)
Lemma wf_intro ty f64 f32 b :
  Msg.Hello <= ty <= Msg.Shutdown -> Forall is_u64 f64 -> Forall is_u32 f32 -> Forall is_u8 b ->
  zlen f64 <= 64 -> zlen f32 <= 64 -> zlen b <= 1048576 -> wf_message (message ty f64 f32 b).
Proof. by constructor. Qed.

Lemma worker_peer_answers m out :
  wf_message m -> wf_message out ->
  (forall p, encode out = Ok p -> worker_reply m = Some (Some p)) ->
  exists payload q, encode m = Ok payload /\ worker_peer payload = Replied q /\ decode q = Ok out.
Proof.
  intros Wm Wo R. destruct (decode_encode m Wm) as (payload & E & D).
  destruct (decode_encode out Wo) as (p & Ep & D').
  exists payload, p. split_and!; try done. unfold worker_peer. by rewrite D, (R p Ep).
Qed.

Lemma length_cluster_draft r b : 0 <= cr_depth r -> zlen (cluster_draft r b) = cr_depth r.
Proof.
  intros H. unfold cluster_draft, ids, zlen. rewrite length_map, length_draft_tokens. lia.
Qed.

Lemma cluster_draft_u32 r b : Forall is_u32 (cluster_draft r b).
Proof.
  unfold cluster_draft, ids. apply Forall_map.
  eapply Forall_impl; [apply draft_tokens_in_vocab |]. intros t. simpl.
  unfold kSyntheticVocab, is_u32. lia.
Qed.

(** What a proposer worker answers to a dispatch. *)
Lemma answer_proposal_draft reqid b boot r :
  wire_ok r -> is_u32 b ->
  answer_proposal (proposal_dispatch reqid b boot r) =
  Some (draft_reply reqid b boot r).
Proof.
  intros W Hb. destruct W as [_ _ _ _ _ _ Wd _ _ _]. unfold answer_proposal.
  change (u32_fields (proposal_dispatch reqid b boot r) !! PD_ALIGNED) with (Some (cr_aligned r)).
  cbn [mbind option_bind].
  destruct (dispatch_input (proposal_dispatch reqid b boot r)) as [inp |] eqn:D;
    [| discriminate D].
  assert (Di : pi_depth inp = cr_depth r) by (by injection D as <-).
  assert (Bi : pi_compute_budget inp = 0) by (by injection D as <-).
  assert (Ii : pi_branch_index inp = b) by (injection D as <-; by apply u32_small).
  assert (Si : CpuProposer.seed_of inp = cluster_seed r)
    by (injection D as <-; unfold CpuProposer.seed_of, cluster_seed; f_equal;
        unfold state_base; by destruct (cr_authState r) as [[?] [?]]).
  cbn [mbind option_bind]. unfold CpuProposer.propose.
  rewrite Di, Bi, Ii, Si. rewrite (proj2 (Z.eqb_neq (cr_depth r) 0)) by lia.
  rewrite (proj2 (Z.ltb_ge 256 (cr_depth r))) by lia. cbn [Z.eqb negb andb].
  cbn [result_value mbind option_bind]. done.
Qed.

(** The ranges a dispatch needs. *)
Record dispatch_ok (reqid b boot : Z) (r : CReq) : Prop := {
  do_request : wire_ok r;
  do_id : is_u64 reqid;
  do_branch : 0 <= b < 4096;
  do_boot : is_u64 boot
}.

Lemma dispatch_wf reqid b boot r :
  dispatch_ok reqid b boot r -> wf_message (proposal_dispatch reqid b boot r).
Proof.
  intros [[] Hr Hb Hw]. assert (is_u64 b) by (unfold is_u64; lia).
  assert (is_u64 1) by in_range. assert (is_u32 (cr_depth r)) by (unfold is_u32; lia).
  assert (is_u32 (cr_branches r)) by (unfold is_u32; lia).
  by apply wf_intro; try fields_in_range; vm_compute.
Qed.

Lemma draft_reply_wf reqid b boot r :
  dispatch_ok reqid b boot r -> wf_message (draft_reply reqid b boot r).
Proof.
  intros [[] Hr Hb Hw]. assert (is_u64 b) by (unfold is_u64; lia).
  assert (is_u64 1) by in_range. assert (is_u32 (cr_depth r)) by (unfold is_u32; lia).
  assert (is_u32 kOutcomeSuccess) by in_range.
  pose proof (cluster_draft_u32 r b). pose proof (length_cluster_draft r b ltac:(lia)).
  apply wf_intro; [by vm_compute | fields_in_range | fields_in_range; done | constructor |
    by vm_compute | rewrite !zlen_cons; lia | by vm_compute].
Qed.

Lemma cpu_propose_branch reqid b boot r :
  dispatch_ok reqid b boot r ->
  propose_branch worker_peer reqid b boot r = Some (inr (cluster_draft r b)).
Proof.
  intros K. pose proof K as [W Hr Hb Hw].
  pose proof (length_cluster_draft r b ltac:(destruct W; lia)) as Ld.
  destruct (worker_peer_answers (proposal_dispatch reqid b boot r) (draft_reply reqid b boot r))
    as (payload & q & E & P & D).
  - by apply dispatch_wf.
  - by apply draft_reply_wf.
  - intros p Ep. unfold worker_reply.
    change (type (proposal_dispatch reqid b boot r)) with Msg.ProposalDispatch.
    cbn [Msg.ProposalDispatch Z.eqb Pos.eqb].
    rewrite answer_proposal_draft by (done || unfold is_u32; lia).
    cbn [mbind option_bind]. by rewrite Ep.
  - unfold propose_branch. rewrite E. cbn [result_value mbind option_bind]. rewrite P, D.
    unfold draft_reply, message. cbn [u64_fields u32_fields].
    unfold PR_EPOCH, PR_PROPOSER_BOOT, PR_ATTEMPT, PR_BASE_GEN, PR_PROPOGEN, PR_OUTCOME, PR_TOKENS.
    cbn [lookup list_lookup mbind option_bind].
    rewrite bool_decide_eq_true_2 by (by apply validate_current). cbn [negb Z.eqb].
    change (kOutcomeSuccess :: cr_depth r :: cluster_draft r b)
      with ([kOutcomeSuccess; cr_depth r] ++ cluster_draft r b).
    unfold slice. rewrite drop_app_length' by done. rewrite Ld, Z.ltb_irrefl.
    rewrite take_ge by (unfold zlen in Ld; lia). done.
Qed.

Lemma length_cluster_target r : 0 <= cr_depth r -> zlen (cluster_target r) = cr_depth r.
Proof. intros H. unfold cluster_target. rewrite zlen_target_of. lia. Qed.

Lemma ids_token_of l : ids (map token_of l) = l.
Proof. unfold ids. rewrite map_map. simpl. apply map_id. Qed.

Lemma acceptance_code_verdict i n v :
  acceptance_code (Ok (CpuVerifier.verdict_result i n v)) = verdict_code n (accepted_prefix v).
Proof. reflexivity. Qed.

(** What a verifier worker answers to a dispatch. *)
Lemma answer_verification_judged reqid b boot toks r :
  wire_ok r -> zlen toks = cr_depth r ->
  answer_verification (verification_dispatch reqid b boot toks r) =
  Some (judged_reply reqid b toks r).
Proof.
  intros W Lt. destruct W as [_ _ _ _ _ _ Wd _ _ _]. unfold answer_verification.
  destruct (dispatch_candidate (verification_dispatch reqid b boot toks r)) as [inp |] eqn:D;
    unfold dispatch_candidate, verification_dispatch, message, slice in D;
    cbn [u64_fields u32_fields lookup list_lookup app VD_STATE_ID VD_STATE_GEN VD_BASE_GEN VD_EPOCH
      VD_REQUEST VD_SEQUENCE VD_ATTEMPT VD_DISPATCH VD_PROPOSER_BOOT VD_PROPOSER_REV VD_TOKENIZER
      VD_VOCAB VD_LEN VD_TOKENS mbind option_bind drop] in D;
    rewrite drop_0, Lt, Z.ltb_irrefl in D; cbn [mbind option_bind] in D; [| discriminate D].
  rewrite take_ge in D by (unfold zlen in Lt; lia). injection D as D.
  assert (Cd : vi_candidate inp = mkCandidate (map token_of toks)) by (by subst inp).
  assert (Sz : cand_size (vi_candidate inp) = cr_depth r)
    by (rewrite Cd; unfold cand_size; cbn [tokens]; by rewrite zlen_map).
  assert (J : judged inp)
    by (split; [lia | by subst inp]).
  assert (Ex : expected_tokens inp = cluster_target r).
  { unfold expected_tokens, cluster_target. rewrite Cd. cbn [tokens]. rewrite length_map.
    unfold CpuVerifier.seed_of. rewrite mix64_shared, Sz.
    replace (length toks) with (Z.to_nat (cr_depth r)) by (unfold zlen in Lt; lia).
    subst inp. unfold cluster_seed, state_base. by destruct (cr_authState r) as [[?] [?]]. }
  cbn [mbind option_bind]. rewrite (verify_judged inp J), Ex, Sz, Cd. cbn [tokens].
  rewrite ids_token_of, acceptance_code_verdict. cbn [accepted_prefix]. done.
Qed.

Lemma verification_wf reqid b boot toks r :
  dispatch_ok reqid b boot r -> zlen toks = cr_depth r -> Forall is_u32 toks ->
  wf_message (verification_dispatch reqid b boot toks r).
Proof.
  intros [[] Hr Hb Hw] Lt Ft. assert (is_u64 1) by in_range.
  assert (is_u32 (cr_depth r)) by (unfold is_u32; lia).
  assert (is_u32 9) by in_range. assert (is_u32 4096) by in_range.
  apply wf_intro; [by vm_compute | fields_in_range | simpl app; fields_in_range; done | constructor |
    by vm_compute | rewrite zlen_app, !zlen_cons, zlen_nil; lia | by vm_compute].
Qed.

Lemma verdict_code_u32 n k : is_u32 (verdict_code n k).
Proof. unfold verdict_code. destruct (CpuVerifier.outcome_of n k); in_range. Qed.

Lemma matched_range r toks :
  wire_ok r -> lcp (cluster_target r) toks <= match_count (cluster_target r) toks <= cr_depth r.
Proof.
  intros [_ _ _ _ _ _ Wd _ _ _]. pose proof (match_count_range (cluster_target r) toks) as R.
  rewrite length_cluster_target in R by lia. exact R.
Qed.

Lemma judged_reply_wf reqid b boot toks r :
  dispatch_ok reqid b boot r -> wf_message (judged_reply reqid b toks r).
Proof.
  intros [W Hr Hb Hw]. pose proof (matched_range r toks W) as M. destruct W.
  pose proof (lcp_nonneg (cluster_target r) toks).
  assert (is_u32 (cr_depth r)) by (unfold is_u32; lia).
  assert (is_u32 (match_count (cluster_target r) toks)) by (unfold is_u32; lia).
  assert (is_u32 (lcp (cluster_target r) toks)) by (unfold is_u32; lia).
  pose proof (verdict_code_u32 (cr_depth r) (match_count (cluster_target r) toks)).
  apply wf_intro; [by vm_compute | fields_in_range | fields_in_range | constructor | | |];
    by rewrite ?zlen_cons, ?zlen_nil.
Qed.

(** The branch a CPU cluster returns for [b]. *)
Definition cluster_branch (r : CReq) (b : Z) : Br :=
  let toks := cluster_draft r b in
  mkBr (u64 (b + 1)) toks (cr_depth r) (match_count (cluster_target r) toks)
    (lcp (cluster_target r) toks) (verdict_code (cr_depth r) (match_count (cluster_target r) toks)).

Lemma cpu_verify_branch reqid b boot r :
  dispatch_ok reqid b boot r ->
  verify_branch worker_peer reqid b boot (cluster_draft r b) r = Some (inr (cluster_branch r b)).
Proof.
  intros K. pose proof K as [W Hr Hb Hw].
  pose proof (length_cluster_draft r b ltac:(destruct W; lia)) as Ld.
  destruct (worker_peer_answers (verification_dispatch reqid b boot (cluster_draft r b) r)
    (judged_reply reqid b (cluster_draft r b) r)) as (payload & q & E & P & D).
  - apply verification_wf; [done | done | apply cluster_draft_u32].
  - by eapply judged_reply_wf.
  - intros p Ep. unfold worker_reply.
    change (type (verification_dispatch reqid b boot (cluster_draft r b) r))
      with Msg.VerificationDispatch.
    cbn [Msg.VerificationDispatch Msg.ProposalDispatch Z.eqb Pos.eqb].
    rewrite answer_verification_judged by done. cbn [mbind option_bind]. by rewrite Ep.
  - unfold verify_branch. rewrite E. cbn [result_value mbind option_bind]. rewrite P, D.
    unfold judged_reply, message. cbn [u64_fields u32_fields].
    unfold VR_EPOCH, VR_ATTEMPT, VR_BASE_GEN, VR_ACCEPTED, VR_FIRST_REJ, VR_OUTCOME.
    cbn [lookup list_lookup mbind option_bind].
    rewrite bool_decide_eq_true_2 by (by apply validate_current). done.
Qed.

(** A branch does not depend on the proposal generation. *)
Lemma cluster_branch_propGen h r b :
  cluster_branch (r <| cr_propGen ::= h |>) b = cluster_branch r b.
Proof. destruct r. unfold cluster_branch, cluster_target, cluster_draft, cluster_seed. done. Qed.

Lemma cpu_branch_loop reqid pboot vboot n : forall b r,
  wire_ok r -> is_u64 reqid -> is_u64 pboot -> is_u64 vboot -> 0 <= b -> b + Z.of_nat n <= 4096 ->
  exists g, branch_loop worker_peer worker_peer reqid pboot vboot n b r =
    Some (inr (map (fun k => cluster_branch r (b + Z.of_nat k)) (seq 0 n)),
          r <| cr_propGen := g |>).
Proof.
  induction n as [| n IH]; intros b r W Hr Hp Hv H0 Hn; cbn [branch_loop].
  { exists (cr_propGen r). by destruct r. }
  set (r1 := r <| cr_propGen ::= fun g => u64 (g + 1) |>).
  assert (W1 : wire_ok r1) by (apply wire_ok_propGen; [done | apply u64_range]).
  rewrite cpu_propose_branch by (constructor; done || lia). cbn [mbind option_bind].
  rewrite cpu_verify_branch by (constructor; done || lia). cbn [mbind option_bind].
  destruct (IH (b + 1) r1 W1 Hr Hp Hv ltac:(lia) ltac:(lia)) as [g ->].
  cbn [mbind option_bind]. exists g.
  assert (El : map (fun k => cluster_branch r (b + Z.of_nat k)) (seq 0 (S n)) =
               cluster_branch r1 b ::
               map (fun k => cluster_branch r1 (b + 1 + Z.of_nat k)) (seq 0 n)).
  { cbn [seq map]. rewrite <- seq_shift, map_map. unfold r1.
    rewrite cluster_branch_propGen, Z.add_0_r. apply (f_equal (cons _)), map_ext. intros k.
    rewrite cluster_branch_propGen.
    by replace (b + Z.of_nat (S k)) with (b + 1 + Z.of_nat k) by lia. }
  by rewrite El.
Qed.

(** How much of a branch's draft is accepted. *)
Lemma cluster_branch_accepted r b :
  wire_ok r -> 0 <= b < 4095 ->
  Z.min (cr_aligned r) (cr_depth r) <= b_accepted (cluster_branch r b) <= cr_depth r /\
  take (Z.to_nat (Z.min (cr_aligned r) (cr_depth r))) (cluster_draft r b) =
    take (Z.to_nat (Z.min (cr_aligned r) (cr_depth r))) (cluster_target r) /\
  (cr_depth r <= cr_aligned r -> cluster_draft r b = cluster_target r).
Proof.
  intros W Hb. pose proof (matched_range r (cluster_draft r b) W) as M.
  destruct W as [_ _ _ _ _ _ Wd _ Wa _]. unfold is_u32 in Wa.
  assert (L : lcp (cluster_target r) (cluster_draft r b) = Z.min (cr_aligned r) (cr_depth r)).
  { unfold cluster_target, cluster_draft. rewrite lcp_target_of by lia.
    rewrite draft_reach_perturbed; [lia |]. unfold kSyntheticVocab. rewrite Z.mod_small; lia. }
  split; [cbn [b_accepted cluster_branch]; lia |]. split.
  - rewrite <- L. symmetry. apply lcp_take.
  - intros Ha. unfold cluster_draft, cluster_target. apply draft_target_of.
    apply draft_reach_aligned. lia.
Qed.

(** The request a submission starts from. *)
Definition fresh_request (reqid depth branches aligned : Z) (epoch : CoordinatorEpoch)
    (r : CReq) : CReq :=
  (submitted_request reqid epoch r)
    <| cr_depth := depth |> <| cr_branches := branches |> <| cr_aligned := aligned |>.

Lemma fresh_request_wire reqid depth branches aligned epoch r :
  is_u64 reqid -> 1 <= depth <= 61 -> 1 <= branches <= 4095 -> is_u32 aligned ->
  is_u64 (get epoch) -> wire_ok (fresh_request reqid depth branches aligned epoch r).
Proof.
  intros Hr Hd Hb Ha He. constructor; cbn; try done; try apply u64_range; try in_range; lia.
Qed.

(** What the cycle of a submission to CPU workers does. *)
Lemma cluster_drive reqid depth branches aligned pboot vboot epoch old :
  is_u64 reqid -> 1 <= depth <= 61 -> 1 <= branches <= 4095 -> is_u32 aligned ->
  is_u64 (get epoch) -> is_u64 pboot -> is_u64 vboot ->
  let start := fresh_request reqid depth branches aligned epoch old in
  exists b rest r', 0 <= b < 4095 /\
    drive_cycle worker_peer worker_peer reqid pboot vboot epoch depth branches aligned
      (submitted_request reqid epoch old) = Some ("ok:" +:+ rest, r') /\
    cr_committed r' = take (Z.to_nat (b_accepted (cluster_branch start b))) (cluster_draft start b) /\
    cr_authGen r' = mkId (u64 (b_accepted (cluster_branch start b))).
Proof.
  intros Hr Hd Hb Ha He Hp Hv start.
  assert (W : wire_ok start) by (by apply fresh_request_wire).
  destruct (cpu_branch_loop reqid pboot vboot (Z.to_nat branches) 0
    start W Hr Hp Hv ltac:(lia) ltac:(lia)) as [g L].
  set (brs := map _ _) in L.
  destruct (winner brs) as [win |] eqn:Wi.
  2: { exfalso. unfold brs in Wi. by destruct (Z.to_nat branches) eqn:E; [lia | discriminate]. }
  pose proof (winner_spec brs win Wi) as [I _]. unfold brs in I.
  apply list_elem_of_In, in_map_iff in I as (k & <- & I%in_seq).
  set (b := 0 + Z.of_nat k) in *.
  destruct (cluster_branch_accepted start b W ltac:(lia)) as (A & _).
  pose proof (length_cluster_draft start b ltac:(destruct W; lia)) as Ld.
  exists b. unfold drive_cycle. cbv zeta.
  match goal with |- context [branch_loop _ _ _ _ _ _ _ ?r] => replace r with start by done end.
  rewrite L. cbn [mbind option_bind]. rewrite Wi. cbn [mbind option_bind]. unfold commit_winner.
  assert (S : slice 0 (b_accepted (cluster_branch start b)) (b_toks (cluster_branch start b)) =
              Some (take (Z.to_nat (b_accepted (cluster_branch start b))) (cluster_draft start b))).
  { unfold slice. rewrite drop_0. cbn [b_toks cluster_branch].
    rewrite (proj2 (Z.ltb_ge _ _)) by lia. done. }
  rewrite S. cbn [mbind option_bind]. eexists _, _. split; [lia |]. split; [reflexivity |].
  split; [done |]. cbn [cr_authGen]. done.
Qed.

(** C28: a submission to CPU workers commits.  With a proposer and a verifier
    worker behind the wire, a submission of depth 1 to 61 - what fits the 64
    fields of a verification dispatch - and up to 4095 branches is answered by
    the encoding of one [Commit]: the request's identifier, its generation and
    its committed length, which agree.  The committed tokens are at least the
    aligned part of the draft and begin with the target's own tokens, and a
    draft aligned throughout commits exactly the target sequence. *)
Theorem cluster_submit_commits reqid depth branches aligned co :
  is_u64 reqid -> 1 <= depth <= 61 -> 1 <= branches <= 4095 -> is_u32 aligned ->
  is_u64 (get (co_epoch co)) -> is_u64 (co_proposerBoot co) -> is_u64 (co_verifierBoot co) ->
  exists request reply n r co',
    encode (message Msg.SubmitRequest [reqid] [depth; branches; aligned] []) = Ok request /\
    encode (message Msg.Commit [reqid; n; n] [] []) = Ok reply /\
    on_driver worker_peer worker_peer request co = Some ([reply], co', true) /\
    co_requests co' = <[reqid := r]> (co_requests co) /\
    let target := cluster_target (fresh_request reqid depth branches aligned (co_epoch co)
                                    CReq_default) in
    let sure := Z.min aligned depth in
    sure <= n <= depth /\ zlen (cr_committed r) = n /\ get (cr_authGen r) = n /\
    take (Z.to_nat sure) (cr_committed r) = take (Z.to_nat sure) target /\
    (depth <= aligned -> cr_committed r = target).
Proof.
  intros Hr Hd Hb Ha He Hp Hv. set (old := default CReq_default (co_requests co !! reqid)).
  destruct (cluster_drive reqid depth branches aligned (co_proposerBoot co) (co_verifierBoot co)
    (co_epoch co) old Hr Hd Hb Ha He Hp Hv) as (b & rest & r & Hk & D & Cm & Gn).
  set (start := fresh_request reqid depth branches aligned (co_epoch co) old) in *.
  assert (W : wire_ok start) by (by apply fresh_request_wire).
  destruct (cluster_branch_accepted start b W Hk) as (A & T & F).
  pose proof (length_cluster_draft start b ltac:(destruct W; lia)) as Ld.
  change (cr_aligned start) with aligned in *. change (cr_depth start) with depth in *.
  set (n := b_accepted (cluster_branch start b)) in *. unfold is_u32 in Ha.
  assert (Ln : zlen (cr_committed r) = n) by (rewrite Cm, zlen_take; lia).
  rewrite u64_small in Gn by (unfold is_u64; lia).
  assert (U : is_u64 n) by (unfold is_u64; lia).
  destruct (decode_encode (message Msg.SubmitRequest [reqid] [depth; branches; aligned] []))
    as (request & Eq & Dq).
  { assert (is_u32 depth) by (unfold is_u32; lia). assert (is_u32 branches) by (unfold is_u32; lia).
    assert (is_u32 aligned) by done.
    by apply wf_intro; try fields_in_range; vm_compute. }
  destruct (decode_encode (message Msg.Commit [reqid; n; n] [] [])) as (reply & Er & _).
  { by apply wf_intro; try fields_in_range; vm_compute. }
  exists request, reply, n, r, (co <| co_requests ::= insert reqid r |>).
  split; [exact Eq |]. split; [exact Er |]. split.
  - unfold on_driver. rewrite Dq. cbn [message type].
    cbn [Msg.SubmitRequest Msg.Shutdown Msg.ProposalResult Z.eqb Pos.eqb].
    unfold on_submit. cbn [message u64_fields u32_fields lookup list_lookup mbind option_bind].
    fold old. rewrite D. cbn [mbind option_bind]. rewrite prefix_ok, Gn, Ln. cbn [get].
    by rewrite Er.
  - split; [done |]. cbv zeta.
    change (cluster_target (fresh_request reqid depth branches aligned (co_epoch co) CReq_default))
      with (cluster_target start).
    rewrite Gn. split; [lia |]. split; [exact Ln |]. split; [done |]. rewrite Cm. split.
    + rewrite take_take, Nat.min_l by lia. exact T.
    + intros Hal. rewrite take_ge by (unfold zlen in Ld; lia). by apply F.
Qed.
End Workers.

(** Rolling the epoch fences nothing already submitted.  The command
    [rollEpoch] advances the coordinator's epoch, but results are validated
    against the epoch stored with the request: every replayed result gets the
    very verdict it would have got before, so one that carries the old epoch
    and is otherwise current is still not rejected. *)
Theorem roll_epoch_fences_nothing co :
  let co' := (on_command (bytes_of_string "rollEpoch") co).2 in
  get (co_epoch co') = (get (co_epoch co) + 1) mod 18446744073709551616 /\
  (forall m, on_replay m co' = on_replay m co) /\
  (forall r m, first_request co = Some r ->
     u64_fields m !! PR_EPOCH = Some (get (cr_epoch r)) ->
     u64_fields m !! PR_PROPOSER_BOOT = Some (co_proposerBoot co) ->
     u64_fields m !! PR_ATTEMPT = Some (get (cr_attempt r)) ->
     u64_fields m !! PR_BASE_GEN = Some (get (cr_authGen r)) ->
     u64_fields m !! PR_PROPOGEN = Some (cr_propGen r) ->
     on_replay m co' = Some (text Msg.Info "no_rejection")).
Proof.
  cbv zeta. unfold on_command. rewrite bool_decide_eq_true_2 by done. cbn [snd].
  split; [cbn [co_epoch get]; apply u64_mod |].
  assert (R : forall m, on_replay m (co <| co_epoch ::= fun e => mkId (u64 (get e + 1)) |>) =
                        on_replay m co) by reflexivity.
  split; [exact R |]. intros r m F E W A G P. rewrite R. unfold on_replay.
  rewrite F, E, W, A, G, P. cbn [mbind option_bind].
  by rewrite (proj2 (validate_current r _ _ _ _ _ _)).
Qed.

(** ** Witnesses *)

(** A coordinator with both workers connected. *)
Definition ready_coordinator : Coordinator :=
  start_work (startup_hello 7 (Ok (message Msg.Hello [12345] [kRoleDriver] []))
    (startup_hello 6 (Ok (worker_hello "verifier" 200))
      (startup_hello 5 (Ok (worker_hello "proposer" 100)) new_coordinator))).

Lemma cluster_submit_commits_witness :
  exists request reply co',
    on_driver worker_peer worker_peer request ready_coordinator = Some ([reply], co', true).
Proof.
  destruct (cluster_submit_commits 42 5 1 5 ready_coordinator) as (request & reply & n & r & co' &
    _ & _ & E & _); [in_range | lia | lia | in_range | in_range | in_range | in_range |].
  by exists request, reply, co'.
Defined.

Lemma drive_cycle_correct_witness :
  exists res r',
    drive_cycle worker_peer worker_peer 42 100 200 (mkId 1) 5 1 5
      (submitted_request 42 (mkId 1) CReq_default) = Some (res, r') /\
    cr_epoch r' = mkId 1.
Proof.
  destruct (cluster_drive 42 5 1 5 100 200 (mkId 1) CReq_default) as (b & rest & r' & _ & D & _);
    [in_range | lia | lia | in_range | in_range | in_range | in_range |].
  exists ("ok:" +:+ rest), r'. split; [exact D |].
  apply (drive_cycle_correct _ _ _ _ _ _ _ _ _ _ _ _ D).
Defined.
