(* ===== verification/Sessions.v ===== *)
(** * The life of the coordinator

    Every state the coordinator process can be in: the startup connections,
    then driver payloads, new connections and the end of driver connections in
    any order, with workers that answer anything.  What holds of the requests
    it keeps in each of them, what its replies say, and what its stale probes
    are answered. *)

From Stdlib Require Import Relations.
From stdpp Require Import gmap sorting.
From S2P Require Import Prelude Errors Ids Data Bytes Wire Worker Coordinator Cluster.

(** ** The states *)

(** What workers send is bytes. *)
Definition peer_octets (p : Peer) : Prop := forall payload fr, p payload = Replied fr -> octets fr.

Inductive startup_step (co : Coordinator) : Coordinator -> Prop :=
| startup_connect c p : octets p -> startup_step co (startup_hello c (decode p) co).

Inductive session_step (co : Coordinator) : Coordinator -> Prop :=
| session_payload proposer verifier p sent co' go :
    octets p -> peer_octets proposer -> peer_octets verifier ->
    on_driver proposer verifier p co = Some (sent, co', go) -> session_step co co'
| session_connect c p : octets p -> session_step co (drain_hello c (decode p) co).1
| session_gone : session_step co (driver_gone co).

(** The states of a coordinator that became ready. *)
Definition session (co : Coordinator) : Prop :=
  exists co0, rtc startup_step new_coordinator co0 /\ all_connected co0 = true /\
    rtc session_step (start_work co0) co.

(** ** The invariant *)

Record request_ok (reqid : Z) (r : CReq) : Prop := {
  ro_key : is_u64 reqid;
  ro_id : cr_id r = mkId reqid;
  ro_seq : cr_seq r = mkId (u64 (reqid + 1));
  ro_attempt : cr_attempt r = mkId 1;
  ro_generation : cr_authGen r = mkId (zlen (cr_committed r));
  ro_state : cr_authState r =
    mkStateRef (mkId (u64 (reqid * 0x9E3779B97F4A7C15))) (mkId (zlen (cr_committed r)));
  ro_state_gen : cr_stateGen r = mkId (zlen (cr_committed r));
  ro_tokens : Forall is_u32 (cr_committed r);
  ro_depth : is_u32 (cr_depth r) /\ zlen (cr_committed r) <= cr_depth r;
  ro_branches : is_u32 (cr_branches r) /\ 0 <= cr_propGen r <= cr_branches r;
  ro_aligned : is_u32 (cr_aligned r);
  ro_epoch : is_u64 (get (cr_epoch r))
}.

Record session_ok (co : Coordinator) : Prop := {
  sn_requests : forall reqid r, co_requests co !! reqid = Some r -> request_ok reqid r;
  sn_boots : is_u64 (co_proposerBoot co) /\ is_u64 (co_verifierBoot co) /\
             is_u64 (co_prevProposerBoot co);
  sn_epoch : is_u64 (get (co_epoch co))
}.

(** The request a payload submits. *)
Definition submits (p : bytes) (reqid : Z) : Prop :=
  exists m, decode p = Ok m /\ type m = Msg.SubmitRequest /\ u64_fields m !! 0%nat = Some reqid.

(** ** Lemmas: the cycle of a submission *)

Lemma decode_wf p m : octets p -> decode p = Ok m -> wf_message m.
Proof. intros O D. by apply decode_ok_inv in D as []. Qed.

Lemma field_u32 m i x : wf_message m -> u32_fields m !! i = Some x -> is_u32 x.
Proof. intros W L. by apply (Forall_lookup_1 _ _ _ _ (wf_u32 m W) L). Qed.

Lemma field_u64 m i x : wf_message m -> u64_fields m !! i = Some x -> is_u64 x.
Proof. intros W L. by apply (Forall_lookup_1 _ _ _ _ (wf_u64 m W) L). Qed.

(** A branch as validated: as many tokens as the depth, everything in range. *)
Record branch_range (depth : Z) (br : Br) : Prop := {
  bg_tokens : zlen (b_toks br) = depth /\ Forall is_u32 (b_toks br);
  bg_accepted : is_u32 (b_accepted br)
}.

(** The request after one more dispatch. *)
Definition dispatched (r : CReq) : CReq := r <| cr_propGen ::= fun g => u64 (g + 1) |>.

(** What a loop over [n] branches leaves: the request with its dispatches
    counted, and a failure or branches in range. *)
Record loop_left (n : nat) (r : CReq) (res : string + list Br) (r' : CReq) : Prop := {
  ll_same : same_but_propGen r r';
  ll_propGen : 0 <= cr_propGen r -> cr_propGen r + Z.of_nat n < 18446744073709551616 ->
    cr_propGen r <= cr_propGen r' <= cr_propGen r + Z.of_nat n;
  ll_result : match res with
              | inl why => String.prefix "ok:" why = false
              | inr brs => Forall (branch_range (cr_depth r)) brs
              end
}.

Lemma loop_left_nil r : loop_left 0 r (inr []) r.
Proof. constructor; [exists (cr_propGen r); by destruct r | lia | constructor]. Qed.

Lemma loop_left_stop n r why : String.prefix "ok:" why = false ->
  loop_left (S n) r (inl why) (dispatched r).
Proof.
  intros P. constructor; [by eexists | | done]. intros H0 Hn. unfold dispatched. simpl.
  rewrite u64_small by (unfold is_u64; lia). lia.
Qed.

Lemma loop_left_next n r br rest r' :
  branch_range (cr_depth r) br -> loop_left n (dispatched r) rest r' ->
  loop_left (S n) r (match rest with inl why => inl why | inr brs => inr (br :: brs) end) r'.
Proof.
  intros B [[g ->] G L]. constructor.
  - by exists g.
  - intros H0 Hn. unfold dispatched in G. simpl in G. rewrite u64_small in G by (unfold is_u64; lia).
    simpl. specialize (G ltac:(lia) ltac:(lia)). lia.
  - destruct rest; [done |]. by constructor.
Qed.

(** The numbers of a submission are in range. *)
Record submission_range (reqid : Z) (epoch : CoordinatorEpoch) (depth branches aligned : Z) : Prop := {
  sb_reqid : is_u64 reqid;
  sb_depth : is_u32 depth;
  sb_branches : is_u32 branches;
  sb_aligned : is_u32 aligned;
  sb_epoch : is_u64 (get epoch)
}.

(** The request [drive_cycle] starts a submission with. *)
Definition starting (reqid : Z) (epoch : CoordinatorEpoch) (depth branches aligned : Z) (old : CReq)
  : CReq :=
  (submitted_request reqid epoch old) <| cr_depth := depth |> <| cr_branches := branches |>
    <| cr_aligned := aligned |> <| cr_epoch := epoch |>.

(** A submission whose loop failed, or whose winner is committed. *)
Lemma left_ok reqid epoch depth branches aligned old res r' :
  submission_range reqid epoch depth branches aligned ->
  loop_left (Z.to_nat branches) (starting reqid epoch depth branches aligned old) res r' ->
  match res with
  | inl _ => request_ok reqid r'
  | inr brs => forall win r2, winner brs = Some win -> commit_winner win r' = Some r2 ->
      request_ok reqid r2
  end.
Proof.
  intros [Hr Hd Hb Ha He] [(g & ->) G L]. cbn in G. unfold is_u32 in *.
  specialize (G ltac:(lia) ltac:(lia)). destruct res as [why | brs].
  { assert (zlen (@nil Z) = 0) by done.
    constructor; cbn; unfold is_u32; try done; split; lia. }
  intros win r2 [I _]%winner_spec C. unfold commit_winner in C.
  destruct (slice _ _ _) as [toks |] eqn:S; cbn [mbind option_bind] in C; [| discriminate].
  rewrite Forall_forall in L. destruct (L win I) as [[Lt Ft] A]. cbn in Lt.
  apply slice_spec in S as (-> & Hn & Ln). rewrite drop_0 in *. unfold is_u32 in A.
  specialize (Ln ltac:(lia)). injection C as <-.
  assert (U : u64 (0 + b_accepted win) = b_accepted win)
    by (apply u64_small; unfold is_u64; lia).
  constructor; cbn; rewrite ?Ln, ?U; unfold is_u32; try done; try (split; lia).
  by apply Forall_take.
Qed.

Section Cycle.
  Context (proposer verifier : Peer) (reqid pboot vboot : Z).
  Hypotheses (Op : peer_octets proposer) (Ov : peer_octets verifier).
  Implicit Types r : CReq.

Lemma fresh_proposal_tokens b r toks : is_u32 (cr_depth r) ->
  fresh_proposal proposer reqid b pboot r toks -> zlen toks = cr_depth r /\ Forall is_u32 toks.
Proof.
  intros Hd (payload & fr & pr & _ & R & D & _ & _ & _ & _ & _ & _ & S).
  pose proof (decode_wf fr pr (Op _ _ R) D) as W. apply slice_spec in S as (-> & _ & L).
  split; [apply L; unfold is_u32 in Hd; lia |]. apply Forall_take, Forall_drop, (wf_u32 pr W).
Qed.

Lemma fresh_verification_accepted b toks r br :
  fresh_verification verifier reqid b vboot toks r br -> is_u32 (b_accepted br).
Proof.
  intros (payload & fr & vr & _ & R & D & _ & _ & _ & A & _).
  exact (field_u32 vr _ _ (decode_wf fr vr (Ov _ _ R) D) A).
Qed.

(** A draft and its verdict, whatever the peers are. *)
Lemma proposed_range b r toks : is_u32 (cr_depth r) ->
  propose_branch proposer reqid b pboot r = Some (inr toks) ->
  zlen toks = cr_depth r /\ Forall is_u32 toks.
Proof. intros Hd E. apply propose_branch_inv in E. by eapply fresh_proposal_tokens. Qed.

Lemma verified_range b toks r br : zlen toks = cr_depth r -> Forall is_u32 toks ->
  verify_branch verifier reqid b vboot toks r = Some (inr br) -> branch_range (cr_depth r) br.
Proof.
  intros L F E. apply verify_branch_inv in E.
  pose proof (fresh_verification_accepted _ _ _ _ E) as A.
  destruct E as (? & ? & ? & E). decompose [and] E. by constructor; subst.
Qed.

Lemma branch_loop_left n : forall b r res r',
  is_u32 (cr_depth r) -> branch_loop proposer verifier reqid pboot vboot n b r = Some (res, r') ->
  loop_left n r res r'.
Proof.
  induction n as [| n IH]; intros b r res r' Hd; cbn [branch_loop].
  { intros [= <- <-]. apply loop_left_nil. }
  set (r1 := dispatched r).
  destruct (propose_branch _ _ _ _ _) as [[why | toks] |] eqn:P; cbn [mbind option_bind];
    [| | discriminate].
  { intros [= <- <-]. apply loop_left_stop. by apply propose_branch_inv in P. }
  apply proposed_range in P as [Lt Ft]; [| done].
  destruct (verify_branch _ _ _ _ _ _) as [[why | br] |] eqn:V; cbn [mbind option_bind];
    [| | discriminate].
  { intros [= <- <-]. apply loop_left_stop. by apply verify_branch_inv in V. }
  apply verified_range in V; [| done..].
  destruct (branch_loop _ _ _ _ _ n _ _) as [[rest r2] |] eqn:L; cbn [mbind option_bind];
    [| discriminate].
  intros [= <- <-]. apply (loop_left_next n r br rest r2 V). by eapply IH.
Qed.

(** What the cycle of a submission leaves. *)
Lemma submitted_cycle epoch depth branches aligned old res r' :
  submission_range reqid epoch depth branches aligned ->
  drive_cycle proposer verifier reqid pboot vboot epoch depth branches aligned
    (submitted_request reqid epoch old) = Some (res, r') -> request_ok reqid r'.
Proof.
  intros Sr E. unfold drive_cycle in E. cbv zeta in E.
  destruct (branch_loop _ _ _ _ _ _ _ _) as [[l r1] |] eqn:L;
    cbn [mbind option_bind] in E; [| discriminate].
  apply branch_loop_left in L; [| apply Sr].
  pose proof (left_ok reqid epoch depth branches aligned old l r1 Sr L) as K.
  destruct l as [why | brs]; [by injection E as <- <- |].
  destruct (winner brs) as [win |] eqn:W; cbn [mbind option_bind] in E; [| discriminate].
  destruct (commit_winner win r1) as [r2 |] eqn:C; cbn [mbind option_bind] in E; [| discriminate].
  injection E as <- <-. by apply (K win).
Qed.
End Cycle.

(** ** Lemmas: the steps of a session *)

Section Session.
  Implicit Types co : Coordinator.

(** A payload that is no submission leaves the requests and the boots alone. *)
Definition idle_change (co co' : Coordinator) : Prop :=
  co_requests co' = co_requests co /\ co_proposerBoot co' = co_proposerBoot co /\
  co_verifierBoot co' = co_verifierBoot co /\ co_prevProposerBoot co' = co_prevProposerBoot co /\
  is_u64 (get (co_epoch co')).

Lemma idle_session co co' : idle_change co co' -> session_ok co -> session_ok co'.
Proof. intros (E1 & E2 & E3 & E4 & E5) [R B _]. constructor; by rewrite ?E1, ?E2, ?E3, ?E4. Qed.

Lemma on_command_idle body co out co' :
  is_u64 (get (co_epoch co)) -> on_command body co = (out, co') ->
  idle_change co co' /\ forall m, out = Some m -> type m <> Msg.Commit.
Proof.
  intros He. unfold on_command, on_stale_probe, verdict_reply.
  case_bool_decide.
  { intros [= <- <-]. split; [| by intros m [= <-]]. split_and!; try done. apply u64_range. }
  assert (I : idle_change co co) by (by split_and!).
  case_bool_decide.
  { intros [= <- <-]. split; [done |]. intros m E. destruct (first_request co); [| discriminate].
    injection E as <-. by case_bool_decide. }
  case_bool_decide; intros [= <- <-]; (split; [done |]); by intros m [= <-].
Qed.

Lemma on_replay_verdict m co out : on_replay m co = Some out -> type out <> Msg.Commit.
Proof.
  unfold on_replay, verdict_reply. destruct (first_request co); [| by intros [= <-]].
  destruct (_ !! PR_EPOCH); [| discriminate]. destruct (_ !! PR_PROPOSER_BOOT); [| discriminate].
  destruct (_ !! PR_ATTEMPT); [| discriminate]. destruct (_ !! PR_BASE_GEN); [| discriminate].
  destruct (_ !! PR_PROPOGEN); [| discriminate]. cbn [mbind option_bind]. intros [= <-].
  by case_bool_decide.
Qed.

Lemma on_submit_ok proposer verifier m co out co' :
  wf_message m -> peer_octets proposer -> peer_octets verifier -> session_ok co ->
  on_submit proposer verifier m co = Some (out, co') ->
  exists reqid r, u64_fields m !! 0%nat = Some reqid /\ request_ok reqid r /\
    co' = co <| co_requests ::= insert reqid r |> /\
    (type out = Msg.Commit ->
     u64_fields out = [reqid; zlen (cr_committed r); zlen (cr_committed r)]).
Proof.
  intros W Op Ov [R _ He]. unfold on_submit.
  destruct (u64_fields m !! 0%nat) as [reqid |] eqn:F; [| discriminate].
  destruct (u32_fields m !! 0%nat) as [depth |] eqn:F0; [| discriminate].
  destruct (u32_fields m !! 1%nat) as [branches |] eqn:F1; [| discriminate].
  destruct (u32_fields m !! 2%nat) as [aligned |] eqn:F2; [| discriminate].
  cbn [mbind option_bind].
  destruct (drive_cycle _ _ _ _ _ _ _ _ _ _) as [[res r] |] eqn:D;
    cbn [mbind option_bind]; [| discriminate].
  apply submitted_cycle in D as Ok_; [| done | done |].
  2: { constructor; [by apply (field_u64 m 0 _ W) | by apply (field_u32 m 0 _ W)
         | by apply (field_u32 m 1 _ W) | by apply (field_u32 m 2 _ W) | exact He]. }
  intros [= <- <-]. exists reqid, r. split_and!; try done.
  destruct (String.prefix "ok:" res); [intros _ | discriminate].
  simpl. by rewrite (ro_generation _ _ Ok_).
Qed.

(** What a payload from the driver does. *)
Definition driver_effect (p : bytes) (co : Coordinator) (sent : list bytes) (co' : Coordinator)
  : Prop :=
  (forall reqid, co_requests co' !! reqid <> co_requests co !! reqid -> submits p reqid) /\
  (forall reply, reply ∈ sent -> exists out, encode out = Ok reply /\
     (type out = Msg.Commit ->
      exists reqid r, submits p reqid /\ co_requests co' !! reqid = Some r /\
        u64_fields out = [reqid; zlen (cr_committed r); zlen (cr_committed r)])).

Lemma idle_effect p co co' sent out :
  idle_change co co' -> (forall reply, reply ∈ sent -> encode out = Ok reply) ->
  type out <> Msg.Commit -> driver_effect p co sent co'.
Proof.
  intros (E & _) S N. split; [by rewrite E |]. intros reply I. exists out.
  split; [by apply S | done].
Qed.

Lemma on_driver_ok proposer verifier p co sent co' go :
  octets p -> peer_octets proposer -> peer_octets verifier -> session_ok co ->
  on_driver proposer verifier p co = Some (sent, co', go) ->
  session_ok co' /\ driver_effect p co sent co'.
Proof.
  intros O Op Ov K. unfold on_driver. cbv zeta.
  assert (I : idle_change co co) by (destruct K; by split_and!).
  assert (Q : driver_effect p co [] co) by (split; [done |]; intros ? ?%elem_of_nil; done).
  assert (S : forall out q co', encode out = Ok q -> idle_change co co' -> type out <> Msg.Commit ->
            session_ok co' /\ driver_effect p co [q] co').
  { intros out q co1 E J N. split; [by eapply idle_session |]. eapply idle_effect; [done | | exact N].
    by intros reply ->%list_elem_of_singleton. }
  destruct (decode p) as [m |] eqn:D; [| by intros [= <- <- <-]].
  destruct (type m =? Msg.Shutdown); [by intros [= <- <- <-] |].
  destruct (type m =? Msg.ProposalResult).
  { destruct (on_replay m co) as [out |] eqn:R; cbn [mbind option_bind]; [| discriminate].
    destruct (encode out) as [q |] eqn:E; [| discriminate]. intros [= <- <- <-].
    apply (S out); [done | done | by eapply on_replay_verdict]. }
  destruct (Z.eqb_spec (type m) Msg.SubmitRequest) as [T |].
  { destruct (on_submit _ _ m co) as [[out co1] |] eqn:R; cbn [mbind option_bind]; [| discriminate].
    destruct (encode out) as [q |] eqn:E; [| discriminate]. intros [= <- <- <-].
    apply on_submit_ok in R as (reqid & r & F & Ok_ & -> & C); [| by eapply decode_wf | done..].
    assert (Sb : submits p reqid) by (by exists m). destruct K as [R B He]. split.
    - constructor; [| done | done]. intros id r0. simpl. rewrite lookup_insert_Some.
      intros [[<- <-] | [_ L]]; [done | by apply R].
    - split.
      + intros id. simpl. destruct (decide (id = reqid)) as [-> | N]; [done |].
        by rewrite lookup_insert_ne.
      + intros reply ->%list_elem_of_singleton. exists out. split; [done |]. intros Tc.
        exists reqid, r. split_and!; [done | simpl; by rewrite lookup_insert_eq | by apply C]. }
  destruct (type m =? Msg.Info); [| by intros [= <- <- <-]].
  destruct (on_command (body m) co) as [out co1] eqn:R.
  apply on_command_idle in R as [J N]; [| apply K]. destruct out as [out |].
  - destruct (encode out) as [q |] eqn:E; [| discriminate]. intros [= <- <- <-].
    apply (S out); [done | done | by apply N].
  - intros [= <- <- <-]. split; [by eapply idle_session |].
    eapply (idle_effect _ _ _ _ (message Msg.Null [] [] [])); [done | by intros ? ?%elem_of_nil | done].
Qed.

Lemma first_or_zero_u64 l : Forall is_u64 l -> is_u64 (first_or_zero l).
Proof. intros F. destruct l; [done |]. by inversion F. Qed.

Lemma startup_ok co co' : startup_step co co' -> session_ok co -> session_ok co'.
Proof.
  intros [c p O] K. unfold startup_hello. destruct (decode p) as [h |] eqn:D; [| done].
  pose proof (first_or_zero_u64 _ (wf_u64 h (decode_wf _ _ O D))). destruct K as [R (B1 & B2 & B3) E].
  destruct (negb _); [done |]. destruct (_ =? kRoleProposer); [by constructor |].
  destruct (_ =? kRoleVerifier); [by constructor |]. by destruct (_ =? kRoleDriver).
Qed.

Lemma drain_ok c p co : octets p -> session_ok co -> session_ok (drain_hello c (decode p) co).1.
Proof.
  intros O K. unfold drain_hello. destruct (decode p) as [h |] eqn:D; [| done].
  pose proof (first_or_zero_u64 _ (wf_u64 h (decode_wf _ _ O D))). destruct K as [R (B1 & B2 & B3) E].
  destruct (negb _); [done |]. destruct (_ =? kRoleProposer); [by constructor |].
  destruct (_ =? kRoleVerifier); [by constructor |]. by destruct (_ && _).
Qed.

Lemma new_coordinator_ok : session_ok new_coordinator.
Proof. constructor; [| by split_and! | done]. intros reqid r. simpl. by rewrite lookup_empty. Qed.

Lemma session_invariant co : session co -> session_ok co.
Proof.
  intros (co0 & S & _ & R). assert (K : session_ok (start_work co0)).
  { assert (K0 : session_ok co0).
    { pose proof new_coordinator_ok as K. induction S as [| x y z E _ IH]; [done |].
      by eapply IH, startup_ok. }
    destruct K0 as [Q (B1 & B2 & B3) E]. by constructor. }
  induction R as [| x y z E _ IH]; [done |]. apply IH.
  destruct E as [pr ve p sent co' go Op Opr Ove D | c p Op |].
  - by apply on_driver_ok in D as [].
  - by apply drain_ok.
  - destruct K. by constructor.
Qed.

(** C14: The coordinator keeps its requests consistent.  In every state its
    process can reach - any startup connections, then driver payloads, new
    connections and lost drivers in any order, with workers that answer any
    bytes whatever - every request it holds is filed under its identifier with
    the sequence and state derived from it, attempt 1, both generations equal
    to the number of committed tokens, no more tokens than its depth and no
    more dispatches than its branches.  A payload changes only the request it
    submits, and every [Commit] reply reports the generation and length of the
    request as it is held afterwards. *)
Theorem coordinator_session_correct co : session co ->
  (forall reqid r, co_requests co !! reqid = Some r -> request_ok reqid r) /\
  (forall proposer verifier p sent co' go,
     octets p -> peer_octets proposer -> peer_octets verifier ->
     on_driver proposer verifier p co = Some (sent, co', go) -> driver_effect p co sent co').
Proof.
  intros S%session_invariant. split; [apply S |].
  intros proposer verifier p sent co' go O Op Ov E. by apply on_driver_ok in E as [].
Qed.
End Session.

(** ** The stale probes *)

Section Probes.
  Implicit Types r : CReq.

Lemma shifted_u64 x d : is_u64 x -> 0 < d < 18446744073709551616 -> u64 (x + d) <> x.
Proof. unfold is_u64. rewrite u64_mod. intros. zdm. Qed.

Lemma validate_first r e w a g p boot :
  validate_authority r e w a g p boot =
    if decide (e <> get (cr_epoch r)) then kReasonStaleEpoch
    else if decide (w <> boot) then kReasonStaleBoot
    else if decide (a <> get (cr_attempt r)) then kReasonStaleAttempt
    else if decide (g <> get (cr_authGen r)) then kReasonWrongBase
    else if decide (p <> cr_propGen r) then kReasonStaleGeneration
    else EmptyString.
Proof.
  unfold validate_authority. repeat (case_ztest; simpl negb; cbv iota); repeat case_decide; tauto.
Qed.

Lemma first_request_lookup co r : first_request co = Some r ->
  exists reqid, co_requests co !! reqid = Some r.
Proof.
  unfold first_request, requests_in_order. destruct (merge_sort _ _) as [| [k r'] l] eqn:E;
    [discriminate |]. intros [= ->]. exists k. apply elem_of_map_to_list.
  rewrite <- (merge_sort_Permutation key_before). rewrite E. apply list_elem_of_here.
Qed.

(** C15: Every stale identity is rejected for its own reason.  In every state
    the coordinator can reach and for the request it probes, a result that
    differs from the current one only in its epoch, worker boot, attempt,
    proposal generation or base generation is rejected with exactly that
    reason; one from the boot before the last reconnection is rejected as a
    stale boot, unless the worker came back under the same boot; and one that
    differs in nothing is not rejected. *)
Theorem stale_probes_rejected co r : session co -> first_request co = Some r ->
  on_stale_probe "epoch" r co = text Msg.Reject kReasonStaleEpoch /\
  on_stale_probe "boot" r co = text Msg.Reject kReasonStaleBoot /\
  on_stale_probe "attempt" r co = text Msg.Reject kReasonStaleAttempt /\
  on_stale_probe "generation" r co = text Msg.Reject kReasonStaleGeneration /\
  on_stale_probe "base" r co = text Msg.Reject kReasonWrongBase /\
  on_stale_probe "prevBoot" r co =
    (if decide (co_prevProposerBoot co = co_proposerBoot co) then text Msg.Info "no_rejection"
     else text Msg.Reject kReasonStaleBoot) /\
  (forall kind, kind ∉ ["epoch"; "boot"; "attempt"; "generation"; "base"; "prevBoot"] ->
     on_stale_probe kind r co = text Msg.Info "no_rejection").
Proof.
  intros S%session_invariant F. apply first_request_lookup in F as [reqid L].
  destruct S as [R (B & _ & _) _]. pose proof (R _ _ L) as K.
  pose proof (ro_epoch _ _ K) as He. pose proof (ro_attempt _ _ K) as Ha.
  destruct (ro_branches _ _ K) as [Hb Hp]. destruct (ro_depth _ _ K) as [Hd Hc].
  pose proof (ro_generation _ _ K) as Hg. pose proof (zlen_nonneg (cr_committed r)).
  unfold is_u32 in *.
  assert (E1 : u64 (get (cr_epoch r) - 1) <> get (cr_epoch r))
    by (unfold is_u64 in He; rewrite u64_mod; zdm).
  assert (E2 : u64 (co_proposerBoot co + 9999) <> co_proposerBoot co) by (by apply shifted_u64).
  assert (E3 : u64 (get (cr_attempt r) + 7) <> get (cr_attempt r)) by (by rewrite Ha).
  assert (E4 : u64 (cr_propGen r + 1) <> cr_propGen r)
    by (apply shifted_u64; unfold is_u64; lia).
  assert (E5 : u64 (get (cr_authGen r) + 5) <> get (cr_authGen r))
    by (rewrite Hg; apply shifted_u64; unfold is_u64; simpl; lia).
  unfold on_stale_probe, verdict_reply. rewrite !validate_first.
  split_and!; try (simpl; by repeat case_decide).
  intros kind N. rewrite !not_elem_of_cons in N. destruct N as (N1 & N2 & N3 & N4 & N5 & N6 & _).
  rewrite (bool_decide_eq_false_2 (kind = "epoch")), (bool_decide_eq_false_2 (kind = "boot")),
    (bool_decide_eq_false_2 (kind = "prevBoot")), (bool_decide_eq_false_2 (kind = "attempt")),
    (bool_decide_eq_false_2 (kind = "generation")), (bool_decide_eq_false_2 (kind = "base")) by done.
  simpl. by repeat case_decide.
Qed.
End Probes.

(** ** A session *)

Lemma encode_octets m p : octets (body m) -> encode m = Ok p -> octets p.
Proof.
  unfold encode. intros O. destruct (negb _); [discriminate |]. destruct (_ || _); [discriminate |].
  match goal with |- Ok ?x = Ok p -> _ => intros E; assert (p = x) as -> by congruence end.
  unfold octets, put_u32. repeat (apply Forall_app; split); try apply le_bytes_u8;
    [apply (put_fields_u8 8) | apply (put_fields_u8 4) | exact O].
Qed.

(** Follows the optional reads of an answer. *)
Ltac reads := repeat match goal with
  | |- @mbind _ _ _ _ _ ?o = _ -> _ => destruct o; cbn [mbind option_bind]; [| discriminate]
  end.

Lemma answer_proposal_shape m out :
  answer_proposal m = Some out -> type out = Msg.ProposalResult /\ body out = [].
Proof. unfold answer_proposal. reads. by intros [= <-]. Qed.

Lemma answer_verification_shape m out :
  answer_verification m = Some out -> type out = Msg.VerificationResult /\ body out = [].
Proof. unfold answer_verification. reads. by intros [= <-]. Qed.

(** What a worker sends is bytes. *)
Lemma worker_peer_octets : peer_octets worker_peer.
Proof.
  intros payload fr. unfold worker_peer, worker_reply. destruct (decode payload) as [m |];
    [| discriminate].
  assert (A : forall out p, body out = [] -> encode out = Ok p -> octets p)
    by (intros out p B; apply encode_octets; rewrite B; constructor).
  destruct (type m =? Msg.ProposalDispatch); [| destruct (type m =? Msg.VerificationDispatch)].
  - destruct (answer_proposal m) as [out |] eqn:An; [| discriminate]. cbn [mbind option_bind].
    destruct (encode out) as [q |] eqn:E; [| discriminate]. intros [= <-].
    by apply (A out), E; eapply answer_proposal_shape.
  - destruct (answer_verification m) as [out |] eqn:An; [| discriminate]. cbn [mbind option_bind].
    destruct (encode out) as [q |] eqn:E; [| discriminate]. intros [= <-].
    by apply (A out), E; eapply answer_verification_shape.
  - discriminate.
Qed.

(** The startup of [ready_coordinator], a submission, and the proposer back
    under another boot. *)
Definition payload_of (m : Message) : bytes := value_or (encode m) [].

(** Octets by evaluation. *)
Definition octets_b (p : bytes) : bool := forallb (fun x => (0 <=? x) && (x <? 256)) p.

Lemma octets_b_ok p : octets_b p = true -> octets p.
Proof.
  unfold octets_b, octets. rewrite forallb_forall. intros F. apply Forall_forall.
  intros x I%list_elem_of_In. specialize (F x I). unfold is_u8.
  apply andb_true_iff in F as [F1 F2]. lia.
Qed.

Definition hello_ok (p : bytes) (m : Message) : bool :=
  octets_b p && bool_decide (result_value (decode p) = Some m).

Lemma hello_ok_spec p m : hello_ok p m = true -> octets p /\ decode p = Ok m.
Proof.
  unfold hello_ok. rewrite andb_true_iff, bool_decide_eq_true. intros [O%octets_b_ok D].
  split; [exact O |]. by destruct (decode p); simpl in D; simplify_eq.
Qed.

Lemma hello_step c m co : hello_ok (payload_of m) m = true ->
  startup_step co (startup_hello c (Ok m) co).
Proof. intros H. apply hello_ok_spec in H as [O D]. rewrite <- D. by constructor. Qed.

Definition driver_hello : Message := message Msg.Hello [12345] [kRoleDriver] [].

Lemma ready_session : session ready_coordinator.
Proof.
  assert (T : hello_ok (payload_of (worker_hello "proposer" 100)) (worker_hello "proposer" 100) &&
    hello_ok (payload_of (worker_hello "verifier" 200)) (worker_hello "verifier" 200) &&
    hello_ok (payload_of driver_hello) driver_hello = true) by (by vm_compute).
  apply andb_true_iff in T as [T H7]. apply andb_true_iff in T as [H5 H6].
  exists (startup_hello 7 (Ok driver_hello)
    (startup_hello 6 (Ok (worker_hello "verifier" 200))
      (startup_hello 5 (Ok (worker_hello "proposer" 100)) new_coordinator))).
  split; [| split; [reflexivity | apply rtc_refl]].
  eapply rtc_l; [exact (hello_step 5 _ _ H5) |]. eapply rtc_l; [exact (hello_step 6 _ _ H6) |].
  eapply rtc_l; [exact (hello_step 7 _ _ H7) |]. apply rtc_refl.
Qed.

(** The coordinator after a submission, with the proposer back under another
    boot. *)
Definition submission : bytes := payload_of (message Msg.SubmitRequest [42] [5; 1; 3] []).

Definition restarted (co : Coordinator) : Coordinator :=
  (drain_hello 8 (decode (payload_of (worker_hello "proposer" 101))) co).1.

Definition probe_test (o : option (list bytes * Coordinator * bool)) : bool :=
  match o with
  | Some (_, co, _) =>
      match first_request (restarted co) with
      | Some r => negb (co_prevProposerBoot (restarted co) =? co_proposerBoot (restarted co)) &&
                  (0 <? zlen (cr_committed r))
      | None => false
      end
  | None => false
  end.

Lemma probe_test_spec o : probe_test o = true ->
  exists sent co go r, o = Some (sent, co, go) /\ first_request (restarted co) = Some r /\
    co_prevProposerBoot (restarted co) <> co_proposerBoot (restarted co) /\ cr_committed r <> [].
Proof.
  destruct o as [[[sent co] go] |]; [| discriminate]. cbn [probe_test].
  destruct (first_request (restarted co)) as [r |] eqn:F; [| discriminate]. intros T.
  apply andb_true_iff in T as [T1 T2]. apply negb_true_iff, Z.eqb_neq in T1. apply Z.ltb_lt in T2.
  exists sent, co, go, r. split_and!; try done. intros N. by rewrite N in T2.
Qed.

Lemma probed_session : exists co r, session co /\ first_request co = Some r /\
  co_prevProposerBoot co <> co_proposerBoot co /\ cr_committed r <> [].
Proof.
  assert (O : octets_b submission && octets_b (payload_of (worker_hello "proposer" 101)) = true)
    by (by vm_compute). apply andb_true_iff in O as [O1%octets_b_ok O2%octets_b_ok].
  assert (T : probe_test (on_driver worker_peer worker_peer submission ready_coordinator) = true)
    by (by vm_compute).
  apply probe_test_spec in T as (sent & co & go & r & E & F & B & N).
  exists (restarted co), r. split_and!; [| done | done | done].
  destruct ready_session as (co0 & S & A & R). exists co0. split_and!; [done | done |].
  etrans; [exact R |]. eapply rtc_l; [| apply rtc_once].
  - eapply session_payload; [exact O1 | apply worker_peer_octets | apply worker_peer_octets | exact E].
  - exact (session_connect co 8 _ O2).
Qed.

Lemma coordinator_session_correct_witness :
  exists co reqid r, session co /\ co_requests co !! reqid = Some r /\ request_ok reqid r /\
    cr_committed r <> [].
Proof.
  destruct probed_session as (co & r & S & F & _ & N).
  destruct (first_request_lookup co r F) as [reqid L]. exists co, reqid, r.
  split_and!; [exact S | exact L | | exact N].
  exact (proj1 (coordinator_session_correct co S) reqid r L).
Defined.

Lemma stale_probes_rejected_witness :
  exists co r, first_request co = Some r /\
    on_stale_probe "prevBoot" r co = text Msg.Reject kReasonStaleBoot.
Proof.
  destruct probed_session as (co & r & S & F & N & _). exists co, r. split; [exact F |].
  destruct (stale_probes_rejected co r S F) as (_ & _ & _ & _ & _ & P & _).
  rewrite P. by case_decide.
Defined.
