(* ===== verification/Driver.v ===== *)
(** * The scenario driver (tools/sf_driver.cpp)

    The driver sends a fixed script of messages and checks every reply.  Here
    is the script as a function of the coordinator it plays against; the
    restart is the new connection between its two halves.  The process around
    it, with the files and polls by which it waits for the restart, is in
    Processes.v. *)

From stdpp Require Import gmap.
From S2P Require Import Prelude Errors Ids Bytes Wire Worker Coordinator Cluster.

(** [body.find(s) != npos]. *)
Fixpoint starts_with (needle hay : bytes) : bool :=
  match needle, hay with
  | [], _ => true
  | x :: needle, y :: hay => (x =? y) && starts_with needle hay
  | _ :: _, [] => false
  end.

Fixpoint contains (needle hay : bytes) : bool :=
  starts_with needle hay ||
  match hay with [] => false | _ :: hay => contains needle hay end.

Definition says (s : string) (reply : Message) : bool :=
  contains (bytes_of_string s) (body reply).

(** A message and the check of its reply. *)
Record Step : Set := mkStep {
  s_message : Message;
  s_expect : Message -> bool
}.

(** [submit] and its expectation: the committed length of the reply. *)
Definition committed_length (reply : Message) : option Z :=
  if type reply =? Msg.Commit then u64_fields reply !! 2%nat else Some 0xFFFFFFFFFFFFFFFF.

Definition submit_step (reqid depth branches aligned expected : Z) : Step :=
  mkStep (message Msg.SubmitRequest [reqid] [depth; branches; aligned] [])
    (fun r => bool_decide (committed_length r = Some expected)).

(** The replay of a result of epoch 0. *)
Definition replay_step : Step :=
  mkStep (message Msg.ProposalResult [0; 0; 1; 0; 0; 0; 0; 999999; 0; 1; 0]
            [kOutcomeSuccess; 5; 1; 2; 3; 4; 5] [])
    (fun r => (type r =? Msg.Reject) && says "stale_epoch" r).

(** [probe]: the body of a [Reject] or [Info] reply. *)
Definition probe_step (kind reason : string) : Step :=
  mkStep (text Msg.Info ("stale:" +:+ kind))
    (fun r => ((type r =? Msg.Reject) || (type r =? Msg.Info)) && says reason r).

Definition roll_step : Step := mkStep (text Msg.Info "rollEpoch") (says "epoch=2").

(** The script up to the restart, and after it. *)
Definition before_restart : list Step :=
  [submit_step 42 5 1 5 5; submit_step 43 6 1 3 3; submit_step 44 5 1 0 0;
   submit_step 45 5 2 2 2].

Definition after_restart : list Step :=
  [replay_step; probe_step "epoch" "stale_epoch"; probe_step "boot" "stale_worker_boot";
   probe_step "prevBoot" "stale_worker_boot"; probe_step "attempt" "stale_attempt";
   probe_step "generation" "stale_generation"; probe_step "base" "wrong_base_generation";
   roll_step; probe_step "epoch" "stale_epoch"; submit_step 46 5 1 5 5;
   mkStep (text Msg.Info "status") (fun _ => true)].

(** The failures of a script against a coordinator; a message that does not
    encode is not sent, and a reply that does not come or decode leaves the
    default message to be checked. *)
Fixpoint play (proposer verifier : Peer) (script : list Step) (co : Coordinator)
  : option (nat * Coordinator) :=
  match script with
  | [] => Some (0%nat, co)
  | s :: script =>
      '(replies, co, _) ←
        match encode (s_message s) with
        | Failed _ => Some ([], co, true)
        | Ok p => on_driver proposer verifier p co
        end;
      let reply :=
        match replies with
        | r :: _ => value_or (decode r) (message Msg.Null [] [] [])
        | [] => message Msg.Null [] [] []
        end in
      '(failures, co) ← play proposer verifier script co;
      Some (((if s_expect s reply then 0 else 1) + failures)%nat, co)
  end.

(** The whole run, the proposer restarting under another boot identity. *)
Definition scenario (proposer verifier : Peer) (restart : Message) (co : Coordinator)
  : option (nat * Coordinator) :=
  '(n, co) ← play proposer verifier before_restart co;
  let co := (drain_hello 8 (Ok restart) co).1 in
  '(m, co) ← play proposer verifier after_restart co;
  Some ((n + m)%nat, co).

(** The distributed scenario passes.  Played against the coordinator with
    CPU workers, the proposer restarting between the two halves, the driver's
    script ends without a failure: full, partial, rejected and multi-branch
    submissions commit 5, 3, 0 and 2 tokens, the stale replay and every stale
    probe - epoch, boot, the boot before the restart, attempt, generation,
    base - is rejected for its own reason, and a submission under the rolled
    epoch commits. *)
Theorem scenario_passes :
  exists co,
    scenario worker_peer worker_peer (worker_hello "proposer" 101) ready_coordinator =
      Some (0%nat, co) /\
    map (fun kv => (kv.1, zlen (cr_committed kv.2))) (requests_in_order co) =
      [(42, 5); (43, 3); (44, 0); (45, 2); (46, 5)] /\
    get (co_epoch co) = 2 /\ co_proposerBoot co = 101.
Proof.
  assert (T : match scenario worker_peer worker_peer (worker_hello "proposer" 101)
                      ready_coordinator with
              | Some (n, co) =>
                  bool_decide (n = 0%nat) &&
                  bool_decide (map (fun kv => (kv.1, zlen (cr_committed kv.2)))
                    (requests_in_order co) = [(42, 5); (43, 3); (44, 0); (45, 2); (46, 5)]) &&
                  (get (co_epoch co) =? 2) && (co_proposerBoot co =? 101)
              | None => false
              end = true) by (by vm_compute).
  destruct (scenario _ _ _ _) as [[n co] |]; [| discriminate].
  rewrite !andb_true_iff, !bool_decide_eq_true, !Z.eqb_eq in T. destruct T as (((-> & T) & E) & B).
  by exists co.
Qed.
