(* ===== verification/Net.v ===== *)
(** * Processes and their sockets (tools/sockutil.h)

    The distributed tools talk to the operating system: they open, bind,
    accept and close sockets, exchange frames, wait, print.  Each such call is
    an event whose answer the system chooses; a process is an interaction tree
    over these events.  Here are the events, the connection helpers of
    sockutil.h, and a program logic for the sockets: a process is safe when,
    whatever the system answers and for as long as it runs and is defined, it
    only uses sockets that are open and only sends encoded messages, in which a
    [Commit] is honest.  The answers the logic allows are restricted in one
    way: handles of sockets are below [2^31] ([fresh]). *)

From stdpp Require Import gmap.
From ITree Require Import ITree.
From Paco Require Import paco.
From S2P Require Import Prelude Errors Bytes Wire.

(** Sequencing of processes, and one call of the operating system. *)
Declare Scope process_scope.
Delimit Scope process_scope with process.
Open Scope process_scope.

Notation "'let!' x ':=' t 'in' k" := (ITree.bind t (fun x => k))
  (at level 10, x pattern, k at level 200) : process_scope.

Notation os := ITree.trigger.

(** ** The events *)

(** [INVALID_SOCKET], the largest [SOCKET]. *)
Definition INVALID_SOCKET : Z := 18446744073709551615.

(** The calls of the operating system.  [SendFrame] and [RecvFrame] are the
    frame helpers, whose loops Sockets.v models; [InetPton] answers the address
    of a host it can parse, [ConnectTo] nothing or an error code, [SelectRead]
    the result of [select] and whether the socket is in its set. *)
Variant netE : Type -> Type :=
| WsaStartup : netE bool
| WsaCleanup : netE unit
| NewSocket : netE Z
| SetReuseAddr (s : Z) : netE unit
| BindLoopback (s port : Z) : netE bool
| ListenOn (s : Z) : netE bool
| InetPton (host : string) : netE (option Z)
| ConnectTo (s address port : Z) : netE (option Z)
| AcceptFrom (s : Z) : netE Z
| CloseSocket (s : Z) : netE unit
| SetNonBlocking (s : Z) (on : bool) : netE unit
| SetRecvTimeout (s ms : Z) : netE unit
| SelectRead (s usec : Z) : netE (Z * bool)
| SendFrame (s : Z) (payload : bytes) : netE bool
| RecvFrame (s : Z) : netE (option bytes)
| LastError : netE Z
| Print (line : string) : netE unit
| Sleep (ms : Z) : netE unit
| GetPid : netE Z
| FileExists (path : string) : netE bool
| RemoveFile (path : string) : netE unit
| WriteFile (path content : string) : netE unit
| Undefined : netE void.

Abbreviation Process := (itree netE).

(** Undefined behaviour: nothing comes after it. *)
Definition undefined {T} : Process T := ITree.bind (os Undefined) (fun v : void => match v with end).

(** A value that may be undefined. *)
Definition defined {T} (o : option T) : Process T :=
  match o with Some x => Ret x | None => undefined end.

(** [(int)s] and [(SOCKET)fd]. *)
Definition to_int (s : Z) : Z :=
  let v := u32 s in if v <? 2147483648 then v else v - 4294967296.

Definition to_socket (fd : Z) : Z := u64 fd.

(** ** The helpers of sockutil.h *)

(** [init] and [cleanup]. *)
Definition init : Process bool := os WsaStartup.
Definition cleanup : Process unit := os WsaCleanup.

(** [listen_port]: the socket or -1, and [err] after. *)
Definition listen_port (port : Z) (err : string) : Process (Z * string) :=
  let! s := os NewSocket in
  if s =? INVALID_SOCKET then Ret (-1, "socket")
  else
    let! _ := os (SetReuseAddr s) in
    let! bound := os (BindLoopback s port) in
    if negb bound then
      let! _ := os (CloseSocket s) in Ret (-1, "bind")
    else
      let! listening := os (ListenOn s) in
      if negb listening then
        let! _ := os (CloseSocket s) in Ret (-1, "listen")
      else Ret (to_int s, err).

(** [connect_port]. *)
Definition connect_port (host : string) (port : Z) (err : string) : Process (Z * string) :=
  let! s := os NewSocket in
  if s =? INVALID_SOCKET then Ret (-1, "socket")
  else
    let! address := os (InetPton host) in
    match address with
    | None => let! _ := os (CloseSocket s) in Ret (-1, "bad host")
    | Some address =>
        let! failed := os (ConnectTo s address port) in
        match failed with
        | Some code => let! _ := os (CloseSocket s) in Ret (-1, "connect " +:+ pretty code)
        | None => Ret (to_int s, err)
        end
    end.

(** [accept_conn]. *)
Definition accept_conn (listener : Z) : Process Z :=
  let! c := os (AcceptFrom (to_socket listener)) in Ret (to_int c).

(** [send_frame] and [recv_frame] on a descriptor. *)
Definition send_frame (fd : Z) (payload : bytes) : Process bool := os (SendFrame (to_socket fd) payload).
Definition recv_frame (fd : Z) : Process (option bytes) := os (RecvFrame (to_socket fd)).
Definition closesocket (fd : Z) : Process unit := os (CloseSocket (to_socket fd)).

(** ** A program logic for sockets *)

(** The sockets a process has open. *)
Abbreviation Sockets := (gset Z).

(** The tools keep a handle in an [int].  A handle that is none turns negative
    and is dropped as an error, or turns into another handle. *)
Lemma wide_handle_dropped s : 2147483648 <= s < 4294967296 -> to_int s < 0.
Proof. intros B. unfold to_int. rewrite u32_small by (unfold is_u32; lia). case_ztest; lia. Qed.

Lemma wide_handle_confused s : 0 <= s < 2147483648 -> to_socket (to_int (4294967296 + s)) = s.
Proof.
  intros B. unfold to_int, to_socket. replace (4294967296 + s) with (s + 1 * 4294967296) by lia.
  rewrite u32_mod, Z.mod_add, Z.mod_small by lia. case_ztest; [| lia].
  apply u64_small. unfold is_u64. lia.
Qed.

(** A socket the system may hand out: not open yet, with a handle of an [int].
    This assumes of the system that it hands out small handles, as it does in
    practice; for larger ones the tools are not safe. *)
Definition fresh (s : Z) (w : Sockets) : Prop := 0 <= s < 2147483648 /\ s ∉ w.

(** A [Commit] names a request and, twice, the number of its tokens: as its
    generation and as their count. *)
Definition honest (m : Message) : Prop :=
  type m = Msg.Commit -> exists reqid n, u64_fields m = [reqid; n; n].

(** The encoding of an honest message. *)
Definition encoded (p : bytes) : Prop := exists m, encode m = Ok p /\ honest m.

(** What a call needs: a socket it is about is open, and what is sent over it
    is an honest message. *)
Definition pre {T} (e : netE T) (w : Sockets) : Prop :=
  match e with
  | SetReuseAddr s | BindLoopback s _ | ListenOn s | ConnectTo s _ _ | AcceptFrom s
  | CloseSocket s | SetNonBlocking s _ | SetRecvTimeout s _ | SelectRead s _ | RecvFrame s => s ∈ w
  | SendFrame s p => s ∈ w /\ encoded p
  | _ => True
  end.

(** What a call may answer and leave open; what is received is bytes. *)
Definition post {T} (e : netE T) : T -> Sockets -> Sockets -> Prop :=
  match e in netE T return T -> Sockets -> Sockets -> Prop with
  | NewSocket | AcceptFrom _ => fun s w w' =>
      s = INVALID_SOCKET /\ w' = w \/ fresh s w /\ w' = {[s]} ∪ w
  | CloseSocket s => fun _ w w' => w' = w ∖ {[s]}
  | WsaCleanup => fun _ _ w' => w' = ∅
  | RecvFrame _ => fun a w w' => w' = w /\ forall p, a = Some p -> octets p
  | _ => fun _ w w' => w' = w
  end.

Section Logic.
  Context {R : Type}.
  Implicit Types Q : R -> Sockets -> Prop.
  Implicit Types t : Process R.

(** One step: a result that satisfies [Q], or a call that may be made and
    whose every answer goes on in [rec]. *)
Inductive safe_gen Q (rec : Process R -> Sockets -> Prop) : itree' netE R -> Sockets -> Prop :=
| safe_gen_ret r w : Q r w -> safe_gen Q rec (RetF r) w
| safe_gen_tau t w : rec t w -> safe_gen Q rec (TauF t) w
| safe_gen_vis T (e : netE T) k w :
    pre e w -> (forall a w', post e a w w' -> rec (k a) w') -> safe_gen Q rec (VisF e k) w.

Definition safe_step Q (rec : Process R -> Sockets -> Prop) t w : Prop :=
  safe_gen Q rec (observe t) w.

Lemma safe_step_mon Q : monotone2 (safe_step Q).
Proof.
  intros t w r r' S L. unfold safe_step in *. inversion S; subst; constructor; auto.
Qed.

(** A process is safe as long as it runs. *)
Definition safe Q t w : Prop := paco2 (safe_step Q) bot2 t w.
End Logic.

#[export] Hint Resolve safe_step_mon : paco.

(** ** The rules of the logic *)

Section Rules.
  Context {R : Type}.
  Implicit Types Q : R -> Sockets -> Prop.

Lemma observe_bind {A} (t : Process A) (k : A -> Process R) :
  observe (ITree.bind t k) =
  match observe t with
  | RetF r => observe (k r)
  | TauF t => TauF (ITree.bind t k)
  | VisF e h => VisF e (fun x => ITree.bind (h x) k)
  end.
Proof. unfold ITree.bind, ITree.subst. simpl. by destruct (observe t). Qed.

(** Only what a process does next matters. *)
Lemma safe_observe Q r (t t' : Process R) w : observe t = observe t' ->
  paco2 (safe_step Q) r t w -> paco2 (safe_step Q) r t' w.
Proof. intros E S. punfold S. pfold. unfold safe_step in *. by rewrite <- E. Qed.

(** Sequencing, also in the middle of a coinductive proof. *)
Lemma safe_bind_upto {A} (Q1 : A -> Sockets -> Prop) Q r (k : A -> Process R) : forall t w,
  safe Q1 t w -> (forall x w', Q1 x w' -> paco2 (safe_step Q) r (k x) w') ->
  paco2 (safe_step Q) r (ITree.bind t k) w.
Proof.
  intros t w S K. revert t w S. pcofix CIH. intros t w S. punfold S. unfold safe_step in S.
  inversion S as [x w1 H E1 E2 | t' w1 H E1 E2 | T e h w1 H1 H2 E1 E2]; subst.
  - apply (safe_observe Q r0 (k x)); [by rewrite observe_bind, <- E1 |].
    eapply paco2_mon; [by apply K | exact CIH0].
  - pfold. unfold safe_step. rewrite observe_bind, <- E1. constructor. right. apply CIH.
    by pclearbot.
  - pfold. unfold safe_step. rewrite observe_bind, <- E1. constructor; [done |].
    intros a w' P. right. apply CIH. specialize (H2 a w' P). by pclearbot.
Qed.

Lemma safe_bind {A} (Q1 : A -> Sockets -> Prop) Q (k : A -> Process R) t w :
  safe Q1 t w -> (forall x w', Q1 x w' -> safe Q (k x) w') -> safe Q (ITree.bind t k) w.
Proof. apply safe_bind_upto. Qed.

Lemma safe_ret Q r w : Q r w -> safe Q (Ret r) w.
Proof. intros H. pfold. by constructor. Qed.

(** A call, then the rest. *)
Lemma safe_os {A} Q (e : netE A) (k : A -> Process R) w :
  pre e w -> (forall a w', post e a w w' -> safe Q (k a) w') -> safe Q (ITree.bind (os e) k) w.
Proof.
  intros P K. pfold. unfold safe_step. rewrite observe_bind. simpl. constructor; [done |].
  intros a w' Pa. left. apply (safe_observe Q bot2 (k a)); [by rewrite observe_bind | by apply K].
Qed.

Lemma safe_undefined Q w : safe Q undefined w.
Proof. apply safe_os; [done |]. intros []. Qed.

Lemma safe_defined Q (o : option R) w : (forall x, o = Some x -> Q x w) -> safe Q (defined o) w.
Proof. intros H. destruct o; [by apply safe_ret, H | apply safe_undefined]. Qed.

Lemma safe_mono Q Q' t w : safe Q t w -> (forall r w, Q r w -> Q' r w) -> safe Q' t w.
Proof.
  intros S L. revert t w S. pcofix CIH. intros t w S. punfold S. pfold. unfold safe_step in *.
  inversion S as [x w1 H E1 E2 | t' w1 H E1 E2 | T e h w1 H1 H2 E1 E2]; subst.
  - constructor. auto.
  - constructor. right. apply CIH. by pclearbot.
  - constructor; [done |]. intros a w' P. right. apply CIH. specialize (H2 a w' P). by pclearbot.
Qed.

(** A loop with an invariant: it may run forever. *)
Lemma safe_iter {S} (I : S -> Sockets -> Prop) Q (body : S -> Process (S + R)) :
  (forall s w, I s w ->
     safe (fun lr w' => match lr with inl s' => I s' w' | inr r => Q r w' end) (body s) w) ->
  forall s w, I s w -> safe Q (ITree.iter body s) w.
Proof.
  intros B. pcofix CIH. intros s w H.
  assert (E : observe (ITree.iter body s) = observe (ITree.bind (body s) (fun lr =>
    match lr with inl l => Tau (ITree.iter body l) | inr r => Ret r end))) by reflexivity.
  apply (safe_observe Q r _ _ w (eq_sym E)). eapply safe_bind_upto; [by apply B |].
  intros [s' | x] w' Hx; pfold; constructor; auto.
Qed.
End Rules.

(** ** The helpers keep the sockets *)

(** A descriptor of an open socket. *)
Definition conn (fd : Z) (w : Sockets) : Prop := 0 <= fd < 2147483648 /\ fd ∈ w.

(** A helper made one connection, or failed and left nothing behind. *)
Definition made (w : Sockets) (fd : Z) (w' : Sockets) : Prop :=
  fd = -1 /\ w' = w \/ (fd ∉ w /\ 0 <= fd < 2147483648 /\ w' = {[fd]} ∪ w).

Lemma to_int_small s : 0 <= s < 2147483648 -> to_int s = s.
Proof.
  intros H. unfold to_int. rewrite u32_small by (unfold is_u32; lia). case_ztest; lia.
Qed.

Lemma to_socket_small fd : 0 <= fd < 2147483648 -> to_socket fd = fd.
Proof. intros H. apply u64_small. unfold is_u64. lia. Qed.

Lemma made_open w fd w' : made w fd w' -> (fd <? 0) = false -> conn fd w'.
Proof. intros [[-> _] | (N & B & ->)] F; [done |]. split; [done | set_solver]. Qed.

Lemma opened_made s w w' :
  s = INVALID_SOCKET /\ w' = w \/ fresh s w /\ w' = {[s]} ∪ w -> made w (to_int s) w'.
Proof.
  intros [[-> ->] | [[B N] ->]]; [by left | right]. by rewrite to_int_small.
Qed.

(** The sockets stay as they are. *)
Definition same {A} (w : Sockets) : A -> Sockets -> Prop := fun _ w' => w' = w.

Lemma safe_same {A R} (Q : R -> Sockets -> Prop) (t : Process A) k w :
  safe (same w) t w -> (forall x, safe Q (k x) w) -> safe Q (ITree.bind t k) w.
Proof. intros S K. eapply safe_bind; [exact S |]. intros x ? ->. apply K. Qed.

Lemma safe_call {A} (e : netE A) w : pre e w -> safe (fun a w' => post e a w w') (os e) w.
Proof.
  intros P. pfold. unfold safe_step. simpl. constructor; [done |].
  intros a w' Pa. left. by apply safe_ret.
Qed.

Lemma safe_quiet {A} (e : netE A) w : pre e w -> (forall a w', post e a w w' -> w' = w) ->
  safe (same w) (os e) w.
Proof. intros P K. eapply safe_mono; [by apply safe_call | exact K]. Qed.

Lemma safe_send_frame fd p w : conn fd w -> encoded p -> safe (same w) (send_frame fd p) w.
Proof.
  intros [B C] E. apply safe_quiet; [cbn [pre]; by rewrite to_socket_small | done].
Qed.

Lemma safe_recv_octets fd w : conn fd w ->
  safe (fun a w' => w' = w /\ forall p, a = Some p -> octets p) (recv_frame fd) w.
Proof.
  intros [B C]. eapply safe_mono; [apply safe_call; cbn [pre]; by rewrite to_socket_small |]. done.
Qed.

Lemma safe_recv_frame fd w : conn fd w -> safe (same w) (recv_frame fd) w.
Proof. intros C. eapply safe_mono; [by apply safe_recv_octets |]. by intros a w' []. Qed.

Lemma safe_closesocket fd w : conn fd w ->
  safe (fun _ w' => w' = w ∖ {[fd]}) (closesocket fd) w.
Proof.
  intros [B C]. eapply safe_mono; [apply safe_call; cbn [pre]; by rewrite to_socket_small |].
  cbn [post]. by rewrite to_socket_small.
Qed.

Lemma safe_print line w : safe (same w) (os (Print line)) w.
Proof. by apply safe_quiet. Qed.

Lemma safe_defined_same {A} (o : option A) w : safe (same w) (defined o) w.
Proof. by apply safe_defined. Qed.

(** The encoding of a message, where it has one. *)
Lemma safe_encode {R} (Q : R -> Sockets -> Prop) m (k : bytes -> Process R) w :
  honest m -> (forall p, encoded p -> safe Q (k p) w) ->
  safe Q (ITree.bind (defined (result_value (encode m))) k) w.
Proof.
  intros N K. eapply safe_bind.
  - apply (safe_defined (fun p w' => w' = w /\ encoded p)). intros p E. split; [done |]. exists m.
    split; [| exact N]. destruct (encode m); simplify_eq/=; done.
  - intros p ? [-> E]. by apply K.
Qed.

Lemma safe_pure {A} (x : A) w : safe (same w) (Ret x) w.
Proof. by apply safe_ret. Qed.

Lemma safe_cleanup w : safe (fun _ w' => w' = ∅) cleanup w.
Proof. eapply safe_mono; [by apply safe_call | done]. Qed.

Lemma safe_accept_conn listener w : conn listener w ->
  safe (made w) (accept_conn listener) w.
Proof.
  intros [B C]. apply safe_os; [cbn [pre]; by rewrite to_socket_small |].
  intros s w' P. by apply safe_ret, opened_made.
Qed.

(** What is left after a failing helper closed its socket. *)
Lemma closed_again (s : Z) (w : Sockets) : s ∉ w -> ({[s]} ∪ w) ∖ {[s]} = w.
Proof. intros N. set_solver. Qed.

Lemma safe_close_failed s w (e : string) : s ∉ w ->
  safe (fun (r : Z * string) w' => made w r.1 w') (let! _ := os (CloseSocket s) in Ret (-1, e))
    ({[s]} ∪ w).
Proof.
  intros N. apply safe_os; [set_solver |]. intros _ ? ->. apply safe_ret. left.
  by rewrite closed_again.
Qed.

Lemma safe_listen_port port err w : safe (fun r w' => made w r.1 w') (listen_port port err) w.
Proof.
  unfold listen_port. apply safe_os; [done |].
  intros s w1 [[-> ->] | [[B N] ->]]; [by apply safe_ret; left |].
  destruct (Z.eqb_spec s INVALID_SOCKET) as [-> |]; [unfold INVALID_SOCKET in B; lia |].
  assert (I : s ∈ ({[s]} ∪ w : Sockets)) by set_solver.
  pose proof (safe_close_failed s w) as C.
  apply safe_os; [done |]. intros _ ? ->. apply safe_os; [done |]. intros bound ? ->.
  destruct bound; [| by apply C]. apply safe_os; [done |]. intros listening ? ->.
  destruct listening; [| by apply C]. apply safe_ret. cbn [fst]. rewrite to_int_small by done. by right.
Qed.

Lemma safe_connect_port host port err w :
  safe (fun r w' => made w r.1 w') (connect_port host port err) w.
Proof.
  unfold connect_port. apply safe_os; [done |].
  intros s w1 [[-> ->] | [[B N] ->]]; [by apply safe_ret; left |].
  destruct (Z.eqb_spec s INVALID_SOCKET) as [-> |]; [unfold INVALID_SOCKET in B; lia |].
  assert (I : s ∈ ({[s]} ∪ w : Sockets)) by set_solver.
  pose proof (safe_close_failed s w) as C.
  apply safe_os; [done |]. intros [address |] ? ->; [| by apply C].
  apply safe_os; [done |]. intros [code |] ? ->; [by apply C |].
  apply safe_ret. cbn [fst]. rewrite to_int_small by done. by right.
Qed.
