(* ===== verification/Processes.v ===== *)
(** * The distributed processes (tools/sf_worker.cpp, sf_coordinator.cpp, sf_driver.cpp)

    The three [main] functions as processes over the system calls of Net.v:
    their arguments, connections, loops and exits.  What they compute between
    two calls is the pure code of Worker.v, Coordinator.v and Driver.v. *)

From stdpp Require Import gmap.
From ITree Require Import ITree.
From S2P Require Import Prelude Errors Ids Cli Bytes Wire Worker Coordinator Cluster Driver Net.

(** ** Arguments *)

(** [argv[i]]. *)
Definition arg (argv : list string) (i : nat) : string := nth i argv EmptyString.

(** [(std::uint16_t)std::atoi(s)]. *)
Definition port_of (s : string) : option Z := n ← atoi s; Some (Z.land n 65535).

(** A call of the frame helpers with a message, which must encode. *)
Definition send_message (fd : Z) (m : Message) : Process bool :=
  let! p := defined (result_value (encode m)) in send_frame fd p.

(** ** The worker *)

Module WorkerProcess.

(** The body of the receiving loop. *)
Definition receive (fd : Z) (_ : unit) : Process (unit + unit) :=
  let! frame := recv_frame fd in
  match frame with
  | None => Ret (inr tt)
  | Some p =>
      match decode p with
      | Failed _ => Ret (inl tt)
      | Ok m =>
          if type m =? Msg.Shutdown then Ret (inr tt)
          else
            let! reply := defined (worker_reply m) in
            match reply with
            | None => Ret (inl tt)
            | Some q => let! _ := send_frame fd q in Ret (inl tt)
            end
      end
  end.

(** [main]. *)
Definition main (argv : list string) : Process Z :=
  if zlen argv <? 4 then
    let! _ := os (Print ("usage: " +:+ arg argv 0 +:+ " <host> <port> <proposer|verifier>")) in Ret 1
  else
    let! port := defined (port_of (arg argv 2)) in
    let! _ := init in
    let! connected := connect_port (arg argv 1) port EmptyString in
    let '(fd, err) := connected in
    if fd <? 0 then
      let! _ := os (Print ("worker: connect failed: " +:+ err)) in Ret 1
    else
      let! pid := os GetPid in
      let! _ := send_message fd (worker_hello (arg argv 3) (u64 pid)) in
      let! _ := ITree.iter (receive fd) tt in
      let! _ := cleanup in
      Ret 0.

End WorkerProcess.

(** ** The coordinator *)

Module CoordinatorProcess.

(** A line about a connection, with the last error. *)
Definition note (what : string) (fd : Z) : Process unit :=
  let! code := os LastError in
  os (Print (what +:+ " fd=" +:+ pretty fd +:+ " err=" +:+ pretty code)).

(** A frame to a worker and the frame back; the lines printed when the sending
    or the receiving fails. *)
Definition exchange (send_note : option string) (recv_note : string) (fd : Z) (payload : bytes)
  : Process Exchange :=
  let! sent := send_frame fd payload in
  if negb sent then
    let! _ := match send_note with Some s => note s fd | None => Ret tt end in Ret SendFailed
  else
    let! frame := recv_frame fd in
    match frame with
    | None => let! _ := note recv_note fd in Ret RecvFailed
    | Some fr => Ret (Replied fr)
    end.

Definition proposer_exchange : Z -> bytes -> Process Exchange :=
  exchange (Some "coordinator: propose send failed") "coordinator: propose recv failed".

Definition verifier_exchange : Z -> bytes -> Process Exchange :=
  exchange None "coordinator: verify recv failed".

(** The loop over the branches, on the connections. *)
Fixpoint branch_loop (pfd vfd reqid pboot vboot : Z) (n : nat) (b : Z) (r : CReq)
  : Process ((string + list Br) * CReq) :=
  match n with
  | O => Ret (inr [], r)
  | S n =>
      let r := r <| cr_propGen ::= fun g => u64 (g + 1) |> in
      let! payload := defined (result_value (encode (proposal_dispatch reqid b pboot r))) in
      let! x := proposer_exchange pfd payload in
      let! drafted := defined (propose_branch (fun _ => x) reqid b pboot r) in
      match drafted with
      | inl why => Ret (inl why, r)
      | inr toks =>
          let! payload := defined (result_value (encode (verification_dispatch reqid b vboot toks r))) in
          let! x := verifier_exchange vfd payload in
          let! verified := defined (verify_branch (fun _ => x) reqid b vboot toks r) in
          match verified with
          | inl why => Ret (inl why, r)
          | inr br =>
              let! rest := branch_loop pfd vfd reqid pboot vboot n (b + 1) r in
              let '(rest, r) := rest in
              Ret (match rest with inl why => inl why | inr brs => inr (br :: brs) end, r)
          end
      end
  end.

(** [drive_cycle], on the connections. *)
Definition drive_cycle (co : Coordinator) (reqid depth branches aligned : Z) (r : CReq)
  : Process (string * CReq) :=
  let r := r <| cr_depth := depth |> <| cr_branches := branches |> <| cr_aligned := aligned |>
             <| cr_epoch := co_epoch co |> in
  let! looped := branch_loop (co_proposerFd co) (co_verifierFd co) reqid (co_proposerBoot co)
                   (co_verifierBoot co) (Z.to_nat branches) 0 r in
  let '(res, r) := looped in
  match res with
  | inl why => Ret (why, r)
  | inr brs =>
      let! win := defined (winner brs) in
      let! r := defined (commit_winner win r) in
      Ret ("ok:" +:+ pretty (b_accepted win) +:+ ":" +:+ pretty (b_branch win) +:+ ":" +:+
           pretty (b_firstrej win), r)
  end.

(** The branch of the main loop for a submission. *)
Definition on_submit (m : Message) (co : Coordinator) : Process Coordinator :=
  let! reqid := defined (u64_fields m !! 0%nat) in
  let! depth := defined (u32_fields m !! 0%nat) in
  let! branches := defined (u32_fields m !! 1%nat) in
  let! aligned := defined (u32_fields m !! 2%nat) in
  let r := submitted_request reqid (co_epoch co) (default CReq_default (co_requests co !! reqid)) in
  let! driven := drive_cycle co reqid depth branches aligned r in
  let '(res, r) := driven in
  let co := co <| co_requests ::= insert reqid r |> in
  let! _ := os (Print ("coordinator: submit " +:+ pretty reqid +:+ " -> " +:+ res)) in
  let! _ := send_message (co_driverFd co)
    (if String.prefix "ok:" res then
       message Msg.Commit [reqid; get (cr_authGen r); zlen (cr_committed r)] [] []
     else text Msg.Reject res) in
  Ret co.

(** A frame from the driver: whether the loop goes on, and with what. *)
Definition on_frame (p : bytes) (co : Coordinator) : Process (Coordinator + unit) :=
  match decode p with
  | Failed _ => Ret (inl co)
  | Ok m =>
      if type m =? Msg.Shutdown then Ret (inr tt)
      else if type m =? Msg.ProposalResult then
        let! out := defined (on_replay m co) in
        let! _ := send_message (co_driverFd co) out in Ret (inl co)
      else if type m =? Msg.SubmitRequest then
        let! co := on_submit m co in Ret (inl co)
      else if type m =? Msg.Info then
        let '(out, co) := on_command (body m) co in
        match out with
        | None => Ret (inl co)
        | Some out => let! _ := send_message (co_driverFd co) out in Ret (inl co)
        end
      else Ret (inl co)
  end.

(** *** Connections *)

(** One connection while not all roles are there; [None] when the process
    gives up. *)
Definition startup (listener : Z) (co : Coordinator) : Process (Coordinator + option Coordinator) :=
  if all_connected co then Ret (inr (Some co))
  else
    let! c := accept_conn listener in
    if c <? 0 then Ret (inl co)
    else
      let! frame := recv_frame c in
      match frame with
      | None => let! _ := cleanup in Ret (inr None)
      | Some p =>
          match decode p with
          | Ok h =>
              if negb (type h =? Msg.Hello) then let! _ := closesocket c in Ret (inl co)
              else Ret (inl (startup_hello c (Ok h) co))
          | Failed _ => let! _ := closesocket c in Ret (inl co)
          end
      end.

Fixpoint close_all (fds : list Z) : Process unit :=
  match fds with
  | [] => Ret tt
  | fd :: fds => let! _ := closesocket fd in close_all fds
  end.

(** The line printed for a worker that connected. *)
Definition connected_line (frame : option bytes) (co : Coordinator) : option string :=
  match frame with
  | Some p =>
      match decode p with
      | Ok h =>
          let role := first_or_zero (u32_fields h) in
          if negb (type h =? Msg.Hello) then None
          else if role =? kRoleProposer then
            Some ("coordinator: proposer (re)connected boot=" +:+ pretty (co_proposerBoot co) +:+
                  " prev=" +:+ pretty (co_prevProposerBoot co))
          else if role =? kRoleVerifier then
            Some ("coordinator: verifier (re)connected boot=" +:+ pretty (co_verifierBoot co))
          else None
      | Failed _ => None
      end
  | None => None
  end.

(** [drain_accepts], with the connection just accepted. *)
Definition drain (listener : Z) (cc : Coordinator * Z) : Process (Coordinator * Z + Coordinator) :=
  let '(co, c) := cc in
  if c <? 0 then Ret (inr co)
  else
    let! _ := os (SetNonBlocking (to_socket c) false) in
    let! frame := recv_frame c in
    let '(co, closed) := match frame with Some p => drain_hello c (decode p) co | None => (co, [c]) end in
    let! _ := close_all closed in
    let! _ := match connected_line frame co with Some s => os (Print s) | None => Ret tt end in
    let! next := accept_conn listener in
    Ret (inl (co, next)).

Definition drain_accepts (listener : Z) (co : Coordinator) : Process Coordinator :=
  let! c := accept_conn listener in ITree.iter (drain listener) (co, c).

(** One round of the main loop. *)
Definition round (listener : Z) (co : Coordinator) : Process (Coordinator + unit) :=
  let! co := drain_accepts listener co in
  if co_driverFd co <? 0 then let! _ := os (Sleep 10) in Ret (inl co)
  else
    let! selected := os (SelectRead (to_socket (co_driverFd co)) 200000) in
    let '(sr, in_set) := selected in
    if sr <=? 0 then let! _ := os (Sleep 10) in Ret (inl co)
    else if negb in_set then Ret (inl co)
    else
      let! frame := recv_frame (co_driverFd co) in
      match frame with
      | None =>
          let! _ := closesocket (co_driverFd co) in
          let! _ := os (Print "coordinator: driver disconnected (waiting)") in
          Ret (inl (driver_gone co))
      | Some p => on_frame p co
      end.

(** [main]. *)
Definition main (argv : list string) : Process Z :=
  if zlen argv <? 2 then
    let! _ := os (Print ("usage: " +:+ arg argv 0 +:+ " <port>")) in Ret 1
  else
    let! port := defined (port_of (arg argv 1)) in
    let! _ := init in
    let! listening := listen_port port EmptyString in
    let '(listener, err) := listening in
    if listener <? 0 then
      let! _ := os (Print ("coordinator: listen failed " +:+ err)) in Ret 1
    else
      let! _ := os (Print ("coordinator listening on " +:+ pretty port)) in
      let! started := ITree.iter (startup listener) new_coordinator in
      match started with
      | None => Ret 1
      | Some co =>
          let! _ := os (Print "coordinator: all roles connected") in
          let! _ := os (SetNonBlocking (to_socket listener) true) in
          let! _ := os (Print "coordinator: ready for work") in
          let! _ := ITree.iter (round listener) (start_work co) in
          let! _ := os (Print "coordinator shutting down") in
          let! _ := cleanup in
          Ret 0
      end.
End CoordinatorProcess.

(** ** The driver *)

Module DriverProcess.

(** [%s] of a body: up to the first zero byte. *)
Fixpoint c_str (b : bytes) : string :=
  match b with
  | [] => EmptyString
  | x :: b => if x =? 0 then EmptyString
              else String (Ascii.ascii_of_nat (Z.to_nat x)) (c_str b)
  end.

(** A step of the script with what [expect] prints: its name and what was got,
    which may be undefined. *)
Record Check : Set := mkCheck {
  ck_step : Step;
  ck_what : string;
  ck_got : Message -> option string
}.

Definition submit_check (reqid depth branches aligned expected : Z) (what : string) : Check :=
  mkCheck (submit_step reqid depth branches aligned expected) what
    (fun r => n ← committed_length r; Some ("committed=" +:+ pretty n)).

Definition probe_check (kind reason what : string) : Check :=
  mkCheck (probe_step kind reason) what
    (fun r => Some ("got=" +:+ (if (type r =? Msg.Reject) || (type r =? Msg.Info)
                               then c_str (body r) else "?"))).

Definition first_checks : list Check :=
  [submit_check 42 5 1 5 5 "submit A full-accept committed=5";
   submit_check 43 6 1 3 3 "submit B partial-accept committed=3";
   submit_check 44 5 1 0 0 "submit C reject-all committed=0";
   submit_check 45 5 2 2 2 "submit D multi-branch committed=2"].

Definition later_checks : list Check :=
  [mkCheck replay_step "over-protocol stale-epoch replay rejected"
     (fun r => Some ("reply=" +:+ c_str (body r)));
   probe_check "epoch" "stale_epoch" "stale:epoch rejected";
   probe_check "boot" "stale_worker_boot" "stale:boot rejected";
   probe_check "prevBoot" "stale_worker_boot" "stale:prevBoot (restarted worker) rejected";
   probe_check "attempt" "stale_attempt" "stale:attempt rejected";
   probe_check "generation" "stale_generation" "stale:generation rejected";
   probe_check "base" "wrong_base_generation" "stale:base rejected";
   mkCheck roll_step "epoch rolled to 2" (fun r => Some ("got=" +:+ c_str (body r)));
   probe_check "epoch" "stale_epoch" "post-roll stale:epoch rejected";
   mkCheck (submit_step 46 5 1 5 5) "fresh submit commits 5"
     (fun r => n ← u64_fields r !! 2%nat; Some ("committed=" +:+ pretty n))].

(** [sendm] and [recvm]; a reply that does not come leaves the default message. *)
Definition sendm (fd : Z) (m : Message) : Process bool :=
  match encode m with Failed _ => Ret false | Ok p => send_frame fd p end.

Definition recvm (fd : Z) : Process Message :=
  let! frame := recv_frame fd in
  Ret (match frame with
       | Some p => value_or (decode p) (message Msg.Null [] [] [])
       | None => message Msg.Null [] [] []
       end).

(** One step: the number of failures after. *)
Definition perform (fd : Z) (c : Check) (failures : Z) : Process Z :=
  let! _ := sendm fd (s_message (ck_step c)) in
  let! reply := recvm fd in
  let! got := defined (ck_got c reply) in
  let passed := s_expect (ck_step c) reply in
  let! _ := os (Print ((if passed then "[PASS] " else "[FAIL] ") +:+ ck_what c +:+ " [" +:+ got +:+
                       "]")) in
  Ret (if passed then failures else failures + 1).

Fixpoint perform_all (fd : Z) (checks : list Check) (failures : Z) : Process Z :=
  match checks with
  | [] => Ret failures
  | c :: checks => let! failures := perform fd c failures in perform_all fd checks failures
  end.

(** One round of the wait for the restart. *)
Definition wait (path : string) (waited : Z) : Process (Z + unit) :=
  let! there := os (FileExists path) in
  if negb there && (waited <? 300) then
    let! _ := os (Sleep 100) in Ret (inl (waited + 1))
  else Ret (inr tt).

(** [main]. *)
Definition main (argv : list string) : Process Z :=
  if zlen argv <? 4 then
    let! _ := os (Print ("usage: " +:+ arg argv 0 +:+ " <host> <port> <tempdir>")) in Ret 1
  else
    let! port := defined (port_of (arg argv 2)) in
    let tmp := arg argv 3 in
    let! _ := init in
    let! connected := connect_port (arg argv 1) port EmptyString in
    let '(fd, err) := connected in
    if fd <? 0 then
      let! _ := os (Print ("driver: connect failed " +:+ err)) in Ret 1
    else
      let! _ := sendm fd (message Msg.Hello [12345] [kRoleDriver] []) in
      let! _ := os (SetRecvTimeout (to_socket fd) 8000) in
      let! failures := perform_all fd first_checks 0 in
      let! _ := os (Print "driver: restart-waiting") in
      let! _ := os (RemoveFile (tmp +:+ "\sf_restart_done")) in
      let! _ := os (WriteFile (tmp +:+ "\sf_restart_ready") "ready") in
      let! _ := ITree.iter (wait (tmp +:+ "\sf_restart_done")) 0 in
      let! failures := perform_all fd later_checks failures in
      let! _ := sendm fd (text Msg.Info "status") in
      let! reply := recvm fd in
      let! _ := os (Print ("coordinator status: " +:+ c_str (body reply))) in
      let! _ := sendm fd (message Msg.Shutdown [] [] []) in
      let! _ := cleanup in
      let! _ := os (Print ("driver: " +:+ (if failures =? 0 then "ALL_OK" else "HAD_FAILURES") +:+
                           " (" +:+ pretty failures +:+ " failures)")) in
      Ret (if failures =? 0 then 0 else 1).
End DriverProcess.
