(* ===== verification/Safety.v ===== *)
(** * The distributed processes are safe

    Whatever the operating system, the network and the other processes do, with
    socket handles below [2^31], and for as long as they run and are defined: the processes of Processes.v only use sockets they
    have open, the coordinator keeps the invariant of Sessions.v on its
    requests between any two calls of its main loop, and no frame leaves a
    process that is not an honest message.  Proved in the program logic of
    Net.v, loop by loop. *)

From stdpp Require Import gmap.
From ITree Require Import ITree.
From S2P Require Import Prelude Errors Ids Cli Bytes Wire Worker Coordinator Cluster Sessions Driver.
From S2P Require Import Net Processes.

(** ** The connections of the coordinator *)

Section Linked.
  Implicit Types co : Coordinator.
  Implicit Types w : Sockets.

(** Two descriptors are not of the same socket. *)
Definition apart (a b : Z) : Prop := a = -1 \/ a <> b.

(** A connection variable: none, or an open socket. *)
Definition slot (fd : Z) w : Prop := fd = -1 \/ conn fd w.

(** The coordinator's variables name open sockets, all different. *)
Record linked (listener : Z) co w : Prop := {
  lk_listener : conn listener w;
  lk_proposer : slot (co_proposerFd co) w /\ apart (co_proposerFd co) listener;
  lk_verifier : slot (co_verifierFd co) w /\ apart (co_verifierFd co) listener;
  lk_driver : slot (co_driverFd co) w /\ apart (co_driverFd co) listener;
  lk_pv : apart (co_proposerFd co) (co_verifierFd co);
  lk_pd : apart (co_proposerFd co) (co_driverFd co);
  lk_vd : apart (co_verifierFd co) (co_driverFd co)
}.

(** A connection that is none of them yet. *)
Record newcomer (listener : Z) co (c : Z) w : Prop := {
  nc_conn : conn c w;
  nc_listener : c <> listener;
  nc_proposer : c <> co_proposerFd co;
  nc_verifier : c <> co_verifierFd co;
  nc_driver : c <> co_driverFd co
}.

(** Both workers are there. *)
Definition staffed co : Prop := 0 <= co_proposerFd co /\ 0 <= co_verifierFd co.

Lemma slot_conn fd w : slot fd w -> 0 <= fd -> conn fd w.
Proof. intros [-> | C] N; [lia | done]. Qed.

(** The sockets grow by a connection. *)
Lemma linked_made listener co w c w' : linked listener co w -> made w c w' ->
  linked listener co w' /\ (c < 0 \/ newcomer listener co c w').
Proof.
  intros [[Bl Cl] [Sp Ap] [Sv Av] [Sd Ad] Pv Pd Vd] [[-> ->] | (N & B & ->)].
  { split; [by constructor | left; lia]. }
  assert (G : forall fd, slot fd w -> slot fd ({[c]} ∪ w))
    by (intros fd [E | [? ?]]; [by left | right; split; set_solver]).
  assert (D : forall fd, slot fd w -> c <> fd)
    by (intros fd [-> | [? ?]] ->; [lia | done]).
  split.
  - constructor; auto. split; set_solver.
  - right. constructor; auto; [split; [done | set_solver] | by intros ->].
Qed.

(** Closing a socket that no variable names. *)
Lemma linked_close listener co w x : linked listener co w ->
  x <> listener -> x <> co_proposerFd co -> x <> co_verifierFd co -> x <> co_driverFd co ->
  linked listener co (w ∖ {[x]}).
Proof.
  intros [[Bl Cl] [Sp Ap] [Sv Av] [Sd Ad] Pv Pd Vd] Nl Np Nv Nd.
  assert (G : forall fd, slot fd w -> x <> fd -> slot fd (w ∖ {[x]}))
    by (intros fd [E | [? ?]] N; [by left | right; split; set_solver]).
  constructor; auto. split; set_solver.
Qed.

(** A newcomer takes a role. *)
Lemma linked_role listener co w c co' : linked listener co w -> newcomer listener co c w ->
  (co_proposerFd co' = c /\ co_verifierFd co' = co_verifierFd co /\ co_driverFd co' = co_driverFd co) \/
  (co_proposerFd co' = co_proposerFd co /\ co_verifierFd co' = c /\ co_driverFd co' = co_driverFd co) \/
  (co_proposerFd co' = co_proposerFd co /\ co_verifierFd co' = co_verifierFd co /\ co_driverFd co' = c) ->
  linked listener co' w.
Proof.
  intros [L [Sp Ap] [Sv Av] [Sd Ad] Pv Pd Vd] [C Nl Np Nv Nd] R.
  assert (S : slot c w) by (by right).
  destruct R as [(E1 & E2 & E3) | [(E1 & E2 & E3) | (E1 & E2 & E3)]]; constructor;
    rewrite ?E1, ?E2, ?E3; try (split; [done |]); (done || (right; congruence)).
Qed.

(** What a later connection leaves, and the sockets to close. *)
Lemma drain_hello_linked listener co w c msg : linked listener co w -> newcomer listener co c w ->
  let '(co', closed) := drain_hello c msg co in
  (staffed co -> staffed co') /\
  match closed with
  | [] => linked listener co' w
  | [x] => conn x w /\ linked listener co' (w ∖ {[x]})
  | _ => False
  end.
Proof.
  intros L N. pose proof N as [C Nl Np Nv Nd].
  assert (K : conn c w /\ linked listener co (w ∖ {[c]})) by (split; [done | by apply linked_close]).
  assert (Old : forall old co', linked listener co' w -> slot old w -> apart old listener ->
    (0 <= old -> old <> c -> old <> co_proposerFd co' /\ old <> co_verifierFd co' /\
       old <> co_driverFd co') ->
    match (if (0 <=? old) && negb (old =? c) then [old] else []) with
    | [] => linked listener co' w
    | [x] => conn x w /\ linked listener co' (w ∖ {[x]})
    | _ => False
    end).
  { intros old co' L' S A D. destruct (Z.leb_spec 0 old); [| exact L'].
    destruct (Z.eqb_spec old c); [exact L' |]. cbn [negb andb]. destruct D as (D1 & D2 & D3); [lia | done |].
    split; [by apply slot_conn | apply linked_close; try done]. by destruct A; [lia |]. }
  unfold drain_hello. destruct msg as [h | e]; [| by split].
  destruct (negb _); [by split |]. pose proof (linked_role listener co w c) as Rl.
  destruct C as [Bc Ic]. destruct L as [Ll [Sp Ap] [Sv Av] [Sd Ad] Pv Pd Vd] eqn:EL.
  destruct (_ =? kRoleProposer); [| destruct (_ =? kRoleVerifier);
    [| destruct (_ && _); [| by split]]].
  - split; [unfold staffed; simpl; lia |]. apply Old; try done; [by apply Rl; auto |].
    simpl. unfold apart in *. intros. split_and!; try congruence; destruct Pv, Pd; lia.
  - split; [unfold staffed; simpl; lia |]. apply Old; try done; [by apply Rl; auto |].
    simpl. unfold apart in *. intros. split_and!; try congruence; destruct Pv, Vd; lia.
  - split; [unfold staffed; simpl; lia |]. apply Rl; auto.
Qed.
End Linked.

(** ** The processes *)

Create HintDb sockets.

#[export] Hint Resolve safe_send_frame safe_recv_frame safe_print safe_pure safe_defined_same : sockets.

Section Safe.
  Implicit Types co : Coordinator.
  Implicit Types w : Sockets.

(** Steps over a call that leaves the sockets alone. *)
Ltac step := apply safe_same; [solve [eauto with sockets | by apply safe_quiet] |].

Lemma safe_send_message fd m w : conn fd w -> honest m -> safe (same w) (send_message fd m) w.
Proof. intros C N. unfold send_message. apply safe_encode; [done |]. intros p E. eauto with sockets. Qed.
#[local] Hint Resolve safe_send_message : sockets.

Lemma safe_note what fd w : safe (same w) (CoordinatorProcess.note what fd) w.
Proof. unfold CoordinatorProcess.note. step. intros code. eauto with sockets. Qed.
#[local] Hint Resolve safe_note : sockets.

(** An exchange leaves the sockets alone, and what it receives is bytes. *)
Lemma safe_exchange send_note recv_note fd p w : conn fd w -> encoded p ->
  safe (fun x w' => w' = w /\ peer_octets (fun _ => x))
    (CoordinatorProcess.exchange send_note recv_note fd p) w.
Proof.
  intros C E. unfold CoordinatorProcess.exchange. step. intros []; cbn [negb].
  - eapply safe_bind; [by apply safe_recv_octets |]. intros [fr |] ? [-> O].
    + apply safe_ret. split; [done |]. intros ? ? [= <-]. by apply O.
    + step. intros _. by apply safe_ret.
  - apply safe_same; [destruct send_note; eauto with sockets |]. intros _. by apply safe_ret.
Qed.

(** A partial function of the state, whatever it gives. *)
Lemma safe_partial {A R} (Q : R -> Sockets -> Prop) (o : option A) (k : A -> Process R) w :
  (forall x, o = Some x -> safe Q (k x) w) -> safe Q (ITree.bind (defined o) k) w.
Proof.
  intros K. eapply safe_bind.
  - apply (safe_defined (fun x w' => w' = w /\ o = Some x)). by intros x ->.
  - intros x ? [-> E]. by apply K.
Qed.

Lemma safe_branch_loop pfd vfd reqid pboot vboot n : forall b r w, conn pfd w -> conn vfd w ->
  is_u32 (cr_depth r) ->
  safe (fun res w' => w' = w /\ loop_left n r res.1 res.2)
    (CoordinatorProcess.branch_loop pfd vfd reqid pboot vboot n b r) w.
Proof.
  induction n as [| n IH]; intros b r w P V Hd; cbn [CoordinatorProcess.branch_loop].
  { apply safe_ret. split; [done | apply loop_left_nil]. }
  cbv zeta. fold (dispatched r).
  apply safe_encode; [done |]. intros payload E.
  eapply safe_bind; [by apply safe_exchange |]. intros x ? [-> O].
  apply safe_partial. intros [why | toks] Pr.
  { apply propose_branch_inv in Pr. apply safe_ret. split; [done |]. by apply loop_left_stop. }
  apply (proposed_range _ _ _ O) in Pr as [Lt Ft]; [| done].
  apply safe_encode; [done |]. intros payload' E'.
  eapply safe_bind; [by apply safe_exchange |]. intros x' ? [-> O'].
  apply safe_partial. intros [why | br] Vr.
  { apply verify_branch_inv in Vr. apply safe_ret. split; [done |]. by apply loop_left_stop. }
  apply (verified_range _ _ _ O') in Vr; [| done..].
  eapply safe_bind; [by apply IH |]. intros [rest r'] ? [-> L]. apply safe_ret. split; [done |].
  by apply (loop_left_next n r br).
Qed.

Lemma safe_drive_cycle co reqid depth branches aligned old w :
  submission_range reqid (co_epoch co) depth branches aligned ->
  conn (co_proposerFd co) w -> conn (co_verifierFd co) w ->
  safe (fun res w' => w' = w /\ request_ok reqid res.2)
    (CoordinatorProcess.drive_cycle co reqid depth branches aligned
       (submitted_request reqid (co_epoch co) old)) w.
Proof.
  intros Sr P V. unfold CoordinatorProcess.drive_cycle. cbv zeta.
  fold (starting reqid (co_epoch co) depth branches aligned old).
  eapply safe_bind; [apply safe_branch_loop; [done | done | apply Sr] |].
  intros [res r'] ? [-> L]. apply (left_ok _ _ _ _ _ _ _ _ Sr) in L. cbn [fst snd] in L.
  destruct res as [why | brs]; [by apply safe_ret |].
  apply safe_partial. intros win W. apply safe_partial. intros r2 C. apply safe_ret.
  split; [done |]. by eapply L.
Qed.

Lemma safe_on_submit m co w : wf_message m -> session_ok co ->
  conn (co_proposerFd co) w -> conn (co_verifierFd co) w -> conn (co_driverFd co) w ->
  safe (fun co' w' => w' = w /\ session_ok co' /\ co_proposerFd co' = co_proposerFd co /\
    co_verifierFd co' = co_verifierFd co /\ co_driverFd co' = co_driverFd co)
    (CoordinatorProcess.on_submit m co) w.
Proof.
  intros Wf [Rq Bt Ep] P V D. unfold CoordinatorProcess.on_submit.
  apply safe_partial. intros reqid F. apply safe_partial. intros depth F0.
  apply safe_partial. intros branches F1. apply safe_partial. intros aligned F2. cbv zeta.
  eapply safe_bind; [apply safe_drive_cycle; [| done | done] |].
  { constructor; [by apply (field_u64 m 0 _ Wf) | by apply (field_u32 m 0 _ Wf)
      | by apply (field_u32 m 1 _ Wf) | by apply (field_u32 m 2 _ Wf) | exact Ep]. }
  intros [res r] ? [-> K]. cbn [snd] in K. step. intros _. apply safe_same.
  - apply safe_send_message; [exact D |]. destruct (String.prefix "ok:" res); [| done].
    intros _. exists reqid, (zlen (cr_committed r)). simpl. by rewrite (ro_generation _ _ K).
  - intros _. apply safe_ret. split; [done |]. split; [| done]. constructor; [| done | done].
    intros id r0. simpl. rewrite lookup_insert_Some. intros [[<- <-] | [_ L]]; [done | by apply Rq].
Qed.

(** The coordinator between two rounds. *)
Definition working (listener : Z) co w : Prop :=
  (linked listener co w /\ staffed co) /\ session_ok co.

Lemma working_same listener co co' w : working listener co w -> session_ok co' ->
  co_proposerFd co' = co_proposerFd co -> co_verifierFd co' = co_verifierFd co ->
  co_driverFd co' = co_driverFd co -> working listener co' w.
Proof.
  intros [[[] S] _] K E1 E2 E3. split; [| exact K]. split; [| unfold staffed in *; lia].
  constructor; rewrite ?E1, ?E2, ?E3; done.
Qed.

Lemma safe_on_frame listener p co w : octets p -> working listener co w ->
  conn (co_driverFd co) w ->
  safe (fun lr w' => match lr with inl co' => working listener co' w' | inr _ => True end)
    (CoordinatorProcess.on_frame p co) w.
Proof.
  intros O W D. unfold CoordinatorProcess.on_frame. pose proof W as [[L [Sp Sv]] K].
  destruct (decode p) as [m |] eqn:Dc; [| by apply safe_ret].
  destruct (_ =? Msg.Shutdown); [by apply safe_ret |]. destruct (_ =? Msg.ProposalResult).
  { apply safe_partial. intros out E. apply on_replay_verdict in E. apply safe_same.
    { apply safe_send_message; [exact D | by intros ?]. }
    intros _. by apply safe_ret. }
  destruct (_ =? Msg.SubmitRequest).
  { eapply safe_bind.
    { apply safe_on_submit; [by eapply decode_wf | exact K | | | exact D];
        (apply slot_conn; [apply L | done]). }
    intros co' ? (-> & K' & E1 & E2 & E3). apply safe_ret. by eapply working_same. }
  destruct (_ =? Msg.Info); [| by apply safe_ret].
  destruct (on_command (body m) co) as [out co'] eqn:C.
  assert (E : co_proposerFd co' = co_proposerFd co /\ co_verifierFd co' = co_verifierFd co /\
              co_driverFd co' = co_driverFd co)
    by (revert C; unfold on_command; repeat case_bool_decide; intros [= _ <-]; done).
  apply on_command_idle in C as [I N]; [| apply K]. destruct E as (E1 & E2 & E3).
  assert (W' : working listener co' w)
    by (apply (working_same listener co); try done; by eapply idle_session).
  destruct out as [out |]; [| by apply safe_ret]. apply safe_same; [| intros _; by apply safe_ret].
  apply safe_send_message; [by rewrite E3 |]. intros T. by destruct (N out eq_refl T).
Qed.

(** A connection accepted while the variables are linked. *)
Lemma safe_accept listener co w : linked listener co w ->
  safe (fun c w' => linked listener co w' /\ (c < 0 \/ newcomer listener co c w'))
    (accept_conn listener) w.
Proof.
  intros L. eapply safe_mono; [apply safe_accept_conn, L |]. intros c w' M. by eapply linked_made.
Qed.

(** The states of [drain_accepts]. *)
Definition draining (listener : Z) (cc : Coordinator * Z) w : Prop :=
  working listener cc.1 w /\ (cc.2 < 0 \/ newcomer listener cc.1 cc.2 w).

Lemma safe_drain listener cc w : draining listener cc w ->
  safe (fun lr w' => match lr with
                     | inl cc' => draining listener cc' w'
                     | inr co' => working listener co' w'
                     end) (CoordinatorProcess.drain listener cc) w.
Proof.
  destruct cc as [co c]. intros [[[L S] Ks] N]. unfold CoordinatorProcess.drain. cbn [fst snd] in *.
  destruct (Z.ltb_spec c 0); [by apply safe_ret |]. destruct N as [? | N]; [lia |].
  pose proof (nc_conn _ _ _ _ N) as C. apply safe_same.
  { apply safe_quiet; [cbn [pre]; rewrite to_socket_small by apply C; apply C | done]. }
  intros _. eapply safe_bind; [by apply safe_recv_octets |]. intros frame ? [-> O].
  set (after := match frame with Some p => drain_hello c (decode p) co | None => (co, [c]) end).
  assert (K : (staffed co -> staffed after.1) /\ session_ok after.1 /\
    match after.2 with
    | [] => linked listener after.1 w
    | [x] => conn x w /\ linked listener after.1 (w ∖ {[x]})
    | _ => False
    end).
  { unfold after. destruct frame as [p |].
    - pose proof (drain_hello_linked listener co w c (decode p) L N) as K.
      pose proof (drain_ok c p co (O p eq_refl) Ks) as Kd.
      destruct (drain_hello c (decode p) co). cbn [fst snd] in *. tauto.
    - split; [done |]. split; [exact Ks |]. split; [exact C |]. destruct N. by apply linked_close. }
  destruct after as [co' closed]. cbn [fst snd] in K. destruct K as (S' & Ks' & K).
  eapply (safe_bind (fun _ w' => linked listener co' w')).
  { destruct closed as [| x [| y l]]; [by apply safe_ret | | done]. destruct K as [Cx L'].
    cbn [CoordinatorProcess.close_all]. eapply safe_bind; [by apply safe_closesocket |].
    intros _ ? ->. by apply safe_ret. }
  intros _ w1 L1. apply safe_same.
  { destruct (CoordinatorProcess.connected_line frame co'); eauto with sockets. }
  intros _. eapply safe_bind; [by apply safe_accept |]. intros c' w2 [L2 N2].
  apply safe_ret. split; [| exact N2]. split; [| exact Ks']. split; [exact L2 | by apply S'].
Qed.

Lemma safe_drain_accepts listener co w : working listener co w ->
  safe (working listener) (CoordinatorProcess.drain_accepts listener co) w.
Proof.
  intros [[L S] K]. unfold CoordinatorProcess.drain_accepts.
  eapply safe_bind; [by apply safe_accept |]. intros c w' [L' N].
  apply (safe_iter (draining listener)); [intros; by apply safe_drain |]. split; [| exact N]. by split.
Qed.

Lemma safe_round listener co w : working listener co w ->
  safe (fun lr w' => match lr with inl co' => working listener co' w' | inr _ => True end)
    (CoordinatorProcess.round listener co) w.
Proof.
  intros W. unfold CoordinatorProcess.round.
  eapply safe_bind; [by apply safe_drain_accepts |]. clear. intros co w W.
  destruct (Z.ltb_spec (co_driverFd co) 0); [step; intros _; by apply safe_ret |].
  assert (D : conn (co_driverFd co) w) by (by apply slot_conn; [apply W |]).
  apply safe_same.
  { apply safe_quiet; [cbn [pre]; rewrite to_socket_small by apply D; apply D | done]. }
  intros [sr in_set]. destruct (sr <=? 0); [step; intros _; by apply safe_ret |].
  destruct in_set; cbn [negb]; [| by apply safe_ret].
  eapply safe_bind; [by apply safe_recv_octets |]. intros [p |] ? [-> O].
  { apply safe_on_frame; [by apply O | done | done]. }
  eapply safe_bind; [by apply safe_closesocket |]. intros _ ? ->. step. intros _. apply safe_ret.
  destruct W as [[L S] [K1 K2 K3]]. pose proof L as [Cl [Sp Ap] [Sv Av] [Sd Ad] Pv Pd Vd].
  unfold apart, staffed in *. assert (L' : linked listener (driver_gone co) (w ∖ {[co_driverFd co]})).
  { apply linked_close; cbn; try lia. constructor; cbn; unfold slot, apart; auto; right; lia. }
  split; [by split | by constructor].
Qed.

Lemma safe_startup listener co w : linked listener co w /\ session_ok co ->
  safe (fun lr w' => match lr with
                     | inl co' => linked listener co' w' /\ session_ok co'
                     | inr (Some co') =>
                         (linked listener co' w' /\ session_ok co') /\ all_connected co' = true
                     | inr None => w' = ∅
                     end) (CoordinatorProcess.startup listener co) w.
Proof.
  intros [L K]. unfold CoordinatorProcess.startup. destruct (all_connected co) eqn:A; [by apply safe_ret |].
  eapply safe_bind; [by apply safe_accept |]. intros c w' [L' N].
  destruct (Z.ltb_spec c 0); [by apply safe_ret |]. destruct N as [? | N]; [lia |].
  pose proof (nc_conn _ _ _ _ N) as C.
  eapply safe_bind; [by apply safe_recv_octets |]. intros [p |] ? [-> O].
  2: { eapply safe_bind; [apply safe_cleanup |]. intros _ ? ->. by apply safe_ret. }
  assert (Cl : linked listener co (w' ∖ {[c]})) by (destruct N; by apply linked_close).
  pose proof (startup_ok _ _ (startup_connect co c p (O p eq_refl)) K) as K'.
  destruct (decode p) as [h |].
  2: { eapply safe_bind; [by apply safe_closesocket |]. intros _ ? ->. by apply safe_ret. }
  destruct (negb (type h =? Msg.Hello)) eqn:T.
  { eapply safe_bind; [by apply safe_closesocket |]. intros _ ? ->. by apply safe_ret. }
  apply safe_ret. split; [| exact K']. unfold startup_hello. rewrite T. pose proof (linked_role listener co w' c) as Rl.
  repeat case_match; try done; apply Rl; auto.
Qed.

Lemma new_coordinator_linked listener w : conn listener w -> linked listener new_coordinator w.
Proof. intros C. constructor; simpl; unfold slot, apart; auto. Qed.

Lemma safe_coordinator argv : safe (fun _ w' => w' = ∅) (CoordinatorProcess.main argv) ∅.
Proof.
  unfold CoordinatorProcess.main. destruct (zlen argv <? 2); [step; intros _; by apply safe_ret |].
  step. intros port. step. intros _. eapply safe_bind; [apply safe_listen_port |].
  intros [listener err] w M. cbn [fst] in M. destruct (listener <? 0) eqn:F.
  { step. intros _. apply safe_ret. destruct M as [[_ M] | (_ & B & _)]; [done | lia]. }
  pose proof (made_open _ _ _ M F) as C. step. intros _.
  eapply safe_bind; [apply (safe_iter (fun co w => linked listener co w /\ session_ok co));
      [intros; by apply safe_startup |]; split; [by apply new_coordinator_linked | apply new_coordinator_ok] |].
  clear M F. intros [co |] w1 S; [| by apply safe_ret]. destruct S as [[L [K1 (B1 & B2 & _) K3]] A].
  assert (W : working listener (start_work co) w1).
  { split; [| by constructor].
    split; [by destruct L |]. unfold staffed, all_connected in *. simpl.
    apply negb_true_iff, orb_false_iff in A as [A _]. apply orb_false_iff in A as [A1 A2]. lia. }
  pose proof (lk_listener _ _ _ L) as Cl. step. intros _. apply safe_same.
  { apply safe_quiet; [cbn [pre]; rewrite to_socket_small by apply Cl; apply Cl | done]. }
  intros _. step. intros _.
  eapply safe_bind; [apply (safe_iter (working listener)); [intros; by apply safe_round | exact W] |].
  intros _ w2 _. step. intros _. eapply safe_bind; [apply safe_cleanup |].
  intros _ ? ->. by apply safe_ret.
Qed.

Lemma worker_reply_encoded m r q : worker_reply m = Some r -> r = Some q -> encoded q.
Proof.
  assert (A : forall out p, type out <> Msg.Commit -> encode out = Ok p -> encoded p)
    by (intros out p T E; exists out; split; [exact E | by intros ?]).
  intros E ->. revert E. unfold worker_reply.
  destruct (_ =? Msg.ProposalDispatch); [| destruct (_ =? Msg.VerificationDispatch); [| done]].
  - destruct (answer_proposal m) as [out |] eqn:An; cbn [mbind option_bind]; [| discriminate].
    apply answer_proposal_shape in An as [T _].
    destruct (encode out) as [p |] eqn:E; [| discriminate]. intros [= <-]. apply (A out); [| done].
    by rewrite T.
  - destruct (answer_verification m) as [out |] eqn:An; cbn [mbind option_bind]; [| discriminate].
    apply answer_verification_shape in An as [T _].
    destruct (encode out) as [p |] eqn:E; [| discriminate]. intros [= <-]. apply (A out); [| done].
    by rewrite T.
Qed.

Lemma safe_worker argv : safe (fun _ w' => w' = ∅) (WorkerProcess.main argv) ∅.
Proof.
  unfold WorkerProcess.main. destruct (zlen argv <? 4); [step; intros _; by apply safe_ret |].
  step. intros port. step. intros _. eapply safe_bind; [apply safe_connect_port |].
  intros [fd err] w M. cbn [fst] in M. destruct (fd <? 0) eqn:F.
  { step. intros _. apply safe_ret. destruct M as [[_ M] | (_ & B & _)]; [done | lia]. }
  pose proof (made_open _ _ _ M F) as C. step. intros pid.
  apply safe_same; [by apply safe_send_message |]. intros _.
  apply safe_same; [| intros _; eapply safe_bind; [apply safe_cleanup |]; intros _ ? ->; by apply safe_ret].
  apply (safe_iter (fun _ w' => w' = w)); [| done]. intros [] ? ->. unfold WorkerProcess.receive.
  step. intros [p |]; [| by apply safe_ret]. destruct (decode p) as [m |]; [| by apply safe_ret].
  destruct (type m =? Msg.Shutdown); [by apply safe_ret |].
  eapply safe_bind.
  { apply (safe_defined (fun r w' => w' = w /\ forall q, r = Some q -> encoded q)).
    intros r E. split; [done |]. intros q Q. exact (worker_reply_encoded m r q E Q). }
  intros [q |] ? [-> E]; [| by apply safe_ret]. step. intros _. by apply safe_ret.
Qed.

Lemma safe_sendm fd m w : conn fd w -> honest m -> safe (same w) (DriverProcess.sendm fd m) w.
Proof.
  intros C N. unfold DriverProcess.sendm. destruct (encode m) eqn:E; [| eauto with sockets].
  apply safe_send_frame; [done | by exists m].
Qed.

(** The driver claims nothing. *)
Definition honest_checks (checks : list DriverProcess.Check) : Prop :=
  Forall (fun c => honest (s_message (DriverProcess.ck_step c))) checks.

Lemma script_honest :
  honest_checks DriverProcess.first_checks /\ honest_checks DriverProcess.later_checks.
Proof. split; repeat constructor; discriminate. Qed.

Lemma safe_perform_all fd checks w : conn fd w -> honest_checks checks -> forall failures,
  safe (same w) (DriverProcess.perform_all fd checks failures) w.
Proof.
  intros C H. induction H as [| c checks Hc H IH]; intros failures; cbn [DriverProcess.perform_all];
    [eauto with sockets |].
  apply safe_same; [| intros; apply IH]. unfold DriverProcess.perform. apply safe_same.
  { by apply safe_sendm. }
  intros _. apply safe_same.
  { unfold DriverProcess.recvm. step. eauto with sockets. }
  intros reply. step. intros got. step. eauto with sockets.
Qed.

Lemma safe_driver argv : safe (fun _ w' => w' = ∅) (DriverProcess.main argv) ∅.
Proof.
  unfold DriverProcess.main. destruct (zlen argv <? 4); [step; intros _; by apply safe_ret |].
  step. intros port. step. intros _. eapply safe_bind; [apply safe_connect_port |].
  intros [fd err] w M. cbn [fst] in M. destruct (fd <? 0) eqn:F.
  { step. intros _. apply safe_ret. destruct M as [[_ M] | (_ & B & _)]; [done | lia]. }
  pose proof (made_open _ _ _ M F) as C.
  assert (Sd : forall m, honest m -> safe (same w) (DriverProcess.sendm fd m) w)
    by (intros m; by apply safe_sendm).
  destruct script_honest as [H1 H2].
  assert (Rc : safe (same w) (DriverProcess.recvm fd) w)
    by (unfold DriverProcess.recvm; step; eauto with sockets).
  apply safe_same; [by apply Sd |]. intros _. apply safe_same.
  { apply safe_quiet; [cbn [pre]; rewrite to_socket_small by apply C; apply C | done]. }
  intros _. apply safe_same; [by apply safe_perform_all |]. intros failures.
  do 3 (step; intros _). apply safe_same.
  { apply (safe_iter (fun _ w' => w' = w)); [| done]. intros waited ? ->.
    unfold DriverProcess.wait. step. intros there.
    destruct (_ && _); [step; intros _ |]; by apply safe_ret. }
  intros _. apply safe_same; [by apply safe_perform_all |]. intros failures'.
  apply safe_same; [by apply Sd |]. intros _. apply safe_same; [exact Rc |]. intros reply. step.
  intros _. apply safe_same; [by apply Sd |]. intros _.
  eapply safe_bind; [apply safe_cleanup |]. intros _ ? ->. step. intros _. by apply safe_ret.
Qed.

(** C13: the processes are safe.  Whatever their arguments, and for any answers
    of the operating system, the other processes and the network in which the
    handles of sockets are below [2^31] and what is received is bytes, for as
    long as they run - the coordinator's loops need not end - and up to the
    point where a run becomes undefined (a message with too few fields, a
    dispatch too long to encode), coordinator, worker and driver call [bind], [listen],
    [connect], [accept], [select], [ioctlsocket], [closesocket] and the frame
    helpers only on sockets that are open at that point, never on one already
    closed; every frame they send is the encoding of a message, and a [Commit]
    among them reports as the generation of the request exactly the number of
    its committed tokens; and when one of them returns from [main], no socket
    is left open.  The bound on handles is the tools' own limit: they keep a
    handle in an [int], drop one of [2^31] and more as an error, open, and take
    one of [2^32] and more for another ([wide_handle_dropped],
    [wide_handle_confused] of Net.v). *)
Theorem processes_are_safe argv :
  safe (fun _ w' => w' = ∅) (CoordinatorProcess.main argv) ∅ /\
  safe (fun _ w' => w' = ∅) (WorkerProcess.main argv) ∅ /\
  safe (fun _ w' => w' = ∅) (DriverProcess.main argv) ∅.
Proof. split_and!; [apply safe_coordinator | apply safe_worker | apply safe_driver]. Qed.
End Safe.
