(* ===== verification/Service.v ===== *)
(** * What the distributed processes do

    Safety.v says what the processes do with their sockets for any answers of
    the system.  Here the answers are those of a working network - clients
    connect, peers send frames and leave, in any order - and processes are run
    to their end.  The worker process answers with exactly the replies of
    Worker.v and returns 0; the coordinator is in Attend.v. *)

From stdpp Require Import gmap.
From ITree Require Import ITree.
From S2P Require Import Prelude Errors Ids Cli Bytes Wire Worker Coordinator Cluster Driver.
From S2P Require Import Sessions Net Processes.

(** ** Running a process *)

Section Run.
  Context {W : Type} (answer : forall T, netE T -> W -> option (T * W)).

(** The process ends with a result, the calls answered in turn. *)
Inductive run {R} : itree' netE R -> W -> R -> W -> Prop :=
| run_ret r w : run (RetF r) w r w
| run_tau t w r w' : run (observe t) w r w' -> run (TauF t) w r w'
| run_vis T (e : netE T) k w a w1 r w' :
    answer T e w = Some (a, w1) -> run (observe (k a)) w1 r w' -> run (VisF e k) w r w'.

Definition runs {R} (t : Process R) (w : W) (r : R) (w' : W) : Prop := run (observe t) w r w'.

Lemma runs_ret {R} (r : R) w : runs (Ret r) w r w.
Proof. constructor. Qed.

Lemma runs_bind {A R} (t : Process A) (k : A -> Process R) w x w1 r w2 :
  runs t w x w1 -> runs (k x) w1 r w2 -> runs (ITree.bind t k) w r w2.
Proof.
  unfold runs. rewrite observe_bind. intros T K.
  induction T as [x w | t0 w x w1 T IH | T0 e h w a w1 x w1' E T IH]; [exact K | |].
  - constructor. rewrite observe_bind. by apply IH.
  - econstructor; [exact E |]. rewrite observe_bind. by apply IH.
Qed.

Lemma runs_call {A} (e : netE A) w a w1 : answer A e w = Some (a, w1) -> runs (os e) w a w1.
Proof. intros E. econstructor; [exact E | constructor]. Qed.

Lemma runs_os {A R} (e : netE A) (k : A -> Process R) w a w1 r w2 :
  answer A e w = Some (a, w1) -> runs (k a) w1 r w2 -> runs (ITree.bind (os e) k) w r w2.
Proof. intros E. apply runs_bind. by apply runs_call. Qed.

Lemma runs_defined {A R} (o : option A) (k : A -> Process R) x w r w' :
  o = Some x -> runs (k x) w r w' -> runs (ITree.bind (defined o) k) w r w'.
Proof. intros -> K. eapply runs_bind; [apply runs_ret | exact K]. Qed.

(** One round of a loop, and its last. *)
Lemma observe_iter {S R} (body : S -> Process (S + R)) s :
  observe (ITree.iter body s) = observe (ITree.bind (body s) (fun lr =>
    match lr with inl l => Tau (ITree.iter body l) | inr r => Ret r end)).
Proof. reflexivity. Qed.

Lemma runs_iter_next {S R} (body : S -> Process (S + R)) s s' w w1 r w2 :
  runs (body s) w (inl s') w1 -> runs (ITree.iter body s') w1 r w2 ->
  runs (ITree.iter body s) w r w2.
Proof.
  intros B K. unfold runs. rewrite observe_iter. eapply runs_bind; [exact B |]. by constructor.
Qed.

Lemma runs_iter_last {S R} (body : S -> Process (S + R)) s w r w1 :
  runs (body s) w (inr r) w1 -> runs (ITree.iter body s) w r w1.
Proof.
  intros B. unfold runs. rewrite observe_iter. eapply runs_bind; [exact B |]. constructor.
Qed.
End Run.

(** ** A working network *)

(** What the others do, in order: a client connects and announces itself, a
    peer sends a frame over its connection or closes it. *)
Inductive Event : Type :=
| Arrives (c : Z) (hello : bytes)
| Sends (s : Z) (frame : bytes)
| Leaves (s : Z).

(** What is still to come, the frames that wait on each socket, and what the
    process sent that was no dispatch. *)
Record World : Type := mkWorld {
  wd_script : list Event;
  wd_inbox : gmap Z (list bytes);
  wd_outbox : list bytes
}.

#[export] Instance eta_World : Etable World := fun w =>
  mkWorld (wd_script w) (wd_inbox w) (wd_outbox w).

(** The frames that wait on a socket. *)
Definition waiting (s : Z) (w : World) : list bytes := default [] (wd_inbox w !! s).

(** The next event is about a connection. *)
Definition speaks (s : Z) (w : World) : bool :=
  match wd_script w with
  | Sends s' _ :: _ | Leaves s' :: _ => s' =? s
  | _ => false
  end.

(** A connection is accepted when a client is there. *)
Definition accepted (w : World) : Z * World :=
  match wd_script w with
  | Arrives c p :: es => (c, w <| wd_script := es |> <| wd_inbox ::= insert c [p] |>)
  | _ => (INVALID_SOCKET, w)
  end.

(** A frame is received when one waits or is sent; a closed connection gives
    none. *)
Definition received (s : Z) (w : World) : option bytes * World :=
  match waiting s w with
  | p :: l => (Some p, w <| wd_inbox ::= insert s l |>)
  | [] =>
      if speaks s w then
        match wd_script w with
        | Sends _ p :: es => (Some p, w <| wd_script := es |>)
        | _ :: es => (None, w <| wd_script := es |>)
        | [] => (None, w)
        end
      else (None, w)
  end.

Section Network.
  Context (handle pid : Z) (deliver : Z -> bytes -> World -> bool * World).

(** The answers of the system. *)
Definition answer (T : Type) (e : netE T) : World -> option (T * World) :=
  match e in netE T return World -> option (T * World) with
  | WsaStartup => fun w => Some (true, w)
  | WsaCleanup => fun w => Some (tt, w)
  | NewSocket => fun w => Some (handle, w)
  | SetReuseAddr _ => fun w => Some (tt, w)
  | BindLoopback _ _ => fun w => Some (true, w)
  | ListenOn _ => fun w => Some (true, w)
  | InetPton _ => fun w => Some (Some 0, w)
  | ConnectTo _ _ _ => fun w => Some (None, w)
  | AcceptFrom _ => fun w => Some (accepted w)
  | CloseSocket _ => fun w => Some (tt, w)
  | SetNonBlocking _ _ => fun w => Some (tt, w)
  | SetRecvTimeout _ _ => fun w => Some (tt, w)
  | SelectRead s _ => fun w => Some (if speaks s w then (1, true) else (0, false), w)
  | SendFrame s p => fun w => Some (deliver s p w)
  | RecvFrame s => fun w => Some (received s w)
  | LastError => fun w => Some (0, w)
  | Print _ => fun w => Some (tt, w)
  | Sleep _ => fun w => Some (tt, w)
  | GetPid => fun w => Some (pid, w)
  | FileExists _ => fun w => Some (true, w)
  | RemoveFile _ => fun w => Some (tt, w)
  | WriteFile _ _ => fun w => Some (tt, w)
  | Undefined => fun _ => None
  end.
End Network.

(** A reply to whoever is at the other end. *)
Definition to_outbox (p : bytes) (w : World) : World := w <| wd_outbox ::= fun o => o ++ [p] |>.

(** ** Lemmas: frames *)

Section Frames.
  Context (handle pid : Z) (deliver : Z -> bytes -> World -> bool * World).
  Abbreviation runs := (runs (answer handle pid deliver)).

Lemma runs_recv fd w : 0 <= fd < 2147483648 -> runs (recv_frame fd) w (received fd w).1 (received fd w).2.
Proof.
  intros B. unfold recv_frame. rewrite to_socket_small by done. apply runs_call. simpl.
  by destruct (received fd w).
Qed.

Lemma runs_send fd p w : 0 <= fd < 2147483648 ->
  runs (send_frame fd p) w (deliver fd p w).1 (deliver fd p w).2.
Proof.
  intros B. unfold send_frame. rewrite to_socket_small by done. apply runs_call. simpl.
  by destruct (deliver fd p w).
Qed.

Lemma runs_print {R} line (k : unit -> Process R) w r w' :
  runs (k tt) w r w' -> runs (ITree.bind (os (Print line)) k) w r w'.
Proof. by apply runs_os. Qed.

(** A frame sent over a connection on which none waits. *)
Lemma received_sent s p es w : waiting s w = [] -> wd_script w = Sends s p :: es ->
  received s w = (Some p, w <| wd_script := es |>).
Proof. intros Q S. unfold received, speaks. by rewrite Q, S, Z.eqb_refl. Qed.

Lemma received_left s es w : waiting s w = [] -> wd_script w = Leaves s :: es ->
  received s w = (None, w <| wd_script := es |>).
Proof. intros Q S. unfold received, speaks. by rewrite Q, S, Z.eqb_refl. Qed.
End Frames.

(** ** The worker *)

Section Worker.
  Context (fd pid : Z) (Hfd : 0 <= fd < 2147483648).

(** Everything the worker sends reaches its peer. *)
Definition worker_deliver (s : Z) (p : bytes) (w : World) : bool * World := (true, to_outbox p w).

(** The coordinator sends the worker frames. *)
Definition dispatches (frames : list bytes) : World := mkWorld (map (Sends fd) frames) ∅ [].

Abbreviation runs := (runs (answer fd pid worker_deliver)).

Lemma worker_receives frames : forall replies w,
  worker_loop frames = Some replies -> wd_script w = map (Sends fd) frames -> wd_inbox w = ∅ ->
  exists w', runs (ITree.iter (WorkerProcess.receive fd) tt) w tt w' /\
    wd_outbox w' = wd_outbox w ++ replies.
Proof.
  induction frames as [| p frames IH]; intros replies w E Sc I; cbn [worker_loop] in E;
    (assert (Q : waiting fd w = []) by (unfold waiting; by rewrite I, lookup_empty));
    pose proof (runs_recv fd pid worker_deliver fd w Hfd) as Rc.
  - injection E as <-. exists w. rewrite app_nil_r. split; [| done]. apply runs_iter_last.
    unfold received, speaks in Rc. rewrite Q, Sc in Rc.
    eapply runs_bind; [exact Rc |]. constructor.
  - cbn [map] in Sc. rewrite (received_sent fd p _ w Q Sc) in Rc. cbn [fst snd] in Rc.
    set (w1 := w <| wd_script := map (Sends fd) frames |>) in *.
    assert (Q1 : wd_script w1 = map (Sends fd) frames) by done.
    destruct (decode p) as [m |] eqn:D.
    2: { destruct (IH replies w1 E Q1 I) as (w' & R & O). exists w'. split; [| exact O].
         eapply runs_iter_next; [| exact R]. eapply runs_bind; [exact Rc |]. cbv beta iota.
         rewrite D. constructor. }
    destruct (type m =? Msg.Shutdown) eqn:T.
    { injection E as <-. exists w1. rewrite app_nil_r. split; [| done]. apply runs_iter_last.
      eapply runs_bind; [exact Rc |]. cbv beta iota. rewrite D, T. constructor. }
    destruct (worker_reply m) as [reply |] eqn:Y; [cbn [mbind option_bind] in E | discriminate].
    destruct (worker_loop frames) as [rest |] eqn:L; [cbn [mbind option_bind] in E | discriminate].
    injection E as <-. set (w2 := match reply with Some q => to_outbox q w1 | None => w1 end).
    destruct (IH rest w2 eq_refl) as (w' & R & O); [by unfold w2; destruct reply.. |].
    exists w'. split.
    + eapply runs_iter_next; [| exact R]. eapply runs_bind; [exact Rc |]. cbv beta iota. rewrite D, T.
      eapply runs_defined; [exact Y |]. unfold w2. destruct reply as [q |]; [| constructor].
      eapply runs_bind; [by apply runs_send |]. constructor.
    + rewrite O. unfold w2. destruct reply; [| done]. simpl. by rewrite <- app_assoc.
Qed.

Lemma worker_hello_wf role : wf_message (worker_hello role (u64 pid)).
Proof.
  apply wf_intro; [done | | | constructor | done | done | done].
  - constructor; [apply u64_range | constructor].
  - constructor; [| constructor]. unfold kRoleProposer, kRoleVerifier. case_decide; in_range.
Qed.

(** C30: The worker process answers its dispatches and ends.  Started with the
    host, a port number and a role, connected, and sent any frames until a
    [Shutdown] or the end of the connection - frames that are no messages and
    messages that are no dispatches included -, [main] returns 0 and has sent
    exactly its [Hello] with its process id and role, then the answers of
    [worker_loop], in order. *)
Theorem worker_serves name host port role frames replies :
  0 <= port < 2147483648 -> worker_loop frames = Some replies ->
  exists hello w', encode (worker_hello role (u64 pid)) = Ok hello /\
    runs (WorkerProcess.main [name; host; pretty port; role]) (dispatches frames) 0 w' /\
    wd_outbox w' = hello :: replies.
Proof.
  intros Hp E. destruct (decode_encode _ (worker_hello_wf role)) as (hello & He & _).
  destruct (worker_receives frames replies (to_outbox hello (dispatches frames)) E)
    as (w' & R & O'); [done | done |].
  exists hello, w'. split; [exact He |]. split.
  - unfold WorkerProcess.main. cbn [zlen length Z.of_nat Z.ltb arg nth].
    eapply runs_defined; [unfold port_of; by rewrite atoi_pretty |].
    eapply runs_os; [reflexivity |]. eapply runs_bind.
    { unfold connect_port. eapply runs_os; [reflexivity |].
      rewrite (proj2 (Z.eqb_neq fd INVALID_SOCKET)) by (unfold INVALID_SOCKET; lia).
      eapply runs_os; [reflexivity |]. eapply runs_os; [reflexivity |].
      rewrite to_int_small by done. apply runs_ret. }
    cbv beta iota. rewrite (proj2 (Z.ltb_ge fd 0)) by lia. eapply runs_os; [reflexivity |].
    eapply runs_bind; [eapply runs_defined; [by rewrite He | by apply runs_send] |].
    eapply runs_bind; [exact R |]. eapply runs_os; [reflexivity |]. apply runs_ret.
  - by rewrite O'.
Qed.
End Worker.

(** The shutdown of a peer. *)
Definition shutdown_payload : bytes := payload_of (message Msg.Shutdown [] [] []).

(** A proposer that is sent garbage, a dispatch and a shutdown. *)
Definition worker_frames : list bytes :=
  [[1; 2; 3]; payload_of (proposal_dispatch 42 0 100 (fresh_request 42 5 1 3 (mkId 1) CReq_default));
   shutdown_payload; submission].

Definition answered_once (o : option (list bytes)) : bool :=
  match o with Some [_] => true | _ => false end.

Lemma answered_once_spec o : answered_once o = true -> exists r, o = Some [r].
Proof. destruct o as [[| r []] |]; try discriminate. by exists r. Qed.

Lemma worker_serves_witness :
  exists hello reply w',
    runs (answer 3 77 worker_deliver)
      (WorkerProcess.main ["sf_worker"; "127.0.0.1"; pretty 9000; "proposer"])
      (dispatches 3 worker_frames) 0 w' /\
    wd_outbox w' = [hello; reply].
Proof.
  assert (T : answered_once (worker_loop worker_frames) = true) by (by vm_compute).
  apply answered_once_spec in T as [reply T].
  destruct (worker_serves 3 77 ltac:(lia) "sf_worker" "127.0.0.1" 9000 "proposer" worker_frames [reply]
    ltac:(lia) T) as (hello & w' & _ & R & O).
  exists hello, reply, w'. split; [exact R | exact O].
Defined.
