(* ===== verification/Attend.v ===== *)
(** * The coordinator process attends to its clients

    Clients connect and announce a role, workers come back under another boot
    identity, the driver sends its frames, leaves and is replaced: events in
    any order.  Here is what a coordinator makes of them as a function of the
    pure code of Coordinator.v, and the proof that the process of Processes.v,
    run over the working network of Service.v, does exactly that. *)

From stdpp Require Import gmap.
From ITree Require Import ITree.
From S2P Require Import Prelude Errors Ids Cli Bytes Wire Worker Coordinator Cluster Driver.
From S2P Require Import Sessions Net Processes Service.

(** ** What the events come to *)

(** The startup: announcements until all roles are there. *)
Fixpoint gather (events : list Event) (co : Coordinator) : option (Coordinator * list Event) :=
  if all_connected co then Some (co, events)
  else match events with
       | Arrives c p :: events => gather events (startup_hello c (decode p) co)
       | _ => None
       end.

Section Attend.
  Context (peers : Z -> option Peer).

(** The worker at the other end of a connection. *)
Definition peer_at (s : Z) : Peer := default (fun _ => SendFailed) (peers s).

(** The replies to the driver; [None] when a reply is undefined or somebody
    speaks whom the coordinator does not listen to. *)
Fixpoint attend (events : list Event) (co : Coordinator) : option (list bytes * Coordinator) :=
  match events with
  | [] => Some ([], co)
  | Arrives c p :: events => attend events (drain_hello c (decode p) co).1
  | Sends s p :: events =>
      if s =? co_driverFd co then
        '(sent, co, more) ←
          on_driver (peer_at (co_proposerFd co)) (peer_at (co_verifierFd co)) p co;
        if more : bool then
          '(rest, co) ← attend events co; Some (sent ++ rest, co)
        else Some (sent, co)
      else None
  | Leaves s :: events => if s =? co_driverFd co then attend events (driver_gone co) else None
  end.

(** A frame that shuts the coordinator down. *)
Definition shutdown (p : bytes) : Prop := exists m, decode p = Ok m /\ type m = Msg.Shutdown.

Definition shuts_down (e : Event) : Prop :=
  match e with Sends _ p => shutdown p | _ => False end.

(** Handles are those of an [int]; who announces a worker's role is a worker,
    and who announces the driver's is none; a worker only speaks when spoken
    to. *)
Definition event_ok (e : Event) : Prop :=
  match e with
  | Arrives c p =>
      0 <= c < 2147483648 /\
      forall h, decode p = Ok h ->
        let role := first_or_zero (u32_fields h) in
        (role = kRoleDriver -> peers c = None) /\
        (role = kRoleProposer \/ role = kRoleVerifier -> is_Some (peers c))
  | Sends s _ | Leaves s => 0 <= s /\ peers s = None
  end.

(** A worker answers what it is sent; anybody else keeps what it is sent. *)
Definition peer_deliver (peer : Peer) (s : Z) (p : bytes) (w : World) : bool * World :=
  match peer p with
  | SendFailed => (false, w)
  | RecvFailed => (true, w)
  | Replied fr => (true, w <| wd_inbox ::= insert s [fr] |>)
  end.

Definition coordinator_deliver (s : Z) (p : bytes) (w : World) : bool * World :=
  match peers s with
  | Some peer => peer_deliver peer s p w
  | None => (true, to_outbox p w)
  end.

Context (ls : Z) (Hl : 0 <= ls < 2147483648).

Abbreviation runs := (runs (answer ls 0 coordinator_deliver)).

(** ** Lemmas: the connections *)

(** A connection on which no frame waits. *)
Definition quiet (fd : Z) (w : World) : Prop :=
  0 <= fd < 2147483648 /\ wd_inbox w !! fd = Some [].

(** The connection variables: none, or quiet connections to the right ends. *)
Record hosting (co : Coordinator) (w : World) : Prop := {
  ho_proposer : co_proposerFd co = -1 \/
    quiet (co_proposerFd co) w /\ is_Some (peers (co_proposerFd co));
  ho_verifier : co_verifierFd co = -1 \/
    quiet (co_verifierFd co) w /\ is_Some (peers (co_verifierFd co));
  ho_driver : co_driverFd co = -1 \/ quiet (co_driverFd co) w /\ peers (co_driverFd co) = None
}.

(** Both workers are there. *)
Definition manned (co : Coordinator) : Prop := 0 <= co_proposerFd co /\ 0 <= co_verifierFd co.

Lemma quiet_waiting fd w : quiet fd w -> waiting fd w = [].
Proof. intros [_ Q]. unfold waiting. by rewrite Q. Qed.

(** A client was accepted and its announcement received. *)
Definition met (c : Z) (es : list Event) (w : World) : World :=
  w <| wd_script := es |> <| wd_inbox ::= insert c [] |>.

Lemma quiet_met c es w : 0 <= c < 2147483648 -> quiet c (met c es w).
Proof. intros B. split; [done |]. simpl. by rewrite lookup_insert_eq. Qed.

Lemma quiet_kept fd c es w : quiet fd w -> quiet fd (met c es w).
Proof.
  intros [B Q]. split; [done |]. simpl. destruct (decide (fd = c)) as [-> | N];
    [by rewrite lookup_insert_eq | by rewrite lookup_insert_ne].
Qed.

Lemma hosting_script co es w : hosting co w -> hosting co (w <| wd_script := es |>).
Proof. by intros []. Qed.

Lemma hosting_met c es co w : hosting co w -> hosting co (met c es w).
Proof.
  intros [P V D]. constructor.
  - destruct P as [| []]; [by left | right; split; [by apply quiet_kept | done]].
  - destruct V as [| []]; [by left | right; split; [by apply quiet_kept | done]].
  - destruct D as [| []]; [by left | right; split; [by apply quiet_kept | done]].
Qed.

(** Whoever announces a role takes it. *)
Lemma hosting_startup c p es co w : event_ok (Arrives c p) -> hosting co w ->
  hosting (startup_hello c (decode p) co) (met c es w).
Proof.
  intros [B E] H. apply (hosting_met c es) in H. pose proof (quiet_met c es w B) as Q.
  unfold startup_hello. destruct (decode p) as [h |] eqn:D; [| done].
  destruct (E h eq_refl) as [Ed Ew]. destruct H as [P V Dr]. destruct (negb _); [done |].
  destruct (Z.eqb_spec (first_or_zero (u32_fields h)) kRoleProposer) as [R |].
  { constructor; simpl; auto. }
  destruct (Z.eqb_spec (first_or_zero (u32_fields h)) kRoleVerifier) as [R |].
  { constructor; simpl; auto. }
  destruct (Z.eqb_spec (first_or_zero (u32_fields h)) kRoleDriver) as [R |]; [| done].
  constructor; simpl; auto.
Qed.

Lemma hosting_drain c p es co w : event_ok (Arrives c p) -> hosting co w -> manned co ->
  hosting (drain_hello c (decode p) co).1 (met c es w) /\ manned (drain_hello c (decode p) co).1.
Proof.
  intros [B E] H M. apply (hosting_met c es) in H. pose proof (quiet_met c es w B) as Q.
  unfold drain_hello. destruct (decode p) as [h |] eqn:D; [| done].
  destruct (E h eq_refl) as [Ed Ew]. destruct H as [P V Dr], M as [Mp Mv]. destruct (negb _); [done |].
  destruct (Z.eqb_spec (first_or_zero (u32_fields h)) kRoleProposer) as [R |].
  { split; [constructor; simpl; auto | by split; simpl; lia]. }
  destruct (Z.eqb_spec (first_or_zero (u32_fields h)) kRoleVerifier) as [R |].
  { split; [constructor; simpl; auto | by split; simpl; lia]. }
  destruct (Z.eqb_spec (first_or_zero (u32_fields h)) kRoleDriver) as [R |]; [| done].
  destruct (_ && _); [| done]. split; [constructor; simpl; auto | by split].
Qed.

(** ** Lemmas: a frame of the driver *)

Lemma note_runs what fd w : runs (CoordinatorProcess.note what fd) w tt w.
Proof. unfold CoordinatorProcess.note. eapply runs_os; [reflexivity |]. by apply runs_call. Qed.

(** An exchange with a worker is what the worker answers. *)
Lemma exchange_runs send_note recv_note fd payload w :
  Forall event_ok (wd_script w) -> quiet fd w -> is_Some (peers fd) ->
  runs (CoordinatorProcess.exchange send_note recv_note fd payload) w (peer_at fd payload) w.
Proof.
  intros F [B Q] [peer P]. unfold CoordinatorProcess.exchange.
  assert (Ep : peer_at fd = peer) by (unfold peer_at; by rewrite P). rewrite Ep.
  pose proof (runs_send ls 0 coordinator_deliver fd payload w B) as Sd.
  unfold coordinator_deliver, peer_deliver in Sd. rewrite P in Sd.
  eapply runs_bind; [exact Sd |]. destruct (peer payload) as [| | fr]; cbn [fst snd negb].
  - eapply runs_bind; [| apply runs_ret]. destruct send_note; [apply note_runs | apply runs_ret].
  - assert (Rc : received fd w = (None, w)).
    { unfold received, waiting, speaks. rewrite Q. cbn [default].
      destruct (wd_script w) as [| [c h | s f | s] es]; try done;
        apply Forall_cons in F as [[_ N] _]; by rewrite (proj2 (Z.eqb_neq s fd)) by congruence. }
    pose proof (runs_recv ls 0 coordinator_deliver fd w B) as R. rewrite Rc in R.
    eapply runs_bind; [exact R |]. eapply runs_bind; [apply note_runs | apply runs_ret].
  - set (w1 := w <| wd_inbox ::= insert fd [fr] |>).
    assert (Rc : received fd w1 = (Some fr, w)).
    { unfold received, waiting, w1. simpl. rewrite lookup_insert_eq. cbn [default]. f_equal.
      destruct w as [es i o]. simpl in *. by rewrite insert_insert_eq, insert_id. }
    pose proof (runs_recv ls 0 coordinator_deliver fd w1 B) as R. rewrite Rc in R.
    eapply runs_bind; [exact R |]. apply runs_ret.
Qed.

(** A branch only looks at the peer's answer to its own dispatch. *)
Lemma propose_branch_once proposer reqid b boot r res : propose_branch proposer reqid b boot r = Some res ->
  exists payload, encode (proposal_dispatch reqid b boot r) = Ok payload /\
    propose_branch (fun _ => proposer payload) reqid b boot r = Some res.
Proof.
  unfold propose_branch. destruct (encode _) as [payload |]; [| discriminate].
  cbn [result_value mbind option_bind]. intros E. by exists payload.
Qed.

Lemma verify_branch_once verifier reqid b boot toks r res :
  verify_branch verifier reqid b boot toks r = Some res ->
  exists payload, encode (verification_dispatch reqid b boot toks r) = Ok payload /\
    verify_branch (fun _ => verifier payload) reqid b boot toks r = Some res.
Proof.
  unfold verify_branch. destruct (encode _) as [payload |]; [| discriminate].
  cbn [result_value mbind option_bind]. intros E. by exists payload.
Qed.

Lemma branch_loop_runs pfd vfd reqid pboot vboot n w :
  Forall event_ok (wd_script w) -> quiet pfd w -> is_Some (peers pfd) -> quiet vfd w -> is_Some (peers vfd) -> forall b r res,
  branch_loop (peer_at pfd) (peer_at vfd) reqid pboot vboot n b r = Some res ->
  runs (CoordinatorProcess.branch_loop pfd vfd reqid pboot vboot n b r) w res w.
Proof.
  intros F Qp Pp Qv Pv.
  induction n as [| n IH]; intros b r res; cbn [branch_loop CoordinatorProcess.branch_loop].
  { intros E. assert (res = (inr [], r)) as -> by congruence. apply runs_ret. }
  set (r1 := r <| cr_propGen ::= fun g => u64 (g + 1) |>).
  destruct (propose_branch _ reqid b pboot r1) as [drafted |] eqn:P;
    cbn [mbind option_bind]; [| discriminate].
  apply propose_branch_once in P as (payload & E & P). intros K.
  eapply runs_defined; [by rewrite E |]. eapply runs_bind; [by apply exchange_runs |].
  eapply runs_defined; [exact P |]. destruct drafted as [why | toks];
    [injection K as <-; apply runs_ret |].
  destruct (verify_branch _ reqid b vboot toks r1) as [verified |] eqn:V;
    cbn [mbind option_bind] in K; [| discriminate].
  apply verify_branch_once in V as (payload' & E' & V).
  eapply runs_defined; [by rewrite E' |]. eapply runs_bind; [by apply exchange_runs |].
  eapply runs_defined; [exact V |]. destruct verified as [why | br];
    [injection K as <-; apply runs_ret |].
  destruct (branch_loop _ _ _ _ _ n _ _) as [[rest r2] |] eqn:L; cbn [mbind option_bind] in K;
    [injection K as <- | discriminate].
  eapply runs_bind; [apply (IH _ _ _ L) |]. apply runs_ret.
Qed.

(** The world after replies to the driver. *)
Definition replied (sent : list bytes) (w : World) : World := w <| wd_outbox ::= fun o => o ++ sent |>.

Lemma replied_nil w : replied [] w = w.
Proof. destruct w. unfold replied. simpl. by rewrite app_nil_r. Qed.

(** A coordinator that can work: both workers and a driver. *)
Record ready (co : Coordinator) (w : World) : Prop := {
  re_script : Forall event_ok (wd_script w);
  re_hosting : hosting co w;
  re_manned : manned co;
  re_driver : 0 <= co_driverFd co
}.

Lemma ready_workers co w : ready co w ->
  (quiet (co_proposerFd co) w /\ is_Some (peers (co_proposerFd co))) /\
  (quiet (co_verifierFd co) w /\ is_Some (peers (co_verifierFd co))) /\
  quiet (co_driverFd co) w /\ peers (co_driverFd co) = None.
Proof.
  intros [_ [[|] [|] [|]] [Mp Mv] D]; try lia. split; [done | by split].
Qed.

Lemma driver_runs m q co w : ready co w -> encode m = Ok q ->
  runs (send_message (co_driverFd co) m) w true (replied [q] w).
Proof.
  intros (_ & _ & [B _] & N)%ready_workers E. unfold send_message. eapply runs_defined; [by rewrite E |].
  pose proof (runs_send ls 0 coordinator_deliver (co_driverFd co) q w B) as Sd. revert Sd.
  unfold coordinator_deliver. by rewrite N.
Qed.

Lemma drive_cycle_runs co reqid depth branches aligned r res w : ready co w ->
  drive_cycle (peer_at (co_proposerFd co)) (peer_at (co_verifierFd co)) reqid (co_proposerBoot co)
    (co_verifierBoot co) (co_epoch co) depth branches aligned r = Some res ->
  runs (CoordinatorProcess.drive_cycle co reqid depth branches aligned r) w res w.
Proof.
  intros R. pose proof (re_script _ _ R) as F.
  apply ready_workers in R as ([Qp Pp] & [Qv Pv] & _).
  unfold drive_cycle, CoordinatorProcess.drive_cycle. cbv zeta.
  set (r0 := _ <| cr_epoch := co_epoch co |>).
  destruct (branch_loop _ _ _ _ _ _ _ _) as [[l r1] |] eqn:L; cbn [mbind option_bind]; [| discriminate].
  intros K. eapply runs_bind; [by apply (branch_loop_runs _ _ _ _ _ _ _ F Qp Pp Qv Pv _ _ _ L) |].
  cbv beta iota. destruct l as [why | brs]; [injection K as <-; apply runs_ret |].
  destruct (winner brs) as [win |] eqn:Wn; cbn [mbind option_bind] in K; [| discriminate].
  destruct (commit_winner win r1) as [r2 |] eqn:Cm; cbn [mbind option_bind] in K;
    [injection K as <- | discriminate].
  eapply runs_defined; [reflexivity |]. eapply runs_defined; [exact Cm |]. apply runs_ret.
Qed.

(** The same connections. *)
Definition same_fds (co co' : Coordinator) : Prop :=
  co_proposerFd co' = co_proposerFd co /\ co_verifierFd co' = co_verifierFd co /\
  co_driverFd co' = co_driverFd co.

Lemma ready_same co co' sent w : same_fds co co' -> ready co w -> ready co' (replied sent w).
Proof.
  intros (E1 & E2 & E3) [F [P V D] [Mp Mv] N].
  constructor; [done | | split; lia | lia].
  constructor; by rewrite ?E1, ?E2, ?E3.
Qed.

Lemma on_submit_runs m co out co' q w : ready co w ->
  on_submit (peer_at (co_proposerFd co)) (peer_at (co_verifierFd co)) m co = Some (out, co') ->
  encode out = Ok q ->
  same_fds co co' /\ runs (CoordinatorProcess.on_submit m co) w co' (replied [q] w).
Proof.
  intros P. unfold on_submit, CoordinatorProcess.on_submit.
  destruct (u64_fields m !! 0%nat) as [reqid |]; [| discriminate].
  destruct (u32_fields m !! 0%nat) as [depth |]; [| discriminate].
  destruct (u32_fields m !! 1%nat) as [branches |]; [| discriminate].
  destruct (u32_fields m !! 2%nat) as [aligned |]; [| discriminate]. cbn [mbind option_bind].
  destruct (drive_cycle _ _ _ _ _ _ _ _ _ _) as [[res r] |] eqn:D; cbn [mbind option_bind];
    [| discriminate].
  intros [= <- <-] E. split; [done |]. do 4 (eapply runs_defined; [reflexivity |]).
  eapply runs_bind; [apply (drive_cycle_runs _ _ _ _ _ _ _ _ P D) |]. cbv beta iota.
  apply runs_print. eapply runs_bind; [exact (driver_runs _ q co w P E) |]. apply runs_ret.
Qed.

Lemma on_frame_runs p co sent co' more w : ready co w ->
  on_driver (peer_at (co_proposerFd co)) (peer_at (co_verifierFd co)) p co = Some (sent, co', more) ->
  same_fds co co' /\ runs (CoordinatorProcess.on_frame p co) w
    (if more : bool then inl co' else inr tt) (replied sent w).
Proof.
  intros P. unfold on_driver, CoordinatorProcess.on_frame. cbv zeta.
  assert (S : same_fds co co) by done.
  assert (Qt : runs (Ret (inl co : Coordinator + unit)) w (inl co) (replied [] w))
    by (rewrite replied_nil; apply runs_ret).
  destruct (decode p) as [m |]; [| by intros [= <- <- <-]].
  destruct (type m =? Msg.Shutdown).
  { intros [= <- <- <-]. split; [done |]. rewrite replied_nil. apply runs_ret. }
  destruct (type m =? Msg.ProposalResult).
  { destruct (on_replay m co) as [out |]; cbn [mbind option_bind]; [| discriminate].
    destruct (encode out) as [q |] eqn:E; [| discriminate]. intros [= <- <- <-].
    split; [done |]. eapply runs_defined; [reflexivity |].
    eapply runs_bind; [by apply driver_runs |]. apply runs_ret. }
  destruct (type m =? Msg.SubmitRequest).
  { destruct (on_submit _ _ m co) as [[out co1] |] eqn:R; cbn [mbind option_bind]; [| discriminate].
    destruct (encode out) as [q |] eqn:E; [| discriminate]. intros [= <- <- <-].
    destruct (on_submit_runs m co out co1 q w P R E) as [P1 K]. split; [exact P1 |].
    eapply runs_bind; [exact K |]. apply runs_ret. }
  destruct (type m =? Msg.Info); [| by intros [= <- <- <-]].
  destruct (on_command (body m) co) as [out co1] eqn:C.
  assert (P1 : same_fds co co1)
    by (revert C; unfold on_command; repeat case_bool_decide; by intros [= _ <-]).
  destruct out as [out |].
  - destruct (encode out) as [q |] eqn:E; [| discriminate]. intros [= <- <- <-].
    split; [exact P1 |]. pose proof (ready_same co co1 [] w P1 P) as P2.
    rewrite replied_nil in P2. eapply runs_bind; [by apply driver_runs |]. apply runs_ret.
  - intros [= <- <- <-]. split; [exact P1 |]. rewrite replied_nil. apply runs_ret.
Qed.

(** ** Lemmas: the main loop *)

Lemma close_all_runs fds w : runs (CoordinatorProcess.close_all fds) w tt w.
Proof.
  induction fds as [| fd fds IH]; cbn [CoordinatorProcess.close_all]; [apply runs_ret |].
  eapply runs_bind; [by apply runs_call | exact IH].
Qed.

Lemma accept_runs w : runs (accept_conn ls) w (to_int (accepted w).1) (accepted w).2.
Proof.
  unfold accept_conn. eapply runs_os; [| apply runs_ret]. simpl. by destruct (accepted w).
Qed.

Lemma accepted_arrival c p es w : wd_script w = Arrives c p :: es ->
  accepted w = (c, (met c es w) <| wd_inbox ::= insert c [p] |>).
Proof.
  intros S. unfold accepted, met. rewrite S. simpl. by rewrite insert_insert_eq.
Qed.

(** The announcement of a client that was accepted. *)
Lemma announcement_runs c p es w : 0 <= c < 2147483648 ->
  runs (recv_frame c) ((met c es w) <| wd_inbox ::= insert c [p] |>) (Some p) (met c es w).
Proof.
  intros B. set (w1 := (met c es w) <| wd_inbox ::= insert c [p] |>).
  assert (E : received c w1 = (Some p, met c es w)).
  { unfold received, waiting, w1. simpl. rewrite lookup_insert_eq. cbn [default]. f_equal.
    unfold met. simpl. by rewrite !insert_insert_eq. }
  pose proof (runs_recv ls 0 coordinator_deliver c w1 B) as R. by rewrite E in R.
Qed.

(** Nobody is at the door. *)
Definition door_closed (w : World) : Prop :=
  match wd_script w with Arrives _ _ :: _ => False | _ => True end.

(** The events still to come, up to a shutdown, and who is connected. *)
Record due (events : list Event) (co : Coordinator) (w : World) : Prop := {
  du_script : wd_script w = events;
  du_ok : Forall event_ok events;
  du_hosting : hosting co w;
  du_manned : manned co;
  du_end : Exists shuts_down events
}.

(** All clients at the door are let in. *)
Lemma drain_runs events : forall co w, due events co w ->
  exists co' rest w',
    runs (ITree.iter (CoordinatorProcess.drain ls) (co, to_int (accepted w).1)) (accepted w).2 co' w' /\
    due rest co' w' /\ door_closed w' /\ (length rest <= length events)%nat /\
    attend rest co' = attend events co /\ wd_outbox w' = wd_outbox w.
Proof.
  induction events as [| e events IH]; intros co w D.
  { by pose proof (du_end _ _ _ D) as E%Exists_nil. }
  destruct e as [c p | s p | s].
  2,3: (pose proof (du_script _ _ _ D) as S; eexists co, _, w; unfold accepted, door_closed; rewrite S;
    split_and!; try done; apply runs_iter_last, runs_ret).
  destruct D as [S F H M E]. apply Forall_cons in F as [Fc F].
  apply Exists_cons in E as [[] | E]. pose proof Fc as [B _].
  rewrite (accepted_arrival _ _ _ _ S). cbn [fst snd]. rewrite to_int_small by done.
  destruct (hosting_drain c p events co w Fc H M) as [H1 M1].
  set (co1 := (drain_hello c (decode p) co).1) in *. set (w1 := met c events w) in *.
  destruct (IH co1 w1) as (co' & rest & w' & R & D' & C & Ln & A & O); [by constructor |].
  exists co', rest, w'. split_and!; try done; [| simpl; lia].
  eapply runs_iter_next; [| exact R]. unfold CoordinatorProcess.drain.
  rewrite (proj2 (Z.ltb_ge c 0)) by lia. eapply runs_os; [reflexivity |].
  eapply runs_bind; [by apply announcement_runs |]. cbv beta iota. unfold co1.
  destruct (drain_hello c (decode p) co) as [co2 closed]. cbn [fst].
  eapply runs_bind; [apply close_all_runs |].
  eapply (runs_bind _ _ _ _ tt);
    [destruct (CoordinatorProcess.connected_line _ _); [by apply runs_call | apply runs_ret] |].
  eapply runs_bind; [apply accept_runs | apply runs_ret].
Qed.

Lemma drain_accepts_runs events co w : due events co w ->
  exists co' rest w', runs (CoordinatorProcess.drain_accepts ls co) w co' w' /\
    due rest co' w' /\ door_closed w' /\ (length rest <= length events)%nat /\
    attend rest co' = attend events co /\ wd_outbox w' = wd_outbox w.
Proof.
  intros D. destruct (drain_runs events co w D) as (co' & rest & w' & R & K).
  exists co', rest, w'. split; [| exact K]. eapply runs_bind; [apply accept_runs | exact R].
Qed.

Lemma shutdown_stops proposer verifier p co :
  shutdown p -> on_driver proposer verifier p co = Some ([], co, false).
Proof. intros (m & D & T). unfold on_driver. by rewrite D, T. Qed.

(** The driver speaks: its frame is received, or its end is. *)
Lemma driver_heard e es co w : due (e :: es) co w -> 0 <= co_driverFd co ->
  speaks (co_driverFd co) w = true ->
  runs (recv_frame (co_driverFd co)) w (match e with Sends _ p => Some p | _ => None end)
    (w <| wd_script := es |>).
Proof.
  intros [S _ [_ _ [N | [Q _]]] _ _] P Sp; [lia |]. pose proof (quiet_waiting _ _ Q) as Wt.
  destruct Q as [B _]. pose proof (runs_recv ls 0 coordinator_deliver _ w B) as R. revert R.
  unfold received. rewrite Wt, Sp, S. by destruct e as [c p | s p | s]; [unfold speaks in Sp; rewrite S in Sp | |].
Qed.

(** One round, and what it leaves of the events. *)
Definition round_left (events : list Event) (sent : list bytes) (final : Coordinator)
    (out : list bytes) (next : Coordinator + unit) (w : World) : Prop :=
  match next with
  | inl co => exists rest sent', due rest co w /\ (length rest < length events)%nat /\
      attend rest co = Some (sent', final) /\ sent = out ++ sent'
  | inr _ => sent = out
  end.

Lemma frame_runs s p es co w sent final : due (Sends s p :: es) co w -> s = co_driverFd co ->
  0 <= co_driverFd co -> attend (Sends s p :: es) co = Some (sent, final) ->
  exists out next w', runs (CoordinatorProcess.on_frame p co) (w <| wd_script := es |>) next w' /\
    wd_outbox w' = wd_outbox w ++ out /\ round_left (Sends s p :: es) sent final out next w'.
Proof.
  intros [S F H M E] Es N A. cbn [attend] in A. rewrite (proj2 (Z.eqb_eq _ _) Es) in A.
  destruct (on_driver _ _ p co) as [[[out co1] more] |] eqn:D; cbn [mbind option_bind] in A;
    [| discriminate].
  set (w1 := w <| wd_script := es |>). apply Forall_cons in F as [_ F].
  assert (R : ready co w1) by (constructor; [exact F | by apply hosting_script | done | done]).
  destruct (on_frame_runs p co out co1 more w1 R D) as [Sf K]. eexists out, _, _.
  split; [exact K |]. split; [done |]. destruct more; [| by injection A].
  destruct (attend es co1) as [[rest co2] |] eqn:At; cbn [mbind option_bind] in A; [| discriminate].
  injection A as <- <-. exists es, rest. split; [| split; [simpl; lia | done]].
  destruct (ready_same co co1 out w1 Sf R) as [F' H' M' _]. constructor; try done.
  apply Exists_cons in E as [E | E]; [| exact E].
  by rewrite (shutdown_stops _ _ p co E) in D.
Qed.

Lemma gone_runs s es co w sent final : due (Leaves s :: es) co w -> s = co_driverFd co ->
  0 <= co_driverFd co -> attend (Leaves s :: es) co = Some (sent, final) ->
  round_left (Leaves s :: es) sent final [] (inl (driver_gone co)) (w <| wd_script := es |>).
Proof.
  intros [S F [P V D] M E] Es N A. cbn [attend] in A. rewrite (proj2 (Z.eqb_eq _ _) Es) in A.
  apply Forall_cons in F as [_ F]. apply Exists_cons in E as [[] | E].
  exists es, sent. split; [| split; [simpl; lia | done]]. constructor; try done.
  constructor; [exact P | exact V | by left].
Qed.

(** A round after the clients at the door. *)
Definition listening (co : Coordinator) : Process (Coordinator + unit) :=
  if co_driverFd co <? 0 then let! _ := os (Sleep 10) in Ret (inl co)
  else
    let! selected := os (SelectRead (to_socket (co_driverFd co)) 200000) in
    let '(sr, in_set) := selected in
    if sr <=? 0 then let! _ := os (Sleep 10) in Ret (inl co)
    else if negb in_set then Ret (inl co)
    else
      let! frame := recv_frame (co_driverFd co) in
      match frame with
      | None =>
          let! _ := closesocket (co_driverFd co) in
          let! _ := os (Print "coordinator: driver disconnected (waiting)") in
          Ret (inl (driver_gone co))
      | Some p => CoordinatorProcess.on_frame p co
      end.

Lemma listening_runs e es co w sent final : due (e :: es) co w -> door_closed w ->
  attend (e :: es) co = Some (sent, final) ->
  exists out next w', runs (listening co) w next w' /\ wd_outbox w' = wd_outbox w ++ out /\
    round_left (e :: es) sent final out next w'.
Proof.
  intros D C A. pose proof (du_script _ _ _ D) as S. pose proof (du_ok _ _ _ D) as F.
  apply Forall_cons in F as [Fe _]. unfold door_closed in C. rewrite S in C.
  assert (Es : match e with Sends s _ | Leaves s => s = co_driverFd co /\ 0 <= s | _ => False end).
  { destruct e as [c p | s p | s]; [done | |]; cbn [attend] in A;
      destruct (Z.eqb_spec s (co_driverFd co)); try discriminate; split; try done; apply Fe. }
  assert (N : 0 <= co_driverFd co) by (destruct e; [done | |]; destruct Es as [<- ?]; done).
  assert (Sp : speaks (co_driverFd co) w = true)
    by (unfold speaks; rewrite S; destruct e; [done | |]; destruct Es as [<- ?]; apply Z.eqb_refl).
  assert (B : 0 <= co_driverFd co < 2147483648)
    by (destruct (ho_driver _ _ (du_hosting _ _ _ D)) as [? | [[? _] _]]; [lia | done]).
  pose proof (driver_heard e es co w D N Sp) as H. unfold listening. rewrite (proj2 (Z.ltb_ge _ 0) N).
  destruct e as [c p | s p | s]; [done | |]; destruct Es as [Es _].
  - destruct (frame_runs s p es co w sent final D Es N A) as (out & next & w' & K & O & L).
    exists out, next, w'. split; [| done]. eapply runs_os; [simpl; by rewrite to_socket_small, Sp |].
    cbv beta iota. cbn [Z.leb Z.compare negb]. eapply runs_bind; [exact H | exact K].
  - eexists [], (inl (driver_gone co)), _. split; [| split; [| by apply (gone_runs s es co)]].
    + eapply runs_os; [simpl; by rewrite to_socket_small, Sp |]. cbv beta iota.
      cbn [Z.leb Z.compare negb]. eapply runs_bind; [exact H |]. cbv beta iota.
      eapply runs_bind; [by apply runs_call |]. apply runs_print. apply runs_ret.
    + simpl. by rewrite app_nil_r.
Qed.

Lemma round_runs events co w sent final : due events co w -> attend events co = Some (sent, final) ->
  exists out next w', runs (CoordinatorProcess.round ls co) w next w' /\
    wd_outbox w' = wd_outbox w ++ out /\ round_left events sent final out next w'.
Proof.
  intros D A. destruct (drain_accepts_runs events co w D) as (co1 & rest & w1 & R & D1 & C & Ln & A1 & O).
  rewrite <- A1 in A. destruct rest as [| e es]; [by pose proof (du_end _ _ _ D1) as E%Exists_nil |].
  destruct (listening_runs e es co1 w1 sent final D1 C A) as (out & next & w' & K & O' & L).
  exists out, next, w'. split; [eapply runs_bind; [exact R | exact K] |]. rewrite O', O. split; [done |].
  destruct next as [co2 |]; [| done]. destruct L as (rest' & sent' & D2 & Ln' & L).
  exists rest', sent'. split; [done |]. split; [lia | done].
Qed.

(** All the rounds. *)
Lemma rounds_run n : forall events co w sent final, (length events <= n)%nat ->
  due events co w -> attend events co = Some (sent, final) ->
  exists w', runs (ITree.iter (CoordinatorProcess.round ls) co) w tt w' /\
    wd_outbox w' = wd_outbox w ++ sent.
Proof.
  induction n as [| n IH]; intros events co w sent final Ln D A.
  { destruct events; [by pose proof (du_end _ _ _ D) as E%Exists_nil | simpl in Ln; lia]. }
  destruct (round_runs events co w sent final D A) as (out & next & w1 & R & O & L).
  destruct next as [co1 | []].
  - destruct L as (rest & sent' & D1 & Ln1 & A1 & ->).
    destruct (IH rest co1 w1 sent' final) as (w' & K & O'); [lia | done | done |].
    exists w'. split; [by eapply runs_iter_next |]. by rewrite O', O, <- app_assoc.
  - simpl in L. subst sent. exists w1. split; [by apply runs_iter_last | exact O].
Qed.

(** ** Lemmas: the startup *)

Lemma gather_runs events : forall co w co' rest, wd_script w = events -> Forall event_ok events ->
  hosting co w -> gather events co = Some (co', rest) ->
  exists w', runs (ITree.iter (CoordinatorProcess.startup ls) co) w (Some co') w' /\
    wd_script w' = rest /\ Forall event_ok rest /\ hosting co' w' /\ all_connected co' = true /\
    wd_outbox w' = wd_outbox w.
Proof.
  induction events as [| e events IH]; intros co w co' rest S F H; cbn [gather];
    destruct (all_connected co) eqn:Al.
  1,3: (intros [= <- <-]; exists w; split_and!; try done; apply runs_iter_last;
        unfold CoordinatorProcess.startup; rewrite Al; apply runs_ret).
  { discriminate. }
  destruct e as [c p | |]; [| discriminate..]. intros G. apply Forall_cons in F as [Fc F].
  pose proof (hosting_startup c p events co w Fc H) as H1. pose proof Fc as [B _].
  destruct (IH _ (met c events w) co' rest eq_refl F H1 G) as (w' & R & K).
  exists w'. split; [| exact K]. eapply runs_iter_next; [| exact R].
  unfold CoordinatorProcess.startup. rewrite Al. eapply runs_bind; [apply accept_runs |].
  rewrite (accepted_arrival _ _ _ _ S). cbn [fst snd]. rewrite to_int_small by done.
  rewrite (proj2 (Z.ltb_ge c 0)) by lia. eapply runs_bind; [by apply announcement_runs |].
  cbv beta iota. unfold startup_hello. destruct (decode p) as [h |].
  2: { eapply runs_bind; [by apply runs_call | apply runs_ret]. }
  destruct (negb (type h =? Msg.Hello)); [| apply runs_ret].
  eapply runs_bind; [by apply runs_call | apply runs_ret].
Qed.

Lemma listen_runs port w : runs (listen_port port EmptyString) w (ls, EmptyString) w.
Proof.
  unfold listen_port. eapply runs_os; [reflexivity |].
  rewrite (proj2 (Z.eqb_neq ls INVALID_SOCKET)) by (unfold INVALID_SOCKET; lia).
  eapply runs_os; [reflexivity |]. eapply runs_os; [reflexivity |]. cbn [negb].
  eapply runs_os; [reflexivity |]. cbn [negb]. rewrite to_int_small by done. apply runs_ret.
Qed.

(** C12: the coordinator process refines the pure coordinator, and ends.  Over
    a working network on which clients connect and announce their roles, at the
    start and at any time later, workers answer anything or nothing, and the
    driver sends frames, leaves and is replaced, in any order up to a
    [Shutdown]: if the roles gather and the replies are defined, [main] returns
    0 and has sent exactly the replies that the pure code gives to these
    events, in order. *)
Theorem coordinator_serves name port events co rest sent final :
  0 <= port < 2147483648 -> Forall event_ok events ->
  gather events new_coordinator = Some (co, rest) -> Exists shuts_down rest ->
  attend rest (start_work co) = Some (sent, final) ->
  exists w', runs (CoordinatorProcess.main [name; pretty port]) (mkWorld events ∅ []) 0 w' /\
    wd_outbox w' = sent.
Proof.
  intros Hp F G E A.
  destruct (gather_runs events new_coordinator (mkWorld events ∅ []) co rest)
    as (w1 & R & S1 & F1 & H1 & Al & O1); [done | done | constructor; by left | done |].
  assert (D : due rest (start_work co) w1).
  { constructor; [done | done | by destruct H1 | | done]. unfold all_connected in Al.
    apply negb_true_iff, orb_false_iff in Al as [Al _]. apply orb_false_iff in Al as [A1 A2].
    split; simpl; lia. }
  destruct (rounds_run (length rest) rest (start_work co) w1 sent final (le_n _) D A) as (w' & K & O').
  exists w'. split; [| by rewrite O', O1]. unfold CoordinatorProcess.main.
  cbn [zlen length Z.of_nat Z.ltb arg nth].
  eapply runs_defined; [unfold port_of; by rewrite atoi_pretty |].
  eapply runs_os; [reflexivity |]. eapply runs_bind; [apply listen_runs |].
  cbv beta iota. rewrite (proj2 (Z.ltb_ge ls 0)) by lia. apply runs_print.
  eapply runs_bind; [exact R |]. cbv beta iota. apply runs_print.
  eapply runs_os; [reflexivity |]. apply runs_print. eapply runs_bind; [exact K |].
  apply runs_print. eapply runs_os; [reflexivity |]. apply runs_ret.
Qed.
End Attend.

(** ** A deployment in which everybody comes back *)

(** Two workers and the driver gather and the driver submits; the proposer is
    started again, under another boot identity, and the driver is replaced; the
    new driver asks for the status and shuts the coordinator down. *)
Definition comings_and_goings : list Event :=
  [Arrives 5 (payload_of (worker_hello "proposer" 100));
   Arrives 6 (payload_of (worker_hello "verifier" 200));
   Arrives 7 (payload_of driver_hello); Sends 7 submission;
   Arrives 8 (payload_of (worker_hello "proposer" 101)); Leaves 7;
   Arrives 9 (payload_of driver_hello); Sends 9 (payload_of (text Msg.Info "status"));
   Sends 9 shutdown_payload].

Definition worker_ends (s : Z) : option Peer :=
  if (s =? 5) || (s =? 6) || (s =? 8) then Some worker_peer else None.

(** All of it in one: the roles gather, and two replies are sent, the commit
    and the status. *)
Definition attended (o : option (Coordinator * list Event)) : bool :=
  match o with
  | Some (co, rest) =>
      (match attend worker_ends rest (start_work co) with
       | Some (sent, _) => zlen sent =? 2
       | None => false
       end) && (zlen rest =? 6)
  | None => false
  end.

Lemma attended_spec o : attended o = true ->
  exists co rest sent final, o = Some (co, rest) /\
    attend worker_ends rest (start_work co) = Some (sent, final) /\ zlen sent = 2 /\ zlen rest = 6.
Proof.
  destruct o as [[co rest] |]; [| discriminate]. unfold attended.
  destruct (attend _ _ _) as [[sent final] |] eqn:A; [| discriminate].
  intros [E%Z.eqb_eq N%Z.eqb_eq]%andb_true_iff. by exists co, rest, sent, final.
Qed.

(** What remains of the events is an end of them. *)
Lemma gather_suffix events : forall co co' rest, gather events co = Some (co', rest) ->
  exists before, events = before ++ rest.
Proof.
  induction events as [| e events IH]; intros co co' rest; cbn [gather];
    destruct (all_connected co); try discriminate.
  1,2: by intros [= <- <-]; exists [].
  destruct e as [c p | |]; try discriminate. intros [before ->]%IH. by exists (Arrives c p :: before).
Qed.

Lemma last_shuts_down before rest s : shutdown shutdown_payload ->
  forall front, front ++ [Sends s shutdown_payload] = before ++ rest -> 0 < zlen rest ->
  Exists shuts_down rest.
Proof.
  intros S front E N. destruct (exists_last (l := rest)) as (l & e & ->); [by intros -> |].
  rewrite app_assoc in E. apply app_inj_tail in E as [_ <-]. apply Exists_app. right. by constructor.
Qed.

Lemma arrival_ok c m : hello_ok (payload_of m) m = true -> 0 <= c < 2147483648 ->
  (first_or_zero (u32_fields m) = kRoleDriver -> worker_ends c = None) ->
  (first_or_zero (u32_fields m) = kRoleProposer \/ first_or_zero (u32_fields m) = kRoleVerifier ->
   is_Some (worker_ends c)) ->
  event_ok worker_ends (Arrives c (payload_of m)).
Proof. intros [_ D]%hello_ok_spec B N P. split; [exact B |]. rewrite D. intros h [= <-]. by split. Qed.

Lemma comings_and_goings_ok : Forall (event_ok worker_ends) comings_and_goings.
Proof.
  assert (T : hello_ok (payload_of (worker_hello "proposer" 100)) (worker_hello "proposer" 100) &&
    hello_ok (payload_of (worker_hello "verifier" 200)) (worker_hello "verifier" 200) &&
    hello_ok (payload_of (worker_hello "proposer" 101)) (worker_hello "proposer" 101) &&
    hello_ok (payload_of driver_hello) driver_hello = true) by (by vm_compute).
  apply andb_true_iff in T as [T H4]. apply andb_true_iff in T as [T H3].
  apply andb_true_iff in T as [H1 H2]. unfold comings_and_goings.
  repeat apply Forall_cons_2; try apply Forall_nil_2.
  - apply (arrival_ok 5 _ H1); [lia | discriminate | intros _; by exists worker_peer].
  - apply (arrival_ok 6 _ H2); [lia | discriminate | intros _; by exists worker_peer].
  - apply (arrival_ok 7 _ H4); [lia | reflexivity | by intros [|]].
  - by split.
  - apply (arrival_ok 8 _ H3); [lia | discriminate | intros _; by exists worker_peer].
  - by split.
  - apply (arrival_ok 9 _ H4); [lia | reflexivity | by intros [|]].
  - by split.
  - by split.
Qed.

Lemma coordinator_serves_witness :
  exists sent w',
    runs (answer 4 0 (coordinator_deliver worker_ends))
      (CoordinatorProcess.main ["sf_coordinator"; pretty 9000])
      (mkWorld comings_and_goings ∅ []) 0 w' /\
    wd_outbox w' = sent /\ zlen sent = 2.
Proof.
  assert (T : hello_ok shutdown_payload (message Msg.Shutdown [] [] []) &&
    attended (gather comings_and_goings new_coordinator) = true) by (by vm_compute).
  apply andb_true_iff in T as [H G]. apply hello_ok_spec in H as [_ D].
  apply attended_spec in G as (co & rest & sent & final & G & A & N & L).
  destruct (gather_suffix _ _ _ _ G) as [before B].
  assert (E : Exists shuts_down rest).
  { apply (last_shuts_down before rest 9 ltac:(by exists (message Msg.Shutdown [] [] []))
      (take 8 comings_and_goings)); [exact B | rewrite L; reflexivity]. }
  destruct (coordinator_serves worker_ends 4 ltac:(lia) "sf_coordinator" 9000 comings_and_goings co rest
    sent final ltac:(lia) comings_and_goings_ok G E A) as (w' & R & O).
  exists sent.
  exists w'.
  split; [exact R |].
  split; [exact O |].
  exact N.
Defined.
