(* ===== verification/Trial.v ===== *)
(** * The distributed scenario, as the driver process runs it

    tools/run_distributed_scenario.ps1 starts a coordinator, two workers and
    the driver, restarts the proposer when the driver says it is ready, and
    tells the driver when the new proposer has connected.  Here the driver
    process of Processes.v runs against the coordinator of Coordinator.v over
    a working network: what it sends is answered as the coordinator answers
    it, and the restart takes as many polls of the driver as it takes. *)

From stdpp Require Import gmap.
From ITree Require Import ITree.
From S2P Require Import Prelude Errors Ids Cli Bytes Wire Worker Coordinator Cluster Driver.
From S2P Require Import Net Processes Service Attend.

(** ** The other side *)

(** The coordinator before the driver's announcement, while it serves, and
    after its shutdown. *)
Inductive Stage : Type :=
| Starting (co : Coordinator)
| Serving (co : Coordinator)
| Stopped.

(** The polls until the restart is done, the coordinator, the replies on their
    way to the driver, and the lines it printed. *)
Record Trial : Type := mkTrial {
  tr_polls : nat;
  tr_stage : Stage;
  tr_inbox : list bytes;
  tr_lines : list string
}.

#[export] Instance eta_Trial : Etable Trial := fun t =>
  mkTrial (tr_polls t) (tr_stage t) (tr_inbox t) (tr_lines t).

Section Rehearsal.
  Context (fd : Z) (proposer verifier : Peer) (restart : Message).

(** A frame of the driver reaches the coordinator. *)
Definition reach (p : bytes) (t : Trial) : option (bool * Trial) :=
  match tr_stage t with
  | Starting co =>
      Some (true, t <| tr_stage := Serving (start_work (startup_hello 7 (decode p) co)) |>)
  | Serving co =>
      '(replies, co, more) ← on_driver proposer verifier p co;
      Some (true, t <| tr_stage := if more : bool then Serving co else Stopped |>
                    <| tr_inbox ::= fun l => l ++ replies |>)
  | Stopped => Some (false, t)
  end.

(** The new proposer has connected. *)
Definition reconnected (t : Trial) : Trial :=
  match tr_stage t with
  | Serving co => t <| tr_stage := Serving (drain_hello 8 (Ok restart) co).1 |>
  | _ => t
  end.

(** The answers of the system. *)
Definition trial_answer (T : Type) (e : netE T) : Trial -> option (T * Trial) :=
  match e in netE T return Trial -> option (T * Trial) with
  | WsaStartup => fun t => Some (true, t)
  | WsaCleanup => fun t => Some (tt, t)
  | NewSocket => fun t => Some (fd, t)
  | SetReuseAddr _ => fun t => Some (tt, t)
  | BindLoopback _ _ => fun t => Some (true, t)
  | ListenOn _ => fun t => Some (true, t)
  | InetPton _ => fun t => Some (Some 0, t)
  | ConnectTo _ _ _ => fun t => Some (None, t)
  | AcceptFrom _ => fun t => Some (INVALID_SOCKET, t)
  | CloseSocket _ => fun t => Some (tt, t)
  | SetNonBlocking _ _ => fun t => Some (tt, t)
  | SetRecvTimeout _ _ => fun t => Some (tt, t)
  | SelectRead s _ => fun t => Some ((0, false), t)
  | SendFrame s p => reach p
  | RecvFrame s => fun t =>
      match tr_inbox t with
      | [] => Some (None, t)
      | p :: l => Some (Some p, t <| tr_inbox := l |>)
      end
  | LastError => fun t => Some (0, t)
  | Print line => fun t => Some (tt, t <| tr_lines ::= fun l => l ++ [line] |>)
  | Sleep _ => fun t => Some (tt, t)
  | GetPid => fun t => Some (0, t)
  | FileExists _ => fun t =>
      match tr_polls t with
      | O => Some (true, reconnected t)
      | S n => Some (false, t <| tr_polls := n |>)
      end
  | RemoveFile _ => fun t => Some (tt, t)
  | WriteFile _ _ => fun t => Some (tt, t)
  | Undefined => fun _ => None
  end.

Abbreviation runs := (runs trial_answer).

(** ** What the script finds *)

(** One question, which the coordinator answers with one frame. *)
Definition ask (m : Message) (co : Coordinator) : option (Message * Coordinator) :=
  p ← result_value (encode m);
  '(replies, co, more) ← on_driver proposer verifier p co;
  match replies, more with
  | [r], true => Some (value_or (decode r) (message Msg.Null [] [] []), co)
  | _, _ => None
  end.

(** The failures of a list of checks. *)
Fixpoint assess (checks : list DriverProcess.Check) (co : Coordinator) (failures : Z)
  : option (Z * Coordinator) :=
  match checks with
  | [] => Some (failures, co)
  | c :: checks =>
      '(reply, co) ← ask (s_message (DriverProcess.ck_step c)) co;
      _ ← DriverProcess.ck_got c reply;
      assess checks co (if s_expect (DriverProcess.ck_step c) reply then failures else failures + 1)
  end.

(** ** Lemmas *)

Context (Hfd : 0 <= fd < 2147483648).

(** A trial in which the coordinator serves and no reply is under way. *)
Definition at_rest (k : nat) (co : Coordinator) (t : Trial) : Prop :=
  tr_polls t = k /\ tr_stage t = Serving co /\ tr_inbox t = [].

Lemma trial_print {R} line (k : unit -> Process R) t r t' :
  runs (k tt) (t <| tr_lines ::= fun l => l ++ [line] |>) r t' ->
  runs (ITree.bind (os (Print line)) k) t r t'.
Proof. by apply runs_os. Qed.

Lemma asks m co reply co' k t : at_rest k co t -> ask m co = Some (reply, co') ->
  exists t1 t2, runs (DriverProcess.sendm fd m) t true t1 /\
    runs (DriverProcess.recvm fd) t1 reply t2 /\ at_rest k co' t2 /\ tr_lines t2 = tr_lines t.
Proof.
  intros (K & S & I). unfold ask. destruct (encode m) as [p |] eqn:E; [| discriminate].
  cbn [result_value mbind option_bind].
  destruct (on_driver proposer verifier p co) as [[[replies co1] more] |] eqn:D;
    cbn [mbind option_bind]; [| discriminate].
  destruct replies as [| r []]; try discriminate. destruct more; [| discriminate].
  intros Q. assert (reply = value_or (decode r) (message Msg.Null [] [] [])) as -> by congruence.
  assert (co1 = co') as -> by congruence.
  set (t1 := t <| tr_stage := Serving co' |> <| tr_inbox ::= fun l => l ++ [r] |>).
  exists t1, (t1 <| tr_inbox := [] |>). split; [| split; [| done]].
  - unfold DriverProcess.sendm. rewrite E. apply runs_call. unfold trial_answer, reach.
    rewrite S, D. reflexivity.
  - unfold DriverProcess.recvm. apply (runs_bind _ _ _ _ (Some r) (t1 <| tr_inbox := [] |>));
      [| apply runs_ret]. apply runs_call. unfold trial_answer, t1. simpl. by rewrite I.
Qed.

Lemma perform_runs c co k t reply co' n : at_rest k co t ->
  ask (s_message (DriverProcess.ck_step c)) co = Some (reply, co') ->
  is_Some (DriverProcess.ck_got c reply) ->
  exists t', runs (DriverProcess.perform fd c n) t
      (if s_expect (DriverProcess.ck_step c) reply then n else n + 1) t' /\ at_rest k co' t'.
Proof.
  intros A Q [got G]. destruct (asks _ _ _ _ _ _ A Q) as (t1 & t2 & S & R & B & _).
  eexists. split.
  - unfold DriverProcess.perform. eapply runs_bind; [exact S |]. eapply runs_bind; [exact R |].
    eapply runs_defined; [exact G |]. apply trial_print. apply runs_ret.
  - exact B.
Qed.

Lemma perform_all_runs checks : forall co k t n m co', at_rest k co t ->
  assess checks co n = Some (m, co') ->
  exists t', runs (DriverProcess.perform_all fd checks n) t m t' /\ at_rest k co' t'.
Proof.
  induction checks as [| c checks IH]; intros co k t n m co' A; cbn [assess].
  { intros E. assert (n = m /\ co = co') as [-> ->] by (split; congruence).
    exists t. split; [apply runs_ret | done]. }
  destruct (ask _ co) as [[reply co1] |] eqn:Q; cbn [mbind option_bind]; [| discriminate].
  destruct (DriverProcess.ck_got c reply) as [got |] eqn:G; [| discriminate]. intros E.
  destruct (perform_runs c co k t reply co1 n A Q) as (t1 & R & B); [by rewrite G |].
  destruct (IH co1 k t1 _ m co' B E) as (t' & R' & B'). exists t'. split; [| exact B'].
  cbn [DriverProcess.perform_all]. by eapply runs_bind.
Qed.

(** The wait ends with the restart when that takes at most the polls left, and
    without it otherwise. *)
Definition awaited (k : nat) (waited : Z) (co : Coordinator) : Coordinator :=
  if Z.of_nat k + waited <=? 300 then (drain_hello 8 (Ok restart) co).1 else co.

Lemma wait_runs path k : forall waited co t, 0 <= waited <= 300 -> at_rest k co t ->
  exists k' t', runs (ITree.iter (DriverProcess.wait path) waited) t tt t' /\
    at_rest k' (awaited k waited co) t'.
Proof.
  induction k as [| k IH]; intros waited co t B (K & St & I).
  { exists O, (reconnected t). split.
    - apply runs_iter_last. unfold DriverProcess.wait. eapply runs_os.
      { unfold trial_answer. rewrite K. reflexivity. }
      cbn [negb andb]. apply runs_ret.
    - unfold reconnected, awaited. rewrite St, (proj2 (Z.leb_le _ 300)) by lia. done. }
  destruct (Z.ltb_spec waited 300) as [L | L].
  - destruct (IH (waited + 1) co (t <| tr_polls := k |>)) as (k' & t' & R & A); [lia | done |].
    exists k', t'. split.
    + eapply runs_iter_next; [| exact R]. unfold DriverProcess.wait. eapply runs_os.
      { unfold trial_answer. rewrite K. reflexivity. }
      rewrite (proj2 (Z.ltb_lt waited 300)) by done. cbn [negb andb]. eapply runs_os; [reflexivity |].
      apply runs_ret.
    + unfold awaited in *. replace (Z.of_nat (S k) + waited) with (Z.of_nat k + (waited + 1)) by lia.
      exact A.
  - exists k, (t <| tr_polls := k |>). split.
    + apply runs_iter_last. unfold DriverProcess.wait. eapply runs_os.
      { unfold trial_answer. rewrite K. reflexivity. }
      rewrite (proj2 (Z.ltb_ge waited 300)) by done. cbn [negb andb]. apply runs_ret.
    + unfold awaited. rewrite (proj2 (Z.leb_gt _ 300)) by lia. done.
Qed.

(** What the script finds from the driver's announcement on: the failures, with
    the restart after so many polls. *)
Definition rehearse (polls : nat) (co : Coordinator) : option (Z * Coordinator) :=
  let co := start_work (startup_hello 7 (Ok (message Msg.Hello [12345] [kRoleDriver] [])) co) in
  '(n, co) ← assess DriverProcess.first_checks co 0;
  '(n, co) ← assess DriverProcess.later_checks (awaited polls 0 co) n;
  '(_, co) ← ask (text Msg.Info "status") co;
  Some (n, co).

(** The last line. *)
Definition verdict_line (failures : Z) : string :=
  "driver: " +:+ (if failures =? 0 then "ALL_OK" else "HAD_FAILURES") +:+
  " (" +:+ pretty failures +:+ " failures)".

Lemma hello_reaches co k : exists t,
  runs (DriverProcess.sendm fd (message Msg.Hello [12345] [kRoleDriver] []))
    (mkTrial k (Starting co) [] []) true t /\
  at_rest k (start_work (startup_hello 7 (Ok (message Msg.Hello [12345] [kRoleDriver] [])) co)) t.
Proof.
  set (m := message Msg.Hello [12345] [kRoleDriver] []).
  assert (Wf : wf_message m)
    by (apply wf_intro; [done | | | constructor | done | done | done]; repeat constructor; in_range).
  destruct (decode_encode m Wf) as (p & E & D).
  exists (mkTrial k (Serving (start_work (startup_hello 7 (Ok m) co))) [] []). split; [| done].
  unfold DriverProcess.sendm. rewrite E. apply runs_call. unfold trial_answer, reach. cbn [tr_stage].
  by rewrite D.
Qed.

Lemma shutdown_reaches co k t : at_rest k co t -> exists t',
  runs (DriverProcess.sendm fd (message Msg.Shutdown [] [] [])) t true t' /\ tr_stage t' = Stopped.
Proof.
  intros (_ & St & _). set (m := message Msg.Shutdown [] [] []).
  assert (Wf : wf_message m) by (apply wf_intro; try done; constructor).
  destruct (decode_encode m Wf) as (p & E & D). eexists. split.
  - unfold DriverProcess.sendm. rewrite E. apply runs_call. unfold trial_answer, reach.
    rewrite St, (shutdown_stops proposer verifier p co) by (by exists m). reflexivity.
  - done.
Qed.

Lemma connect_runs host port t :
  runs (connect_port host port EmptyString) t (fd, EmptyString) t.
Proof.
  unfold connect_port. eapply runs_os; [reflexivity |].
  rewrite (proj2 (Z.eqb_neq fd INVALID_SOCKET)) by (unfold INVALID_SOCKET; lia).
  do 2 (eapply runs_os; [reflexivity |]). rewrite to_int_small by done. apply runs_ret.
Qed.

Lemma main_runs name host port tmp polls co n co' : 0 <= port < 2147483648 ->
  rehearse polls co = Some (n, co') ->
  exists t', runs (DriverProcess.main [name; host; pretty port; tmp])
      (mkTrial polls (Starting co) [] []) (if n =? 0 then 0 else 1) t' /\
    tr_stage t' = Stopped /\ last (tr_lines t') = Some (verdict_line n).
Proof.
  intros Hp. unfold rehearse. cbv zeta.
  destruct (hello_reaches co polls) as (t0 & R0 & A0).
  set (co1 := start_work _) in *.
  destruct (assess _ co1 0) as [[n1 co2] |] eqn:E1; cbn [mbind option_bind]; [| discriminate].
  destruct (perform_all_runs _ _ _ _ _ _ _ A0 E1) as (t1 & R1 & A1).
  destruct (assess _ _ n1) as [[n2 co3] |] eqn:E2; cbn [mbind option_bind]; [| discriminate].
  destruct (ask _ co3) as [[reply co4] |] eqn:E3; cbn [mbind option_bind]; [| discriminate].
  intros Q. assert (n2 = n) as -> by congruence. clear Q.
  set (t2 := t1 <| tr_lines ::= fun l => l ++ ["driver: restart-waiting"] |>).
  assert (A2 : at_rest polls co2 t2) by exact A1.
  destruct (wait_runs (tmp +:+ "\sf_restart_done") polls 0 co2 t2 ltac:(lia) A2) as (k & t3 & R3 & A3).
  destruct (perform_all_runs _ _ _ _ _ _ _ A3 E2) as (t4 & R4 & A4).
  destruct (asks _ _ _ _ _ _ A4 E3) as (t5 & t6 & R5 & R6 & A6 & _).
  set (t7 := t6 <| tr_lines ::= fun l => l ++ ["coordinator status: " +:+ DriverProcess.c_str (body reply)] |>).
  destruct (shutdown_reaches co4 k t7 A6) as (t8 & R8 & Z8).
  exists (t8 <| tr_lines ::= fun l => l ++ [verdict_line n] |>).
  split; [| split; [exact Z8 | apply last_snoc]].
  unfold DriverProcess.main. cbn [zlen length Z.of_nat Z.ltb arg nth].
  eapply runs_defined; [unfold port_of; by rewrite atoi_pretty |]. cbv zeta.
  eapply runs_os; [reflexivity |]. eapply runs_bind; [apply connect_runs |].
  cbv beta iota. rewrite (proj2 (Z.ltb_ge fd 0)) by lia.
  eapply runs_bind; [exact R0 |]. eapply runs_os; [reflexivity |]. eapply runs_bind; [exact R1 |].
  apply trial_print. do 2 (eapply runs_os; [reflexivity |]). eapply runs_bind; [exact R3 |].
  eapply runs_bind; [exact R4 |]. eapply runs_bind; [exact R5 |]. eapply runs_bind; [exact R6 |].
  apply trial_print. eapply runs_bind; [exact R8 |]. eapply runs_os; [reflexivity |].
  apply trial_print. apply runs_ret.
Qed.
End Rehearsal.

(** ** The scenario *)

(** The coordinator when both workers have connected. *)
Definition staffed_coordinator : Coordinator :=
  startup_hello 6 (Ok (worker_hello "verifier" 200))
    (startup_hello 5 (Ok (worker_hello "proposer" 100)) new_coordinator).

Definition new_proposer : Message := worker_hello "proposer" 101.

(** The outcome of a rehearsal with CPU workers. *)
Abbreviation outcome polls :=
  (rehearse worker_peer worker_peer new_proposer polls staffed_coordinator).

(** The requests with the tokens they committed. *)
Definition committed_lengths (co : Coordinator) : list (Z * Z) :=
  map (fun kv => (kv.1, zlen (cr_committed kv.2))) (requests_in_order co).

Definition final_requests : list (Z * Z) := [(42, 5); (43, 3); (44, 0); (45, 2); (46, 5)].

Definition ends_with (failures : Z) (o : option (Z * Coordinator)) : bool :=
  match o with
  | Some (n, co) => (n =? failures) && bool_decide (committed_lengths co = final_requests)
  | None => false
  end.

Lemma ends_with_spec failures o : ends_with failures o = true ->
  exists co, o = Some (failures, co) /\ committed_lengths co = final_requests.
Proof.
  destruct o as [[n co] |]; [| discriminate]. unfold ends_with.
  rewrite andb_true_iff, Z.eqb_eq, bool_decide_eq_true. intros [-> E]. by exists co.
Qed.

(** Only whether the restart comes in time matters. *)
Lemma rehearse_polls proposer verifier restart k k' co :
  (Z.of_nat k <=? 300) = (Z.of_nat k' <=? 300) ->
  rehearse proposer verifier restart k co = rehearse proposer verifier restart k' co.
Proof.
  intros E. assert (A : forall co, awaited restart k 0 co = awaited restart k' 0 co)
    by (intros co'; unfold awaited; by rewrite !Z.add_0_r, E).
  unfold rehearse. cbv zeta. destruct (assess _ _ _ _ 0) as [[n1 co1] |]; [| done].
  cbn [mbind option_bind]. by rewrite A.
Qed.

Lemma outcomes : ends_with 0 (outcome 0) && ends_with 1 (outcome 301) = true.
Proof. by vm_compute. Qed.

Lemma outcome_ends polls :
  ends_with (if Z.of_nat polls <=? 300 then 0 else 1) (outcome polls) = true.
Proof.
  pose proof outcomes as T. apply andb_true_iff in T as [T0 T1].
  destruct (Z.of_nat polls <=? 300) eqn:L;
    [rewrite (rehearse_polls worker_peer worker_peer new_proposer polls 0 staffed_coordinator L) |
     rewrite (rehearse_polls worker_peer worker_peer new_proposer polls 301 staffed_coordinator L)]; assumption.
Qed.

(** C29: The driver process passes its scenario exactly when the restart comes in
    time.  Started with a host, a port number and a directory, over a working
    network, against a coordinator with CPU workers whose proposer restarts
    under another boot identity after [polls] polls of the driver, [main] ends:
    it returns 0 and prints [ALL_OK] when the restart comes within the 300
    polls it waits, and otherwise returns 1 with a single failure, the probe of
    the boot identity before a restart that has not happened.  The five
    submissions commit 5, 3, 0, 2 and 5 tokens either way, and the coordinator
    is shut down. *)
Theorem driver_passes fd name host port tmp polls :
  0 <= fd < 2147483648 -> 0 <= port < 2147483648 ->
  let failures := if Z.of_nat polls <=? 300 then 0 else 1 in
  exists co t',
    outcome polls = Some (failures, co) /\ committed_lengths co = final_requests /\
    runs (trial_answer fd worker_peer worker_peer new_proposer)
      (DriverProcess.main [name; host; pretty port; tmp])
      (mkTrial polls (Starting staffed_coordinator) [] []) failures t' /\
    tr_stage t' = Stopped /\ last (tr_lines t') = Some (verdict_line failures).
Proof.
  intros Hfd Hp failures. pose proof (outcome_ends polls) as T. fold failures in T.
  apply ends_with_spec in T as (co & O & C).
  destruct (main_runs fd worker_peer worker_peer new_proposer Hfd name host port tmp polls
    staffed_coordinator failures co Hp O) as (t' & R & Z8 & L).
  exists co, t'. split; [exact O |]. split; [exact C |]. split; [| split; [exact Z8 | exact L]].
  assert (E : (if failures =? 0 then 0 else 1) = failures)
    by (unfold failures; by destruct (Z.of_nat polls <=? 300)).
  rewrite E in R. exact R.
Qed.

Lemma driver_passes_witness :
  exists t', runs (trial_answer 3 worker_peer worker_peer new_proposer)
      (DriverProcess.main ["sf_driver"; "127.0.0.1"; pretty 9000; "C:\temp"])
      (mkTrial 15 (Starting staffed_coordinator) [] []) 0 t' /\
    last (tr_lines t') = Some (verdict_line 0).
Proof.
  destruct (driver_passes 3 "sf_driver" "127.0.0.1" 9000 "C:\temp" 15 ltac:(lia) ltac:(lia))
    as (co & t' & _ & _ & R & _ & L).
  exists t'. split; [exact R | exact L].
Defined.
